(* ===== verification/_CoqProject ===== *)
-Q . S2P
Prelude.v
MemoryAccess.v
MemoryAccessTests.v
SimpleMap.v
Slice.v
Stage2.v
Exceptions.v
HvcResponse.v
Pagetable.v
Platform.v
Qemu.v
Sysregs.v
InitialIdmap.v
World.v
Hypervisor.v
Safety.v
Entry.v
Calls.v
Aborts.v
QemuSystem.v
Prog.v
Guest.v
MultiCore.v
Str.v
EndToEnd.v
PowerDown.v
IntegrationTest.v
PsciTest.v
Concurrent.v
Returning.v
Granularity.v
Availability.v
Types.v
Smp.v
Progress.v
Asm.v
HvcDebug.v
PlatformConfig.v
BuildScript.v
TestBuild.v
Console.v
DeviceTree.v
Boot.v
