(* ===== verification/Prelude.v ===== *)
(** * A verification of RITM

    RITM (google/ritm) is a small EL2 hypervisor for AArch64.  It sits between
    the firmware and an operating system: it edits the device tree, configures
    stage-2 translation so that the system cannot reach RITM's own memory,
    starts the payload at EL1 (or hands EL2 over), and afterwards handles the
    guest's HVC and SMC calls, its PSCI power management and its accesses to
    filtered device pages.

    ** How the program is put together

    - main.rs runs once on the boot core: it sets up console, logger and two
      heaps, asks the platform for the device tree and the boot mode, and
      enters the payload at EL2 (assembly) or at EL1 ([entry_point_el1]).
    - hypervisor.rs holds [entry_point_el1], which activates the stage-2
      configuration and executes [eret], and [handle_sync_lower], the handler
      of every synchronous exception of the guest.
    - stage2.rs builds the stage-2 configuration: a page table of directly
      mapped ranges (aarch64-paging) and a sorted table of emulated ranges.
    - platform.rs is the interface of a platform, platform/qemu.rs the
      implementation for QEMU's virt machine.
    - memory_access decodes the syndrome of a trapped access, exceptions.rs
      saves and accesses the guest's registers, hvc_response.rs writes the
      results of calls, simple_map.rs is the map from cores to stacks and to
      suspend contexts.
    - build.rs and build_support read platforms/*.conf and generate the linker
      script, the platform module and the embedded payload.

    ** The files and what they model

    The paths here are relative to the directory src/ of the sources.

    - Prelude: results, panics, machine-integer operations, tactics, hints.
    - MemoryAccess: memory_access/src/lib.rs, every function;
      MemoryAccessTests: its unit tests.
    - SimpleMap: src/simple_map.rs.  A slot is an index into a list; a [&mut V]
      is the index of its slot.
    - Slice: [binary_search_by] and [partition_point] of Rust's core library.
    - Stage2: src/stage2.rs.  Interface to the page table: [PageTable] with
      [PageTableLaws].
    - Exceptions: the register frame of src/exceptions.rs.
    - HvcResponse: src/hvc_response.rs; HvcDebug: its [Debug] text.
    - Pagetable: src/pagetable.rs.
    - Platform: the trait of src/platform.rs as the class [Platform], with
      [PlatformLaws] as the promise of a platform to the hypervisor.
    - Qemu: src/platform/qemu.rs, the part that runs under the guest.  It
      provides the instance of [Platform] and discharges its laws.
    - Sysregs: the system registers and the field operations of arm-sysregs,
      class [ArmSysregs] with [ArmSysregsLaws].
    - InitialIdmap: the table of [Qemu::initial_idmap], read as the
      architecture reads it.
    - World: the statics of hypervisor.rs, the system registers of the running
      core and the trace of externally visible actions, as the record [World];
      the monad [M] of the hypervisor; the firmware, class [Firmware], and the
      PSCI decoder, class [PsciDecoder].
    - Hypervisor: src/hypervisor.rs, one definition per function.
    - Safety: every function preserves the world's invariant and its policy;
      the step relation [ritm_step] of a running system.
    - Entry, Calls, Aborts: what EL1 entry, HVC and SMC calls, and data aborts
      do, branch by branch.
    - Types: a typing judgement for the monad; machine words keep their width.
    - QemuSystem: Hypervisor and Qemu put together.
    - Guest: a machine that runs a guest on top of RITM: registers, memory,
      loads and stores that stage 2 lets through or that trap, calls, writes of
      system registers at EL1, core starts and resumes.  Stage 2 translates
      only while HCR_EL2, VTCR_EL2 and VTTBR_EL2 of the core say so
      ([stage2_on]); otherwise every address is accessible.  MultiCore: the
      same with any number of cores, interleaved by a scheduler, one exception
      at a time.
    - EndToEnd: one load or store of the guest, from the instruction over the
      syndrome, the decoder and the handler back to the register.
    - PowerDown: CPU_SUSPEND and the resume of the core, on that machine.
    - IntegrationTest: tests/integration_test/src/main.rs as a guest program on
      that machine, with its output; PsciTest: tests/psci_test/src, the program
      with its interrupt handler, which can run between any two instructions,
      over the classes [Devices] and [DeviceLaws] for GIC and timer.
    - Prog: every function of src/hypervisor.rs that touches shared state as a
      program of single accesses (a free monad), each proved to run as the
      function of Hypervisor.
    - Concurrent: the machine of MultiCore in which every core, in the guest or
      in RITM, makes one access at a time, the lock of the stage-2 table is a
      spin lock, and RITM stores to its own image while it runs; Returning: RITM comes back on that machine; Granularity: the
      steps of MultiCore are schedules of it.
    - Availability: the exact conditions under which a guest exception makes
      RITM panic.
    - Smp: suspend and resume on several cores, one step per locked operation,
      and the simulation that connects it to Hypervisor; Progress: such a
      machine never blocks.
    - Asm: the naked functions of exceptions.rs, hypervisor.rs, arch.rs and
      main.rs, instruction by instruction.
    - Str: the string operations of Rust that the build code and the
      device-tree code use, on lists of code points.
    - PlatformConfig: build_support/platform_config.rs.
    - BuildScript: build.rs over a record of environment and file system, with
      the log of what it prints and writes; TestBuild: the build scripts and the
      layout file of the two test programs, over the same record.
    - Console: src/console.rs and src/logger.rs with the level filter of the log
      crate, and rules for computations that print.
    - DeviceTree: the part of src/platform/qemu.rs that reads and edits the
      device tree, with its warnings; Boot: src/main.rs and the creation of the
      platform, in the monad of Console.

    ** What the theorems show

    - Isolation.  The builder implements exactly the policy of the calls made
      on it ([stage2_policy_exact]); QEMU's calls succeed and give a policy
      written out address by address ([qemu_policy_exact]); no history of guest
      execution, exceptions, core starts and resumes changes it
      ([history_evolves], [qemu_reachable_policy]); an access to RITM's image
      ends in a data abort of the guest ([qemu_image_access_faults]).  For
      whole runs on any number of cores, with their accesses interleaved in any
      way, from the first EL1 entry on: RITM's private memory holds what RITM
      itself stored there ([concurrent_integrity]), nothing the guest ever
      observes depends on it ([concurrent_noninterference]), and a core executes
      guest code only with stage 2 switched on, its own registers at the table
      of the static, and the policy in place ([concurrent_guest_confined]).  [multicore_integrity] and
      [multicore_noninterference] say the same of the coarser machine, of which
      every step is a schedule of the finer one ([handlers_are_schedules]).
    - Termination.  RITM never deadlocks on the lock of the stage-2 table and
      each visit of a core ends after at most 26 steps ([ritm_terminates]); the
      test's wait for an interrupt ends, whenever the interrupt comes
      ([wait_for_irq_terminates]).
    - End to end.  A load or store of any width and extension that stage 2 does
      not map behaves as an access to the emulated device, or aborts in the
      guest ([guest_access_exact]); the repository's integration test and PSCI
      test run through, print exactly their messages and power off
      ([integration_tests_pass], [psci_test_passes]).
    - Entry.  [entry_point_el1] reaches [eret] with stage 2 enabled, every
      register it owns set and nothing else changed ([entry_point_el1_exact]);
      from a usable device tree [main] does so with the right payload and tree
      and prints exactly its log ([boot_reaches_payload]); from any other it
      does so too, or reports a panic on the UART and powers off
      ([boot_payload_or_report]); no register leaks ([eret_to_el1_no_leak]);
      the first page table is the identity map ([initial_idmap_identity]); the
      edited device tree hides exactly the image ([memory_nodes_exact]), and is
      itself readable for the guest ([boot_dtb_accessible]).
    - Types and bounds.  Every register, saved context and firmware argument
      stays in its width ([machine_types_preserved]); the policy lies in the
      input range of the translation regime ([qemu_policy_in_ipa_range]).
    - Traps.  [data_abort_exact], [platform_call_exact], [psci_forward_exact],
      [cpu_on_exact], [cpu_suspend_exact]: the complete effect of each kind of
      exception on the guest's registers, the statics and the firmware, with
      all error branches; [handler_panics_iff] lists the causes of a panic.
    - Power management on several cores.  [smp_suspend_safe] and the simulation
      [suspend_resume_simulated]; [powerdown_resume_roundtrip]: a powered-down
      core comes back where the guest asked; [smp_valid_guest_progress]: with a
      guest that names existing cores, every infinite run that is fair to a core
      brings it back to the guest in at most three steps of its own.
    - Data structures and codecs.  The map refines a bounded finite map, the
      binary search is exact, the decoder inverts the syndrome's encoding, the
      configuration parser accepts exactly a grammar written beside it
      ([parse_platform_config_exact]) and inverts a printer, the build script
      succeeds exactly on the inputs written out in [build_inputs] and writes
      files that read back as [build_outputs] says ([build_main_exact]), and
      the files of the tests read back with the addresses in the files of the
      hypervisor ([builds_agree]).
    - Limits.  Four theorems state where the code falls short of what it means
      to do: [cpu_on_exhausts_stacks], [shared_heap_rounding_exposes_image],
      [advertised_memory_mapped], [failed_log_never_powers_off].

    ** Conventions

    A w-bit integer is a [Z] in range; the code is built with overflow checks,
    so an overflowing addition is a panic, and wrapping operations are written
    with [mod].  A panic is the constructor [Panic] of [outcome], or [Panics] of
    the monad of World, with its message.  Loops are structural, except for the
    binary search, defined by well-founded recursion, and the printing of
    digits, which has fuel 64: a 64-bit number has at most 20 decimal and 16
    hexadecimal digits, and the round trips are proved for every such number.
    The loop of [wait_for_irq] has fuel, and its theorem says how much is
    enough.  Programs of Prog are finite trees.  Instruction sequences are
    straight-line lists and need no fuel.

    External crates are classes: their operations are parameters and their
    documented behaviour is in the class of laws beside them.  Each class has
    an instance in the development, and each theorem with hypotheses is applied
    to such instances in a witness that follows it.

    ** What is not modelled

    The UART driver; the text of [debug!] records, which the level that [main]
    sets drops ([debug_records_dropped]); the linker script image.ld; the
    internals of dtoolkit, of the buddy allocator, of aarch64-paging and of the
    vectors of aarch64-rt; device accesses to memory (DMA).  Interrupts go to
    EL1 without RITM; PsciTest takes them between any two instructions at which
    its program has them unmasked.  The statics of RITM are the record [World];
    that their bytes change as RITM runs is the parameter [own_stores] of
    Concurrent, not a layout of the image.  Memory is sequentially consistent: barriers and
    TLB maintenance are events whose order is proved, not a weak memory model.
    In [ritm_step] and MultiCore an exception is handled atomically; Concurrent
    drops that, and there each access under the locks of the suspend contexts
    and of the stack table is one step, because the code holds those locks for
    that one access only.  What a suspended core does between its call and its
    resume is in Smp.

    ** Plan

    Next: the states of a suspended core of Smp as modes of the machine of
    Concurrent; secondary cores started by CPU_ON as events that the machine
    schedules from the trace of the firmware's calls. *)

From Stdlib Require Import ZArith Znumtheory Lia.
From stdpp Require Import base tactics list sorting strings numbers.

#[local] Open Scope Z_scope.

(** ** Scopes and machine-integer types

    A [w]-bit Rust integer is a [Z]; the wrap-around of the operations the
    code uses is written out below.  The names are parsing notations, so that
    [lia] sees plain integers. *)

Declare Scope rust_scope.
Delimit Scope rust_scope with rust.

Abbreviation u8 := Z (only parsing).
Abbreviation u32 := Z (only parsing).
Abbreviation u64 := Z (only parsing).
Abbreviation usize := Z (only parsing).
Abbreviation i32 := Z (only parsing).
Abbreviation i64 := Z (only parsing).

(** ** Results, panics and their sequencing *)

(** Rust's [Result<A, E>]. *)
Inductive result (E A : Type) : Type :=
| Ok (a : A)
| Err (e : E).
Arguments Ok {E A} _.
Arguments Err {E A} _.

(** A computation that returns or panics (the repository builds with the
    debug profile, so an arithmetic overflow is a panic as well). *)
Inductive outcome (A : Type) : Type :=
| Ret (a : A)
| Panic (msg : string).
Arguments Ret {A} _.
Arguments Panic {A} _.

Definition bindO {A B} (m : outcome A) (k : A -> outcome B) : outcome B :=
  match m with
  | Ret a => k a
  | Panic msg => Panic msg
  end.

(** [bindR m k]: the [?] operator on a [Result] inside a function that may
    panic. *)
Definition bindR {E A B} (m : outcome (result E A))
    (k : A -> outcome (result E B)) : outcome (result E B) :=
  match m with
  | Ret (Ok a) => k a
  | Ret (Err e) => Ret (Err e)
  | Panic msg => Panic msg
  end.

(** [?] on a [Result] in a function that cannot panic. *)
Definition bindE {E A B} (m : result E A) (k : A -> result E B) : result E B :=
  match m with
  | Ok a => k a
  | Err e => Err e
  end.

(** [?] after a [&mut self] method: such a method is modelled by the state it
    leaves behind beside its [Result]. *)
Definition bindS {S E A B} (m : outcome (S * result E A))
    (k : S -> outcome (S * result E B)) : outcome (S * result E B) :=
  match m with
  | Ret (s, Ok _) => k s
  | Ret (s, Err e) => Ret (s, Err e)
  | Panic msg => Panic msg
  end.

(** [Option::ok_or]. *)
Definition ok_or {E A} (o : option A) (e : E) : result E A :=
  match o with
  | Some a => Ok a
  | None => Err e
  end.

Definition expect {E A} (r : result E A) (msg : string) : outcome A :=
  match r with
  | Ok a => Ret a
  | Err _ => Panic msg
  end.

Definition expect_some {A} (o : option A) (msg : string) : outcome A :=
  match o with
  | Some a => Ret a
  | None => Panic msg
  end.

Notation "'let!' x := m 'in' k" := (bindO m (fun x => k))
  (at level 10, x pattern, k at level 200) : rust_scope.
Notation "'let!?' x := m 'in' k" := (bindR m (fun x => k))
  (at level 10, x pattern, k at level 200) : rust_scope.
Notation "'let*?' s := m 'in' k" := (bindS m (fun s => k))
  (at level 10, s pattern, k at level 200) : rust_scope.
Notation "'let?' x := m 'in' k" := (bindE m (fun x => k))
  (at level 10, x pattern, k at level 200) : rust_scope.

#[export] Instance result_eq_dec {E A} `{EqDecision E, EqDecision A} :
  EqDecision (result E A).
Proof. solve_decision. Defined.
#[export] Instance outcome_eq_dec {A} `{EqDecision A} : EqDecision (outcome A).
Proof. solve_decision. Defined.

(** ** Widths and overflow *)

Definition U8_MAX : Z := 0xff.
Definition U16_MAX : Z := 0xffff.
Definition U32_MAX : Z := 0xffff_ffff.
Definition U64_MAX : Z := 0xffff_ffff_ffff_ffff.

(** [x] is a value of the [w]-bit unsigned type. *)
Definition in_range (w x : Z) : Prop := 0 <= x < 2 ^ w.
Abbreviation is_u8 := (in_range 8).
Abbreviation is_u32 := (in_range 32).
Abbreviation is_u64 := (in_range 64).

#[export] Instance in_range_dec w x : Decision (in_range w x).
Proof. unfold in_range. apply _. Defined.

(** [u64::checked_add]. *)
Definition checked_add (a b : u64) : option u64 :=
  if a + b <=? U64_MAX then Some (a + b) else None.

(** [a + b] and [a - b] on [u64] and [usize] with overflow checks. *)
Definition add64 (a b : u64) : outcome u64 :=
  if a + b <=? U64_MAX then Ret (a + b)
  else Panic "attempt to add with overflow".
Definition sub64 (a b : u64) : outcome u64 :=
  if b <=? a then Ret (a - b)
  else Panic "attempt to subtract with overflow".

(** [x << s] on [u64], for a shift amount below 64. *)
Definition shl64 (x s : Z) : u64 := Z.shiftl x s mod 2 ^ 64.

(** [u64::cast_signed], [i64::cast_unsigned], [i64 >> s]. *)
Definition cast_signed (x : u64) : i64 := if x <? 2 ^ 63 then x else x - 2 ^ 64.
Definition cast_unsigned (x : i64) : u64 := x mod 2 ^ 64.
Definition sar64 (x : i64) (s : Z) : i64 := Z.shiftr x s.

(** [{integer}::is_multiple_of]. *)
Definition is_multiple_of (a b : Z) : bool :=
  if b =? 0 then a =? 0 else a mod b =? 0.

(** [usize::next_multiple_of]: panics when the divisor is zero or the result
    does not fit. *)
Definition next_multiple_of (a b : Z) : outcome Z :=
  if b =? 0 then Panic "attempt to calculate the remainder with a divisor of zero"
  else if a mod b =? 0 then Ret a else add64 a (b - a mod b).

(** ** Generic lemmas *)

Lemma bindO_Ret {A B} (m : outcome A) (k : A -> outcome B) b :
  bindO m k = Ret b <-> exists a, m = Ret a /\ k a = Ret b.
Proof. destruct m; simpl; naive_solver. Qed.

Lemma bindR_Ok {E A B} (m : outcome (result E A)) (k : A -> outcome (result E B)) b :
  bindR m k = Ret (Ok b) <-> exists a, m = Ret (Ok a) /\ k a = Ret (Ok b).
Proof. destruct m as [[]|]; simpl; naive_solver. Qed.

Lemma bindE_Ok {E A B} (m : result E A) (k : A -> result E B) b :
  bindE m k = Ok b <-> exists a, m = Ok a /\ k a = Ok b.
Proof. destruct m; simpl; naive_solver. Qed.

Lemma expect_some_Ret {A} (o : option A) msg a : expect_some o msg = Ret a <-> o = Some a.
Proof. destruct o; simpl; naive_solver. Qed.

Lemma add64_Ret a b c : add64 a b = Ret c <-> a + b <= U64_MAX /\ c = a + b.
Proof. unfold add64. destruct (Z.leb_spec (a + b) U64_MAX); naive_solver lia. Qed.

Lemma sub64_Ret a b c : sub64 a b = Ret c <-> b <= a /\ c = a - b.
Proof. unfold sub64. destruct (Z.leb_spec b a); naive_solver lia. Qed.

Lemma add64_ok a b : a + b <= U64_MAX -> add64 a b = Ret (a + b).
Proof. intros. by apply add64_Ret. Qed.

Lemma sub64_ok a b : b <= a -> sub64 a b = Ret (a - b).
Proof. intros. by apply sub64_Ret. Qed.

Lemma bindS_ret {S E} (m : outcome (S * result E unit)) :
  bindS m (fun s => Ret (s, Ok tt)) = m.
Proof. by destruct m as [[s [[]|e]]|]. Qed.

Lemma checked_add_Some a b c :
  checked_add a b = Some c <-> a + b <= U64_MAX /\ c = a + b.
Proof. unfold checked_add. destruct (Z.leb_spec (a + b) U64_MAX); naive_solver lia. Qed.

Lemma is_multiple_of_spec a b : b <> 0 -> is_multiple_of a b = true <-> (b | a).
Proof.
  intros Hb. unfold is_multiple_of. destruct (Z.eqb_spec b 0); [done|].
  rewrite Z.eqb_eq. by apply Z.mod_divide.
Qed.

(** A single-bit mask test is [Z.testbit]. *)
Lemma land_bit_nonzero x n :
  0 <= n -> negb (Z.land x (Z.shiftl 1 n) =? 0) = Z.testbit x n.
Proof.
  intros Hn. rewrite Z.shiftl_1_l.
  destruct (Z.testbit x n) eqn:Hb.
  - apply negb_true_iff, Z.eqb_neq. intros H0.
    assert (Ht : Z.testbit (Z.land x (2 ^ n)) n = true).
    { by rewrite Z.land_spec, Hb, Z.pow2_bits_true. }
    by rewrite H0, Z.bits_0 in Ht.
  - apply negb_false_iff, Z.eqb_eq, Z.bits_inj'. intros i Hi.
    rewrite Z.land_spec, Z.bits_0. destruct (Z.eq_dec i n) as [->|Hne].
    + by rewrite Hb.
    + rewrite (Z.pow2_bits_false n i) by lia. apply andb_false_r.
Qed.

(** A bit field extracted with shift and mask, arithmetically. *)
Lemma shiftr_land_ones x s n :
  0 <= s -> 0 <= n -> Z.land (Z.shiftr x s) (Z.ones n) = (x / 2 ^ s) mod 2 ^ n.
Proof. intros. by rewrite Z.land_ones, Z.shiftr_div_pow2. Qed.

Lemma mod_pow2_range x n : 0 <= n -> 0 <= x mod 2 ^ n < 2 ^ n.
Proof. intros. apply Z.mod_pos_bound. lia. Qed.

Lemma mod_pow2_mod x m n : 0 <= m <= n -> (x mod 2 ^ n) mod 2 ^ m = x mod 2 ^ m.
Proof.
  intros. symmetry. apply Znumtheory.Zmod_div_mod; [lia..|].
  exists (2 ^ (n - m)). rewrite <- Z.pow_add_r by lia. f_equal. lia.
Qed.

(** Disjoint bit fields: [lor] is addition. *)
Lemma lor_add_disjoint a b s :
  0 <= s -> 0 <= b < 2 ^ s -> Z.lor (Z.shiftl a s) b = a * 2 ^ s + b.
Proof.
  intros Hs Hb. rewrite <- Z.shiftl_mul_pow2 by lia.
  rewrite <- (Z.add_lor_land (Z.shiftl a s) b).
  assert (Z.land (Z.shiftl a s) b = 0) as ->; [|lia].
  apply Z.bits_inj'. intros i Hi. rewrite Z.land_spec, Z.bits_0.
  destruct (decide (i < s)).
  - by rewrite Z.shiftl_spec_low.
  - rewrite <- (Z.mod_small b (2 ^ s)), Z.mod_pow2_bits_high by lia.
    apply andb_false_r.
Qed.

(** ** Lists *)

Lemma sorted_lookup {A} (R : A -> A -> Prop) (l : list A) i j x y :
  StronglySorted R l -> (i < j)%nat -> l !! i = Some x -> l !! j = Some y -> R x y.
Proof.
  intros Hs. revert i j. induction Hs as [|a l _ IH Ha]; intros i j Hij Hx Hy; [done|].
  destruct j as [|j]; [lia|]. simpl in Hy. destruct i as [|i]; simpl in Hx.
  - injection Hx as <-. eapply Forall_lookup_1; eauto.
  - apply (IH i j); [lia|done..].
Qed.

Lemma elem_of_take_index {A} (l : list A) n x :
  x ∈ take n l -> exists i, (i < n)%nat /\ l !! i = Some x.
Proof.
  intros [i Hi]%list_elem_of_lookup. apply lookup_take_Some in Hi as [Hi Hn]. by exists i.
Qed.

Lemma elem_of_drop_index {A} (l : list A) n x :
  x ∈ drop n l -> exists i, (n <= i)%nat /\ l !! i = Some x.
Proof.
  intros [i Hi]%list_elem_of_lookup. rewrite lookup_drop in Hi. exists (n + i)%nat.
  split; [lia|done].
Qed.

Lemma existsb_true {A} (p : A -> bool) l :
  existsb p l = true <-> exists x, x ∈ l /\ p x = true.
Proof. rewrite existsb_exists. by setoid_rewrite list_elem_of_In. Qed.

Lemma existsb_false {A} (p : A -> bool) l :
  existsb p l = false <-> forall x, x ∈ l -> p x = false.
Proof.
  rewrite <- not_true_iff_false, existsb_true. split.
  - intros Hn x Hx. destruct (p x) eqn:E; [|done]. destruct Hn. eauto.
  - intros H (x & Hx & Hp). rewrite H in Hp; done.
Qed.
