(* ===== verification/MemoryAccess.v ===== *)
(** * Decoding of trapped guest memory accesses

    Model of the crate [memory_access] (src/memory_access/src/lib.rs): the decoder
    of the Data Abort syndrome (ESR_EL2.ISS), the fault address composed of
    HPFAR_EL2 and FAR_EL2, and the extension of an emulated read result to the
    target register.  [unreachable!] and a panicking [read_register] closure
    are [Panic] outcomes. *)

From Stdlib Require Import ZArith Lia.
From stdpp Require Import base tactics list strings numbers.
From S2P Require Import Prelude.

#[local] Open Scope Z_scope.
#[local] Open Scope rust_scope.

(** ** Data *)

(** [enum MemoryAccessWidth]. *)
Inductive MemoryAccessWidth : Type := U8 | U16 | U32 | U64.

#[export] Instance MemoryAccessWidth_eq_dec : EqDecision MemoryAccessWidth.
Proof. solve_decision. Defined.

(** [MemoryAccessWidth::bits]. *)
Definition bits (w : MemoryAccessWidth) : u32 :=
  match w with U8 => 8 | U16 => 16 | U32 => 32 | U64 => 64 end.

(** [MemoryAccessWidth::mask]. *)
Definition mask (w : MemoryAccessWidth) : u64 :=
  match w with U8 => U8_MAX | U16 => U16_MAX | U32 => U32_MAX | U64 => U64_MAX end.

(** [enum DecodedMemoryAccessKind]. *)
Inductive DecodedMemoryAccessKind : Type :=
| Read
| Write (value : u64).

#[export] Instance DecodedMemoryAccessKind_eq_dec : EqDecision DecodedMemoryAccessKind.
Proof. solve_decision. Defined.

(** [struct DecodedMemoryAccess]. *)
Record DecodedMemoryAccess : Type := mkDecodedMemoryAccess {
  dma_ipa : u64;
  dma_width : MemoryAccessWidth;
  dma_kind : DecodedMemoryAccessKind;
  dma_register_index : usize;
  dma_sign_extend : bool;
  dma_register_width_64 : bool;
}.

#[export] Instance DecodedMemoryAccess_eq_dec : EqDecision DecodedMemoryAccess.
Proof. solve_decision. Defined.

(** ** Syndrome fields *)

Definition DATA_ABORT_ISS_ISV : u32 := Z.shiftl 1 24.
Definition DATA_ABORT_ISS_SAS_SHIFT : u32 := 22.
Definition DATA_ABORT_ISS_SAS_MASK : u32 := 3.
Definition DATA_ABORT_ISS_SSE : u32 := Z.shiftl 1 21.
Definition DATA_ABORT_ISS_SRT_SHIFT : u32 := 16.
Definition DATA_ABORT_ISS_SRT_MASK : u32 := 31.
Definition DATA_ABORT_ISS_SF : u32 := Z.shiftl 1 15.
Definition DATA_ABORT_ISS_WNR : u32 := Z.shiftl 1 6.
Definition FAULT_IPA_PAGE_SHIFT : u64 := 12.
Definition FAULT_IPA_PAGE_OFFSET_MASK : u64 := Z.shiftl 1 FAULT_IPA_PAGE_SHIFT - 1.

Definition decode_valid_instruction_syndrome (iss : u32) : bool :=
  negb (Z.land iss DATA_ABORT_ISS_ISV =? 0).

Definition decode_memory_access_width (iss : u32) : outcome MemoryAccessWidth :=
  match Z.land (Z.shiftr iss DATA_ABORT_ISS_SAS_SHIFT) DATA_ABORT_ISS_SAS_MASK with
  | 0 => Ret U8
  | 1 => Ret U16
  | 2 => Ret U32
  | 3 => Ret U64
  | _ => Panic "internal error: entered unreachable code"
  end.

Definition decode_memory_access_register_index (iss : u32) : usize :=
  Z.land (Z.shiftr iss DATA_ABORT_ISS_SRT_SHIFT) DATA_ABORT_ISS_SRT_MASK.

Definition decode_memory_access_is_write (iss : u32) : bool :=
  negb (Z.land iss DATA_ABORT_ISS_WNR =? 0).

Definition decode_memory_access_sign_extend (iss : u32) : bool :=
  negb (Z.land iss DATA_ABORT_ISS_SSE =? 0).

Definition decode_memory_access_register_width_64 (iss : u32) : bool :=
  negb (Z.land iss DATA_ABORT_ISS_SF =? 0).

Definition decode_fault_ipa (hpfar_fipa far_va : u64) : u64 :=
  Z.lor (shl64 hpfar_fipa FAULT_IPA_PAGE_SHIFT)
        (Z.land far_va FAULT_IPA_PAGE_OFFSET_MASK).

(** [read_register] is the caller's closure; it is consulted for writes only,
    and it may panic. *)
Definition decode_memory_access_kind (iss : u32) (register_index : usize)
    (width : MemoryAccessWidth) (read_register : usize -> outcome (option u64)) :
    outcome (option DecodedMemoryAccessKind) :=
  if decode_memory_access_is_write iss then
    let! r := read_register register_index in
    match r with
    | None => Ret None
    | Some v => Ret (Some (Write (Z.land v (mask width))))
    end
  else Ret (Some Read).

Definition decode_memory_access (iss : u32) (hpfar_fipa far_va : u64)
    (read_register : usize -> outcome (option u64)) :
    outcome (option DecodedMemoryAccess) :=
  if negb (decode_valid_instruction_syndrome iss) then Ret None else
  let! width := decode_memory_access_width iss in
  let register_index := decode_memory_access_register_index iss in
  let! kind := decode_memory_access_kind iss register_index width read_register in
  match kind with
  | None => Ret None
  | Some kind =>
      Ret (Some {| dma_ipa := decode_fault_ipa hpfar_fipa far_va;
                   dma_width := width;
                   dma_kind := kind;
                   dma_register_index := register_index;
                   dma_sign_extend := decode_memory_access_sign_extend iss;
                   dma_register_width_64 := decode_memory_access_register_width_64 iss |})
  end.

(** [extend_read_result]. *)
Definition extend_read_result (value : u64) (width : MemoryAccessWidth)
    (sign_extend register_width_64 : bool) : u64 :=
  if sign_extend && negb (bool_decide (width = U64)) then
    let shift := 64 - bits width in
    let extended := sar64 (cast_signed (shl64 (Z.land value (mask width)) shift)) shift in
    if register_width_64 then cast_unsigned extended
    else Z.land (cast_unsigned extended) U32_MAX
  else if register_width_64 then Z.land value (mask width)
  else Z.land (Z.land value (mask width)) U32_MAX.

(** The syndrome builder of the crate's own tests ([tests::iss]); it is the
    encoder the decoder is inverse to. *)
Definition iss_of (width : MemoryAccessWidth) (register_index flags : u32) : u32 :=
  let sas := match width with U8 => 0 | U16 => 1 | U32 => 2 | U64 => 3 end in
  Z.lor (Z.lor (Z.lor DATA_ABORT_ISS_ISV (Z.shiftl sas DATA_ABORT_ISS_SAS_SHIFT))
               (Z.shiftl (Z.land register_index DATA_ABORT_ISS_SRT_MASK)
                         DATA_ABORT_ISS_SRT_SHIFT))
        flags.

(** ** Reference definitions *)

(** The signed value of the low [n] bits of [x]. *)
Definition signed_bits (n x : Z) : Z :=
  let v := x mod 2 ^ n in if v <? 2 ^ (n - 1) then v else v - 2 ^ n.

(** The access width the architecture assigns to a value of ISS.SAS. *)
Definition sas_bits (sas : Z) : Z := 8 * 2 ^ sas.

(** What a syndrome means, by the bit numbers of ESR_EL2.ISS. *)
Definition decodes_to (iss : u32) (fipa far : u64) (reg : option u64)
    (d : DecodedMemoryAccess) : Prop :=
  Z.testbit iss 24 = true /\
  dma_ipa d = (fipa * 4096) mod 2 ^ 64 + far mod 4096 /\
  bits (dma_width d) = sas_bits ((iss / 2 ^ 22) mod 4) /\
  dma_register_index d = (iss / 2 ^ 16) mod 32 /\
  dma_sign_extend d = Z.testbit iss 21 /\
  dma_register_width_64 d = Z.testbit iss 15 /\
  match dma_kind d with
  | Read => Z.testbit iss 6 = false
  | Write v => Z.testbit iss 6 = true /\
      exists r, reg = Some r /\ v = r mod 2 ^ bits (dma_width d)
  end.

(** ** Lemmas *)

Lemma bits_inj w1 w2 : bits w1 = bits w2 -> w1 = w2.
Proof. by destruct w1, w2. Qed.

Lemma mask_ones w : mask w = Z.ones (bits w).
Proof. by destruct w. Qed.

Lemma bits_range w : 8 <= bits w <= 64.
Proof. destruct w; simpl; lia. Qed.

Lemma land_mask v w : Z.land v (mask w) = v mod 2 ^ bits w.
Proof. rewrite mask_ones. apply Z.land_ones. pose proof (bits_range w). lia. Qed.

Lemma land_u32_max v : Z.land v U32_MAX = v mod 2 ^ 32.
Proof. apply (Z.land_ones v 32). lia. Qed.

Lemma decode_flag_spec iss :
  decode_valid_instruction_syndrome iss = Z.testbit iss 24 /\
  decode_memory_access_is_write iss = Z.testbit iss 6 /\
  decode_memory_access_sign_extend iss = Z.testbit iss 21 /\
  decode_memory_access_register_width_64 iss = Z.testbit iss 15.
Proof. repeat split; apply land_bit_nonzero; lia. Qed.

Lemma decode_register_index_spec iss :
  decode_memory_access_register_index iss = (iss / 2 ^ 16) mod 32.
Proof. apply (shiftr_land_ones iss 16 5); lia. Qed.

(** The four values of the two-bit field are the four arms of the match. *)
Lemma decode_width_Ret iss :
  exists w, decode_memory_access_width iss = Ret w /\
            bits w = sas_bits ((iss / 2 ^ 22) mod 4).
Proof.
  unfold decode_memory_access_width.
  replace (Z.land _ _) with ((iss / 2 ^ 22) mod 2 ^ 2)
    by (symmetry; apply (shiftr_land_ones iss 22 2); lia).
  pose proof (mod_pow2_range (iss / 2 ^ 22) 2 ltac:(lia)) as Hr.
  change 4 with (2 ^ 2). set (x := (iss / 2 ^ 22) mod 2 ^ 2) in *.
  assert (x = 0 \/ x = 1 \/ x = 2 \/ x = 3) as [-> | [-> | [-> | ->]]] by lia;
    eexists; split; reflexivity.
Qed.

Lemma decode_fault_ipa_spec fipa far :
  decode_fault_ipa fipa far = (fipa * 4096) mod 2 ^ 64 + far mod 4096.
Proof.
  unfold decode_fault_ipa, shl64, FAULT_IPA_PAGE_OFFSET_MASK, FAULT_IPA_PAGE_SHIFT.
  change (Z.shiftl 1 12 - 1) with (Z.ones 12). rewrite Z.land_ones by lia.
  assert (Hs : Z.shiftl fipa 12 mod 2 ^ 64 = Z.shiftl (fipa mod 2 ^ 52) 12).
  { rewrite !Z.shiftl_mul_pow2 by lia. change (2 ^ 64) with (2 ^ 52 * 2 ^ 12).
    by rewrite Zmult_mod_distr_r. }
  rewrite Hs, lor_add_disjoint by (try apply mod_pow2_range; lia).
  f_equal. rewrite <- Z.shiftl_mul_pow2, <- Hs, Z.shiftl_mul_pow2 by lia. done.
Qed.

(** Shifting a [b]-bit field to the top of the register and back with an
    arithmetic shift is sign extension. *)
Lemma shl_sar_sign_extend x w :
  sar64 (cast_signed (shl64 (x mod 2 ^ bits w) (64 - bits w))) (64 - bits w) =
  signed_bits (bits w) x.
Proof.
  unfold sar64, cast_signed, shl64, signed_bits. pose proof (bits_range w) as Hb.
  set (b := bits w) in *. set (v := x mod 2 ^ b).
  assert (Hv : 0 <= v < 2 ^ b) by (apply mod_pow2_range; lia).
  assert (Hp : 2 ^ 64 = 2 ^ b * 2 ^ (64 - b))
    by (rewrite <- Z.pow_add_r by lia; f_equal; lia).
  assert (Hq : 2 ^ 63 = 2 ^ (b - 1) * 2 ^ (64 - b))
    by (rewrite <- Z.pow_add_r by lia; f_equal; lia).
  assert (0 < 2 ^ (64 - b)) by (apply Z.pow_pos_nonneg; lia).
  rewrite Z.shiftl_mul_pow2, (Z.mod_small (v * _)) by nia.
  rewrite Hp, Hq, Z.shiftr_div_pow2 by lia.
  destruct (Z.ltb_spec v (2 ^ (b - 1))), (Z.ltb_spec (v * 2 ^ (64 - b)) (2 ^ (b - 1) * 2 ^ (64 - b)));
    try nia.
  - rewrite Z.div_mul; lia.
  - rewrite <- Z.mul_sub_distr_r, Z.div_mul; lia.
Qed.

(** The decoder, case by case. *)
Lemma decode_memory_access_cases iss fipa far (reg : usize -> option u64) :
  match decode_memory_access iss fipa far (fun i => Ret (reg i)) with
  | Ret (Some d) => decodes_to iss fipa far (reg ((iss / 2 ^ 16) mod 32)) d
  | Ret None => Z.testbit iss 24 = false \/
      Z.testbit iss 6 = true /\ reg ((iss / 2 ^ 16) mod 32) = None
  | Panic _ => False
  end.
Proof.
  unfold decode_memory_access, decode_memory_access_kind, decodes_to.
  destruct (decode_flag_spec iss) as (-> & -> & -> & ->).
  destruct (decode_width_Ret iss) as (w & -> & Hw).
  rewrite !decode_register_index_spec, decode_fault_ipa_spec.
  destruct (Z.testbit iss 24) eqn:H24; cbn [negb bindO]; [|by left].
  destruct (Z.testbit iss 6) eqn:H6; cbn [bindO]; [|by split_and!].
  destruct (reg _) as [r|] eqn:Hr; cbn [bindO]; [|by right].
  split_and!; try done. split; [done|]. exists r. by rewrite land_mask.
Qed.

Lemma decode_memory_access_index iss fipa far reg d :
  decode_memory_access iss fipa far (fun i => Ret (reg i)) = Ret (Some d) ->
  0 <= dma_register_index d <= 31.
Proof.
  intros Hd. pose proof (decode_memory_access_cases iss fipa far reg) as H. rewrite Hd in H.
  destruct H as (_ & _ & _ & -> & _). pose proof (Z.mod_pos_bound (iss / 2 ^ 16) 32). lia.
Qed.

(** The decoder on the syndromes the builder makes: the register closure is
    called for writes, with the encoded register. *)
Definition access_iss (w : MemoryAccessWidth) (r : u32) (sse sf wnr : bool) : u32 :=
  iss_of w r (Z.lor (Z.lor (if sse then DATA_ABORT_ISS_SSE else 0)
                           (if sf then DATA_ABORT_ISS_SF else 0))
                    (if wnr then DATA_ABORT_ISS_WNR else 0)).

Lemma register_cases (r : Z) : 0 <= r < 32 -> In r (map Z.of_nat (seq 0 32)).
Proof. intros Hr. apply in_map_iff. exists (Z.to_nat r). split; [lia|]. apply in_seq. lia. Qed.

Lemma access_iss_fields w r (sse sf wnr : bool) :
  0 <= r < 32 ->
  let iss := access_iss w r sse sf wnr in
  decode_valid_instruction_syndrome iss = true /\ decode_memory_access_width iss = Ret w /\
  decode_memory_access_register_index iss = r /\ decode_memory_access_is_write iss = wnr /\
  decode_memory_access_sign_extend iss = sse /\ decode_memory_access_register_width_64 iss = sf /\
  0 <= iss < 2 ^ 25.
Proof.
  intros Hr. pose proof (register_cases r Hr) as Hin. simpl in Hin.
  repeat destruct Hin as [<- | Hin]; try done; destruct w, sse, sf, wnr; by vm_compute.
Qed.

Lemma decode_iss_of w r (sse sf wnr : bool) fipa far f v :
  0 <= r < 32 -> f r = Ret (Some v) ->
  decode_memory_access (access_iss w r sse sf wnr) fipa far f =
  Ret (Some {| dma_ipa := decode_fault_ipa fipa far; dma_width := w;
               dma_kind := if wnr then Write (v mod 2 ^ bits w) else Read;
               dma_register_index := r; dma_sign_extend := sse;
               dma_register_width_64 := sf |}).
Proof.
  intros Hr Hf. rewrite <- land_mask.
  destruct (access_iss_fields w r sse sf wnr Hr) as (H1 & H2 & H3 & H4 & H5 & H6 & _).
  unfold decode_memory_access, decode_memory_access_kind. rewrite H1, H2. cbn [negb bindO].
  rewrite H3, H4, H5, H6. destruct wnr; cbn [bindO]; [by rewrite Hf|done].
Qed.

(** ** Properties *)

(** C27: the decoder is total on every syndrome (the [unreachable!] arm is
    never taken), returns [None] exactly when ISV is clear or a write's source
    register is unavailable, and otherwise returns the access the bit fields
    of ESR_EL2.ISS describe, with the write value masked to the access
    width. *)
Theorem decode_memory_access_spec iss fipa far (reg : usize -> option u64) :
  match decode_memory_access iss fipa far (fun i => Ret (reg i)) with
  | Ret (Some d) => decodes_to iss fipa far (reg ((iss / 2 ^ 16) mod 32)) d
  | Ret None => Z.testbit iss 24 = false \/
      Z.testbit iss 6 = true /\ reg ((iss / 2 ^ 16) mod 32) = None
  | Panic _ => False
  end.
Proof. apply decode_memory_access_cases. Qed.

(** Decoding a read never consults the guest register file: the result
    does not depend on the [read_register] closure, not even on whether it
    panics. *)
Theorem decode_read_ignores_registers iss fipa far f g :
  Z.testbit iss 6 = false ->
  decode_memory_access iss fipa far f = decode_memory_access iss fipa far g.
Proof.
  intros H6. unfold decode_memory_access, decode_memory_access_kind.
  destruct (decode_flag_spec iss) as (_ & -> & _). by rewrite H6.
Qed.

Lemma decode_read_ignores_registers_witness :
  decode_memory_access (iss_of U32 9 0) 0x12345 0xabc
    (fun _ => Panic "read access should not read a saved register") =
  decode_memory_access (iss_of U32 9 0) 0x12345 0xabc (fun _ => Ret None).
Proof. apply decode_read_ignores_registers. reflexivity. Defined.

(** Decoding inverts the syndrome builder: a syndrome built from a width,
    a register number and the SSE/SF/WnR flags decodes to those fields. *)
Theorem decode_iss_roundtrip w r (sse sf wnr : bool) fipa far v :
  0 <= r < 32 ->
  decode_memory_access
    (iss_of w r (Z.lor (Z.lor (if sse then DATA_ABORT_ISS_SSE else 0)
                              (if sf then DATA_ABORT_ISS_SF else 0))
                       (if wnr then DATA_ABORT_ISS_WNR else 0)))
    fipa far (fun i => if i =? r then Ret (Some v) else Panic "wrong register") =
  Ret (Some {| dma_ipa := decode_fault_ipa fipa far; dma_width := w;
               dma_kind := if wnr then Write (v mod 2 ^ bits w) else Read;
               dma_register_index := r; dma_sign_extend := sse;
               dma_register_width_64 := sf |}).
Proof.
  intros Hr. fold (access_iss w r sse sf wnr). apply decode_iss_of; [exact Hr|]. by rewrite Z.eqb_refl.
Qed.

Lemma decode_iss_roundtrip_witness :
  decode_memory_access (iss_of U16 7 (Z.lor (Z.lor 0 0) DATA_ABORT_ISS_WNR)) 0x12345
    0xffff_0000_0000_0abc
    (fun i => if i =? 7 then Ret (Some 0xffff_ffff_ffff_1234) else Panic "wrong register") =
  Ret (Some {| dma_ipa := 0x1234_5abc; dma_width := U16; dma_kind := Write 0x1234;
               dma_register_index := 7; dma_sign_extend := false;
               dma_register_width_64 := false |}).
Proof.
  apply (decode_iss_roundtrip U16 7 false false true 0x12345 0xffff_0000_0000_0abc
           0xffff_ffff_ffff_1234); lia.
Defined.

(** [extend_read_result] is the architectural extension of a load: the
    low [bits w] bits of the emulated value, read as signed or unsigned,
    reduced to the width of the destination register. *)
Theorem extend_read_result_spec value w sx r64 :
  extend_read_result value w sx r64 =
  (if (sx : bool) then signed_bits (bits w) value else value mod 2 ^ bits w)
    mod 2 ^ (if r64 : bool then 64 else 32).
Proof.
  unfold extend_read_result. rewrite land_mask.
  pose proof (bits_range w) as Hb.
  destruct (sx && negb (bool_decide (w = U64))) eqn:E.
  - apply andb_true_iff in E as [-> _]. rewrite shl_sar_sign_extend.
    unfold cast_unsigned. destruct r64; [done|].
    by rewrite land_u32_max, mod_pow2_mod by lia.
  - assert (Hm : forall n, 0 <= n -> n <= 64 -> (value mod 2 ^ bits w) mod 2 ^ n =
        (if sx then signed_bits (bits w) value else value mod 2 ^ bits w) mod 2 ^ n).
    { intros n Hn0 Hn. destruct sx; [|done]. simpl in E.
      apply negb_false_iff, bool_decide_eq_true in E as ->. unfold signed_bits.
      destruct (_ <? _); [done|]. rewrite Zminus_mod.
      assert (2 ^ bits U64 mod 2 ^ n = 0) as ->.
      { apply Z.mod_divide; [lia|]. exists (2 ^ (64 - n)).
        rewrite <- Z.pow_add_r by lia. f_equal. simpl. lia. }
      by rewrite Z.sub_0_r, Z.mod_mod by lia. }
    destruct r64; rewrite <- Hm by lia.
    + symmetry. apply Z.mod_small. pose proof (mod_pow2_range value (bits w)).
      assert (2 ^ bits w <= 2 ^ 64) by (apply Z.pow_le_mono_r; lia). lia.
    + apply land_u32_max.
Qed.
