(* ===== verification/MemoryAccessTests.v ===== *)
(** * The unit tests of the memory access decoder

    The [tests] module of src/memory_access/src/lib.rs as definitions: each
    test is the code's sequence of calls and assertions, and panics where an
    assertion fails.  The builder of test syndromes, [iss], is [iss_of] in
    MemoryAccess.v. *)

From Stdlib Require Import ZArith Lia.
From stdpp Require Import base tactics list strings numbers.
From S2P Require Import Prelude MemoryAccess.

#[local] Open Scope Z_scope.
#[local] Open Scope rust_scope.

(** [assert!] and [assert_eq!]. *)
Definition assert (b : bool) : outcome unit := if b then Ret tt else Panic "assertion failed".
Definition assert_eq {A} `{EqDecision A} (a b : A) : outcome unit := assert (bool_decide (a = b)).

Definition is_none {A} (o : option A) : bool := match o with None => true | Some _ => false end.

Definition decode_with_register (iss : u32) (register_value : u64) :
    outcome (option DecodedMemoryAccess) :=
  decode_memory_access iss 0x12345 0xffff_0000_0000_0abc (fun index =>
    let! _ := assert_eq index 7 in Ret (Some register_value)).

Definition decode_rejects_missing_instruction_syndrome : outcome unit :=
  let! r := decode_memory_access 0 0x12345 0xabc (fun _ => Ret (Some 0)) in
  assert (is_none r).

Definition decode_read_access_from_syndrome_fields : outcome unit :=
  let! r := decode_memory_access (iss_of U32 9 (Z.lor DATA_ABORT_ISS_SSE DATA_ABORT_ISS_SF))
              0x12345 0xffff_0000_0000_0abc
              (fun _ => Panic "read access should not read a saved register") in
  let! access := expect_some r "access should decode" in
  let! _ := assert_eq (dma_ipa access) 0x1234_5abc in
  let! _ := assert_eq (dma_width access) U32 in
  let! _ := assert_eq (dma_kind access) Read in
  let! _ := assert_eq (dma_register_index access) 9 in
  let! _ := assert (dma_sign_extend access) in
  assert (dma_register_width_64 access).

Definition decode_write_access_masks_register_value_to_access_width : outcome unit :=
  let! r := decode_with_register (iss_of U16 7 DATA_ABORT_ISS_WNR) 0xffff_ffff_ffff_1234 in
  let! access := expect_some r "access should decode" in
  let! _ := assert_eq (dma_kind access) (Write 0x1234) in
  let! _ := assert_eq (dma_width access) U16 in
  assert_eq (dma_register_index access) 7.

Definition decode_write_access_rejects_unavailable_register_value : outcome unit :=
  let! r := decode_memory_access (iss_of U64 4 DATA_ABORT_ISS_WNR) 0x12345 0xabc
              (fun _ => Ret None) in
  assert (is_none r).

Definition extend_read_result_zero_extends_to_32_bit_registers : outcome unit :=
  let! _ := assert_eq (extend_read_result 0x1_ffff_ffff U32 false false) 0xffff_ffff in
  assert_eq (extend_read_result 0x1234 U16 false false) 0x1234.

Definition extend_read_result_sign_extends_to_requested_register_width : outcome unit :=
  let! _ := assert_eq (extend_read_result 0x80 U8 true true) 0xffff_ffff_ffff_ff80 in
  assert_eq (extend_read_result 0x80 U8 true false) 0xffff_ff80.

(** The crate's test suite passes on the model: no assertion fails, and the
    closure that must not be called for a read is not called. *)
Theorem memory_access_tests_pass :
  Forall (fun test => test = Ret tt)
    [ decode_rejects_missing_instruction_syndrome;
      decode_read_access_from_syndrome_fields;
      decode_write_access_masks_register_value_to_access_width;
      decode_write_access_rejects_unavailable_register_value;
      extend_read_result_zero_extends_to_32_bit_registers;
      extend_read_result_sign_extends_to_requested_register_width ].
Proof. repeat apply List.Forall_cons; try apply List.Forall_nil; by vm_compute. Qed.
