(* ===== verification/SimpleMap.v ===== *)
(** * The fixed-capacity map

    Model of src/src/simple_map.rs: an array of optional items searched linearly.
    A [&mut V] handed out by the code is the index of its slot.  The file
    ends with the refinement: under the invariant that keys are unique, the
    array implements a finite map with a capacity bound. *)

From Stdlib Require Import ZArith Lia.
From stdpp Require Import base tactics list gmap strings.
From S2P Require Import Prelude.

#[local] Open Scope rust_scope.

(** [struct Item<K, V>]. *)
Record Item (K V : Type) : Type := mkItem { item_key : K; item_value : V }.
Arguments mkItem {K V} _ _.
Arguments item_key {K V} _.
Arguments item_value {K V} _.

(** [struct SimpleMap<K, V, CAPACITY>]: [CAPACITY] is the length of [items],
    which no operation changes. *)
Record SimpleMap (K V : Type) : Type := mkSimpleMap { items : list (option (Item K V)) }.
Arguments mkSimpleMap {K V} _.
Arguments items {K V} _.

Section Operations.
Context {K V : Type} `{EqDecision K}.

(** The test [if let Some(inner) = item && inner.key == *key]. *)
Definition holds_key (key : K) (item : option (Item K V)) : bool :=
  match item with
  | Some inner => bool_decide (item_key inner = key)
  | None => false
  end.

Definition vacant (item : option (Item K V)) : bool :=
  match item with Some _ => false | None => true end.

(** [for item in &mut self.items { if p(item) { return .. } }]: the index of
    the first slot that satisfies [p]. *)
Fixpoint find_slot (p : option (Item K V) -> bool) (l : list (option (Item K V))) :
    option nat :=
  match l with
  | [] => None
  | x :: l => if p x then Some 0 else S <$> find_slot p l
  end.

Definition new (CAPACITY : nat) : SimpleMap K V :=
  mkSimpleMap (replicate CAPACITY None).

(** The value in slot [i]. *)
Definition slot_value (m : SimpleMap K V) (i : nat) : option V :=
  match items m !! i with
  | Some (Some it) => Some (item_value it)
  | _ => None
  end.

Definition get_mut (m : SimpleMap K V) (key : K) : option nat :=
  find_slot (holds_key key) (items m).

(** [item.take().map(|item| item.value)] on the first matching slot. *)
Definition remove (m : SimpleMap K V) (key : K) : option V * SimpleMap K V :=
  match find_slot (holds_key key) (items m) with
  | Some i => (slot_value m i, mkSimpleMap (<[i := None]> (items m)))
  | None => (None, m)
  end.

Definition insert (m : SimpleMap K V) (key : K) (value : V) :
    outcome (nat * SimpleMap K V) :=
  let m := snd (remove m key) in
  match find_slot vacant (items m) with
  | Some i => Ret (i, mkSimpleMap (<[i := Some (mkItem key value)]> (items m)))
  | None => Panic "maximum capacity exceeded"
  end.
End Operations.

(** ** Invariant *)

Section Invariant.
Context {K V : Type} `{EqDecision K}.
Implicit Types (m : SimpleMap K V) (k : K) (v : V) (l : list (option (Item K V))).

(** No key is stored twice. *)
Definition unique_keys l : Prop :=
  forall i j a b, l !! i = Some (Some a) -> l !! j = Some (Some b) ->
    item_key a = item_key b -> i = j.

Definition wf m : Prop := unique_keys (items m).

(** Slot [i] of [m] holds [k] with value [v]. *)
Definition at_slot m (i : nat) k v : Prop := items m !! i = Some (Some (mkItem k v)).

Lemma find_slot_Some p l i :
  find_slot p l = Some i ->
  exists x, l !! i = Some x /\ p x = true /\ forall j y, j < i -> l !! j = Some y -> p y = false.
Proof.
  revert i. induction l as [|x l IH]; intros i; simpl; [done|].
  destruct (p x) eqn:Hp.
  - intros [= <-]. exists x. split_and!; [done..|lia].
  - destruct (find_slot p l) as [i'|] eqn:Hf; simpl; [|done]. intros [= <-].
    destruct (IH i' eq_refl) as (y & ? & ? & Hmin). exists y. split_and!; [done..|].
    intros [|j] z Hj Hz; simpl in Hz; [congruence|]. apply (Hmin j); [lia|done].
Qed.

Lemma find_slot_None p l :
  find_slot p l = None <-> forall i x, l !! i = Some x -> p x = false.
Proof.
  induction l as [|x l IH]; simpl; [naive_solver|].
  destruct (p x) eqn:Hp.
  - split; [done|]. intros H. specialize (H 0 x eq_refl). congruence.
  - rewrite fmap_None, IH. split.
    + intros H [|i] y Hy; simpl in Hy; [congruence|eauto].
    + intros H i y Hy. apply (H (S i) y Hy).
Qed.

Lemma holds_key_true k (o : option (Item K V)) :
  holds_key k o = true <-> exists v, o = Some (mkItem k v).
Proof.
  destruct o as [[k' v]|]; simpl; [|naive_solver].
  rewrite bool_decide_eq_true. naive_solver.
Qed.

Lemma find_key_Some m k i :
  get_mut m k = Some i -> exists v, at_slot m i k v.
Proof.
  intros (x & Hx & Hk & _)%find_slot_Some.
  apply holds_key_true in Hk as [v ->]. by exists v.
Qed.

Lemma find_key_None m k :
  get_mut m k = None <-> forall i v, ~ at_slot m i k v.
Proof.
  unfold get_mut. rewrite find_slot_None. split.
  - intros H i v Hi. specialize (H _ _ Hi). simpl in H.
    by rewrite bool_decide_eq_false in H.
  - intros H i x Hx. destruct (holds_key k x) eqn:E; [|done].
    apply holds_key_true in E as [v ->]. by destruct (H i v).
Qed.

Lemma wf_slot_inj m i j k v v' :
  wf m -> at_slot m i k v -> at_slot m j k v' -> i = j /\ v = v'.
Proof.
  intros Hwf Hi Hj. assert (i = j) as -> by eauto.
  unfold at_slot in *. naive_solver.
Qed.

Lemma get_mut_iff m k i : wf m -> get_mut m k = Some i <-> exists v, at_slot m i k v.
Proof.
  intros Hwf. split; [apply find_key_Some|]. intros [v Hv].
  destruct (get_mut m k) as [j|] eqn:E.
  - apply find_key_Some in E as [v' E].
    by destruct (wf_slot_inj _ _ _ _ _ _ Hwf E Hv) as [-> _].
  - by apply find_key_None with (i := i) (v := v) in E.
Qed.

(** What [remove] leaves behind, slot by slot. *)
Lemma remove_at_slot m k i k' v :
  wf m -> at_slot (snd (remove m k)) i k' v <-> at_slot m i k' v /\ k' <> k.
Proof.
  intros Hwf. unfold remove. fold (get_mut m k).
  destruct (get_mut m k) as [j|] eqn:E; simpl.
  - apply find_key_Some in E as [w E]. unfold at_slot at 1. simpl.
    rewrite list_lookup_insert. case_decide as Hd.
    + destruct Hd as [-> ?]. split; [done|]. intros [Hi Hk]. unfold at_slot in *. naive_solver.
    + split; [|naive_solver]. intros Hi. split; [done|]. intros ->.
      destruct (wf_slot_inj _ _ _ _ _ _ Hwf Hi E) as [-> _].
      apply Hd. split; [done|]. by apply lookup_lt_Some in E.
  - rewrite find_key_None in E. naive_solver.
Qed.

Lemma remove_wf m k : wf m -> wf (snd (remove m k)).
Proof.
  intros Hwf i j [ka va] [kb vb] Ha Hb Hab. simpl in Hab. subst kb.
  apply (remove_at_slot m k i ka va Hwf) in Ha as [Ha _].
  apply (remove_at_slot m k j ka vb Hwf) in Hb as [Hb _]. eauto.
Qed.

Lemma remove_length m k : length (items (snd (remove m k))) = length (items m).
Proof. unfold remove. case_match; [|done]. apply length_insert. Qed.

Lemma remove_value m k : wf m ->
  forall v, fst (remove m k) = Some v <-> exists i, at_slot m i k v.
Proof.
  intros Hwf v. unfold remove. fold (get_mut m k).
  destruct (get_mut m k) as [j|] eqn:E; simpl.
  - apply find_key_Some in E as [w E]. unfold slot_value. rewrite E. simpl. split.
    + intros [= ->]. by exists j.
    + intros [i Hi]. f_equal. by destruct (wf_slot_inj _ _ _ _ _ _ Hwf Hi E).
  - rewrite find_key_None in E. naive_solver.
Qed.

Lemma insert_Ret m k v i m' :
  insert m k v = Ret (i, m') ->
  find_slot vacant (items (snd (remove m k))) = Some i /\
  m' = mkSimpleMap (<[i := Some (mkItem k v)]> (items (snd (remove m k)))).
Proof. unfold insert. destruct (find_slot _ _); naive_solver. Qed.

(** What [insert] leaves behind, slot by slot. *)
Lemma insert_at_slot m k v i m' j k' v' :
  wf m -> insert m k v = Ret (i, m') ->
  at_slot m' j k' v' <->
  (j = i /\ k' = k /\ v' = v) \/ (j <> i /\ at_slot m j k' v' /\ k' <> k).
Proof.
  intros Hwf (Hf & ->)%insert_Ret. apply find_slot_Some in Hf as (x & Hx & Hvac & _).
  destruct x; [done|]. pose proof (lookup_lt_Some _ _ _ Hx) as Hlt.
  rewrite <- (remove_at_slot m k j k' v' Hwf). unfold at_slot at 1. simpl.
  rewrite list_lookup_insert. case_decide as Hd; [naive_solver|].
  assert (j <> i) by naive_solver. naive_solver.
Qed.

Lemma insert_wf m k v i m' : wf m -> insert m k v = Ret (i, m') -> wf m'.
Proof.
  intros Hwf Hins a b [ka va] [kb vb] Ha Hb Hab. simpl in Hab. subst kb.
  apply (insert_at_slot _ _ _ _ _ _ _ _ Hwf Hins) in Ha, Hb.
  destruct Ha as [(-> & -> & ->)|(? & Ha & ?)], Hb as [(-> & ? & ->)|(? & Hb & ?)];
    try done. by destruct (wf_slot_inj _ _ _ _ _ _ Hwf Ha Hb).
Qed.

Lemma insert_length m k v i m' :
  insert m k v = Ret (i, m') -> length (items m') = length (items m).
Proof. intros (_ & ->)%insert_Ret. simpl. by rewrite length_insert, remove_length. Qed.

Lemma new_wf cap : wf (new cap).
Proof. intros i j a b Ha. apply lookup_replicate in Ha as [? _]. done. Qed.
End Invariant.

Create HintDb simple_map.
#[export] Hint Resolve new_wf remove_wf insert_wf : simple_map.

(** ** Refinement of a capacity-bounded finite map *)

Section Refinement.
Context {K V : Type} `{Countable K}.
Implicit Types (m : SimpleMap K V) (k : K) (v : V) (l : list (option (Item K V)))
  (g : gmap K V).

(** The finite map an array of slots stands for. *)
Definition abs_items l : gmap K V :=
  foldr (fun o g => match o with
                    | Some it => <[item_key it := item_value it]> g
                    | None => g
                    end) ∅ l.
Definition abs m : gmap K V := abs_items (items m).

Lemma unique_keys_cons o l :
  unique_keys (o :: l) ->
  unique_keys l /\ forall it i it', o = Some it -> l !! i = Some (Some it') ->
    item_key it' <> item_key it.
Proof.
  intros Hu. split.
  - intros i j a b Ha Hb Hk. specialize (Hu (S i) (S j) a b Ha Hb Hk). lia.
  - intros it i it' -> Hi Hk. specialize (Hu (S i) 0 it' it Hi eq_refl Hk). lia.
Qed.

Lemma abs_items_lookup l k v :
  unique_keys l ->
  abs_items l !! k = Some v <-> exists i, l !! i = Some (Some (mkItem k v)).
Proof.
  induction l as [|o l IH]; intros Hu; simpl.
  { rewrite lookup_empty. naive_solver. }
  apply unique_keys_cons in Hu as [Hu Hne]. specialize (IH Hu).
  destruct o as [[k0 v0]|]; simpl.
  - rewrite lookup_insert. case_decide as Hd.
    + subst. split; [intros [= ->]; by exists 0|]. intros [[|i] Hi]; simpl in Hi; [naive_solver|].
      by destruct (Hne _ i _ eq_refl Hi).
    + rewrite IH. split; [intros [i Hi]; by exists (S i)|].
      intros [[|i] Hi]; simpl in Hi; [naive_solver|by exists i].
  - rewrite IH. split; [intros [i Hi]; by exists (S i)|].
    intros [[|i] Hi]; simpl in Hi; [done|by exists i].
Qed.

Lemma abs_lookup m k v : wf m -> abs m !! k = Some v <-> exists i, at_slot m i k v.
Proof. apply abs_items_lookup. Qed.

Lemma abs_lookup_None m k : wf m -> abs m !! k = None <-> forall i v, ~ at_slot m i k v.
Proof.
  intros Hwf. rewrite eq_None_not_Some. unfold is_Some.
  setoid_rewrite abs_lookup; [|done]. naive_solver.
Qed.

Lemma abs_size l : unique_keys l ->
  size (abs_items l) <= length l /\
  (find_slot vacant l = None <-> size (abs_items l) = length l).
Proof.
  induction l as [|o l IH]; intros Hu; simpl; [done|].
  apply unique_keys_cons in Hu as [Hu Hne]. destruct (IH Hu) as [Hle Hiff].
  destruct o as [[k0 v0]|]; simpl.
  - assert (Hnone : abs_items l !! k0 = None).
    { apply eq_None_not_Some. intros [v Hv]. apply abs_items_lookup in Hv as [i Hi]; [|done].
      by apply (Hne _ i _ eq_refl Hi). }
    rewrite map_size_insert_None by done. rewrite fmap_None, Hiff. lia.
  - split; [lia|]. split; [done|lia].
Qed.

Lemma abs_new cap : abs (new cap) = ∅.
Proof. unfold abs, new. simpl. by induction cap. Qed.

Lemma get_mut_abs m k : wf m -> get_mut m k ≫= slot_value m = abs m !! k.
Proof.
  intros Hwf. destruct (get_mut m k) as [i|] eqn:E; simpl.
  - apply find_key_Some in E as [v E]. unfold slot_value. rewrite E. simpl.
    symmetry. apply abs_lookup; eauto.
  - symmetry. apply abs_lookup_None; [done|]. by apply find_key_None.
Qed.

Lemma remove_abs m k : wf m ->
  fst (remove m k) = abs m !! k /\ abs (snd (remove m k)) = delete k (abs m).
Proof.
  intros Hwf. split.
  - apply option_eq. intros v. by rewrite remove_value, abs_lookup.
  - apply map_eq. intros k'. apply option_eq. intros v.
    rewrite lookup_delete_Some, !abs_lookup by auto with simple_map.
    setoid_rewrite remove_at_slot; [|done]. naive_solver.
Qed.

Lemma insert_abs m k v :
  wf m ->
  match insert m k v with
  | Ret (i, m') => abs m' = <[k := v]> (abs m) /\ at_slot m' i k v /\
      (size (abs m) < length (items m) \/ is_Some (abs m !! k))
  | Panic _ => size (abs m) = length (items m) /\ abs m !! k = None
  end.
Proof.
  intros Hwf. destruct (abs_size (items m) Hwf) as [Hle _].
  destruct (abs_size _ (remove_wf m k Hwf)) as [Hle' Hfull].
  fold (abs m) in Hle. fold (abs (snd (remove m k))) in Hle', Hfull.
  destruct (remove_abs m k Hwf) as [_ Habs]. rewrite Habs, remove_length in Hle', Hfull.
  destruct (insert m k v) as [[i m']|msg] eqn:E.
  - pose proof (insert_at_slot m k v i m' i k v Hwf E) as [_ Hi].
    assert (Habs' : abs m' = <[k := v]> (abs m)).
    { apply map_eq. intros k'. apply option_eq. intros v'.
      rewrite lookup_insert_Some, !abs_lookup by eauto using insert_wf.
      setoid_rewrite (fun j => insert_at_slot m k v i m' j k' v' Hwf E). split; [naive_solver|].
      intros [[-> ->]|(Hne & j & Hj)]; [by exists i; left|]. exists j. right.
      split_and!; try naive_solver. intros ->.
      apply insert_Ret in E as (Hf & _). apply find_slot_Some in Hf as (x & Hx & Hv & _).
      assert (Hj' : at_slot (snd (remove m k)) i k' v') by (apply remove_at_slot; naive_solver).
      unfold at_slot in Hj'. naive_solver. }
    split_and!; [done|by apply Hi; left|].
    destruct (decide (is_Some (abs m !! k))) as [|Hn]; [by right|left].
    apply insert_Ret in E as (Hf & _). apply eq_None_not_Some in Hn.
    rewrite delete_id in Hfull, Hle' by done.
    assert (size (abs m) <> length (items m)); [|lia].
    intros He. apply Hfull in He. congruence.
  - unfold insert in E. destruct (find_slot vacant _); [done|].
    pose proof (proj1 Hfull eq_refl) as Hf. destruct (abs m !! k) eqn:Hk.
    + rewrite map_size_delete_Some in Hf by eauto.
      assert (size (abs m) <> 0); [|lia].
      intros H0. apply map_size_empty_inv in H0. by rewrite H0, lookup_empty in Hk.
    + by rewrite delete_id in Hf.
Qed.
End Refinement.

(** ** The abstract specification, and the refinement theorem *)

Section Spec.
Context {K V : Type} `{Countable K}.

Inductive op : Type :=
| OpGet (k : K)
| OpInsert (k : K) (v : V)
| OpRemove (k : K).

(** One call on the array; the reply is the value the call's result refers
    to ([get_mut], [insert]) or returns ([remove]). *)
Definition impl_step (m : SimpleMap K V) (o : op) : outcome (option V * SimpleMap K V) :=
  match o with
  | OpGet k => Ret (get_mut m k ≫= slot_value m, m)
  | OpInsert k v => let! (i, m') := insert m k v in Ret (slot_value m' i, m')
  | OpRemove k => Ret (remove m k)
  end.

(** The same call on a finite map that holds at most [cap] keys. *)
Definition spec_step (cap : nat) (g : gmap K V) (o : op) : outcome (option V * gmap K V) :=
  match o with
  | OpGet k => Ret (g !! k, g)
  | OpInsert k v =>
      if bool_decide (size g < cap \/ is_Some (g !! k))
      then Ret (Some v, <[k := v]> g)
      else Panic "maximum capacity exceeded"
  | OpRemove k => Ret (g !! k, delete k g)
  end.

Fixpoint run {S : Type} (step : S -> op -> outcome (option V * S)) (s : S) (os : list op) :
    outcome (list (option V)) :=
  match os with
  | [] => Ret []
  | o :: os =>
      let! (r, s) := step s o in
      let! rs := run step s os in Ret (r :: rs)
  end.

Lemma impl_step_simulates (m : SimpleMap K V) o :
  wf m ->
  match impl_step m o, spec_step (length (items m)) (abs m) o with
  | Ret (r, m'), Ret (r', g') =>
      r = r' /\ g' = abs m' /\ wf m' /\ length (items m') = length (items m)
  | Panic e, Panic e' => e = e'
  | _, _ => False
  end.
Proof.
  intros Hwf. destruct o as [k|k v|k]; simpl.
  - by rewrite get_mut_abs.
  - pose proof (insert_abs m k v Hwf) as Hins.
    destruct (insert m k v) as [[i m']|msg] eqn:E; simpl.
    + destruct Hins as (Ha & Hi & Hc). rewrite bool_decide_eq_true_2 by done.
      unfold slot_value. rewrite Hi, Ha. simpl.
      split_and!; eauto using insert_wf, insert_length.
    + destruct Hins as [Hs Hn]. rewrite bool_decide_eq_false_2.
      * unfold insert in E. destruct (find_slot _ _); naive_solver.
      * rewrite Hn. intros [?|[? ?]]; [lia|done].
  - destruct (remove_abs m k Hwf) as [Hv Ha].
    pose proof (remove_wf m k Hwf). pose proof (remove_length m k).
    destruct (remove m k) as [r m']. simpl in *. by rewrite Hv, Ha.
Qed.

Lemma run_simulates (m : SimpleMap K V) os :
  wf m -> run impl_step m os = run (spec_step (length (items m))) (abs m) os.
Proof.
  revert m. induction os as [|o os IH]; intros m Hwf; [done|]. simpl.
  pose proof (impl_step_simulates m o Hwf) as Hs.
  destruct (impl_step m o) as [[r m']|], (spec_step _ _ o) as [[r' g']|]; try done.
  - destruct Hs as (-> & -> & Hwf' & Hlen). simpl. by rewrite IH, Hlen.
  - simpl. by rewrite Hs.
Qed.

(** C26: any sequence of [get_mut], [insert] and [remove] calls on a fresh
    [SimpleMap] returns, and panics, exactly as on a finite map that holds
    at most [CAPACITY] keys: the linear array implements the abstract map,
    and the only panic is inserting a new key into a full map. *)
Theorem simple_map_refines_bounded_map (cap : nat) (os : list op) :
  run impl_step (new cap) os = run (spec_step cap) ∅ os.
Proof.
  rewrite run_simulates by apply new_wf. rewrite abs_new. simpl.
  by rewrite length_replicate.
Qed.
End Spec.
Arguments op : clear implicits.
