(* ===== verification/Slice.v ===== *)
(** * Slice searches of the Rust standard library

    [slice::binary_search_by] and [slice::partition_point], which
    src/src/stage2.rs uses to keep and search its sorted region table: the
    branch-light loop of [core], with its correctness on a list the comparator
    partitions. *)

From Stdlib Require Import Arith Lia.
From stdpp Require Import base tactics list strings numbers.
From Equations Require Import Equations.
From S2P Require Import Prelude.

Section BinarySearch.
Context {A : Type}.

(** The loop [while size > 1 { half = size / 2; mid = base + half; ..
    size -= half }] of [core::slice::binary_search_by], over the comparator's
    value at each index; the result is the final [base]. *)
Equations? search_loop (cmp : nat -> comparison) (base size : nat) : nat
    by wf size lt :=
  search_loop cmp base size with le_lt_dec size 1 => {
    | left _ := base ;
    | right _ :=
        let half := size / 2 in
        let mid := base + half in
        search_loop cmp (match cmp mid with Gt => base | _ => mid end) (size - half) }.
Proof. change (size - size / 2 < size). pose proof (Nat.div_str_pos size 2). lia. Qed.

(** [Ok i] is [Ok i : result nat nat], [Err i] the insertion point. *)
Definition binary_search_by (f : A -> comparison) (l : list A) : result nat nat :=
  let cmp i := match l !! i with Some x => f x | None => Gt end in
  match l with
  | [] => Err 0
  | _ =>
      let base := search_loop cmp 0 (length l) in
      match cmp base with
      | Eq => Ok base
      | Lt => Err (base + 1)
      | Gt => Err base
      end
  end.

Definition partition_point (pred : A -> bool) (l : list A) : nat :=
  match binary_search_by (fun x => if pred x then Lt else Gt) l with
  | Ok i | Err i => i
  end.

(** The comparator's values along the list: first [Lt], then [Eq], then
    [Gt]. *)
Definition rank (c : comparison) : nat := match c with Lt => 0 | Eq => 1 | Gt => 2 end.
Definition ordered_by (cmp : nat -> comparison) (n : nat) : Prop :=
  forall i j, i <= j -> j < n -> rank (cmp i) <= rank (cmp j).

Lemma search_loop_spec cmp base size n :
  ordered_by cmp n -> 0 < size -> base + size <= n ->
  let r := search_loop cmp base size in
  base <= r < base + size /\ (r = base \/ cmp r <> Gt) /\
  forall j, r < j < base + size -> cmp j = Gt.
Proof.
  intros Ho. funelim (search_loop cmp base size); intros Hs Hn.
  - assert (size = 1) as -> by lia. split_and!; [lia|lia|by left|lia].
  - clear Heqcall. set (half := size / 2) in *.
    assert (Hh : 0 < half /\ 2 * half <= size).
    { split; [by apply Nat.div_str_pos; lia|apply Nat.Div0.mul_div_le]. }
    destruct (cmp (base + half)) eqn:Hc; try rewrite Hc in H.
    3: { assert (Hgt : forall j, base + half <= j < n -> cmp j = Gt).
         { intros j Hj. pose proof (Ho (base + half) j ltac:(lia) ltac:(lia)) as Hr.
           rewrite Hc in Hr. destruct (cmp j); simpl in Hr; (done || lia). }
         destruct (H n Ho ltac:(lia) ltac:(lia)) as ((? & ?) & Hb & Hg).
         split_and!; [lia|lia|done|]. intros j Hj.
         destruct (decide (j < base + (size - half))); [apply Hg|apply Hgt]; lia. }
    all: destruct (H n Ho ltac:(lia) ltac:(lia)) as ((? & ?) & Hb & Hg);
      split_and!; [lia|lia|right; destruct Hb as [->|]; congruence|];
      intros j Hj; apply Hg; lia.
Qed.

(** On a list the comparator orders, the search finds a match when there is
    one, and otherwise the point that separates the smaller elements from
    the greater ones. *)
Lemma binary_search_by_spec (f : A -> comparison) (l : list A) :
  (forall i j x y, i <= j -> l !! i = Some x -> l !! j = Some y -> rank (f x) <= rank (f y)) ->
  match binary_search_by f l with
  | Ok i => exists x, l !! i = Some x /\ f x = Eq
  | Err i => i <= length l /\ forall j x, l !! j = Some x -> f x = if decide (j < i) then Lt else Gt
  end.
Proof.
  intros Ho. unfold binary_search_by. destruct l as [|a l']; [naive_solver lia|].
  assert (Hne : 0 < length (a :: l')) by (simpl; lia).
  set (l := a :: l') in *. clearbody l. set (cmp := fun i => _).
  assert (Hcmp : forall j x, l !! j = Some x -> cmp j = f x) by (unfold cmp; intros ?? ->; done).
  assert (Hord : ordered_by cmp (length l)).
  { intros i j Hij Hj. destruct (lookup_lt_is_Some_2 l j) as [y Hy]; [lia|].
    destruct (lookup_lt_is_Some_2 l i) as [x Hx]; [lia|].
    rewrite (Hcmp _ _ Hx), (Hcmp _ _ Hy). eauto. }
  destruct (search_loop_spec cmp 0 (length l) (length l) Hord) as ((_ & Hr) & Hb & Hgt);
    [lia..|].
  set (r := search_loop cmp 0 (length l)) in *.
  replace (match l !! r with Some x => f x | None => Gt end) with (cmp r) by done.
  destruct (lookup_lt_is_Some_2 l r) as [x Hx]; [lia|].
  assert (Hlow : forall j y, l !! j = Some y -> j <= r -> rank (f y) <= rank (cmp r)).
  { intros j y Hy Hj. rewrite (Hcmp _ _ Hx). eauto. }
  assert (Hhigh : forall j y, l !! j = Some y -> r < j -> f y = Gt).
  { intros j y Hy Hj. rewrite <- (Hcmp _ _ Hy). apply Hgt. apply lookup_lt_Some in Hy. lia. }
  destruct (cmp r) eqn:Hc.
  - exists x. split; [done|]. by rewrite <- (Hcmp _ _ Hx).
  - split; [lia|]. intros j y Hy. case_decide as Hd; [|apply (Hhigh j); [done|lia]].
    specialize (Hlow j y Hy ltac:(lia)). destruct (f y); simpl in Hlow; (done || lia).
  - destruct Hb as [Hb|]; [|done]. split; [lia|]. intros j y Hy.
    rewrite decide_False by lia. destruct (decide (j = r)) as [->|].
    + rewrite <- (Hcmp _ _ Hy). done.
    + apply (Hhigh j); [done|lia].
Qed.

Lemma partition_point_spec (p : A -> bool) (l : list A) :
  (forall i j x y, i <= j -> l !! i = Some x -> l !! j = Some y -> p y = true -> p x = true) ->
  partition_point p l <= length l /\
  forall j x, l !! j = Some x -> p x = bool_decide (j < partition_point p l).
Proof.
  intros Ho. unfold partition_point.
  pose proof (binary_search_by_spec (fun x => if p x then Lt else Gt) l) as Hs.
  destruct (binary_search_by _ l) as [i|i].
  - destruct Hs as (x & _ & Hx); [|by destruct (p x)].
    intros i' j x y Hij Hx Hy. specialize (Ho _ _ _ _ Hij Hx Hy).
    destruct (p x), (p y); simpl; naive_solver lia.
  - destruct Hs as [Hi Hs].
    { intros i' j x y Hij Hx Hy. specialize (Ho _ _ _ _ Hij Hx Hy).
      destruct (p x), (p y); simpl; naive_solver lia. }
    split; [done|]. intros j x Hx. specialize (Hs j x Hx).
    case_decide; destruct (p x); try done; symmetry;
      [by apply bool_decide_eq_true|by apply bool_decide_eq_false].
Qed.
End BinarySearch.
