(* ===== verification/Stage2.v ===== *)
(** * Stage-2 access policy

    Model of src/src/stage2.rs: page-range validation, the sorted registry of
    memory access handlers and its binary search, and the builder that
    combines direct mappings (the external page table) with handled ranges.

    The page table ([aarch64_paging::idmap::IdMap<Stage2>]) is not part of the
    repository: it is the class [PageTable], with its documented behaviour as
    the laws [PageTableLaws].  A handler callback is a function that may update
    the platform's own state [P] (a static of the platform module). *)

From Stdlib Require Import ZArith Lia.
From stdpp Require Import base tactics list sorting strings numbers.
From S2P Require Import Prelude MemoryAccess Slice.

#[local] Open Scope Z_scope.
#[local] Open Scope rust_scope.

(** ** The page-table interface *)

(** [aarch64_paging::paging::PAGE_SIZE], the 4 KiB granule. *)
Definition PAGE_SIZE : usize := 4096.
Definition STAGE2_PAGE_SIZE : u64 := PAGE_SIZE.
Definition MAX_MEMORY_ACCESS_HANDLERS : nat := 16.
Definition MAX_ALLOWED_RANGES : nat := 32.

(** [idmap_map_range t s e a] is [map_range(&MemoryRegion::new(s, e), a)]: the
    table after the call (also after a failed one) and the call's result.
    [idmap_translate] is what a walk of the table gives for an address. *)
Class PageTable : Type := {
  Attributes : Type;
  MapError : Type;
  IdMap : Type;
  idmap_new : IdMap;
  idmap_map_range : IdMap -> Z -> Z -> Attributes -> IdMap * result MapError unit;
  idmap_translate : IdMap -> Z -> option Attributes;
  idmap_root_address : IdMap -> Z;
  idmap_activate : IdMap -> IdMap;
}.

(** A new table maps nothing; a successful call maps exactly the given
    page-aligned region and leaves every other address as it was; activating
    a table changes neither what it maps nor where it is. *)
Class PageTableLaws `{PageTable} : Prop := {
  translate_new : forall x, idmap_translate idmap_new x = None;
  translate_map_range : forall t t' s e a x,
    (PAGE_SIZE | s) -> (PAGE_SIZE | e) -> 0 <= s < e ->
    idmap_map_range t s e a = (t', Ok tt) ->
    idmap_translate t' x = if bool_decide (s <= x < e) then Some a else idmap_translate t x;
  translate_activate : forall t x, idmap_translate (idmap_activate t) x = idmap_translate t x;
  root_activate : forall t, idmap_root_address (idmap_activate t) = idmap_root_address t;
}.

(** Identity-mapping a page-aligned region within the 48-bit input range of a
    four-level table succeeds. *)
Class PageTableTotal `{PageTable} : Prop := {
  map_range_total : forall t s e a,
    (PAGE_SIZE | s) -> (PAGE_SIZE | e) -> 0 <= s < e -> e <= 2 ^ 48 ->
    exists t', idmap_map_range t s e a = (t', Ok tt);
}.

Section Stage2.
Context {PT : PageTable} {P : Type}.

(** ** Errors, accesses and handlers *)

Inductive Stage2ConfigError : Type :=
| RangeBaseNotPageAligned
| EmptyRange
| RangeSizeNotPageMultiple
| RangeEndOverflow
| RangeAddressNotRepresentable
| TooManyAllowedRanges
| TooManyMemoryAccessHandlerRegions
| AllowedRangeOverlap
| MemoryAccessHandlerRangeOverlap
| AllowedRangeOverlapsMemoryAccessHandler
| MapRange (e : MapError).

Record MemoryReadAccess : Type := mkMemoryReadAccess {
  mra_ipa : u64; mra_offset : u64; mra_width : MemoryAccessWidth }.
Record MemoryWriteAccess : Type := mkMemoryWriteAccess {
  mwa_ipa : u64; mwa_offset : u64; mwa_width : MemoryAccessWidth; mwa_value : u64 }.
Inductive MemoryReadResult : Type := ReadValue (v : u64) | ReadFault.
Inductive MemoryWriteResult : Type := WriteHandled | WriteFault.

Definition MemoryReadHandler : Type := MemoryReadAccess -> P -> MemoryReadResult * P.
Definition MemoryWriteHandler : Type := MemoryWriteAccess -> P -> MemoryWriteResult * P.

Record MemoryAccessHandler : Type := mkMemoryAccessHandler {
  mah_read : option MemoryReadHandler; mah_write : option MemoryWriteHandler }.

Definition read_write (read : MemoryReadHandler) (write : MemoryWriteHandler) :
    MemoryAccessHandler :=
  {| mah_read := Some read; mah_write := Some write |}.

(** ** Ranges *)

(** [usize] is 64 bits wide on the only target: both conversions succeed. *)
Definition u64_try_from_usize (x : usize) : result Stage2ConfigError u64 :=
  if x <=? U64_MAX then Ok x else Err RangeEndOverflow.
Definition usize_try_from_u64 (x : u64) : result Stage2ConfigError usize :=
  if x <=? U64_MAX then Ok x else Err RangeAddressNotRepresentable.

Definition checked_range_end (base_ipa : u64) (size : usize) : result Stage2ConfigError u64 :=
  let? size := u64_try_from_usize size in
  ok_or (checked_add base_ipa size) RangeEndOverflow.

Definition validate_range (base_ipa : u64) (size : usize) : result Stage2ConfigError unit :=
  if negb (is_multiple_of base_ipa STAGE2_PAGE_SIZE) then Err RangeBaseNotPageAligned
  else if size =? 0 then Err EmptyRange
  else if negb (is_multiple_of size PAGE_SIZE) then Err RangeSizeNotPageMultiple
  else let? _ := checked_range_end base_ipa size in Ok tt.

Definition page_ranges_overlap (first_base_ipa first_end_ipa
    second_base_ipa second_end_ipa : u64) : bool :=
  let '(earlier_end, later_base) :=
    if first_base_ipa <=? second_base_ipa then (first_end_ipa, second_base_ipa)
    else (second_end_ipa, first_base_ipa) in
  later_base <? earlier_end.

Record Stage2Range : Type := mkStage2Range {
  sr_base_ipa : u64; sr_size : usize; sr_end_ipa : u64 }.

Definition Stage2Range_new (base_ipa : u64) (size : usize) :
    result Stage2ConfigError Stage2Range :=
  let? _ := validate_range base_ipa size in
  let? end_ipa := checked_range_end base_ipa size in
  Ok {| sr_base_ipa := base_ipa; sr_size := size; sr_end_ipa := end_ipa |}.

Definition overlaps (a b : Stage2Range) : bool :=
  page_ranges_overlap (sr_base_ipa a) (sr_end_ipa a) (sr_base_ipa b) (sr_end_ipa b).

(** ** Handler regions and their registry *)

Record MemoryAccessRegion : Type := mkMemoryAccessRegion {
  mar_base_ipa : u64; mar_size : usize; mar_handler : MemoryAccessHandler;
  mar_end_ipa : u64 }.

Definition MemoryAccessRegion_new (range : Stage2Range) (handler : MemoryAccessHandler) :
    MemoryAccessRegion :=
  {| mar_base_ipa := sr_base_ipa range; mar_size := sr_size range;
     mar_handler := handler; mar_end_ipa := sr_end_ipa range |}.

Definition end_ipa (r : MemoryAccessRegion) : u64 :=
  match checked_range_end (mar_base_ipa r) (mar_size r) with
  | Ok e => e
  | Err _ => mar_end_ipa r
  end.

Definition offset_of (r : MemoryAccessRegion) (ipa : u64) : outcome u64 :=
  sub64 ipa (mar_base_ipa r).

Definition overlaps_range (r : MemoryAccessRegion) (range : Stage2Range) : bool :=
  page_ranges_overlap (mar_base_ipa r) (mar_end_ipa r) (sr_base_ipa range) (sr_end_ipa range).

Record MemoryAccessHandlerMatch : Type := mkMemoryAccessHandlerMatch {
  mahm_region : MemoryAccessRegion; mahm_offset : u64 }.

(** [ArrayVec<MemoryAccessRegion, MAX_MEMORY_ACCESS_HANDLERS>] by its
    contents. *)
Record MemoryAccessHandlerRegistry : Type := mkRegistry { regions : list MemoryAccessRegion }.

Definition registry_new : MemoryAccessHandlerRegistry := mkRegistry [].

(** [ArrayVec::insert] and [ArrayVec::push] panic when the array is full (and
    [insert] when the index is past the end). *)
Definition arrayvec_insert {A} (cap : nat) (i : nat) (x : A) (l : list A) : outcome (list A) :=
  if decide (length l < i)%nat then Panic "insert: index is out of bounds"
  else if decide (cap <= length l)%nat then Panic "insert: capacity exceeded"
  else Ret (take i l ++ x :: drop i l).
Definition arrayvec_push {A} (cap : nat) (x : A) (l : list A) : outcome (list A) :=
  if decide (cap <= length l)%nat then Panic "push: capacity exceeded"
  else Ret (l ++ [x]).

Definition register (self : MemoryAccessHandlerRegistry) (region : MemoryAccessRegion) :
    outcome (result Stage2ConfigError MemoryAccessHandlerRegistry) :=
  if decide (MAX_MEMORY_ACCESS_HANDLERS <= length (regions self))%nat
  then Ret (Err TooManyMemoryAccessHandlerRegions)
  else if existsb (fun existing =>
            page_ranges_overlap (mar_base_ipa region) (mar_end_ipa region)
              (mar_base_ipa existing) (mar_end_ipa existing)) (regions self)
  then Ret (Err MemoryAccessHandlerRangeOverlap)
  else
    let insert_at := partition_point
      (fun existing => mar_base_ipa existing <? mar_base_ipa region) (regions self) in
    let! l := arrayvec_insert MAX_MEMORY_ACCESS_HANDLERS insert_at region (regions self) in
    Ret (Ok (mkRegistry l)).

(** The comparator of [find]. *)
Definition find_cmp (ipa : u64) (region : MemoryAccessRegion) : comparison :=
  if ipa <? mar_base_ipa region then Gt
  else if end_ipa region <=? ipa then Lt
  else Eq.

Definition find (self : MemoryAccessHandlerRegistry) (ipa : u64) :
    outcome (option MemoryAccessHandlerMatch) :=
  match binary_search_by (find_cmp ipa) (regions self) with
  | Err _ => Ret None
  | Ok index =>
      match regions self !! index with
      | None => Panic "index out of bounds"
      | Some region =>
          let! offset := offset_of region ipa in
          Ret (Some {| mahm_region := region; mahm_offset := offset |})
      end
  end.

(** ** The builder *)

Record Stage2Config : Type := mkStage2Config {
  s2c_idmap : IdMap; s2c_memory_access_handlers : MemoryAccessHandlerRegistry }.

Record Stage2Builder : Type := mkStage2Builder {
  s2b_idmap : IdMap;
  s2b_memory_access_handlers : MemoryAccessHandlerRegistry;
  s2b_allowed_ranges : list Stage2Range }.

Definition Stage2Builder_new : Stage2Builder :=
  {| s2b_idmap := idmap_new; s2b_memory_access_handlers := registry_new;
     s2b_allowed_ranges := [] |}.

Definition check_allowed_range_capacity (self : Stage2Builder) : result Stage2ConfigError unit :=
  if decide (MAX_ALLOWED_RANGES <= length (s2b_allowed_ranges self))%nat
  then Err TooManyAllowedRanges else Ok tt.

Definition track_allowed_range (self : Stage2Builder) (range : Stage2Range) :
    outcome Stage2Builder :=
  let! l := arrayvec_push MAX_ALLOWED_RANGES range (s2b_allowed_ranges self) in
  Ret {| s2b_idmap := s2b_idmap self;
         s2b_memory_access_handlers := s2b_memory_access_handlers self;
         s2b_allowed_ranges := l |}.

Definition check_no_registered_overlap (self : Stage2Builder) (range : Stage2Range) :
    result Stage2ConfigError unit :=
  if existsb (fun region => overlaps_range region range)
       (regions (s2b_memory_access_handlers self))
  then Err AllowedRangeOverlapsMemoryAccessHandler else Ok tt.

Definition check_no_allowed_overlap (self : Stage2Builder) (range : Stage2Range) :
    result Stage2ConfigError unit :=
  if existsb (fun existing => overlaps range existing) (s2b_allowed_ranges self)
  then Err AllowedRangeOverlap else Ok tt.

(** The checks of [allow_range] up to the call of [map_range]: the range to
    map and its bounds as [usize]. *)
Definition allow_range_checks (self : Stage2Builder) (base_ipa : u64) (size : usize) :
    result Stage2ConfigError (Stage2Range * usize * usize) :=
  let? range := Stage2Range_new base_ipa size in
  let? _ := check_allowed_range_capacity self in
  let? _ := check_no_allowed_overlap self range in
  let? _ := check_no_registered_overlap self range in
  let? s := usize_try_from_u64 base_ipa in
  let? e := usize_try_from_u64 (sr_end_ipa range) in
  Ok (range, s, e).

(** [&mut self] methods return the builder they leave behind beside their
    [Result]. *)
Definition allow_range (self : Stage2Builder) (base_ipa : u64) (size : usize)
    (attributes : Attributes) : outcome (Stage2Builder * result Stage2ConfigError unit) :=
  match allow_range_checks self base_ipa size with
  | Err e => Ret (self, Err e)
  | Ok (range, s, e) =>
      let '(idmap, r) := idmap_map_range (s2b_idmap self) s e attributes in
      let self := {| s2b_idmap := idmap;
                     s2b_memory_access_handlers := s2b_memory_access_handlers self;
                     s2b_allowed_ranges := s2b_allowed_ranges self |} in
      match r with
      | Err e => Ret (self, Err (MapRange e))
      | Ok _ => let! self := track_allowed_range self range in Ret (self, Ok tt)
      end
  end.

Definition handle_range (self : Stage2Builder) (base_ipa : u64) (size : usize)
    (handler : MemoryAccessHandler) : outcome (Stage2Builder * result Stage2ConfigError unit) :=
  match (let? range := Stage2Range_new base_ipa size in
         let? _ := check_no_allowed_overlap self range in Ok range) with
  | Err e => Ret (self, Err e)
  | Ok range =>
      let! r := register (s2b_memory_access_handlers self)
                  (MemoryAccessRegion_new range handler) in
      match r with
      | Err e => Ret (self, Err e)
      | Ok registry =>
          Ret ({| s2b_idmap := s2b_idmap self; s2b_memory_access_handlers := registry;
                  s2b_allowed_ranges := s2b_allowed_ranges self |}, Ok tt)
      end
  end.

Definition build (self : Stage2Builder) : Stage2Config :=
  {| s2c_idmap := s2b_idmap self;
     s2c_memory_access_handlers := s2b_memory_access_handlers self |}.

(** ** Page rounding *)

Definition align_down_to_page (address : usize) : usize := address / PAGE_SIZE * PAGE_SIZE.
Definition align_up_to_page (address : usize) : outcome usize :=
  next_multiple_of address PAGE_SIZE.
Definition to_ipa (address : usize) : outcome u64 :=
  expect (u64_try_from_usize address) "IPA should fit in u64".

(** ** Well-formed ranges *)

(** [b], [s], [e] are the base, size and end of a validated range. *)
Definition range_ok (b s e : Z) : Prop :=
  0 <= b /\ 0 < s /\ (PAGE_SIZE | b) /\ (PAGE_SIZE | s) /\ e = b + s /\ e <= U64_MAX.

Lemma page_multiple x : is_multiple_of x PAGE_SIZE = true <-> (PAGE_SIZE | x).
Proof. by apply is_multiple_of_spec. Qed.

Lemma checked_range_end_spec b s :
  0 <= b -> is_u64 s ->
  checked_range_end b s = if b + s <=? U64_MAX then Ok (b + s) else Err RangeEndOverflow.
Proof.
  intros Hb Hs. unfold checked_range_end, u64_try_from_usize, in_range in *.
  rewrite (proj2 (Z.leb_le s U64_MAX)) by (unfold U64_MAX; lia). simpl.
  unfold checked_add. by destruct (_ <=? _).
Qed.

Lemma Stage2Range_new_spec b s :
  is_u64 b -> is_u64 s ->
  match Stage2Range_new b s with
  | Ok r => r = mkStage2Range b s (b + s) /\ range_ok b s (b + s)
  | Err RangeBaseNotPageAligned => ~ (PAGE_SIZE | b)
  | Err EmptyRange => (PAGE_SIZE | b) /\ s = 0
  | Err RangeSizeNotPageMultiple => (PAGE_SIZE | b) /\ s <> 0 /\ ~ (PAGE_SIZE | s)
  | Err RangeEndOverflow => (PAGE_SIZE | b) /\ (PAGE_SIZE | s) /\ U64_MAX < b + s
  | Err _ => False
  end.
Proof.
  intros Hb Hs. unfold Stage2Range_new, validate_range, STAGE2_PAGE_SIZE.
  rewrite !checked_range_end_spec by (unfold in_range in *; lia).
  pose proof (page_multiple b) as Hpb. pose proof (page_multiple s) as Hps.
  destruct (is_multiple_of b PAGE_SIZE); simpl; [|naive_solver].
  destruct (Z.eqb_spec s 0); simpl; [naive_solver|].
  destruct (is_multiple_of s PAGE_SIZE); simpl; [|naive_solver].
  unfold range_ok, in_range in *.
  destruct (Z.leb_spec (b + s) U64_MAX); simpl; naive_solver lia.
Qed.

Lemma Stage2Range_new_Ok b s r :
  is_u64 b -> is_u64 s -> Stage2Range_new b s = Ok r ->
  r = mkStage2Range b s (b + s) /\ range_ok b s (b + s).
Proof.
  intros Hb Hs Hr. pose proof (Stage2Range_new_spec b s Hb Hs) as H. by rewrite Hr in H.
Qed.

Lemma page_ranges_overlap_spec a b c d :
  a < b -> c < d ->
  page_ranges_overlap a b c d = true <-> exists x, a <= x < b /\ c <= x < d.
Proof.
  intros Hab Hcd. unfold page_ranges_overlap.
  destruct (Z.leb_spec a c); rewrite Z.ltb_lt.
  - split; [intros; exists c; lia|intros (x & ? & ?); lia].
  - split; [intros; exists a; lia|intros (x & ? & ?); lia].
Qed.

Lemma page_ranges_overlap_false a b c d :
  a < b -> c < d -> page_ranges_overlap a b c d = false <-> b <= c \/ d <= a.
Proof.
  intros Hab Hcd. unfold page_ranges_overlap.
  destruct (Z.leb_spec a c); rewrite Z.ltb_ge; lia.
Qed.

(** ** The registry invariant *)

Definition region_ok (r : MemoryAccessRegion) : Prop :=
  range_ok (mar_base_ipa r) (mar_size r) (mar_end_ipa r).
Definition precedes (x y : MemoryAccessRegion) : Prop := mar_end_ipa x <= mar_base_ipa y.
Definition covers (r : MemoryAccessRegion) (ipa : Z) : Prop :=
  mar_base_ipa r <= ipa < mar_end_ipa r.

Definition registry_wf (reg : MemoryAccessHandlerRegistry) : Prop :=
  Forall region_ok (regions reg) /\ StronglySorted precedes (regions reg) /\
  (length (regions reg) <= MAX_MEMORY_ACCESS_HANDLERS)%nat.

Lemma registry_new_wf : registry_wf registry_new.
Proof. split_and!; [constructor..|simpl; lia]. Qed.

Lemma end_ipa_wf r : region_ok r -> end_ipa r = mar_end_ipa r.
Proof.
  intros (? & ? & ? & ? & He & ?). unfold end_ipa.
  rewrite checked_range_end_spec by (unfold in_range, U64_MAX in *; lia).
  rewrite (proj2 (Z.leb_le _ _)) by lia. done.
Qed.

(** The comparator of [find] is ordered along a well-formed registry. *)
Lemma find_cmp_ordered reg ipa i j x y :
  registry_wf reg -> (i <= j)%nat -> regions reg !! i = Some x -> regions reg !! j = Some y ->
  (rank (find_cmp ipa x) <= rank (find_cmp ipa y))%nat.
Proof.
  intros (Hok & Hs & _) Hij Hx Hy.
  pose proof (Forall_lookup_1 _ _ _ _ Hok Hx) as Hxo.
  pose proof (Forall_lookup_1 _ _ _ _ Hok Hy) as Hyo.
  destruct (decide (i = j)) as [->|Hne]; [naive_solver|].
  pose proof (sorted_lookup _ _ i j x y Hs ltac:(lia) Hx Hy) as Hp.
  unfold find_cmp. rewrite !end_ipa_wf by done.
  destruct Hxo as (_ & ? & _ & _ & ? & _), Hyo as (_ & ? & _ & _ & ? & _).
  unfold precedes in Hp.
  repeat match goal with |- context [?a <? ?b] => destruct (Z.ltb_spec a b) end;
  repeat match goal with |- context [?a <=? ?b] => destruct (Z.leb_spec a b) end;
    simpl; lia.
Qed.

Lemma find_cmp_Eq r ipa : region_ok r -> find_cmp ipa r = Eq <-> covers r ipa.
Proof.
  intros Hr. unfold find_cmp, covers. rewrite end_ipa_wf by done.
  destruct (Z.ltb_spec ipa (mar_base_ipa r)), (Z.leb_spec (mar_end_ipa r) ipa); naive_solver lia.
Qed.

Lemma find_wf reg ipa :
  registry_wf reg ->
  match find reg ipa with
  | Ret (Some m) => mahm_region m ∈ regions reg /\ covers (mahm_region m) ipa /\
      mahm_offset m = ipa - mar_base_ipa (mahm_region m)
  | Ret None => forall r, r ∈ regions reg -> ~ covers r ipa
  | Panic _ => False
  end.
Proof.
  intros Hwf. unfold find. pose proof Hwf as (Hok & _).
  pose proof (binary_search_by_spec (find_cmp ipa) (regions reg)
                (fun i j x y => find_cmp_ordered reg ipa i j x y Hwf)) as Hs.
  destruct (binary_search_by _ _) as [i|i].
  - destruct Hs as (r & Hr & Heq). rewrite Hr.
    pose proof (Forall_lookup_1 _ _ _ _ Hok Hr) as Hro.
    apply find_cmp_Eq in Heq; [|done]. unfold offset_of, sub64.
    rewrite (proj2 (Z.leb_le _ _)) by (unfold covers in *; lia). simpl.
    split_and!; [by eapply list_elem_of_lookup_2|done..].
  - destruct Hs as [_ Hs]. intros r [j Hj]%list_elem_of_lookup Hc.
    apply find_cmp_Eq in Hc; [|by eapply Forall_lookup_1].
    specialize (Hs j r Hj). rewrite Hc in Hs. by destruct (decide (j < i)%nat).
Qed.

(** Two regions of a well-formed registry that share an address are one. *)
Lemma registry_covers_unique reg r1 r2 ipa :
  registry_wf reg -> r1 ∈ regions reg -> r2 ∈ regions reg ->
  covers r1 ipa -> covers r2 ipa -> r1 = r2.
Proof.
  intros (_ & Hs & _) [i Hi]%list_elem_of_lookup [j Hj]%list_elem_of_lookup H1 H2.
  destruct (lt_eq_lt_dec i j) as [[Hlt|<-]|Hlt]; [|congruence|];
    pose proof (sorted_lookup _ _ _ _ _ _ Hs Hlt ltac:(eassumption) ltac:(eassumption));
    unfold precedes, covers in *; lia.
Qed.

(** ** Registration *)

Definition overlaps_region (r existing : MemoryAccessRegion) : bool :=
  page_ranges_overlap (mar_base_ipa r) (mar_end_ipa r)
    (mar_base_ipa existing) (mar_end_ipa existing).

Lemma region_ok_lt r : region_ok r -> mar_base_ipa r < mar_end_ipa r.
Proof. intros (? & ? & ? & ? & ? & ?). lia. Qed.

(** Inserting a disjoint region at its partition point keeps the table
    sorted. *)
Lemma insert_sorted (l : list MemoryAccessRegion) r :
  let n := partition_point (fun x => mar_base_ipa x <? mar_base_ipa r) l in
  Forall region_ok l -> StronglySorted precedes l -> region_ok r ->
  (forall x, x ∈ l -> overlaps_region r x = false) ->
  (n <= length l)%nat /\ StronglySorted precedes (take n l ++ r :: drop n l).
Proof.
  intros n Hok Hs Hr Hno.
  destruct (partition_point_spec (fun x => mar_base_ipa x <? mar_base_ipa r) l) as [Hn Hp].
  { intros i j x y Hij Hx Hy. rewrite !Z.ltb_lt. destruct (decide (i = j)) as [->|]; [naive_solver|].
    pose proof (sorted_lookup _ _ i j x y Hs ltac:(lia) Hx Hy).
    pose proof (region_ok_lt x (Forall_lookup_1 _ _ _ _ Hok Hx)). unfold precedes in *. lia. }
  fold n in Hn, Hp. split; [done|].
  assert (Hdis : forall i x, l !! i = Some x -> precedes r x \/ precedes x r).
  { intros i x Hx. pose proof (region_ok_lt x (Forall_lookup_1 _ _ _ _ Hok Hx)).
    pose proof (region_ok_lt r Hr). specialize (Hno x (list_elem_of_lookup_2 _ _ _ Hx)).
    unfold overlaps_region in Hno. by apply page_ranges_overlap_false in Hno. }
  assert (Hbase : forall i x, l !! i = Some x -> mar_base_ipa x < mar_end_ipa x).
  { intros i x Hx. by apply region_ok_lt, (Forall_lookup_1 _ _ _ _ Hok Hx). }
  pose proof (region_ok_lt r Hr) as Hrlt.
  assert (Hlo : forall x, x ∈ take n l -> precedes x r).
  { intros x (i & Hi & Hx)%elem_of_take_index. specialize (Hp i x Hx).
    rewrite bool_decide_eq_true_2, Z.ltb_lt in Hp by lia.
    specialize (Hdis i x Hx). specialize (Hbase i x Hx). unfold precedes in *. lia. }
  assert (Hhi : forall x, x ∈ drop n l -> precedes r x).
  { intros x (i & Hi & Hx)%elem_of_drop_index. specialize (Hp i x Hx).
    rewrite bool_decide_eq_false_2, Z.ltb_ge in Hp by lia.
    specialize (Hdis i x Hx). specialize (Hbase i x Hx). unfold precedes in *. lia. }
  rewrite <- (take_drop n l) in Hs. apply StronglySorted_app in Hs as (Hc & Ht & Hd).
  apply StronglySorted_app. split_and!; [|done|].
  - intros x y Hx [->|Hy]%elem_of_cons; eauto.
  - apply StronglySorted_cons. split; [|done].
    apply Forall_forall. intros x Hx. apply Hhi. by rewrite ?list_elem_of_In.
Qed.

Lemma register_spec reg r :
  registry_wf reg -> region_ok r ->
  match register reg r with
  | Ret (Ok reg') => registry_wf reg' /\ regions reg' ≡ₚ r :: regions reg /\
      (length (regions reg) < MAX_MEMORY_ACCESS_HANDLERS)%nat /\
      forall x, x ∈ regions reg -> overlaps_region r x = false
  | Ret (Err TooManyMemoryAccessHandlerRegions) =>
      length (regions reg) = MAX_MEMORY_ACCESS_HANDLERS
  | Ret (Err MemoryAccessHandlerRangeOverlap) =>
      (length (regions reg) < MAX_MEMORY_ACCESS_HANDLERS)%nat /\
      exists x, x ∈ regions reg /\ overlaps_region r x = true
  | Ret (Err _) | Panic _ => False
  end.
Proof.
  intros (Hok & Hs & Hlen) Hr. unfold register.
  case_decide as Hcap; [lia|]. fold (overlaps_region r).
  destruct (existsb (overlaps_region r) (regions reg)) eqn:Hex.
  { apply existsb_true in Hex. split; [lia|done]. }
  rewrite existsb_false in Hex.
  destruct (insert_sorted (regions reg) r Hok Hs Hr Hex) as [Hn Hsort].
  set (n := partition_point _ _) in *. unfold arrayvec_insert.
  rewrite decide_False by lia. rewrite decide_False by lia. simpl.
  assert (Hperm : take n (regions reg) ++ r :: drop n (regions reg) ≡ₚ r :: regions reg).
  { rewrite <- Permutation_middle, take_drop. done. }
  split_and!; [|done|lia|done].
  split_and!; simpl; [|done|].
  - rewrite Hperm. by constructor.
  - rewrite (Permutation_length Hperm). simpl. lia.
Qed.

(** ** The builder invariant *)

Definition stage2_range_ok (r : Stage2Range) : Prop :=
  range_ok (sr_base_ipa r) (sr_size r) (sr_end_ipa r).
Definition in_allowed (r : Stage2Range) (ipa : Z) : Prop :=
  sr_base_ipa r <= ipa < sr_end_ipa r.

(** Validated ranges only, none overlapping another, no allowed range
    touching a handled one, and both tables within their capacity. *)
Record builder_wf (b : Stage2Builder) : Prop := {
  bwf_registry : registry_wf (s2b_memory_access_handlers b);
  bwf_allowed : Forall stage2_range_ok (s2b_allowed_ranges b);
  bwf_disjoint : forall i j x y ipa, s2b_allowed_ranges b !! i = Some x ->
    s2b_allowed_ranges b !! j = Some y -> in_allowed x ipa -> in_allowed y ipa -> i = j;
  bwf_apart : forall x r ipa, x ∈ s2b_allowed_ranges b ->
    r ∈ regions (s2b_memory_access_handlers b) -> in_allowed x ipa -> ~ covers r ipa;
  bwf_capacity : (length (s2b_allowed_ranges b) <= MAX_ALLOWED_RANGES)%nat;
}.

Lemma Stage2Builder_new_wf : builder_wf Stage2Builder_new.
Proof.
  constructor; simpl; [apply registry_new_wf|constructor|done| |unfold MAX_ALLOWED_RANGES; lia].
  intros x r ipa Hx. by apply not_elem_of_nil in Hx.
Qed.

Lemma check_no_allowed_overlap_Ok b r :
  Forall stage2_range_ok (s2b_allowed_ranges b) -> stage2_range_ok r ->
  check_no_allowed_overlap b r = Ok tt <->
  forall x ipa, x ∈ s2b_allowed_ranges b -> in_allowed r ipa -> ~ in_allowed x ipa.
Proof.
  intros Hall Hr. unfold check_no_allowed_overlap, overlaps, in_allowed.
  destruct Hr as (? & ? & ? & ? & Hre & ?). split.
  - destruct (existsb _ _) eqn:E; [done|]. rewrite existsb_false in E. intros _ x ipa Hx.
    specialize (E x Hx). rewrite Forall_forall in Hall.
    destruct (Hall x) as (? & ? & ? & ? & ? & ?); [by apply list_elem_of_In|].
    apply page_ranges_overlap_false in E; lia.
  - intros Hno. destruct (existsb _ _) eqn:E; [|done].
    apply existsb_true in E as (x & Hx & E). rewrite Forall_forall in Hall.
    destruct (Hall x) as (? & ? & ? & ? & ? & ?); [by apply list_elem_of_In|].
    apply page_ranges_overlap_spec in E as (ipa & ? & ?); [|lia..].
    by destruct (Hno x ipa Hx).
Qed.

Lemma check_no_registered_overlap_Ok b r :
  registry_wf (s2b_memory_access_handlers b) -> stage2_range_ok r ->
  check_no_registered_overlap b r = Ok tt ->
  forall x ipa, x ∈ regions (s2b_memory_access_handlers b) -> in_allowed r ipa -> ~ covers x ipa.
Proof.
  intros (Hall & _) (? & ? & ? & ? & Hre & ?). unfold check_no_registered_overlap, in_allowed, covers.
  destruct (existsb _ _) eqn:E; [done|]. rewrite existsb_false in E. intros _ x ipa Hx.
  specialize (E x Hx). rewrite Forall_forall in Hall.
  destruct (Hall x) as (? & ? & ? & ? & ? & ?); [by apply list_elem_of_In|].
  apply page_ranges_overlap_false in E; lia.
Qed.

(** What the checks of [allow_range] establish. *)
Lemma allow_range_checks_Ok b base size range s e :
  builder_wf b -> is_u64 base -> is_u64 size ->
  allow_range_checks b base size = Ok (range, s, e) ->
  range = mkStage2Range base size (base + size) /\ s = base /\ e = base + size /\
  stage2_range_ok range /\
  (length (s2b_allowed_ranges b) < MAX_ALLOWED_RANGES)%nat /\
  (forall x ipa, x ∈ s2b_allowed_ranges b -> in_allowed range ipa -> ~ in_allowed x ipa) /\
  (forall x ipa, x ∈ regions (s2b_memory_access_handlers b) -> in_allowed range ipa -> ~ covers x ipa).
Proof.
  intros Hwf Hb Hs. unfold allow_range_checks. rewrite bindE_Ok.
  intros (r & Hr & Hk). apply Stage2Range_new_Ok in Hr as [-> Hro]; [|done..].
  rewrite bindE_Ok in Hk. destruct Hk as ([] & Hcap & Hk).
  rewrite bindE_Ok in Hk. destruct Hk as ([] & Hal & Hk).
  rewrite bindE_Ok in Hk. destruct Hk as ([] & Hre & Hk).
  unfold check_allowed_range_capacity in Hcap. case_decide; [done|].
  rewrite check_no_allowed_overlap_Ok in Hal by (apply Hwf || done).
  pose proof (check_no_registered_overlap_Ok b (mkStage2Range _ _ _) (bwf_registry _ Hwf) Hro Hre).
  unfold usize_try_from_u64 in Hk. simpl in Hk.
  destruct (base <=? U64_MAX); [|done]. simpl in Hk.
  destruct (base + size <=? U64_MAX); [|done]. simpl in Hk. injection Hk as <- <- <-.
  split_and!; try done. lia.
Qed.

Lemma builder_wf_allow b range t :
  builder_wf b -> stage2_range_ok range ->
  (length (s2b_allowed_ranges b) < MAX_ALLOWED_RANGES)%nat ->
  (forall x ipa, x ∈ s2b_allowed_ranges b -> in_allowed range ipa -> ~ in_allowed x ipa) ->
  (forall x ipa, x ∈ regions (s2b_memory_access_handlers b) -> in_allowed range ipa -> ~ covers x ipa) ->
  builder_wf (mkStage2Builder t (s2b_memory_access_handlers b) (s2b_allowed_ranges b ++ [range])).
Proof.
  intros [H1 H2 H3 H4 H5] Hr Hcap Hno Hnr. constructor; simpl; [done| | | |].
  - apply Forall_app. auto.
  - intros i j x y ipa Hx Hy Hix Hiy.
    apply lookup_app_Some in Hx as [Hx|[? Hx]], Hy as [Hy|[? Hy]];
      repeat match goal with H : [_] !! _ = Some _ |- _ =>
        apply list_lookup_singleton_Some in H as [? <-] end; [eauto| | |lia].
    + by destruct (Hno x ipa (list_elem_of_lookup_2 _ _ _ Hx) Hiy).
    + by destruct (Hno y ipa (list_elem_of_lookup_2 _ _ _ Hy) Hix).
  - intros x r ipa [Hx|Hx]%elem_of_app Hreg; [eauto|].
    apply list_elem_of_singleton in Hx as ->. eauto.
  - rewrite length_app. simpl. lia.
Qed.

(** [allow_range] never panics, keeps the invariant, and changes the tables
    only when it succeeds. *)
Lemma allow_range_spec b base size attrs :
  builder_wf b -> is_u64 base -> is_u64 size ->
  match allow_range b base size attrs with
  | Ret (b', Ok _) => builder_wf b' /\ range_ok base size (base + size) /\
      idmap_map_range (s2b_idmap b) base (base + size) attrs = (s2b_idmap b', Ok tt) /\
      s2b_memory_access_handlers b' = s2b_memory_access_handlers b /\
      s2b_allowed_ranges b' = s2b_allowed_ranges b ++ [mkStage2Range base size (base + size)]
  | Ret (b', Err _) => builder_wf b' /\
      s2b_memory_access_handlers b' = s2b_memory_access_handlers b /\
      s2b_allowed_ranges b' = s2b_allowed_ranges b
  | Panic _ => False
  end.
Proof.
  intros Hwf Hb Hs. unfold allow_range.
  destruct (allow_range_checks b base size) as [[[range s] e]|err] eqn:Hc; [|done].
  apply allow_range_checks_Ok in Hc as (-> & -> & -> & Hr & Hcap & Hno & Hnr); [|done..].
  destruct (idmap_map_range _ _ _ _) as [t [[]|e]] eqn:Hm; simpl.
  - unfold track_allowed_range, arrayvec_push. simpl. rewrite decide_False by lia. simpl.
    split_and!; try done. by apply builder_wf_allow.
  - split_and!; try done. by destruct Hwf as [H1 H2 H3 H4 H5]; constructor.
Qed.

(** [handle_range] never panics and keeps the invariant; success adds
    exactly the described region. *)
Lemma handle_range_spec b base size h :
  builder_wf b -> is_u64 base -> is_u64 size ->
  match handle_range b base size h with
  | Ret (b', Ok _) => builder_wf b' /\ s2b_idmap b' = s2b_idmap b /\
      s2b_allowed_ranges b' = s2b_allowed_ranges b /\
      regions (s2b_memory_access_handlers b') ≡ₚ
        mkMemoryAccessRegion base size h (base + size) :: regions (s2b_memory_access_handlers b)
  | Ret (b', Err _) => b' = b
  | Panic _ => False
  end.
Proof.
  intros Hwf Hb Hs. unfold handle_range.
  destruct (bindE _ _) as [range|err] eqn:Hc; [|done].
  rewrite bindE_Ok in Hc. destruct Hc as (r & Hr & Hc).
  apply Stage2Range_new_Ok in Hr as [-> Hro]; [|done..].
  rewrite bindE_Ok in Hc. destruct Hc as ([] & Hal & [= <-]).
  rewrite check_no_allowed_overlap_Ok in Hal by (apply Hwf || done).
  set (region := MemoryAccessRegion_new _ _).
  pose proof (register_spec _ region (bwf_registry _ Hwf) Hro) as Hreg.
  destruct (register _ region) as [[reg'|err]|msg]; [|done..]. simpl.
  destruct Hreg as (Hrwf & Hperm & _ & _). split_and!; try done.
  destruct Hwf as [H1 H2 H3 H4 H5]. constructor; simpl; try done.
  intros x y ipa Hx. rewrite Hperm. intros [->|Hy]%elem_of_cons; [|eauto].
  intros Hix Hcov. by apply (Hal x ipa Hx).
Qed.

(** ** Calls that succeed *)

Lemma Stage2Range_new_ok b s :
  range_ok b s (b + s) -> Stage2Range_new b s = Ok (mkStage2Range b s (b + s)).
Proof.
  intros (Hb & Hs & Hpb & Hps & _ & Hm).
  assert (Hu : is_u64 b /\ is_u64 s) by (unfold in_range, U64_MAX in *; lia).
  pose proof (Stage2Range_new_spec b s (proj1 Hu) (proj2 Hu)) as H.
  destruct (Stage2Range_new b s) as [r|[]]; try done; naive_solver lia.
Qed.

Definition apart (a b c d : Z) : Prop := a < b /\ c < d /\ (b <= c \/ d <= a).

Lemma apart_overlap a b c d : apart a b c d -> page_ranges_overlap a b c d = false.
Proof. intros (? & ? & ?). by apply page_ranges_overlap_false. Qed.

Lemma check_no_allowed_overlap_apart b r :
  Forall (fun x => apart (sr_base_ipa r) (sr_end_ipa r) (sr_base_ipa x) (sr_end_ipa x))
    (s2b_allowed_ranges b) ->
  check_no_allowed_overlap b r = Ok tt.
Proof.
  intros Hf. unfold check_no_allowed_overlap. rewrite (proj2 (existsb_false _ _)); [done|].
  rewrite Forall_forall in Hf. intros x Hx. by apply apart_overlap, Hf, list_elem_of_In.
Qed.

Lemma allow_range_ok b base size a t' :
  range_ok base size (base + size) ->
  (length (s2b_allowed_ranges b) < MAX_ALLOWED_RANGES)%nat ->
  Forall (fun x => apart base (base + size) (sr_base_ipa x) (sr_end_ipa x))
    (s2b_allowed_ranges b) ->
  Forall (fun x => apart (mar_base_ipa x) (mar_end_ipa x) base (base + size))
    (regions (s2b_memory_access_handlers b)) ->
  idmap_map_range (s2b_idmap b) base (base + size) a = (t', Ok tt) ->
  allow_range b base size a =
    Ret (mkStage2Builder t' (s2b_memory_access_handlers b)
           (s2b_allowed_ranges b ++ [mkStage2Range base size (base + size)]), Ok tt).
Proof.
  intros Hr Hcap Hal Hre Hm. unfold allow_range, allow_range_checks.
  rewrite Stage2Range_new_ok by done. simpl.
  unfold check_allowed_range_capacity. rewrite decide_False by lia. simpl.
  rewrite check_no_allowed_overlap_apart by done. simpl.
  unfold check_no_registered_overlap. rewrite (proj2 (existsb_false _ _)).
  2: { rewrite Forall_forall in Hre. intros x Hx. by apply apart_overlap, Hre, list_elem_of_In. }
  destruct Hr as (? & ? & ? & ? & ? & ?). unfold usize_try_from_u64. simpl.
  rewrite !(proj2 (Z.leb_le _ _)) by lia. simpl. rewrite Hm.
  unfold track_allowed_range, arrayvec_push. simpl. by rewrite decide_False by lia.
Qed.

Lemma handle_range_first b base size h :
  range_ok base size (base + size) ->
  s2b_memory_access_handlers b = registry_new ->
  Forall (fun x => apart base (base + size) (sr_base_ipa x) (sr_end_ipa x))
    (s2b_allowed_ranges b) ->
  handle_range b base size h =
    Ret (mkStage2Builder (s2b_idmap b)
           (mkRegistry [mkMemoryAccessRegion base size h (base + size)])
           (s2b_allowed_ranges b), Ok tt).
Proof.
  intros Hr Hreg Hal. unfold handle_range. rewrite Stage2Range_new_ok by done. simpl.
  rewrite check_no_allowed_overlap_apart by done. by rewrite Hreg.
Qed.

Lemma align_up_to_page_spec x :
  0 <= x -> x + PAGE_SIZE - 1 <= U64_MAX ->
  align_up_to_page x = Ret ((x + PAGE_SIZE - 1) / PAGE_SIZE * PAGE_SIZE).
Proof.
  intros Hx Hm. unfold align_up_to_page, next_multiple_of, PAGE_SIZE in *. simpl.
  pose proof (Z.div_mod x 4096 ltac:(lia)). pose proof (Z.mod_pos_bound x 4096 ltac:(lia)).
  destruct (Z.eqb_spec (x mod 4096) 0).
  - f_equal. replace (x + 4096 - 1) with (x / 4096 * 4096 + 4095) by lia.
    rewrite Z.div_add_l by lia. change (4095 / 4096) with 0. lia.
  - unfold add64. rewrite (proj2 (Z.leb_le _ _)) by lia. f_equal.
    replace (x + 4096 - 1) with ((x / 4096 + 1) * 4096 + (x mod 4096 - 1)) by lia.
    rewrite Z.div_add_l, (Z.div_small (x mod 4096 - 1)) by lia. lia.
Qed.

(** ** Configuring a builder: the policy it implements *)

(** A call a platform makes in [configure_memory_access]. *)
Inductive config_call : Type :=
| CallAllow (base_ipa : u64) (size : usize) (attributes : Attributes)
| CallHandle (base_ipa : u64) (size : usize) (handler : MemoryAccessHandler).

Definition do_call (b : Stage2Builder) (c : config_call) :
    outcome (Stage2Builder * result Stage2ConfigError unit) :=
  match c with
  | CallAllow base size a => allow_range b base size a
  | CallHandle base size h => handle_range b base size h
  end.

(** The calls in order, each with the [?] operator. *)
Fixpoint do_calls (b : Stage2Builder) (cs : list config_call) :
    outcome (Stage2Builder * result Stage2ConfigError unit) :=
  match cs with
  | [] => Ret (b, Ok tt)
  | c :: cs =>
      let*? b := do_call b c in do_calls b cs
  end.

Definition call_args_ok (c : config_call) : Prop :=
  match c with
  | CallAllow base size _ | CallHandle base size _ => is_u64 base /\ is_u64 size
  end.

Lemma do_call_wf b c :
  builder_wf b -> call_args_ok c ->
  exists b' r, do_call b c = Ret (b', r) /\ builder_wf b'.
Proof.
  intros Hwf Hc. destruct c as [base size a|base size h]; destruct Hc as [Hb Hs]; simpl.
  - pose proof (allow_range_spec b base size a Hwf Hb Hs) as H.
    destruct (allow_range _ _ _ _) as [[b' [|]]|]; naive_solver.
  - pose proof (handle_range_spec b base size h Hwf Hb Hs) as H.
    destruct (handle_range _ _ _ _) as [[b' [|]]|]; naive_solver.
Qed.

(** [x] lies in the byte range of [c]. *)
Definition call_covers (c : config_call) (x : Z) : Prop :=
  match c with
  | CallAllow base size _ | CallHandle base size _ => base <= x < base + size
  end.

(** The tables of [b] are those of the calls [cs]. *)
Record represents (b : Stage2Builder) (cs : list config_call) : Prop := {
  rep_wf : builder_wf b;
  rep_map : forall x a, idmap_translate (s2b_idmap b) x = Some a <->
    exists base size, CallAllow base size a ∈ cs /\ base <= x < base + size;
  rep_allowed : forall x a, idmap_translate (s2b_idmap b) x = Some a ->
    exists r, r ∈ s2b_allowed_ranges b /\ in_allowed r x;
  rep_regions : forall r, r ∈ regions (s2b_memory_access_handlers b) <->
    exists base size h, CallHandle base size h ∈ cs /\
      r = mkMemoryAccessRegion base size h (base + size);
}.

Context {Laws : PageTableLaws}.

Lemma represents_new : represents Stage2Builder_new [].
Proof.
  constructor; [apply Stage2Builder_new_wf|..]; simpl.
  - intros x a. rewrite translate_new. split; [done|]. intros (? & ? & ?%not_elem_of_nil & _). done.
  - intros x a. by rewrite translate_new.
  - intros r. rewrite elem_of_nil. split; [done|]. intros (? & ? & ? & ?%not_elem_of_nil & _). done.
Qed.

Lemma represents_allow b cs base size a b' :
  represents b cs -> is_u64 base -> is_u64 size ->
  allow_range b base size a = Ret (b', Ok tt) ->
  represents b' (cs ++ [CallAllow base size a]).
Proof.
  intros [Hwf Hmap Hal Hreg] Hb Hs Hc.
  pose proof (allow_range_spec b base size a Hwf Hb Hs) as H. rewrite Hc in H.
  destruct H as (Hwf' & (? & ? & ? & ? & _ & ?) & Hm & Hh & Ha).
  pose proof (fun x => translate_map_range _ _ base (base + size) a x
    ltac:(done) ltac:(by apply Z.divide_add_r) ltac:(lia) Hm) as Htr.
  assert (Hnew : mkStage2Range base size (base + size) ∈ s2b_allowed_ranges b').
  { rewrite Ha. apply elem_of_app. right. by apply list_elem_of_singleton. }
  constructor; [done|..].
  - intros x a'. rewrite Htr. setoid_rewrite elem_of_app. setoid_rewrite list_elem_of_singleton.
    case_bool_decide as Hx; [|rewrite Hmap; naive_solver].
    split; [intros [= <-]; naive_solver|]. intros (b0 & s0 & [Hin|[= -> -> ->]] & Hx'); [|done].
    destruct (Hal x a') as (r & Hr & Hir); [apply Hmap; eauto|].
    apply list_elem_of_lookup in Hr as [i Hi].
    assert (Hn : s2b_allowed_ranges b' !! length (s2b_allowed_ranges b) =
                 Some (mkStage2Range base size (base + size))).
    { rewrite Ha. by apply list_lookup_middle. }
    assert (i = length (s2b_allowed_ranges b)); [|apply lookup_lt_Some in Hi; lia].
    refine (bwf_disjoint _ Hwf' _ _ _ _ x _ Hn Hir Hx).
    rewrite Ha. by apply lookup_app_l_Some.
  - intros x a'. rewrite Htr. case_bool_decide as Hx; [by eexists|]. intros Hold.
    destruct (Hal x a' Hold) as (r & Hr & ?). exists r. rewrite Ha, elem_of_app. auto.
  - intros r. rewrite Hh, Hreg. setoid_rewrite elem_of_app. setoid_rewrite list_elem_of_singleton.
    naive_solver.
Qed.

Lemma represents_handle b cs base size h b' :
  represents b cs -> is_u64 base -> is_u64 size ->
  handle_range b base size h = Ret (b', Ok tt) ->
  represents b' (cs ++ [CallHandle base size h]).
Proof.
  intros [Hwf Hmap Hal Hreg] Hb Hs Hc.
  pose proof (handle_range_spec b base size h Hwf Hb Hs) as H. rewrite Hc in H.
  destruct H as (Hwf' & Ht & Ha & Hp). constructor; [done|..].
  - intros x a. rewrite Ht, Hmap. setoid_rewrite elem_of_app.
    setoid_rewrite list_elem_of_singleton. naive_solver.
  - by rewrite Ht, Ha.
  - intros r. rewrite Hp, elem_of_cons, Hreg. setoid_rewrite elem_of_app.
    setoid_rewrite list_elem_of_singleton. naive_solver.
Qed.

Lemma do_calls_represents cs b cs0 b' :
  represents b cs0 -> Forall call_args_ok cs ->
  do_calls b cs = Ret (b', Ok tt) -> represents b' (cs0 ++ cs).
Proof.
  revert b cs0. induction cs as [|c cs IH]; intros b cs0 Hrep Hargs Hrun; simpl in Hrun.
  - injection Hrun as <-. by rewrite app_nil_r.
  - apply Forall_cons_iff in Hargs as [Hc Hargs].
    destruct (do_call b c) as [[b1 [[]|]]|] eqn:Hcall; simpl in Hrun; [|done..].
    replace (cs0 ++ c :: cs) with ((cs0 ++ [c]) ++ cs) by by rewrite <- app_assoc.
    apply (IH b1); [|done..]. destruct c as [base size a|base size h], Hc as [Hb Hs].
    + by apply (represents_allow b).
    + by apply (represents_handle b).
Qed.

(** ** What an access to an address does under a configuration *)

Inductive access : Type :=
| Direct (a : Attributes)
| Emulated (h : MemoryAccessHandler) (offset : u64)
| Denied.

(** The hardware walks the stage-2 table first; an unmapped address traps,
    and the trap handler searches the registry. *)
Definition stage2_access (c : Stage2Config) (x : Z) : access :=
  match idmap_translate (s2c_idmap c) x with
  | Some a => Direct a
  | None =>
      match find (s2c_memory_access_handlers c) x with
      | Ret (Some m) => Emulated (mar_handler (mahm_region m)) (mahm_offset m)
      | _ => Denied
      end
  end.

Lemma represents_access b cs x :
  represents b cs ->
  match stage2_access (build b) x with
  | Direct a => exists base size, CallAllow base size a ∈ cs /\ base <= x < base + size /\
      find (s2b_memory_access_handlers b) x = Ret None
  | Emulated h off => exists base size, CallHandle base size h ∈ cs /\
      base <= x < base + size /\ off = x - base
  | Denied => forall c, c ∈ cs -> ~ call_covers c x
  end.
Proof.
  intros [Hwf Hmap Hal Hreg]. unfold stage2_access. simpl.
  pose proof (find_wf _ x (bwf_registry _ Hwf)) as Hf.
  destruct (idmap_translate (s2b_idmap b) x) as [a|] eqn:Ht.
  - destruct (proj1 (Hmap x a) Ht) as (base & size & Hin & Hx). exists base, size.
    split_and!; try done; try lia.
    destruct (find _ x) as [[m|]|]; [|done..]. destruct Hf as (Hm & Hc & _).
    destruct (Hal x a Ht) as (r & Hr & Hir). by destruct (bwf_apart _ Hwf _ _ _ Hr Hm Hir).
  - destruct (find _ x) as [[m|]|]; [|..|done].
    + destruct Hf as (Hm & Hc & Hoff). apply Hreg in Hm as (base & size & h & Hin & Hm).
      rewrite Hm in *. simpl in *. exists base, size. unfold covers in Hc. simpl in Hc.
      split_and!; [done|lia..|done].
    + intros [base size a|base size h] Hin Hx; simpl in Hx.
      * assert (Hs : idmap_translate (s2b_idmap b) x = Some a) by (apply Hmap; eauto).
        congruence.
      * apply (Hf (mkMemoryAccessRegion base size h (base + size))); [apply Hreg; eauto|done].
Qed.
End Stage2.
Arguments MemoryReadHandler : clear implicits.
Arguments MemoryWriteHandler : clear implicits.
Arguments MemoryAccessHandler : clear implicits.
Arguments MemoryAccessRegion : clear implicits.
Arguments MemoryAccessHandlerRegistry : clear implicits.
Arguments MemoryAccessHandlerMatch : clear implicits.
Arguments Stage2Config PT P : clear implicits.
Arguments Stage2Builder PT P : clear implicits.
Arguments config_call PT P : clear implicits.
Arguments access PT P : clear implicits.

(** ** A page table to run the model on

    A list of mapped intervals, searched from the most recent: it satisfies
    the laws, and it makes the definitions executable. *)

Module ListPT.
Definition table : Type := list (Z * Z * string).

Fixpoint translate (t : table) (x : Z) : option string :=
  match t with
  | [] => None
  | (s, e, a) :: t => if bool_decide (s <= x < e) then Some a else translate t x
  end.

#[export] Instance list_page_table : PageTable := {|
  Attributes := string;
  MapError := unit;
  IdMap := table;
  idmap_new := [];
  idmap_map_range t s e a :=
    if 2 ^ 48 <? e then (t, Err tt) else ((s, e, a) :: t, Ok tt);
  idmap_translate := translate;
  idmap_root_address _ := 0x4701_0000;
  idmap_activate t := t;
|}.

#[export] Instance list_page_table_laws : PageTableLaws.
Proof.
  constructor; [done| |done..]. intros t t' s e a x _ _ _. simpl.
  destruct (2 ^ 48 <? e); [done|]. by intros [= <-].
Qed.

#[export] Instance list_page_table_total : PageTableTotal.
Proof.
  constructor. intros t s e a _ _ _ He. simpl.
  rewrite (proj2 (Z.ltb_ge _ _)) by lia. by eexists.
Qed.
End ListPT.

Import ListPT.

(** ** Properties *)

(** [Stage2Range::new] accepts exactly the page-aligned, non-empty,
    page-multiple ranges that end within the 64-bit address space, records
    their exclusive end, and reports for every other input the first violated
    condition, in the documented order. *)
Theorem range_validation_exact {PT : PageTable} b s :
  is_u64 b -> is_u64 s ->
  match Stage2Range_new b s with
  | Ok r => r = mkStage2Range b s (b + s) /\ range_ok b s (b + s)
  | Err RangeBaseNotPageAligned => ~ (PAGE_SIZE | b)
  | Err EmptyRange => (PAGE_SIZE | b) /\ s = 0
  | Err RangeSizeNotPageMultiple => (PAGE_SIZE | b) /\ s <> 0 /\ ~ (PAGE_SIZE | s)
  | Err RangeEndOverflow => (PAGE_SIZE | b) /\ (PAGE_SIZE | s) /\ U64_MAX < b + s
  | Err _ => False
  end.
Proof. apply Stage2Range_new_spec. Qed.

Lemma range_validation_exact_witness :
  (PAGE_SIZE | U64_MAX - 4095) /\ (PAGE_SIZE | 4096) /\ U64_MAX < U64_MAX - 4095 + 4096.
Proof.
  exact (range_validation_exact (PT := ListPT.list_page_table) (U64_MAX - 4095) 4096
           ltac:(by apply (bool_decide_unpack _); vm_compute)
           ltac:(by apply (bool_decide_unpack _); vm_compute)).
Defined.

(** Registering a handler region in a well-formed registry never panics;
    it fails exactly when the registry is full or the region shares an address
    with a registered one, and otherwise yields a well-formed (sorted,
    disjoint, bounded) registry with that one region added. *)
Theorem register_exact {PT : PageTable} {P : Type} (reg : MemoryAccessHandlerRegistry P) r :
  registry_wf reg -> region_ok r ->
  match register reg r with
  | Ret (Ok reg') => registry_wf reg' /\ regions reg' ≡ₚ r :: regions reg
  | Ret (Err TooManyMemoryAccessHandlerRegions) =>
      length (regions reg) = MAX_MEMORY_ACCESS_HANDLERS
  | Ret (Err MemoryAccessHandlerRangeOverlap) =>
      exists x ipa, x ∈ regions reg /\ covers x ipa /\ covers r ipa
  | Ret (Err _) | Panic _ => False
  end.
Proof.
  intros Hwf Hr. pose proof (register_spec reg r Hwf Hr) as H.
  destruct (register reg r) as [[reg'|[]]|]; try done; [naive_solver|].
  destruct H as (_ & x & Hx & Ho). destruct Hwf as (Hok & _).
  rewrite Forall_forall in Hok.
  apply page_ranges_overlap_spec in Ho as (ipa & ? & ?);
    [by exists x, ipa|by apply region_ok_lt|].
  by apply region_ok_lt, Hok, list_elem_of_In.
Qed.

(** A region with no callbacks, for examples. *)
Definition idle_region (base size : Z) : MemoryAccessRegion unit :=
  mkMemoryAccessRegion base size (mkMemoryAccessHandler None None) (base + size).

Lemma idle_region_ok b s :
  0 <= b -> 0 < s -> b mod 4096 = 0 -> s mod 4096 = 0 -> b + s <= U64_MAX ->
  region_ok (idle_region b s).
Proof. intros. by split_and!; try done; apply Z.mod_divide. Qed.

Lemma register_exact_witness :
  match register (mkRegistry [idle_region 4096 4096]) (idle_region 12288 4096) with
  | Ret (Ok reg') => registry_wf reg' /\
      regions reg' ≡ₚ [idle_region 12288 4096; idle_region 4096 4096]
  | _ => False
  end.
Proof.
  refine (register_exact (PT := ListPT.list_page_table) (mkRegistry [idle_region 4096 4096])
            (idle_region 12288 4096) _ _).
  - split_and!; simpl.
    + apply Forall_singleton. by apply idle_region_ok.
    + repeat constructor.
    + unfold MAX_MEMORY_ACCESS_HANDLERS. lia.
  - by apply idle_region_ok.
Defined.

(** The binary search of [find] is exact on a well-formed registry: it
    never panics, it returns the one region that covers the address, with the
    byte offset from that region's base, and it returns [None] exactly when no
    region covers the address. *)
Theorem find_exact {PT : PageTable} {P : Type} (reg : MemoryAccessHandlerRegistry P) ipa :
  registry_wf reg ->
  match find reg ipa with
  | Ret (Some m) =>
      mahm_offset m = ipa - mar_base_ipa (mahm_region m) /\
      forall r, r ∈ regions reg /\ covers r ipa <-> r = mahm_region m
  | Ret None => forall r, r ∈ regions reg -> ~ covers r ipa
  | Panic _ => False
  end.
Proof.
  intros Hwf. pose proof (find_wf reg ipa Hwf) as H.
  destruct (find reg ipa) as [[m|]|]; [|done..]. destruct H as (Hm & Hc & Ho).
  split; [done|]. intros r. split; [|by intros ->].
  intros [Hr Hcr]. by apply (registry_covers_unique reg r (mahm_region m) ipa).
Qed.

Lemma find_exact_witness :
  match find (mkRegistry [idle_region 4096 4096; idle_region 12288 8192]) 16400 with
  | Ret (Some m) => mahm_offset m = 4112
  | _ => False
  end.
Proof.
  pose proof (find_exact (PT := ListPT.list_page_table)
    (mkRegistry [idle_region 4096 4096; idle_region 12288 8192]) 16400) as H.
  assert (Hwf : registry_wf (mkRegistry [idle_region 4096 4096; idle_region 12288 8192])).
  { split_and!; simpl; [|repeat constructor; done|unfold MAX_MEMORY_ACCESS_HANDLERS; lia].
    by repeat apply List.Forall_cons; try apply idle_region_ok. }
  specialize (H Hwf). vm_compute in H |- *. by destruct H.
Defined.

(** No sequence of [allow_range] and [handle_range] calls on a new builder
    panics, whatever its arguments and wherever it fails; the builder it
    leaves behind satisfies the invariant: validated ranges only, allowed
    ranges pairwise disjoint, none touching a handled range, both tables
    within capacity. *)
Theorem builder_calls_total {PT : PageTable} {P : Type} (cs : list (config_call PT P)) :
  Forall call_args_ok cs ->
  exists b r, do_calls Stage2Builder_new cs = Ret (b, r) /\ builder_wf b.
Proof.
  intros Hargs. generalize (@Stage2Builder_new_wf PT P). generalize (@Stage2Builder_new PT P).
  induction Hargs as [|c cs Hc _ IH]; intros b Hwf; simpl; [by exists b, (Ok tt)|].
  destruct (do_call_wf b c Hwf Hc) as (b' & r & -> & Hwf').
  destruct r as [[]|e]; simpl; [by apply IH|by exists b', (Err e)].
Qed.

(** A configuration for examples: one mapped and one handled page. *)
Definition example_calls : list (config_call ListPT.list_page_table unit) :=
  [CallAllow 0 4096 "device"; CallHandle 4096 4096 (mkMemoryAccessHandler None None)].

Lemma builder_calls_total_witness :
  exists b r, do_calls Stage2Builder_new (example_calls ++ [CallAllow 0 8192 "rw"]) = Ret (b, r) /\
    builder_wf b.
Proof.
  apply builder_calls_total.
  repeat (constructor; [split; by apply (bool_decide_unpack _); vm_compute|]). constructor.
Defined.

(** C5: the configuration built from a successful sequence of calls implements
    exactly the policy those calls state, for every address: an address is
    directly mapped only by an [allow_range] call with those attributes (and
    then has no handler), it is emulated only by the handler of a
    [handle_range] call at the offset from its base, and it is denied exactly
    when no call covers it. *)
Theorem stage2_policy_exact {PT : PageTable} {P : Type} {Laws : PageTableLaws}
    (cs : list (config_call PT P)) b x :
  Forall call_args_ok cs ->
  do_calls Stage2Builder_new cs = Ret (b, Ok tt) ->
  match stage2_access (build b) x with
  | Direct a => exists base size, CallAllow base size a ∈ cs /\ base <= x < base + size /\
      find (s2c_memory_access_handlers (build b)) x = Ret None
  | Emulated h off => exists base size, CallHandle base size h ∈ cs /\
      base <= x < base + size /\ off = x - base
  | Denied => forall c, c ∈ cs -> ~ call_covers c x
  end.
Proof.
  intros Hargs Hrun. apply represents_access.
  exact (do_calls_represents cs _ [] b represents_new Hargs Hrun).
Qed.

Lemma stage2_policy_exact_witness :
  exists b, do_calls Stage2Builder_new example_calls = Ret (b, Ok tt) /\
    stage2_access (build b) 8192 = Denied /\
    forall c, c ∈ example_calls -> ~ call_covers c 8192.
Proof.
  eexists. split; [reflexivity|]. split; [reflexivity|].
  refine (stage2_policy_exact example_calls _ 8192 _ eq_refl).
  repeat (constructor; [split; by apply (bool_decide_unpack _); vm_compute|]). constructor.
Defined.
