(* ===== verification/Exceptions.v ===== *)
(** * Guest register state

    Model of the Rust part of src/src/exceptions.rs: the guest register view that
    joins the volatile frame saved by [aarch64-rt] (x0-x18, x29, x30, ELR,
    SPSR) with the x19-x28 frame saved by RITM's own [sync_lower] wrapper.
    The wrapper itself is assembly, modelled in Asm.v. *)

From Stdlib Require Import ZArith Lia.
From stdpp Require Import base tactics list strings numbers.
From S2P Require Import Prelude.

#[local] Open Scope Z_scope.
#[local] Open Scope rust_scope.

(** The register frame behind [aarch64_rt::RegisterStateRef]: the fields the
    repository names. *)
Record VolatileRegisters : Type := mkVolatileRegisters {
  vr_registers : list u64;   (* [u64; 19]: x0-x18 *)
  vr_fp : u64;               (* x29 *)
  vr_sp : u64;               (* x30: the field is called sp *)
  vr_elr : usize;
  vr_spsr : u64;
}.

(** [struct NonVolatileRegisters]: x19-x28. *)
Record NonVolatileRegisters : Type := mkNonVolatileRegisters { nvr_registers : list u64 }.

(** [struct GuestRegisterStateRef]. *)
Record GuestRegisterState : Type := mkGuestRegisterState {
  volatile : VolatileRegisters;
  nonvolatile : NonVolatileRegisters;
}.

#[export] Instance VolatileRegisters_eq_dec : EqDecision VolatileRegisters.
Proof. solve_decision. Defined.
#[export] Instance NonVolatileRegisters_eq_dec : EqDecision NonVolatileRegisters.
Proof. solve_decision. Defined.
#[export] Instance GuestRegisterState_eq_dec : EqDecision GuestRegisterState.
Proof. solve_decision. Defined.

(** [GuestRegisterStateRef::new]. *)
Definition guest_new (v : VolatileRegisters) (n : NonVolatileRegisters) : GuestRegisterState :=
  {| volatile := v; nonvolatile := n |}.

Definition volatile_gprs (s : GuestRegisterState) : list u64 := vr_registers (volatile s).

Definition with_volatile (s : GuestRegisterState) (v : VolatileRegisters) : GuestRegisterState :=
  {| volatile := v; nonvolatile := nonvolatile s |}.
Definition with_registers (v : VolatileRegisters) (l : list u64) : VolatileRegisters :=
  {| vr_registers := l; vr_fp := vr_fp v; vr_sp := vr_sp v; vr_elr := vr_elr v;
     vr_spsr := vr_spsr v |}.

(** The ranges of the [match index]. *)
Definition between (lo hi i : Z) : bool := (lo <=? i) && (i <=? hi).

Definition read_gpr (s : GuestRegisterState) (index : usize) : option u64 :=
  if between 0 18 index then Some (vr_registers (volatile s) !!! Z.to_nat index)
  else if between 19 28 index then
    Some (nvr_registers (nonvolatile s) !!! Z.to_nat (index - 19))
  else if index =? 29 then Some (vr_fp (volatile s))
  else if index =? 30 then Some (vr_sp (volatile s))
  else if index =? 31 then Some 0
  else None.

Definition write_gpr (s : GuestRegisterState) (index : usize) (value : u64) :
    bool * GuestRegisterState :=
  let v := volatile s in
  if between 0 18 index then
    (true, with_volatile s (with_registers v (<[Z.to_nat index := value]> (vr_registers v))))
  else if between 19 28 index then
    (true, {| volatile := v;
              nonvolatile := mkNonVolatileRegisters
                (<[Z.to_nat (index - 19) := value]> (nvr_registers (nonvolatile s))) |})
  else if index =? 29 then
    (true, with_volatile s {| vr_registers := vr_registers v; vr_fp := value; vr_sp := vr_sp v;
                              vr_elr := vr_elr v; vr_spsr := vr_spsr v |})
  else if index =? 30 then
    (true, with_volatile s {| vr_registers := vr_registers v; vr_fp := vr_fp v; vr_sp := value;
                              vr_elr := vr_elr v; vr_spsr := vr_spsr v |})
  else if index =? 31 then (true, s)
  else (false, s).

Definition exception_return (s : GuestRegisterState) : usize * u64 :=
  (vr_elr (volatile s), vr_spsr (volatile s)).

(** [elr += byte_count], with the overflow check. *)
Definition advance_pc (s : GuestRegisterState) (byte_count : usize) : outcome GuestRegisterState :=
  let v := volatile s in
  let! elr := add64 (vr_elr v) byte_count in
  Ret (with_volatile s {| vr_registers := vr_registers v; vr_fp := vr_fp v; vr_sp := vr_sp v;
                          vr_elr := elr; vr_spsr := vr_spsr v |}).

Definition set_exception_return (s : GuestRegisterState) (elr : usize) (spsr : u64) :
    GuestRegisterState :=
  let v := volatile s in
  with_volatile s {| vr_registers := vr_registers v; vr_fp := vr_fp v; vr_sp := vr_sp v;
                     vr_elr := elr; vr_spsr := spsr |}.

(** ** The type invariant: the array lengths of the Rust types *)

Definition guest_wf (s : GuestRegisterState) : Prop :=
  length (vr_registers (volatile s)) = 19%nat /\
  length (nvr_registers (nonvolatile s)) = 10%nat.

#[export] Instance guest_wf_dec s : Decision (guest_wf s).
Proof. unfold guest_wf. apply _. Defined.

(** Two states agree on what the guest sees of its general registers. *)
Definition same_gprs (s s' : GuestRegisterState) : Prop :=
  forall i, read_gpr s' i = read_gpr s i.

(** ** Lemmas *)

Ltac split_between :=
  repeat match goal with
  | |- context [between ?lo ?hi ?i] =>
      let E := fresh "E" in
      destruct (between lo hi i) eqn:E;
      [apply andb_true_iff in E as [?%Z.leb_le ?%Z.leb_le]
      |apply andb_false_iff in E as [?%Z.leb_gt|?%Z.leb_gt]]; try lia
  | |- context [?i =? ?n] => destruct (Z.eqb_spec i n); subst; try lia
  end.

Lemma write_gpr_ok s i v : 0 <= i -> fst (write_gpr s i v) = (i <=? 31).
Proof.
  intros Hi. unfold write_gpr. split_between; simpl; symmetry;
    (apply Z.leb_le; lia) || (apply Z.leb_gt; lia).
Qed.

Lemma write_gpr_wf s i v : guest_wf s -> guest_wf (snd (write_gpr s i v)).
Proof.
  intros [H1 H2]. unfold write_gpr, guest_wf.
  split_between; simpl; by rewrite ?length_insert.
Qed.

Lemma write_gpr_exception_return s i v :
  exception_return (snd (write_gpr s i v)) = exception_return s.
Proof. unfold write_gpr. split_between; done. Qed.

Lemma insert_total_lookup (l : list Z) (i j : nat) v :
  (i < length l)%nat -> <[i := v]> l !!! j = if decide (i = j) then v else l !!! j.
Proof.
  intros Hi. rewrite !list_lookup_total_alt, list_lookup_insert.
  repeat case_decide; naive_solver.
Qed.

(** Reading back after a write: the written register changes, no other does;
    x31 reads as zero and ignores writes. *)
Lemma read_write_gpr s i v j :
  guest_wf s -> 0 <= i -> 0 <= j ->
  read_gpr (snd (write_gpr s i v)) j =
  if bool_decide (j = i /\ i <= 30) then Some v else read_gpr s j.
Proof.
  intros [H1 H2] Hi Hj. unfold write_gpr.
  destruct (decide (j = i)) as [->|Hne].
  - destruct (decide (i <= 30)) as [Hle|Hgt].
    + rewrite bool_decide_eq_true_2 by done. unfold read_gpr.
      split_between; simpl; try done;
        by rewrite insert_total_lookup, decide_True by lia.
    + rewrite bool_decide_eq_false_2 by lia. unfold read_gpr. split_between; done.
  - rewrite bool_decide_eq_false_2 by naive_solver. unfold read_gpr.
    split_between; simpl; try done;
      by rewrite insert_total_lookup, decide_False by lia.
Qed.

Lemma set_exception_return_gprs s e p : same_gprs s (set_exception_return s e p).
Proof. intros i. reflexivity. Qed.

Lemma set_exception_return_wf s e p : guest_wf s -> guest_wf (set_exception_return s e p).
Proof. done. Qed.

Lemma advance_pc_Ret s n s' :
  advance_pc s n = Ret s' ->
  same_gprs s s' /\ (guest_wf s -> guest_wf s') /\ vr_elr (volatile s) + n <= U64_MAX /\
  exception_return s' = (vr_elr (volatile s) + n, vr_spsr (volatile s)).
Proof.
  unfold advance_pc. rewrite bindO_Ret. intros (e & (He & ->)%add64_Ret & [= <-]). done.
Qed.

Create HintDb guest.
#[export] Hint Resolve write_gpr_wf set_exception_return_wf : guest.

(** A guest state for examples: register [i] holds [100 + i]. *)
Definition example_guest : GuestRegisterState :=
  guest_new {| vr_registers := (fun i => 100 + Z.of_nat i) <$> seq 0 19; vr_fp := 129; vr_sp := 130;
               vr_elr := 0x4020_0000; vr_spsr := 5 |}
            {| nvr_registers := (fun i => 100 + Z.of_nat i) <$> seq 19 10 |}.

(** ** Properties *)

(** The split register frame behaves as one register file x0-x30 with the
    zero register x31: a write succeeds exactly for indices up to 31, changes
    only the register it names, is discarded for x31, leaves ELR and SPSR
    alone, and keeps the frame's shape; an index past 31 reads as [None] and
    writes nothing. *)
Theorem gpr_file_laws s i v :
  guest_wf s -> 0 <= i ->
  let '(ok, s') := write_gpr s i v in
  ok = (i <=? 31) /\ guest_wf s' /\ exception_return s' = exception_return s /\
  (31 < i -> s' = s /\ read_gpr s i = None) /\
  read_gpr s 31 = Some 0 /\
  forall j, 0 <= j ->
    read_gpr s' j = if bool_decide (j = i /\ i <= 30) then Some v else read_gpr s j.
Proof.
  intros Hwf Hi. destruct (write_gpr s i v) as [ok s'] eqn:E.
  pose proof (write_gpr_ok s i v Hi) as H1. pose proof (write_gpr_wf s i v Hwf) as H2.
  pose proof (write_gpr_exception_return s i v) as H3.
  pose proof (fun j => read_write_gpr s i v j Hwf Hi) as H4. rewrite E in *. simpl in *.
  split_and!; try done. intros Hgt. unfold write_gpr in E. unfold read_gpr.
  revert E. split_between. by intros [= _ <-].
Qed.

Lemma gpr_file_laws_witness :
  read_gpr (snd (write_gpr example_guest 19 7)) 19 = Some 7 /\
  read_gpr (snd (write_gpr example_guest 19 7)) 20 = Some 120.
Proof.
  assert (H : forall j, 0 <= j -> read_gpr (snd (write_gpr example_guest 19 7)) j =
    if bool_decide (j = 19 /\ 19 <= 30) then Some 7 else read_gpr example_guest j).
  { apply (gpr_file_laws example_guest 19 7);
      by apply (bool_decide_unpack _); vm_compute. }
  split; rewrite H by lia; reflexivity.
Defined.
