(* ===== verification/HvcResponse.v ===== *)
(** * Results of HVC/SMC calls

    Model of src/src/hvc_response.rs: the response type, the conversions into it,
    and how a result is written to the guest's registers.  The error type
    [smccc::arch::Error] belongs to an external crate: it is the class
    [SmcccArch]. *)

From Stdlib Require Import ZArith Lia.
From stdpp Require Import base tactics list strings numbers.
From S2P Require Import Prelude Exceptions.

#[local] Open Scope Z_scope.
#[local] Open Scope rust_scope.

(** [smccc::arch::Error] with its conversions from and to [i32]. *)
Class SmcccArch : Type := {
  ArchError : Type;
  NotSupported : ArchError;
  arch_error_from_i32 : i32 -> ArchError;
  i32_from_arch_error : ArchError -> i32;
}.

(** SMCCC fixes NOT_SUPPORTED to -1; codes are 32-bit, and converting a
    negative code to an error and back keeps it. *)
Class SmcccArchLaws `{SmcccArch} : Prop := {
  not_supported_code : i32_from_arch_error NotSupported = -1;
  arch_error_code_range : forall e, - 2 ^ 31 <= i32_from_arch_error e < 2 ^ 31;
  arch_error_roundtrip : forall c, - 2 ^ 31 <= c < 0 ->
    i32_from_arch_error (arch_error_from_i32 c) = c;
}.

Section HvcResponse.
Context {SA : SmcccArch}.

(** [enum HvcResponse]: [Success([u64; 4])], [SuccessLarge([u64; 18])]. *)
Inductive HvcResponse : Type :=
| Success (regs : list u64)
| SuccessLarge (regs : list u64).

(** The array lengths of the two variants. *)
Definition response_wf (r : HvcResponse) : Prop :=
  match r with
  | Success regs => length regs = 4%nat
  | SuccessLarge regs => length regs = 18%nat
  end.

(** [enum HvcResult]. *)
Inductive HvcResult : Type :=
| Unhandled
| Handled (r : result ArchError HvcResponse).

(** [impl From<u64>], [From<[u64; 4]>], [From<[u64; 18]>]. *)
Definition response_from_u64 (value : u64) : HvcResponse := Success [value; 0; 0; 0].
Definition response_from_4 (value : list u64) : HvcResponse := Success value.
Definition response_from_18 (value : list u64) : HvcResponse := SuccessLarge value.

(** [i64::from(i32::from(error)).cast_unsigned()]. *)
Definition error_to_u64 (error : ArchError) : u64 := cast_unsigned (i32_from_arch_error error).

(** [for (index, value) in results.iter().copied().enumerate()]. *)
Fixpoint write_response_from (s : GuestRegisterState) (index : nat) (results : list u64) :
    GuestRegisterState :=
  match results with
  | [] => s
  | value :: results =>
      write_response_from (snd (write_gpr s (Z.of_nat index) value)) (S index) results
  end.

Definition write_response_registers (s : GuestRegisterState) (results : list u64) :
    GuestRegisterState := write_response_from s 0 results.

Definition modify_register_state (self : HvcResult) (s : GuestRegisterState) :
    GuestRegisterState :=
  match self with
  | Handled (Ok (Success results)) => write_response_registers s results
  | Handled (Ok (SuccessLarge results)) => write_response_registers s results
  | Handled (Err error) => snd (write_gpr s 0 (error_to_u64 error))
  | Unhandled => snd (write_gpr s 0 (error_to_u64 NotSupported))
  end.

(** The values a result puts in x0, x1, ... *)
Definition result_registers (r : HvcResult) : list u64 :=
  match r with
  | Handled (Ok (Success results)) | Handled (Ok (SuccessLarge results)) => results
  | Handled (Err error) => [error_to_u64 error]
  | Unhandled => [error_to_u64 NotSupported]
  end.

Definition result_wf (r : HvcResult) : Prop :=
  match r with Handled (Ok resp) => response_wf resp | _ => True end.

(** ** Lemmas *)

Lemma write_response_from_spec results s index :
  guest_wf s -> (index + length results <= 31)%nat ->
  let s' := write_response_from s index results in
  guest_wf s' /\ exception_return s' = exception_return s /\
  forall j, 0 <= j ->
    read_gpr s' j =
    match (if bool_decide (Z.of_nat index <= j)
           then results !! Z.to_nat (j - Z.of_nat index) else None) with
    | Some v => Some v
    | None => read_gpr s j
    end.
Proof.
  revert s index. induction results as [|v results IH]; intros s index Hwf Hlen; simpl.
  { split_and!; [done..|]. intros j _. by case_bool_decide. }
  simpl in Hlen.
  destruct (IH (snd (write_gpr s (Z.of_nat index) v)) (S index)) as (H1 & H2 & H3);
    [auto with guest|lia|].
  split_and!; [done|by rewrite H2, write_gpr_exception_return|].
  intros j Hj. rewrite H3, read_write_gpr by (done || lia).
  destruct (decide (j = Z.of_nat index)) as [->|Hne].
  - rewrite bool_decide_eq_false_2 by lia. rewrite bool_decide_eq_true_2 by lia.
    rewrite bool_decide_eq_true_2 by lia. by rewrite Z.sub_diag.
  - rewrite (bool_decide_eq_false_2 (_ /\ _)) by lia.
    destruct (decide (Z.of_nat index <= j)).
    + rewrite !bool_decide_eq_true_2 by lia.
      replace (Z.to_nat (j - Z.of_nat index)) with (S (Z.to_nat (j - Z.of_nat (S index)))) by lia.
      done.
    + by rewrite !bool_decide_eq_false_2 by lia.
Qed.

Lemma modify_register_state_alt r s :
  modify_register_state r s = write_response_registers s (result_registers r).
Proof. by destruct r as [|[[regs|regs]|e]]. Qed.

Lemma result_registers_length r : result_wf r -> (length (result_registers r) <= 18)%nat.
Proof. destruct r as [|[[regs|regs]|e]]; simpl; lia. Qed.

Lemma modify_register_state_spec r s :
  guest_wf s -> result_wf r ->
  let s' := modify_register_state r s in
  guest_wf s' /\ exception_return s' = exception_return s /\
  forall j, 0 <= j ->
    read_gpr s' j =
    match result_registers r !! Z.to_nat j with Some v => Some v | None => read_gpr s j end.
Proof.
  intros Hwf Hr. simpl. rewrite modify_register_state_alt.
  pose proof (result_registers_length r Hr).
  destruct (write_response_from_spec (result_registers r) s 0 Hwf ltac:(lia)) as (H1 & H2 & H3).
  split_and!; [done..|]. intros j Hj. unfold write_response_registers. rewrite H3 by done.
  rewrite bool_decide_eq_true_2 by lia. by rewrite Z.sub_0_r.
Qed.

(** A negative 32-bit code is sign-extended to the 64-bit register. *)
Lemma error_to_u64_code e :
  i32_from_arch_error e < 0 -> - 2 ^ 31 <= i32_from_arch_error e ->
  error_to_u64 e = 2 ^ 64 + i32_from_arch_error e.
Proof.
  intros. unfold error_to_u64, cast_unsigned. symmetry.
  apply (Z.mod_unique_pos _ _ (-1)); lia.
Qed.
End HvcResponse.
Arguments HvcResult : clear implicits.
Arguments HvcResult {SA}.

(** The instance the crate documents: an error is its code. *)
Module CodeError.
#[export] Instance code_error : SmcccArch := {|
  ArchError := Z; NotSupported := -1;
  arch_error_from_i32 c := if bool_decide (- 2 ^ 31 <= c < 2 ^ 31) then c else -1;
  i32_from_arch_error c := if bool_decide (- 2 ^ 31 <= c < 2 ^ 31) then c else -1;
|}.
#[export] Instance code_error_laws : SmcccArchLaws.
Proof.
  constructor; simpl.
  - reflexivity.
  - intros e. case_bool_decide; lia.
  - intros c Hc. repeat case_bool_decide; lia.
Qed.
End CodeError.
Import CodeError.

(** ** Properties *)

(** Writing a call's result to the guest changes exactly the result
    registers: x0-x3 for [Success] (x4 and up preserved), x0-x17 for
    [SuccessLarge], x0 alone for an error, whose register value is the
    sign-extended error code, and for an unhandled call x0 = NOT_SUPPORTED
    (all ones); ELR and SPSR are untouched. *)
Theorem modify_register_state_exact {SA : SmcccArch} {L : SmcccArchLaws} r s :
  guest_wf s -> result_wf r ->
  let s' := modify_register_state r s in
  guest_wf s' /\ exception_return s' = exception_return s /\
  match r with
  | Handled (Ok (Success regs)) => forall j, 0 <= j ->
      read_gpr s' j = if j <? 4 then regs !! Z.to_nat j else read_gpr s j
  | Handled (Ok (SuccessLarge regs)) => forall j, 0 <= j ->
      read_gpr s' j = if j <? 18 then regs !! Z.to_nat j else read_gpr s j
  | Handled (Err e) =>
      (i32_from_arch_error e < 0 -> read_gpr s' 0 = Some (2 ^ 64 + i32_from_arch_error e)) /\
      forall j, 0 < j -> read_gpr s' j = read_gpr s j
  | Unhandled => read_gpr s' 0 = Some U64_MAX /\
      forall j, 0 < j -> read_gpr s' j = read_gpr s j
  end.
Proof.
  intros Hwf Hr s'. destruct (modify_register_state_spec r s Hwf Hr) as (H1 & H2 & H3).
  fold s' in H1, H2, H3. split_and!; [done..|].
  assert (Hpast : forall (l : list Z) j, (length l <= Z.to_nat j)%nat -> l !! Z.to_nat j = None)
    by (intros; by apply lookup_ge_None).
  assert (Hin : forall (l : list Z) j, (Z.to_nat j < length l)%nat ->
    match l !! Z.to_nat j with Some v => Some v | None => read_gpr s j end = l !! Z.to_nat j).
  { intros l j [v ->]%lookup_lt_is_Some. done. }
  destruct r as [|[[regs|regs]|e]]; simpl in *.
  - split; [|intros j Hj; rewrite H3, Hpast by (simpl; lia); done].
    rewrite H3 by lia. simpl. by rewrite error_to_u64_code; rewrite not_supported_code.
  - intros j Hj. rewrite H3 by done. destruct (Z.ltb_spec j 4);
      [apply Hin; lia|by rewrite Hpast by lia].
  - intros j Hj. rewrite H3 by done. destruct (Z.ltb_spec j 18);
      [apply Hin; lia|by rewrite Hpast by lia].
  - split; [|intros j Hj; rewrite H3, Hpast by (simpl; lia); done].
    intros Hneg. rewrite H3 by lia. simpl. f_equal. apply error_to_u64_code; [done|].
    apply arch_error_code_range.
Qed.

Lemma modify_register_state_exact_witness :
  read_gpr (modify_register_state (Handled (Ok (response_from_u64 42))) example_guest) 0 = Some 42 /\
  read_gpr (modify_register_state Unhandled example_guest) 0 = Some U64_MAX /\
  read_gpr (modify_register_state Unhandled example_guest) 5 = Some 105.
Proof.
  assert (Hg : guest_wf example_guest) by (by apply (bool_decide_unpack _); vm_compute).
  destruct (modify_register_state_exact (Handled (Ok (response_from_u64 42))) example_guest Hg eq_refl)
    as (_ & _ & H1).
  destruct (modify_register_state_exact Unhandled example_guest Hg I) as (_ & _ & H2 & H3).
  split_and!; [by rewrite H1|done|by rewrite H3].
Defined.
