(* ===== verification/Pagetable.v ===== *)
(** * Page-table attributes

    Model of src/src/pagetable.rs.  The attribute flags are constants of the
    external crate [aarch64_paging]; here they are the classes [Stage2Flags]
    and [El23Flags], and the constants of the repository are their unions. *)

From Stdlib Require Import ZArith Lia.
From stdpp Require Import base tactics list strings numbers.
From S2P Require Import Prelude Stage2.

#[local] Open Scope Z_scope.

(** [aarch64_paging::descriptor::Stage2Attributes]. *)
Class Stage2Flags `{PageTable} : Type := {
  s2_union : Attributes -> Attributes -> Attributes;
  S2_VALID : Attributes;
  S2_MEMATTR_DEVICE_nGnRnE : Attributes;
  S2_MEMATTR_NORMAL_OUTER_WB : Attributes;
  S2_MEMATTR_NORMAL_INNER_WB : Attributes;
  S2_S2AP_ACCESS_RW : Attributes;
  S2_ACCESS_FLAG : Attributes;
  S2_SH_NONE : Attributes;
  S2_SH_INNER : Attributes;
}.

(** [aarch64_paging::descriptor::El23Attributes], by bits. *)
Class El23Flags : Type := {
  EL23_VALID : Z;
  EL23_ATTRIBUTE_INDEX_0 : Z;
  EL23_ATTRIBUTE_INDEX_1 : Z;
  EL23_INNER_SHAREABLE : Z;
  EL23_ACCESSED : Z;
  EL23_NON_GLOBAL : Z;
  EL23_XN : Z;
}.

Section Pagetable.
Context {PT : PageTable} {S2F : Stage2Flags} {EF : El23Flags}.

(** Device memory in the initial identity map. *)
Definition DEVICE_ATTRIBUTES : Z :=
  Z.lor (Z.lor (Z.lor EL23_VALID EL23_ATTRIBUTE_INDEX_0) EL23_ACCESSED) EL23_XN.

(** Normal memory in the initial identity map. *)
Definition MEMORY_ATTRIBUTES : Z :=
  Z.lor (Z.lor (Z.lor (Z.lor EL23_VALID EL23_ATTRIBUTE_INDEX_1) EL23_INNER_SHAREABLE)
               EL23_ACCESSED) EL23_NON_GLOBAL.

(** Device memory in the stage-2 tables. *)
Definition STAGE2_DEVICE_ATTRIBUTES : Attributes :=
  s2_union (s2_union (s2_union (s2_union S2_VALID S2_MEMATTR_DEVICE_nGnRnE)
                               S2_S2AP_ACCESS_RW) S2_ACCESS_FLAG) S2_SH_NONE.

(** Normal memory in the stage-2 tables. *)
Definition STAGE2_MEMORY_ATTRIBUTES : Attributes :=
  s2_union (s2_union (s2_union (s2_union (s2_union S2_VALID S2_MEMATTR_NORMAL_OUTER_WB)
                                         S2_MEMATTR_NORMAL_INNER_WB)
                               S2_S2AP_ACCESS_RW) S2_ACCESS_FLAG) S2_SH_INNER.
End Pagetable.

(** The flags as names, joined with a bar: an instance over [ListPT]. *)
Module ListFlags.
Import ListPT.
#[export] Instance list_flags : Stage2Flags := {|
  s2_union a b := String.append a (String.append "|" b);
  S2_VALID := "VALID"; S2_MEMATTR_DEVICE_nGnRnE := "DEVICE";
  S2_MEMATTR_NORMAL_OUTER_WB := "OUTER_WB"; S2_MEMATTR_NORMAL_INNER_WB := "INNER_WB";
  S2_S2AP_ACCESS_RW := "RW"; S2_ACCESS_FLAG := "AF"; S2_SH_NONE := "SH_NONE";
  S2_SH_INNER := "SH_INNER";
|}%string.
End ListFlags.
