(* ===== verification/Platform.v ===== *)
(** * The platform interface

    The associated items of the trait [Platform] (src/src/platform.rs) that the
    hypervisor calls, as a class: the hypervisor's model and theorems use this
    interface only, and Qemu.v provides the instance for the reference
    platform. *)

From Stdlib Require Import ZArith Lia.
From stdpp Require Import base tactics list strings numbers.
From S2P Require Import Prelude Stage2 HvcResponse.

#[local] Open Scope Z_scope.

(** [PlatformState] is the state the platform keeps in its own statics; its
    memory access handlers read and update it. *)
Class Platform {PT : PageTable} {SA : SmcccArch} : Type := {
  PlatformState : Type;
  MAX_CORES : nat;
  SHARED_HEAP_SIZE : usize;
  configure_memory_access : Stage2Builder PT PlatformState ->
    outcome (Stage2Builder PT PlatformState * result Stage2ConfigError unit);
  handle_hvc : u64 -> list u64 -> HvcResult;
}.

(** What the hypervisor may rely on: configuring a new builder either fails or
    leaves one that satisfies the builder's invariant, and a custom HVC result
    has the lengths its type fixes. *)
Class PlatformLaws `{Platform} : Prop := {
  configure_wf : forall b, configure_memory_access Stage2Builder_new = Ret (b, Ok tt) ->
    builder_wf b;
  handle_hvc_wf : forall f args, result_wf (handle_hvc f args);
}.

(** The defaults the trait provides. *)
Definition default_shared_heap_size : usize := 16 * PAGE_SIZE.
Definition default_handle_hvc {SA : SmcccArch} (function_id : u64) (args : list u64) : HvcResult :=
  Unhandled.

(** [enum BootMode]. *)
Inductive BootMode : Type := El1 | El2.

#[export] Instance BootMode_eq_dec : EqDecision BootMode.
Proof. solve_decision. Defined.
