(* ===== verification/Qemu.v ===== *)
(** * The QEMU platform: memory policy, MMIO handlers and custom HVC

    Model of the parts of src/src/platform/qemu.rs the hypervisor calls at run
    time: the stage-2 memory policy, the filtered MMIO page with its counter,
    and the test HVC.  The image address comes from the generated platform
    module and the address of the shared heap from the linker: both are
    parameters ([QemuImage]). *)

From Stdlib Require Import ZArith Lia.
From stdpp Require Import base tactics list strings numbers.
From S2P Require Import Prelude MemoryAccess Stage2 HvcResponse Pagetable Platform.

#[local] Open Scope Z_scope.
#[local] Open Scope rust_scope.

(** [RITM_IMAGE_ADDRESS] is generated from the platform's configuration file;
    [SHARED_HEAP_ADDRESS] is [&raw const crate::SHARED_HEAP as usize]. *)
Class QemuImage : Type := {
  RITM_IMAGE_ADDRESS : usize;
  SHARED_HEAP_ADDRESS : usize;
}.

Definition DRAM_START : usize := 0x4000_0000.
Definition FILTERED_MMIO_BASE : usize := 0x0f00_0000.
Definition FILTERED_MMIO_SIZE : usize := PAGE_SIZE.

(** The half-open interval test [lo <= x < hi]. *)
Definition inside (lo hi x : Z) : bool := (lo <=? x) && (x <? hi).

Section Qemu.
Context {PT : PageTable} {S2F : Stage2Flags} {EF : El23Flags} {SA : SmcccArch}
  {IMG : QemuImage}.

Definition RITM_START : usize := RITM_IMAGE_ADDRESS.
Definition RITM_END : usize := RITM_START + 4 * 1024 * 1024.

(** The state of [FILTERED_MMIO_COUNTER]. *)
Definition Counter : Type := Z.

(** [Qemu::initial_idmap]: 512 one-GiB block entries. *)
Definition initial_idmap : list u64 :=
  let idmap := replicate 512 0 in
  let idmap := <[0%nat := DEVICE_ATTRIBUTES]> idmap in
  let idmap := <[1%nat := Z.lor MEMORY_ATTRIBUTES 0x4000_0000]> idmap in
  <[2%nat := Z.lor DEVICE_ATTRIBUTES 0x8000_0000]> idmap.

(** ** The filtered MMIO page *)

(** [AtomicU64::fetch_add(1)]: the old value, and the wrapped successor. *)
Definition fetch_add_one (c : Counter) : Z * Counter := (c, (c + 1) mod 2 ^ 64).

Definition read_filtered_mmio (access : MemoryReadAccess) (c : Counter) :
    MemoryReadResult * Counter :=
  if negb (bool_decide (mra_width access = U64)) then (ReadFault, c)
  else match mra_offset access with
       | 0 => (ReadValue 0xfeed_face_cafe_beef, c)
       | 16 => let '(v, c) := fetch_add_one c in (ReadValue v, c)
       | 24 => (ReadValue 0x1111_2222_3333_4444, c)
       | 32 => (ReadValue 0x5555_6666_7777_8888, c)
       | 40 => (ReadValue 0x9999_aaaa_bbbb_cccc, c)
       | _ => (ReadFault, c)
       end.

Definition write_filtered_mmio (access : MemoryWriteAccess) (c : Counter) :
    MemoryWriteResult * Counter :=
  if (mwa_offset access =? 8) && bool_decide (mwa_width access = U64)
     && (mwa_value access =? 0x1234_5678_9abc_def0)
  then (WriteHandled, c) else (WriteFault, c).

Definition filtered_mmio_handler : MemoryAccessHandler Counter :=
  read_write read_filtered_mmio write_filtered_mmio.

(** ** The memory policy *)

Definition qemu_configure_memory_access (builder : Stage2Builder PT Counter) :
    outcome (Stage2Builder PT Counter * result Stage2ConfigError unit) :=
  (* Device memory before the filtered MMIO test page. *)
  let*? builder := allow_range builder 0 FILTERED_MMIO_BASE STAGE2_DEVICE_ATTRIBUTES in
  let! base := to_ipa FILTERED_MMIO_BASE in
  let*? builder := handle_range builder base FILTERED_MMIO_SIZE filtered_mmio_handler in
  (* Device memory after the filtered MMIO test page. *)
  let! mmio_end := add64 FILTERED_MMIO_BASE FILTERED_MMIO_SIZE in
  let! base := to_ipa mmio_end in
  let! size := sub64 DRAM_START mmio_end in
  let*? builder := allow_range builder base size STAGE2_DEVICE_ATTRIBUTES in
  (* Normal memory before the RITM image. *)
  let! size := sub64 RITM_START DRAM_START in
  let*? builder := allow_range builder DRAM_START size STAGE2_MEMORY_ATTRIBUTES in
  (* Normal memory after the RITM image. *)
  let! size := sub64 0x1_0000_0000 RITM_END in
  let*? builder := allow_range builder RITM_END size STAGE2_MEMORY_ATTRIBUTES in
  (* High PCIe ECAM *)
  let! size := sub64 0x40_2000_0000 0x40_1000_0000 in
  let*? builder := allow_range builder 0x40_1000_0000 size STAGE2_DEVICE_ATTRIBUTES in
  (* High MMIO *)
  let! size := sub64 0x100_0000_0000 0x80_0000_0000 in
  let*? builder := allow_range builder 0x80_0000_0000 size STAGE2_DEVICE_ATTRIBUTES in
  (* Map the shared heap *)
  let shared_start := SHARED_HEAP_ADDRESS in
  let! shared_end := add64 shared_start default_shared_heap_size in
  let shared_start := align_down_to_page shared_start in
  let! shared_end := align_up_to_page shared_end in
  let! size := sub64 shared_end shared_start in
  allow_range builder shared_start size STAGE2_MEMORY_ATTRIBUTES.

(** ** The custom HVC *)

Definition qemu_handle_hvc (function_id : u64) (_args : list u64) : HvcResult :=
  if function_id =? 0xFF00_0000
  then Handled (Ok (response_from_u64 0x1234_5678_9ABC_DEF0))
  else Unhandled.

#[export] Instance qemu_platform : Platform := {|
  PlatformState := Counter;
  MAX_CORES := 8;
  SHARED_HEAP_SIZE := default_shared_heap_size;
  configure_memory_access := qemu_configure_memory_access;
  handle_hvc := qemu_handle_hvc;
|}.

(** ** The policy as a list of calls *)

Definition shared_lo : Z := align_down_to_page SHARED_HEAP_ADDRESS.
Definition shared_hi : Z :=
  (SHARED_HEAP_ADDRESS + default_shared_heap_size + PAGE_SIZE - 1) / PAGE_SIZE * PAGE_SIZE.

(** The image lies in DRAM below 4 GiB and contains the shared heap, as the
    linker script arranges. *)
Definition image_ok : Prop :=
  (PAGE_SIZE | RITM_START) /\ DRAM_START < RITM_START /\ RITM_END < 0x1_0000_0000 /\
  RITM_START <= SHARED_HEAP_ADDRESS /\
  SHARED_HEAP_ADDRESS + default_shared_heap_size <= RITM_END.

Definition qemu_calls : list (config_call PT Counter) :=
  [ CallAllow 0 FILTERED_MMIO_BASE STAGE2_DEVICE_ATTRIBUTES;
    CallHandle FILTERED_MMIO_BASE FILTERED_MMIO_SIZE filtered_mmio_handler;
    CallAllow (FILTERED_MMIO_BASE + FILTERED_MMIO_SIZE)
      (DRAM_START - (FILTERED_MMIO_BASE + FILTERED_MMIO_SIZE)) STAGE2_DEVICE_ATTRIBUTES;
    CallAllow DRAM_START (RITM_START - DRAM_START) STAGE2_MEMORY_ATTRIBUTES;
    CallAllow RITM_END (0x1_0000_0000 - RITM_END) STAGE2_MEMORY_ATTRIBUTES;
    CallAllow 0x40_1000_0000 (0x40_2000_0000 - 0x40_1000_0000) STAGE2_DEVICE_ATTRIBUTES;
    CallAllow 0x80_0000_0000 (0x100_0000_0000 - 0x80_0000_0000) STAGE2_DEVICE_ATTRIBUTES;
    CallAllow shared_lo (shared_hi - shared_lo) STAGE2_MEMORY_ATTRIBUTES ].

(** What the guest may do at address [x]. *)
Definition qemu_policy (x : Z) : access PT Counter :=
  if inside FILTERED_MMIO_BASE (FILTERED_MMIO_BASE + FILTERED_MMIO_SIZE) x
  then Emulated filtered_mmio_handler (x - FILTERED_MMIO_BASE)
  else if inside 0 DRAM_START x then Direct STAGE2_DEVICE_ATTRIBUTES
  else if inside DRAM_START RITM_START x || inside RITM_END 0x1_0000_0000 x
          || inside shared_lo shared_hi x
  then Direct STAGE2_MEMORY_ATTRIBUTES
  else if inside 0x40_1000_0000 0x40_2000_0000 x || inside 0x80_0000_0000 0x100_0000_0000 x
  then Direct STAGE2_DEVICE_ATTRIBUTES
  else Denied.

(** ** Lemmas *)

Lemma inside_true lo hi x : inside lo hi x = true <-> lo <= x < hi.
Proof. unfold inside. rewrite andb_true_iff, Z.leb_le, Z.ltb_lt. done. Qed.

Lemma inside_false lo hi x : inside lo hi x = false <-> ~ lo <= x < hi.
Proof. rewrite <- inside_true, not_true_iff_false. done. Qed.

Lemma shared_pages :
  image_ok -> (PAGE_SIZE | shared_lo) /\ (PAGE_SIZE | shared_hi) /\
    RITM_START <= shared_lo /\ shared_lo <= SHARED_HEAP_ADDRESS /\
    SHARED_HEAP_ADDRESS + default_shared_heap_size <= shared_hi /\ shared_hi <= RITM_END.
Proof.
  intros ([k Hk] & _ & _ & Hlo & Hhi).
  unfold shared_lo, shared_hi, align_down_to_page, RITM_END, RITM_START,
    default_shared_heap_size, PAGE_SIZE in *.
  set (h := SHARED_HEAP_ADDRESS) in *. set (r := RITM_IMAGE_ADDRESS) in *.
  split_and!; try (eexists; reflexivity); Z.div_mod_to_equations; lia.
Qed.

Lemma RITM_END_page : image_ok -> (PAGE_SIZE | RITM_END).
Proof. intros (Hp & _). apply Z.divide_add_r; [done|]. by exists 1024. Qed.

Lemma to_ipa_Ret x : x <= U64_MAX -> to_ipa x = Ret x.
Proof.
  intros Hx. unfold to_ipa, u64_try_from_usize. by rewrite (proj2 (Z.leb_le _ _)).
Qed.

(** The code performs exactly the calls of [qemu_calls]: none of its address
    computations overflows. *)
Lemma qemu_configure_calls b :
  image_ok -> qemu_configure_memory_access b = do_calls b qemu_calls.
Proof.
  intros Himg. pose proof (shared_pages Himg) as (_ & _ & ? & ? & ? & ?).
  destruct Himg as (_ & ? & ? & ? & ?).
  assert (Ha : align_up_to_page (SHARED_HEAP_ADDRESS + default_shared_heap_size) = Ret shared_hi).
  { apply align_up_to_page_spec;
      unfold default_shared_heap_size, PAGE_SIZE, DRAM_START, U64_MAX in *; lia. }
  assert (SHARED_HEAP_ADDRESS + default_shared_heap_size <= U64_MAX) by (unfold U64_MAX; lia).
  assert (0 < default_shared_heap_size) by done.
  unfold qemu_configure_memory_access, qemu_calls. cbn [do_calls do_call].
  repeat first
    [ progress (rewrite ?to_ipa_Ret, ?Ha, ?add64_ok, ?sub64_ok by (done || lia)); cbn [bindO]; fold shared_lo
    | match goal with |- bindS ?m _ = bindS ?m _ =>
        destruct m as [[? [[]|]]|]; cbn [bindS]; [|done..] end ].
  by rewrite bindS_ret.
Qed.

Lemma qemu_calls_args : image_ok -> Forall call_args_ok qemu_calls.
Proof.
  intros Himg. pose proof (shared_pages Himg) as (_ & _ & ? & ? & ? & ?).
  destruct Himg as (_ & ? & ? & ? & ?).
  unfold default_shared_heap_size, PAGE_SIZE, DRAM_START, RITM_END in *.
  unfold qemu_calls, call_args_ok, in_range, DRAM_START, RITM_END, FILTERED_MMIO_BASE,
    FILTERED_MMIO_SIZE, PAGE_SIZE.
  repeat apply List.Forall_cons; try apply List.Forall_nil; lia.
Qed.

Context {Total : PageTableTotal}.

Lemma range_ok_intro b s :
  0 <= b -> 0 < s -> (PAGE_SIZE | b) -> (PAGE_SIZE | s) -> b + s <= U64_MAX ->
  range_ok b s (b + s).
Proof. intros. unfold range_ok. by split_and!. Qed.

(** One [allow_range] call of the policy. *)
Lemma allow_step b base size a (cs : list (config_call PT Counter)) :
  0 <= base -> 0 < size -> (PAGE_SIZE | base) -> (PAGE_SIZE | size) -> base + size <= 2 ^ 48 ->
  (length (s2b_allowed_ranges b) < MAX_ALLOWED_RANGES)%nat ->
  Forall (fun x => apart base (base + size) (sr_base_ipa x) (sr_end_ipa x))
    (s2b_allowed_ranges b) ->
  Forall (fun x => apart (mar_base_ipa x) (mar_end_ipa x) base (base + size))
    (regions (s2b_memory_access_handlers b)) ->
  exists t, do_calls b (CallAllow base size a :: cs) =
    do_calls (mkStage2Builder t (s2b_memory_access_handlers b)
      (s2b_allowed_ranges b ++ [mkStage2Range base size (base + size)])) cs.
Proof.
  intros ? ? Hb Hs ? ? ? ?.
  destruct (map_range_total (s2b_idmap b) base (base + size) a) as [t Ht];
    [done|by apply Z.divide_add_r|lia|lia|].
  exists t. simpl. by rewrite (allow_range_ok b base size a t);
    [|apply range_ok_intro; (done || unfold U64_MAX; lia)|..].
Qed.

(** The [handle_range] call of the policy, on a builder without handlers. *)
Lemma handle_step b base size h (cs : list (config_call PT Counter)) :
  range_ok base size (base + size) ->
  s2b_memory_access_handlers b = registry_new ->
  Forall (fun x => apart base (base + size) (sr_base_ipa x) (sr_end_ipa x))
    (s2b_allowed_ranges b) ->
  do_calls b (CallHandle base size h :: cs) =
    do_calls (mkStage2Builder (s2b_idmap b)
      (mkRegistry [mkMemoryAccessRegion base size h (base + size)])
      (s2b_allowed_ranges b)) cs.
Proof. intros. simpl. by rewrite handle_range_first. Qed.

(** The side conditions of [allow_step] at concrete tables. *)
Ltac qemu_side :=
  cbn [s2b_allowed_ranges s2b_memory_access_handlers regions app length
       Stage2Builder_new registry_new];
  first
    [ lia | done | unfold MAX_ALLOWED_RANGES; lia
    | by apply Z.mod_divide | apply Z.divide_sub_r; (done || by apply Z.mod_divide)
    | apply range_ok_intro; qemu_side
    | repeat apply List.Forall_cons; try apply List.Forall_nil; unfold apart; simpl;
      unfold PAGE_SIZE in *; lia ].

(** The whole policy is accepted. *)
Lemma qemu_calls_succeed :
  image_ok -> exists b, do_calls Stage2Builder_new qemu_calls = Ret (b, Ok tt).
Proof.
  intros Himg. pose proof (shared_pages Himg) as (? & ? & ? & ? & ? & ?).
  pose proof (RITM_END_page Himg). destruct Himg as (? & ? & ? & ? & ?).
  assert (RITM_START < RITM_END) by (unfold RITM_END; lia).
  unfold qemu_calls, default_shared_heap_size, DRAM_START, FILTERED_MMIO_BASE,
    FILTERED_MMIO_SIZE, PAGE_SIZE in *.
  repeat match goal with
    | |- exists _, do_calls ?b (CallAllow ?base ?size ?a :: ?cs) = _ =>
        destruct (allow_step b base size a cs) as [? ->]; [qemu_side..|]
    | |- exists _, do_calls ?b (CallHandle ?base ?size ?h :: ?cs) = _ =>
        rewrite handle_step by qemu_side
    end.
  cbn [do_calls]. eauto.
Qed.

(** Evaluates the interval tests of [qemu_policy] from the context. *)
Ltac decide_inside :=
  repeat match goal with
  | |- context [inside ?lo ?hi ?x] =>
      first [ rewrite (proj2 (inside_true lo hi x)) by lia
            | rewrite (proj2 (inside_false lo hi x)) by lia ]; cbn [orb]
  end.

Ltac qemu_unfold :=
  unfold qemu_policy, DRAM_START, FILTERED_MMIO_BASE, FILTERED_MMIO_SIZE,
    default_shared_heap_size, PAGE_SIZE in *.

Context {Laws : PageTableLaws}.

(** A builder that represents the calls implements [qemu_policy]. *)
Lemma represents_qemu_policy b x :
  image_ok -> represents b qemu_calls -> stage2_access (build b) x = qemu_policy x.
Proof.
  intros Himg Hrep. pose proof (represents_access b _ x Hrep) as H.
  pose proof (shared_pages Himg) as (_ & _ & ? & ? & ? & ?).
  destruct Himg as (_ & ? & ? & ? & ?).
  assert (RITM_START < RITM_END) by (unfold RITM_END; lia).
  destruct (stage2_access (build b) x) as [a|h off|].
  - destruct H as (base & size & Hin & Hx & _). unfold qemu_calls in Hin.
    qemu_unfold. rewrite !elem_of_cons, elem_of_nil in Hin.
    destruct_or! Hin; try done; injection Hin as -> -> ->; by decide_inside.
  - destruct H as (base & size & Hin & Hx & ->). unfold qemu_calls in Hin.
    qemu_unfold. rewrite !elem_of_cons, elem_of_nil in Hin.
    destruct_or! Hin; try done. injection Hin as -> -> ->. by decide_inside.
  - unfold qemu_calls in H. qemu_unfold.
    assert (Hc : Forall (fun c => ~ call_covers c x) qemu_calls).
    { apply Forall_forall. intros c Hc. apply H. by apply list_elem_of_In. }
    clear H. unfold qemu_calls in Hc. qemu_unfold. rewrite !Forall_cons_iff in Hc.
    unfold call_covers in Hc. by decide_inside.
Qed.

Lemma qemu_configured_represents b :
  image_ok -> qemu_configure_memory_access Stage2Builder_new = Ret (b, Ok tt) ->
  represents b qemu_calls.
Proof.
  intros Himg Hc. rewrite qemu_configure_calls in Hc by done.
  exact (do_calls_represents qemu_calls _ [] b represents_new (qemu_calls_args Himg) Hc).
Qed.

Lemma qemu_configured_access b x :
  image_ok -> configure_memory_access Stage2Builder_new = Ret (b, Ok tt) ->
  stage2_access (build b) x = qemu_policy x.
Proof. intros Himg Hc. by apply represents_qemu_policy, qemu_configured_represents. Qed.

(** The interface the hypervisor relies on. *)
Lemma qemu_platform_laws : image_ok -> PlatformLaws.
Proof.
  intros Himg. constructor; simpl.
  - intros b Hc. by apply (rep_wf _ _ (qemu_configured_represents b Himg Hc)).
  - intros f args. unfold qemu_handle_hvc. by destruct (f =? _).
Qed.

(** Successive 64-bit reads of the counter register. *)
Fixpoint counter_reads (n : nat) (ipa : u64) (c : Counter) : list MemoryReadResult * Counter :=
  match n with
  | O => ([], c)
  | S n =>
      let '(r, c) := read_filtered_mmio (mkMemoryReadAccess ipa 16 U64) c in
      let '(rs, c) := counter_reads n ipa c in (r :: rs, c)
  end.
End Qemu.

(** The QEMU configuration file's image address, with a shared heap that is
    not page-aligned. *)
Module QemuExample.
Export ListPT ListFlags CodeError.
#[export] Instance example_image : QemuImage := {|
  RITM_IMAGE_ADDRESS := 0x4700_0000; SHARED_HEAP_ADDRESS := 0x4702_0120 |}.
Lemma example_image_ok : image_ok.
Proof.
  unfold image_ok, RITM_END, RITM_START, default_shared_heap_size, DRAM_START, PAGE_SIZE. simpl.
  split_and!; [by apply Z.mod_divide|lia..].
Qed.

Lemma example_configured :
  exists b, configure_memory_access Stage2Builder_new = Ret (b, Ok tt).
Proof.
  destruct (qemu_calls_succeed example_image_ok) as [b Hb]. exists b. simpl.
  by rewrite qemu_configure_calls by apply example_image_ok.
Qed.
End QemuExample.
Import QemuExample.

(** ** Properties *)

(** On an image placed as the linker places it, [configure_memory_access]
    succeeds, and the resulting stage-2 configuration gives every address
    exactly the treatment of [qemu_policy]: device attributes below DRAM and
    in the two high windows, normal memory in DRAM below 4 GiB outside the RITM
    image, the shared-heap pages, emulation in the filtered MMIO page at the
    right offset, and no access anywhere else. *)
Theorem qemu_policy_exact {PT : PageTable} {S2F : Stage2Flags} {SA : SmcccArch} {IMG : QemuImage}
    {Total : PageTableTotal} {Laws : PageTableLaws} :
  image_ok ->
  exists b, configure_memory_access Stage2Builder_new = Ret (b, Ok tt) /\
    forall x, stage2_access (build b) x = qemu_policy x.
Proof.
  intros Himg. destruct (qemu_calls_succeed Himg) as [b Hb]. exists b.
  assert (Hc : configure_memory_access Stage2Builder_new = Ret (b, Ok tt))
    by (simpl; by rewrite qemu_configure_calls).
  split; [done|]. intros x. by apply qemu_configured_access.
Qed.

Lemma qemu_policy_exact_witness :
  exists b, configure_memory_access Stage2Builder_new = Ret (b, Ok tt) /\
    forall x, stage2_access (build b) x = qemu_policy x.
Proof. apply qemu_policy_exact, example_image_ok. Defined.

(** Isolation of the hypervisor image: under the QEMU policy the guest has
    neither a mapping nor an emulated access for any address of the RITM image
    outside the pages of the shared heap. *)
Theorem qemu_image_isolated {PT : PageTable} {S2F : Stage2Flags} {SA : SmcccArch} {IMG : QemuImage}
    {Laws : PageTableLaws} b x :
  image_ok ->
  configure_memory_access Stage2Builder_new = Ret (b, Ok tt) ->
  RITM_START <= x < RITM_END -> ~ shared_lo <= x < shared_hi ->
  stage2_access (build b) x = Denied.
Proof.
  intros Himg Hc Hx Hs. rewrite (qemu_configured_access b x Himg Hc).
  destruct Himg as (_ & ? & ? & ? & ?).
  unfold qemu_policy, DRAM_START, FILTERED_MMIO_BASE, FILTERED_MMIO_SIZE, PAGE_SIZE in *.
  repeat match goal with |- context [inside ?lo ?hi x] =>
    rewrite (proj2 (inside_false lo hi x)) by lia end. done.
Qed.

Lemma qemu_image_isolated_witness :
  exists b, configure_memory_access Stage2Builder_new = Ret (b, Ok tt) /\
    stage2_access (build b) 0x4700_0000 = Denied.
Proof.
  destruct example_configured as [b Hb]. exists b. split; [exact Hb|].
  apply (qemu_image_isolated b _ example_image_ok Hb); vm_compute; intuition discriminate.
Defined.

(** C32: page rounding of the shared heap: when the static [SHARED_HEAP] does
    not start on a page boundary, the policy gives the guest read-write access
    to hypervisor memory in front of it, addresses of the image that are not
    part of the shared heap. *)
Theorem shared_heap_rounding_exposes_image {PT : PageTable} {S2F : Stage2Flags} {SA : SmcccArch}
    {IMG : QemuImage} {Laws : PageTableLaws} b :
  image_ok ->
  configure_memory_access Stage2Builder_new = Ret (b, Ok tt) ->
  ~ (PAGE_SIZE | SHARED_HEAP_ADDRESS) ->
  exists x, RITM_START <= x < SHARED_HEAP_ADDRESS /\
    stage2_access (build b) x = Direct STAGE2_MEMORY_ATTRIBUTES.
Proof.
  intros Himg Hc Hna. pose proof (shared_pages Himg) as ([k Hk] & _ & ? & Hle & ? & ?).
  assert (shared_lo <> SHARED_HEAP_ADDRESS) by (intros He; apply Hna; exists k; congruence).
  exists shared_lo. split; [lia|].
  rewrite (qemu_configured_access b shared_lo Himg Hc).
  destruct Himg as (_ & ? & ? & ? & ?).
  unfold qemu_policy, DRAM_START, FILTERED_MMIO_BASE, FILTERED_MMIO_SIZE,
    default_shared_heap_size, PAGE_SIZE in *.
  rewrite (proj2 (inside_false _ _ _)) by lia. rewrite (proj2 (inside_false 0 _ _)) by lia.
  rewrite (proj2 (inside_true shared_lo _ _)) by lia. by rewrite orb_true_r.
Qed.

Lemma shared_heap_rounding_exposes_image_witness :
  exists b, configure_memory_access Stage2Builder_new = Ret (b, Ok tt) /\
    exists x, RITM_START <= x < SHARED_HEAP_ADDRESS /\
      stage2_access (build b) x = Direct STAGE2_MEMORY_ATTRIBUTES.
Proof.
  destruct example_configured as [b Hb]. exists b. split; [exact Hb|].
  apply (shared_heap_rounding_exposes_image b example_image_ok Hb).
  intros H. apply Z.mod_divide in H; [|done]. vm_compute in H. discriminate.
Defined.

(** The counter register of the filtered page: [n] successive 64-bit reads
    return [n] consecutive values from the current count (modulo 2^64), and
    advance the count by [n]. *)
Theorem filtered_mmio_counter n ipa c :
  is_u64 c ->
  counter_reads n ipa c =
    ((fun i => ReadValue ((c + Z.of_nat i) mod 2 ^ 64)) <$> seq 0 n, (c + Z.of_nat n) mod 2 ^ 64).
Proof.
  intros Hc. revert c Hc. induction n as [|n IH]; intros c Hc; simpl.
  - by rewrite Z.add_0_r, Z.mod_small by done.
  - rewrite IH by (apply Z.mod_pos_bound; lia). f_equal.
    + f_equal; [by rewrite Z.add_0_r, Z.mod_small by done|].
      rewrite <- fmap_S_seq, <- list_fmap_compose. apply list_fmap_ext. intros _ i _. simpl.
      f_equal. rewrite Zplus_mod_idemp_l. f_equal. lia.
    + rewrite Zplus_mod_idemp_l. f_equal. lia.
Qed.

Lemma filtered_mmio_counter_witness :
  counter_reads 3 0x0f00_0010 U64_MAX =
    ([ReadValue U64_MAX; ReadValue 0; ReadValue 1], 2).
Proof. rewrite filtered_mmio_counter; [reflexivity|]. by apply (bool_decide_unpack _); vm_compute. Defined.
