(* ===== verification/Sysregs.v ===== *)
(** * System registers

    The registers the repository reads and writes, and the interface of the
    external crate [arm_sysregs]: flag constants and field accessors.  The
    laws give the bit positions the Arm architecture assigns to them;
    [ArmArch] is the instance built from those positions. *)

From Stdlib Require Import ZArith Lia.
From stdpp Require Import base tactics list strings numbers.
From S2P Require Import Prelude.

#[local] Open Scope Z_scope.

Inductive sysreg : Type :=
| HCR_EL2 | CNTVOFF_EL2 | CNTHCTL_EL2 | ICC_SRE_EL2 | SPSR_EL2 | ELR_EL2 | VTCR_EL2 | VTTBR_EL2
| ESR_EL2 | FAR_EL2 | HPFAR_EL2 | SCTLR_EL2 | MPIDR_EL1
| TTBR0_EL1 | TCR_EL1 | VBAR_EL1 | MAIR_EL1 | SP_EL1 | SCTLR_EL1
| ELR_EL1 | SPSR_EL1 | FAR_EL1 | ESR_EL1.

#[export] Instance sysreg_eq_dec : EqDecision sysreg.
Proof. solve_decision. Defined.

(** The registers of EL2, out of the reach of code at EL1. *)
Definition is_el2 (r : sysreg) : bool :=
  match r with
  | HCR_EL2 | CNTVOFF_EL2 | CNTHCTL_EL2 | ICC_SRE_EL2 | SPSR_EL2 | ELR_EL2 | VTCR_EL2 | VTTBR_EL2
  | ESR_EL2 | FAR_EL2 | HPFAR_EL2 | SCTLR_EL2 => true
  | _ => false
  end.

(** A register file, and the update of one register. *)
Definition sysregs : Type := sysreg -> Z.
Definition set_sysreg (r : sysreg) (v : Z) (f : sysregs) : sysregs :=
  fun r' => if bool_decide (r' = r) then v else f r'.

(** Bit-flag operators of the crate: [a |= b] and [a -= b]. *)
Definition flag_or (a b : Z) : Z := Z.lor a b.
Definition flag_sub (a b : Z) : Z := Z.ldiff a b.

Class ArmSysregs : Type := {
  HCR_RW : Z; HCR_TSC : Z; HCR_VM : Z; HCR_IMO : Z;
  CNTHCTL_EL0PCTEN : Z; CNTHCTL_EL1PCEN : Z;
  ICC_SRE_SRE : Z; ICC_SRE_DFB : Z; ICC_SRE_DIB : Z; ICC_SRE_ENABLE : Z;
  SPSR_D : Z; SPSR_A : Z; SPSR_I : Z; SPSR_F : Z;
  SCTLR1_EOS : Z; SCTLR1_TSCXT : Z; SCTLR1_EIS : Z; SCTLR1_SPAN : Z;
  SCTLR1_NTLSMD : Z; SCTLR1_LSMAOE : Z;
  SCTLR2_M : Z; SCTLR2_C : Z; SCTLR2_I : Z;
  spsr_set_m_3_0 : Z -> u8 -> Z;
  elr_set_addr : Z -> u64 -> Z;
  vtcr_set_ps : Z -> u8 -> Z; vtcr_set_tg0 : Z -> u8 -> Z; vtcr_set_sh0 : Z -> u8 -> Z;
  vtcr_set_orgn0 : Z -> u8 -> Z; vtcr_set_irgn0 : Z -> u8 -> Z; vtcr_set_sl0 : Z -> u8 -> Z;
  vtcr_set_t0sz : Z -> u8 -> Z;
  esr_ec : Z -> u8; esr_iss : Z -> u32; esr_set_ec : Z -> u8 -> Z;
  hpfar_fipa : Z -> u64; far_va : Z -> u64;
}.

(** A field of [w] bits at position [p]: reading and replacing it. *)
Definition get_field (p w x : Z) : Z := Z.land (Z.shiftr x p) (Z.ones w).
Definition set_field (p w x v : Z) : Z :=
  Z.lor (Z.ldiff x (Z.shiftl (Z.ones w) p)) (Z.shiftl (Z.land v (Z.ones w)) p).

(** The architectural positions (Arm ARM, section D). *)
Class ArmSysregsLaws `{ArmSysregs} : Prop := {
  law_hcr : HCR_RW = 2 ^ 31 /\ HCR_TSC = 2 ^ 19 /\ HCR_VM = 2 ^ 0 /\ HCR_IMO = 2 ^ 4;
  law_daif : SPSR_D = 2 ^ 9 /\ SPSR_A = 2 ^ 8 /\ SPSR_I = 2 ^ 7 /\ SPSR_F = 2 ^ 6;
  law_cnthctl : CNTHCTL_EL0PCTEN = 2 ^ 0 /\ CNTHCTL_EL1PCEN = 2 ^ 1;
  law_icc_sre : ICC_SRE_SRE = 2 ^ 0 /\ ICC_SRE_DFB = 2 ^ 1 /\ ICC_SRE_DIB = 2 ^ 2 /\
    ICC_SRE_ENABLE = 2 ^ 3;
  law_sctlr1 : SCTLR1_EOS = 2 ^ 11 /\ SCTLR1_TSCXT = 2 ^ 20 /\ SCTLR1_EIS = 2 ^ 22 /\
    SCTLR1_SPAN = 2 ^ 23 /\ SCTLR1_NTLSMD = 2 ^ 28 /\ SCTLR1_LSMAOE = 2 ^ 29;
  law_sctlr2 : SCTLR2_M = 2 ^ 0 /\ SCTLR2_C = 2 ^ 2 /\ SCTLR2_I = 2 ^ 12;
  law_spsr_m : forall x m, spsr_set_m_3_0 x m = set_field 0 4 x m;
  law_elr : forall x a, elr_set_addr x a = a;
  law_esr_ec : forall x, esr_ec x = get_field 26 6 x;
  law_esr_iss : forall x, esr_iss x = get_field 0 25 x;
  law_esr_set_ec : forall x e, esr_set_ec x e = set_field 26 6 x e;
  law_hpfar_fipa : forall x, hpfar_fipa x = get_field 4 40 x;
  law_far_va : forall x, far_va x = x;
  law_vtcr : forall x v,
    vtcr_set_ps x v = set_field 16 3 x v /\ vtcr_set_tg0 x v = set_field 14 2 x v /\
    vtcr_set_sh0 x v = set_field 12 2 x v /\ vtcr_set_orgn0 x v = set_field 10 2 x v /\
    vtcr_set_irgn0 x v = set_field 8 2 x v /\ vtcr_set_sl0 x v = set_field 6 2 x v /\
    vtcr_set_t0sz x v = set_field 0 6 x v;
}.

(** ** Lemmas *)

Lemma set_sysreg_eq r v f : set_sysreg r v f r = v.
Proof. unfold set_sysreg. by rewrite bool_decide_eq_true_2. Qed.

Lemma set_sysreg_ne r r' v f : r' <> r -> set_sysreg r v f r' = f r'.
Proof. intros. unfold set_sysreg. by rewrite bool_decide_eq_false_2. Qed.

Lemma get_field_testbit p w x i :
  0 <= p -> 0 <= w -> 0 <= i -> Z.testbit (get_field p w x) i = (i <? w) && Z.testbit x (i + p).
Proof.
  intros. unfold get_field. rewrite Z.land_spec, Z.shiftr_spec, Z.testbit_ones_nonneg by lia.
  apply andb_comm.
Qed.

Lemma set_field_testbit p w x v i :
  0 <= p -> 0 <= w -> 0 <= i ->
  Z.testbit (set_field p w x v) i =
  if bool_decide (p <= i < p + w) then Z.testbit v (i - p) else Z.testbit x i.
Proof.
  intros. unfold set_field. rewrite Z.lor_spec, Z.ldiff_spec.
  rewrite !Z.shiftl_spec, Z.land_spec by lia.
  destruct (Z.ltb_spec i p).
  - rewrite !(Z.testbit_neg_r _ (i - p)) by lia. rewrite bool_decide_eq_false_2 by lia.
    by rewrite andb_true_r, orb_false_r.
  - rewrite Z.testbit_ones_nonneg by lia. destruct (Z.ltb_spec (i - p) w).
    + rewrite bool_decide_eq_true_2 by lia. by rewrite andb_false_r, andb_true_r.
    + rewrite bool_decide_eq_false_2 by lia. by rewrite andb_true_r, andb_false_r, orb_false_r.
Qed.

(** Replacing a field does not change a disjoint one, and can be read back. *)
Lemma get_set_field_same p w x v :
  0 <= p -> 0 <= w -> 0 <= v < 2 ^ w -> get_field p w (set_field p w x v) = v.
Proof.
  intros Hp Hw Hv. apply Z.bits_inj'. intros i Hi.
  rewrite get_field_testbit, set_field_testbit by lia.
  destruct (Z.ltb_spec i w); simpl.
  - rewrite bool_decide_eq_true_2 by lia. f_equal. lia.
  - rewrite <- (Z.mod_small v (2 ^ w)) by lia. by rewrite Z.mod_pow2_bits_high by lia.
Qed.

Lemma get_set_field_other p w p' w' x v :
  0 <= p -> 0 <= w -> 0 <= p' -> 0 <= w' -> p' + w' <= p \/ p + w <= p' ->
  get_field p' w' (set_field p w x v) = get_field p' w' x.
Proof.
  intros. apply Z.bits_inj'. intros i Hi. rewrite !get_field_testbit by lia.
  destruct (Z.ltb_spec i w'); [|done]. simpl.
  rewrite set_field_testbit by lia. by rewrite bool_decide_eq_false_2 by lia.
Qed.

Lemma get_field_range p w x : 0 <= p -> 0 <= w -> 0 <= get_field p w x < 2 ^ w.
Proof.
  intros. unfold get_field. rewrite Z.land_ones by lia. by apply mod_pow2_range.
Qed.

(** The instance with the architectural positions. *)
Module ArmArch.
#[export] Instance arm_sysregs : ArmSysregs := {|
  HCR_RW := 2 ^ 31; HCR_TSC := 2 ^ 19; HCR_VM := 1; HCR_IMO := 2 ^ 4;
  CNTHCTL_EL0PCTEN := 1; CNTHCTL_EL1PCEN := 2;
  ICC_SRE_SRE := 1; ICC_SRE_DFB := 2; ICC_SRE_DIB := 4; ICC_SRE_ENABLE := 8;
  SPSR_D := 2 ^ 9; SPSR_A := 2 ^ 8; SPSR_I := 2 ^ 7; SPSR_F := 2 ^ 6;
  SCTLR1_EOS := 2 ^ 11; SCTLR1_TSCXT := 2 ^ 20; SCTLR1_EIS := 2 ^ 22;
  SCTLR1_SPAN := 2 ^ 23; SCTLR1_NTLSMD := 2 ^ 28; SCTLR1_LSMAOE := 2 ^ 29;
  SCTLR2_M := 1; SCTLR2_C := 2 ^ 2; SCTLR2_I := 2 ^ 12;
  spsr_set_m_3_0 := set_field 0 4;
  elr_set_addr _ a := a;
  vtcr_set_ps := set_field 16 3; vtcr_set_tg0 := set_field 14 2;
  vtcr_set_sh0 := set_field 12 2; vtcr_set_orgn0 := set_field 10 2;
  vtcr_set_irgn0 := set_field 8 2; vtcr_set_sl0 := set_field 6 2;
  vtcr_set_t0sz := set_field 0 6;
  esr_ec := get_field 26 6; esr_iss := get_field 0 25; esr_set_ec := set_field 26 6;
  hpfar_fipa := get_field 4 40; far_va x := x;
|}.
#[export] Instance arm_sysregs_laws : ArmSysregsLaws.
Proof. by constructor. Qed.
End ArmArch.
