(* ===== verification/InitialIdmap.v ===== *)
(** * The initial identity map

    [Qemu::initial_idmap] (src/src/platform/qemu.rs) with the attributes of
    src/src/pagetable.rs is the translation table RITM itself runs on before and
    after the Rust code starts.  Here the table is read the way the
    architecture reads a level-1 table of the EL2 stage-1 regime with 4 KiB
    granules, and the resulting address translation is computed for every
    input address. *)

From Stdlib Require Import ZArith Lia.
From stdpp Require Import base tactics list strings numbers.
From S2P Require Import Prelude Stage2 Pagetable Platform Qemu Sysregs.

#[local] Open Scope Z_scope.
#[local] Open Scope rust_scope.

(** The documented bits of [El23Attributes]. *)
Class El23FlagsLaws `{El23Flags} : Prop := {
  law_el23_valid : EL23_VALID = Z.shiftl 1 0;
  law_el23_index_0 : EL23_ATTRIBUTE_INDEX_0 = Z.shiftl 0 2;
  law_el23_index_1 : EL23_ATTRIBUTE_INDEX_1 = Z.shiftl 1 2;
  law_el23_inner : EL23_INNER_SHAREABLE = Z.shiftl 3 8;
  law_el23_accessed : EL23_ACCESSED = Z.shiftl 1 10;
  law_el23_ng : EL23_NON_GLOBAL = Z.shiftl 1 11;
  law_el23_xn : EL23_XN = Z.shiftl 1 54;
}.

(** ** The hardware walk *)

(** What a translation gives: the output address, the index into MAIR_EL2, the
    shareability field and whether instructions may be fetched. *)
Record translation : Type := mkTranslation {
  tr_address : u64;
  tr_attr_index : Z;
  tr_shareability : Z;
  tr_executable : bool;
}.

(** A level-1 block entry: valid (bit 0), not a table (bit 1), accessed (bit 10),
    output address in bits 47 to 30. *)
Definition block_entry (va desc : u64) : option translation :=
  if Z.testbit desc 0 && negb (Z.testbit desc 1) && Z.testbit desc 10 then
    Some {| tr_address := Z.shiftl (get_field 30 18 desc) 30 + get_field 0 30 va;
            tr_attr_index := get_field 2 3 desc;
            tr_shareability := get_field 8 2 desc;
            tr_executable := negb (Z.testbit desc 54) |}
  else None.

(** A 39-bit input address is looked up in the 512 entries of the root table;
    [None] is a translation fault (entries that are tables do not occur here). *)
Definition level1_walk (table : list u64) (va : u64) : option translation :=
  if bool_decide (0 <= va < 2 ^ 39) then
    match table !! Z.to_nat (Z.shiftr va 30) with
    | Some desc => block_entry va desc
    | None => None
    end
  else None.

(** ** The reference map *)

Definition device_at (x : u64) : translation := mkTranslation x 0 0 false.
Definition normal_at (x : u64) : translation := mkTranslation x 1 3 true.

(** Device memory in the first and the third GiB, normal executable memory in the second. *)
Definition idmap_spec (va : u64) : option translation :=
  if inside 0 0x4000_0000 va then Some (device_at va)
  else if inside 0x4000_0000 0x8000_0000 va then Some (normal_at va)
  else if inside 0x8000_0000 0xc000_0000 va then Some (device_at va)
  else None.

Section Idmap.
Context {EF : El23Flags} {EFL : El23FlagsLaws}.

(** The attribute words as numbers. *)
Lemma DEVICE_ATTRIBUTES_value : DEVICE_ATTRIBUTES = 0x40_0000_0000_0401.
Proof.
  unfold DEVICE_ATTRIBUTES.
  by rewrite law_el23_valid, law_el23_index_0, law_el23_accessed, law_el23_xn.
Qed.
Lemma MEMORY_ATTRIBUTES_value : MEMORY_ATTRIBUTES = 0xf05.
Proof.
  unfold MEMORY_ATTRIBUTES.
  by rewrite law_el23_valid, law_el23_index_1, law_el23_inner, law_el23_accessed, law_el23_ng.
Qed.

(** An entry that holds its own index as output address maps by identity. *)
Lemma block_entry_identity va desc gib :
  Z.testbit desc 0 && negb (Z.testbit desc 1) && Z.testbit desc 10 = true ->
  get_field 30 18 desc = gib -> Z.shiftl gib 30 <= va < Z.shiftl (gib + 1) 30 ->
  block_entry va desc = Some (mkTranslation va (get_field 2 3 desc) (get_field 8 2 desc)
                                (negb (Z.testbit desc 54))).
Proof.
  intros Hv Hg Hva. unfold block_entry. rewrite Hv, Hg. do 2 f_equal.
  unfold get_field. rewrite Z.shiftr_0_r, Z.land_ones by lia. rewrite !Z.shiftl_mul_pow2 in * by lia.
  pose proof (Z.div_mod va (2 ^ 30)). assert (va / 2 ^ 30 = gib); [|lia].
  symmetry. apply (Z.div_unique_pos va (2 ^ 30) gib (va - gib * 2 ^ 30)); lia.
Qed.

(** The entries of the table. *)
Lemma initial_idmap_lookup i :
  (i < 512)%nat ->
  initial_idmap !! i = Some (match i with
    | 0%nat => DEVICE_ATTRIBUTES
    | 1%nat => Z.lor MEMORY_ATTRIBUTES 0x4000_0000
    | 2%nat => Z.lor DEVICE_ATTRIBUTES 0x8000_0000
    | _ => 0
    end).
Proof.
  intros Hi. unfold initial_idmap. cbv zeta.
  destruct i as [|[|[|i]]]; [done..|].
  rewrite !list_lookup_insert_ne by lia. by apply lookup_replicate_2.
Qed.
End Idmap.

(** C24: the table [initial_idmap] builds is the identity map it is named
    for: walked as the architecture walks a level-1 table, every address below
    3 GiB translates to itself, as non-executable device memory in the first
    and the third GiB and as executable inner-shareable normal memory in the
    second, and every other address faults. *)
Theorem initial_idmap_identity {EF : El23Flags} {EFL : El23FlagsLaws} va :
  level1_walk initial_idmap va = idmap_spec va.
Proof.
  unfold level1_walk, idmap_spec. case_bool_decide as Hva; cycle 1.
  { rewrite !(proj2 (inside_false _ _ va)) by lia. done. }
  set (i := Z.shiftr va 30).
  assert (Hi : Z.shiftl i 30 <= va < Z.shiftl (i + 1) 30 /\ 0 <= i < 512).
  { unfold i. rewrite !Z.shiftl_mul_pow2, Z.shiftr_div_pow2 by lia.
    pose proof (Z.div_mod va (2 ^ 30)). pose proof (Z.mod_pos_bound va (2 ^ 30)). lia. }
  rewrite initial_idmap_lookup by lia. rewrite DEVICE_ATTRIBUTES_value, MEMORY_ATTRIBUTES_value.
  rewrite !Z.shiftl_mul_pow2 in Hi by lia.
  destruct (Z.to_nat i) as [|[|[|k]]] eqn:Hn.
  - rewrite (block_entry_identity _ _ 0) by (done || (rewrite ?Z.shiftl_mul_pow2; lia)).
    rewrite (proj2 (inside_true 0 0x4000_0000 va)) by lia. done.
  - rewrite (block_entry_identity _ _ 1) by (done || (rewrite ?Z.shiftl_mul_pow2; lia)).
    rewrite (proj2 (inside_false 0 _ va)), (proj2 (inside_true 0x4000_0000 _ va)) by lia. done.
  - rewrite (block_entry_identity _ _ 2) by (done || (rewrite ?Z.shiftl_mul_pow2; lia)).
    rewrite !(proj2 (inside_false _ _ va)), (proj2 (inside_true 0x8000_0000 _ va)) by lia. done.
  - rewrite !(proj2 (inside_false _ _ va)) by lia. done.
Qed.

(** ** Witness *)

Module ExampleEl23.
#[export] Instance example_el23 : El23Flags := {|
  EL23_VALID := 0x1; EL23_ATTRIBUTE_INDEX_0 := 0; EL23_ATTRIBUTE_INDEX_1 := 0x4;
  EL23_INNER_SHAREABLE := 0x300; EL23_ACCESSED := 0x400; EL23_NON_GLOBAL := 0x800;
  EL23_XN := 0x40_0000_0000_0000 |}.
#[export] Instance example_el23_laws : El23FlagsLaws.
Proof. by constructor. Qed.
End ExampleEl23.

Section IdmapWitness.
Import ExampleEl23.

(** The UART is device memory, a page of the image is executable, and the third GiB is not. *)
Lemma initial_idmap_identity_witness :
  level1_walk initial_idmap 0x900_0018 = Some (mkTranslation 0x900_0018 0 0 false) /\
  level1_walk initial_idmap 0x4708_0123 = Some (mkTranslation 0x4708_0123 1 3 true) /\
  level1_walk initial_idmap 0xc000_0000 = None.
Proof. split_and!; (rewrite initial_idmap_identity; by vm_compute). Defined.
End IdmapWitness.
