(* ===== verification/World.v ===== *)
(** * The world the hypervisor runs in

    The external interfaces src/src/hypervisor.rs calls ([arm_psci], [smccc],
    [aarch64_rt]) and the state monad its functions run in.

    [World] holds the system registers of the executing core, the statics
    (stage-2 configuration, suspend contexts, secondary stacks, the platform's
    state), and the trace of what is done to the outside (barriers, SMC calls,
    core starts).  A run ends with a value, in a panic (the panic handler powers
    the system off), or by leaving RITM for good ([Leaves]).  The firmware's
    answers are the class [Firmware]; [debug!] output is left out. *)

From Stdlib Require Import ZArith Lia.
From stdpp Require Import base tactics list strings numbers.
From S2P Require Import Prelude MemoryAccess SimpleMap Stage2 Exceptions HvcResponse Platform Sysregs.

#[local] Open Scope Z_scope.

(** ** External interfaces *)

(** [arm_psci]: the decoded PSCI call and its arguments. *)
Class ArmPsci : Type := {
  Mpidr : Type;
  EntryPoint : Type;
  PowerState : Type;
  PsciError : Type;
  u64_from_mpidr : Mpidr -> u64;
  entry_point_address : EntryPoint -> u64;
  entry_context_id : EntryPoint -> u64;
  u32_from_power_state : PowerState -> u32;
  i32_from_psci_error : PsciError -> i32;  (* i32::from(ErrorCode::from(error)) *)
  RETURN_CODE_SUCCESS : i32;
}.

(** [enum arm_psci::Function], as far as [handle_psci] looks at it: the
    payload of a variant the code matches with [{ .. }] is left out. *)
Inductive Function `{ArmPsci} : Type :=
| Version | CpuOff | AffinityInfo | Migrate | MigrateInfoType | MigrateInfoUpCpu
| SystemOff | SystemOff2 | SystemReset | SystemReset2 | MemProtect | MemProtectCheckRange
| Features | CpuFreeze | CpuDefaultSuspend | NodeHwState | SystemSuspend | SetSuspendMode
| StatResidency | StatCount
| CpuOn (target_cpu : Mpidr) (entry : EntryPoint)
| CpuSuspend (state : PowerState) (entry : EntryPoint).

Class PsciDecoder `{ArmPsci} : Type := {
  function_try_from : list u64 -> result PsciError Function;
}.

(** The context id, entry point and MPIDR of a core that goes to sleep. *)
Record SuspendCoreData : Type := mkSuspendCoreData {
  scd_entry_point : u64; scd_context_id : u64 }.

(** What RITM does to its environment, in order. *)
Inductive event : Type :=
| EvMsr (r : sysreg) (v : Z)
| EvActivateStage2 (root : Z)
| EvTlbiVmalls12e1
| EvDsb
| EvIsb
| EvSmc (function_id : u32) (args : list u64)
| EvStartCore (mpidr : u64) (stack : nat) (entry : u64) (arg : u64)
| EvSuspendCore (power_state : u32) (stack : nat).

(** The firmware behind [smccc] and [aarch64_rt]; its answers may depend on
    everything done before.  [None]: the call does not return to its caller
    (CPU_OFF, SYSTEM_OFF, a power-down suspend). *)
Class Firmware : Type := {
  PsciCallError : Type;   (* smccc::psci::Error *)
  i64_from_psci_call_error : PsciCallError -> i64;
  smc64 : list event -> u32 -> list u64 -> option (list u64);
  start_core : list event -> u64 -> result PsciCallError unit;
  suspend_core : list event -> u32 -> option (result PsciCallError unit);
}.

(** ** The world *)

Section World.
Context {PT : PageTable} {SA : SmcccArch} {PLAT : Platform}.

(** [Stack<SECONDARY_STACK_PAGE_COUNT>]: only its place matters. *)
Definition Stack : Type := unit.

Record World : Type := mkWorld {
  w_sysregs : sysregs;
  w_stage2_config : option (Stage2Config PT PlatformState);
  w_platform : PlatformState;
  w_suspend_contexts : SimpleMap u64 SuspendCoreData;
  w_secondary_stacks : SimpleMap u64 Stack;
  w_trace : list event;
}.

(** How control leaves RITM without returning to the caller. *)
Inductive leave : Type :=
| EretToEl1 (x0 x1 x2 x3 : u64)
| NoReturn.

Inductive run_result (A : Type) : Type :=
| Done (a : A) (w : World)
| Panics (msg : string) (w : World)
| Leaves (l : leave) (w : World).
Arguments Done {A} _ _.
Arguments Panics {A} _ _.
Arguments Leaves {A} _ _.

Definition M (A : Type) : Type := World -> run_result A.

#[export] Instance M_ret : MRet M := fun A a w => Done a w.
#[export] Instance M_bind : MBind M := fun A B k m w =>
  match m w with
  | Done a w => k a w
  | Panics msg w => Panics msg w
  | Leaves l w => Leaves l w
  end.

Definition panic {A} (msg : string) : M A := fun w => Panics msg w.
Definition leave_with {A} (l : leave) : M A := fun w => Leaves l w.
Definition lift {A} (o : outcome A) : M A := fun w =>
  match o with Ret a => Done a w | Panic msg => Panics msg w end.

Definition read_sysreg (r : sysreg) : M Z := fun w => Done (w_sysregs w r) w.
(** The world after [msr r, v]. *)
Definition after_msr (r : sysreg) (v : Z) (w : World) : World :=
  {| w_sysregs := set_sysreg r v (w_sysregs w); w_stage2_config := w_stage2_config w;
     w_platform := w_platform w; w_suspend_contexts := w_suspend_contexts w;
     w_secondary_stacks := w_secondary_stacks w; w_trace := w_trace w ++ [EvMsr r v] |}.
Definition write_sysreg (r : sysreg) (v : Z) : M unit := fun w => Done tt (after_msr r v w).
Definition emit (e : event) : M unit := fun w =>
  Done tt {| w_sysregs := w_sysregs w; w_stage2_config := w_stage2_config w;
             w_platform := w_platform w; w_suspend_contexts := w_suspend_contexts w;
             w_secondary_stacks := w_secondary_stacks w; w_trace := w_trace w ++ [e] |}.
(** [idmap.activate()]: VTTBR_EL2 points at the root of the table. *)
Definition activate_root (root : Z) : M unit := fun w =>
  Done tt {| w_sysregs := set_sysreg VTTBR_EL2 root (w_sysregs w); w_stage2_config := w_stage2_config w;
             w_platform := w_platform w; w_suspend_contexts := w_suspend_contexts w;
             w_secondary_stacks := w_secondary_stacks w; w_trace := w_trace w ++ [EvActivateStage2 root] |}.
Definition get_trace : M (list event) := fun w => Done (w_trace w) w.

Definition get_stage2 : M (option (Stage2Config PT PlatformState)) := fun w =>
  Done (w_stage2_config w) w.
Definition set_stage2 (c : Stage2Config PT PlatformState) : M unit := fun w =>
  Done tt {| w_sysregs := w_sysregs w; w_stage2_config := Some c;
             w_platform := w_platform w; w_suspend_contexts := w_suspend_contexts w;
             w_secondary_stacks := w_secondary_stacks w; w_trace := w_trace w |}.
(** Runs a handler callback on the platform's state. *)
Definition with_platform {A} (f : PlatformState -> A * PlatformState) : M A := fun w =>
  let '(a, p) := f (w_platform w) in
  Done a {| w_sysregs := w_sysregs w; w_stage2_config := w_stage2_config w;
            w_platform := p; w_suspend_contexts := w_suspend_contexts w;
            w_secondary_stacks := w_secondary_stacks w; w_trace := w_trace w |}.
(** Operations on the two locked maps. *)
Definition with_suspend_contexts {A}
    (f : SimpleMap u64 SuspendCoreData -> outcome (A * SimpleMap u64 SuspendCoreData)) : M A :=
  fun w =>
  match f (w_suspend_contexts w) with
  | Panic msg => Panics msg w
  | Ret (a, m) =>
      Done a {| w_sysregs := w_sysregs w; w_stage2_config := w_stage2_config w;
                w_platform := w_platform w; w_suspend_contexts := m;
                w_secondary_stacks := w_secondary_stacks w; w_trace := w_trace w |}
  end.
Definition with_secondary_stacks {A}
    (f : SimpleMap u64 Stack -> outcome (A * SimpleMap u64 Stack)) : M A := fun w =>
  match f (w_secondary_stacks w) with
  | Panic msg => Panics msg w
  | Ret (a, m) =>
      Done a {| w_sysregs := w_sysregs w; w_stage2_config := w_stage2_config w;
                w_platform := w_platform w; w_suspend_contexts := w_suspend_contexts w;
                w_secondary_stacks := m; w_trace := w_trace w |}
  end.
End World.
Arguments Done {PT SA PLAT A} _ _.
Arguments Panics {PT SA PLAT A} _ _.
Arguments Leaves {PT SA PLAT A} _ _.

(** Running register accesses inside a sequence. *)
Lemma bind_read_sysreg `{PLAT : Platform} {A} r (k : Z -> M A) w :
  (read_sysreg r ≫= k) w = k (w_sysregs w r) w.
Proof. done. Qed.

Lemma bind_write_sysreg `{PLAT : Platform} {A} r v (k : unit -> M A) w :
  (write_sysreg r v ≫= k) w = k tt (after_msr r v w).
Proof. done. Qed.

Lemma bind_Done `{PLAT : Platform} {A B} (m : M A) (k : A -> M B) w a w' :
  m w = Done a w' -> (m ≫= k) w = k a w'.
Proof. intros H. unfold mbind, M_bind. by rewrite H. Qed.

(** ** The invariant, and what every run preserves *)

Section Evolution.
Context {PT : PageTable} {SA : SmcccArch} {PLAT : Platform}.
Implicit Types (w : World).

(** The two locked maps are well-formed and have the capacity [MAX_CORES]; a
    stage-2 configuration has a well-formed registry. *)
Record world_wf w : Prop := {
  wwf_config : forall c, w_stage2_config w = Some c -> registry_wf (s2c_memory_access_handlers c);
  wwf_contexts : wf (w_suspend_contexts w);
  wwf_contexts_capacity : length (items (w_suspend_contexts w)) = MAX_CORES;
  wwf_stacks : wf (w_secondary_stacks w);
  wwf_stacks_capacity : length (items (w_secondary_stacks w)) = MAX_CORES;
}.

(** The boot state of the statics. *)
Definition boot_world (regs : sysregs) (p : PlatformState) : World :=
  {| w_sysregs := regs; w_stage2_config := None; w_platform := p;
     w_suspend_contexts := SimpleMap.new MAX_CORES; w_secondary_stacks := SimpleMap.new MAX_CORES;
     w_trace := [] |}.

(** Two configurations that implement one policy with one table. *)
Definition same_policy (c c' : Stage2Config PT PlatformState) : Prop :=
  s2c_memory_access_handlers c' = s2c_memory_access_handlers c /\
  idmap_root_address (s2c_idmap c') = idmap_root_address (s2c_idmap c) /\
  forall x, stage2_access c' x = stage2_access c x.

(** [c] implements what the platform configures on a new builder. *)
Definition platform_policy (c : Stage2Config PT PlatformState) : Prop :=
  exists b, configure_memory_access Stage2Builder_new = Ret (b, Ok tt) /\ same_policy (build b) c.

(** [w'] can follow [w]: the trace only grows, a stage-2 policy in force stays
    in force, a new one is the platform's, and a stack handed out stays with
    its core. *)
Record evolves w w' : Prop := {
  ev_trace : w_trace w `prefix_of` w_trace w';
  ev_policy : forall c, w_stage2_config w = Some c ->
    exists c', w_stage2_config w' = Some c' /\ same_policy c c';
  ev_configured : forall c', w_stage2_config w' = Some c' ->
    (exists c, w_stage2_config w = Some c /\ same_policy c c') \/ platform_policy c';
  ev_stacks : forall i k v, at_slot (w_secondary_stacks w) i k v ->
    at_slot (w_secondary_stacks w') i k v;
  ev_wf : world_wf w';
}.

Definition world_of {A} (r : run_result A) : World :=
  match r with Done _ w | Panics _ w | Leaves _ w => w end.

(** However a run of [m] from a well-formed world ends, it evolves it. *)
Definition safe {A} (m : M A) : Prop := forall w, world_wf w -> evolves w (world_of (m w)).

#[export] Instance same_policy_equiv : Equivalence same_policy.
Proof.
  split.
  - by intros c.
  - intros c c' (H1 & H2 & H3). by split_and!.
  - intros c c' c'' (H1 & H2 & H3) (H4 & H5 & H6). split_and!; [by rewrite H4|by rewrite H5|].
    intros x. by rewrite H6.
Qed.

Lemma same_policy_refl c : same_policy c c.
Proof. done. Qed.

Lemma evolves_refl w : world_wf w -> evolves w w.
Proof. intros Hwf. constructor; try done; intros c Hc; eauto using same_policy_refl. Qed.

Lemma evolves_trans w w' w'' : evolves w w' -> evolves w' w'' -> evolves w w''.
Proof.
  intros [H1 H2 H2' H3 H4] [K1 K2 K2' K3 K4]. constructor; try done.
  - by etrans.
  - intros c (c' & (c'' & Hc'' & Hp')%K2 & Hp)%H2. exists c''. split; [done|]. by transitivity c'.
  - intros c'' [(c' & [(c & Hc & Hp)|(b & Hb & Hp)]%H2' & Hp')|Hp']%K2'; [left|right|by right].
    + exists c. split; [done|]. by transitivity c'.
    + exists b. split; [done|]. by transitivity c'.
  - eauto.
Qed.

Lemma boot_world_wf regs p : world_wf (boot_world regs p).
Proof. constructor; simpl; try done; auto with simple_map; apply length_replicate. Qed.

(** Safety is compositional. *)
Lemma safe_ret {A} (a : A) : safe (mret a).
Proof. intros w Hwf. by apply evolves_refl. Qed.

Lemma evolves_bind {A B} (m : M A) (k : A -> M B) w :
  evolves w (world_of (m w)) ->
  (forall a w', m w = Done a w' -> evolves w' (world_of (k a w'))) ->
  evolves w (world_of ((m ≫= k) w)).
Proof.
  intros Hm Hk. unfold mbind, M_bind.
  destruct (m w) as [a w'|msg w'|l w']; simpl in *; [|done..].
  eapply evolves_trans; eauto.
Qed.

Lemma safe_bind {A B} (m : M A) (k : A -> M B) :
  safe m -> (forall a, safe (k a)) -> safe (m ≫= k).
Proof.
  intros Hm Hk w Hwf. specialize (Hm w Hwf). apply evolves_bind; [done|].
  intros a w' E. rewrite E in Hm. apply Hk, (ev_wf _ _ Hm).
Qed.

Lemma safe_panic {A} msg : safe (panic (A := A) msg).
Proof. intros w Hwf. by apply evolves_refl. Qed.

Lemma safe_leave {A} l : safe (leave_with (A := A) l).
Proof. intros w Hwf. by apply evolves_refl. Qed.

Lemma safe_lift {A} (o : outcome A) : safe (lift o).
Proof. intros w Hwf. destruct o; by apply evolves_refl. Qed.

Lemma safe_read_sysreg r : safe (read_sysreg r).
Proof. intros w Hwf. by apply evolves_refl. Qed.

Lemma safe_get_trace : safe get_trace.
Proof. intros w Hwf. by apply evolves_refl. Qed.

Lemma safe_write_sysreg r v : safe (write_sysreg r v).
Proof.
  intros w []. constructor; simpl; try done; [by apply prefix_app_r|..];
    intros c Hc; eauto using same_policy_refl.
Qed.

Lemma safe_emit e : safe (emit e).
Proof.
  intros w []. constructor; simpl; try done; [by apply prefix_app_r|..];
    intros c Hc; eauto using same_policy_refl.
Qed.

Lemma safe_activate_root root : safe (activate_root root).
Proof.
  intros w []. constructor; simpl; try done; [by apply prefix_app_r|..];
    intros c Hc; eauto using same_policy_refl.
Qed.

Lemma safe_with_platform {A} (f : PlatformState -> A * PlatformState) : safe (with_platform f).
Proof.
  intros w []. unfold with_platform. destruct (f _) as [a p].
  constructor; simpl; try done; intros c Hc; eauto using same_policy_refl.
Qed.

Lemma safe_with_suspend_contexts {A} f :
  (forall m a m', wf m -> f m = Ret (a, m') -> wf m' /\ length (items m') = length (items m)) ->
  safe (with_suspend_contexts (A := A) f).
Proof.
  intros Hf w Hwf. unfold with_suspend_contexts.
  destruct (f _) as [[a m]|] eqn:E; simpl; [|by apply evolves_refl].
  destruct Hwf. apply Hf in E as [? Hlen]; [|done]. constructor; simpl; try done.
  - intros c Hc. eauto using same_policy_refl.
  - intros c Hc. eauto using same_policy_refl.
  - constructor; simpl; try done. by rewrite Hlen.
Qed.

Lemma safe_with_secondary_stacks {A} f :
  (forall m a m', wf m -> f m = Ret (a, m') ->
    wf m' /\ length (items m') = length (items m) /\
    forall i k v, at_slot m i k v -> at_slot m' i k v) ->
  safe (with_secondary_stacks (A := A) f).
Proof.
  intros Hf w Hwf. unfold with_secondary_stacks.
  destruct (f _) as [[a m]|] eqn:E; simpl; [|by apply evolves_refl].
  destruct Hwf. apply Hf in E as (? & Hlen & ?); [|done]. constructor; simpl; try done.
  - intros c Hc. eauto using same_policy_refl.
  - intros c Hc. eauto using same_policy_refl.
  - constructor; simpl; try done. by rewrite Hlen.
Qed.

(** Replacing the configuration by one with the same policy. *)
Lemma evolves_set_stage2 w c :
  world_wf w -> registry_wf (s2c_memory_access_handlers c) ->
  (forall c0, w_stage2_config w = Some c0 -> same_policy c0 c) ->
  (is_Some (w_stage2_config w) \/ platform_policy c) ->
  evolves w (world_of (set_stage2 c w)).
Proof.
  intros [] Hreg Hsame Hnew. constructor; simpl; try done.
  - intros c0 Hc0. eauto.
  - intros c' [= <-]. destruct Hnew as [[c0 Hc0]|]; [left|by right]. eauto.
  - constructor; simpl; try done. by intros c' [= <-].
Qed.
End Evolution.

Create HintDb safe.
#[export] Hint Resolve safe_ret safe_panic safe_leave safe_lift safe_read_sysreg safe_get_trace
  safe_write_sysreg safe_emit safe_activate_root safe_with_platform : safe.

(** Proves [safe] of a composed function. *)
Ltac solve_safe :=
  repeat first
    [ solve [eauto with safe]
    | apply safe_bind; [|intros ?]
    | match goal with
      | |- safe (match ?x with _ => _ end) => destruct x
      | |- safe (if ?x then _ else _) => destruct x
      | |- safe (let '_ := ?x in _) => destruct x
      end ].

(** Unfolds the monad around evaluated primitives. *)
Ltac run_monad :=
  unfold mbind, M_bind, mret, M_ret, read_sysreg, write_sysreg, emit, activate_root, get_trace, get_stage2,
    set_stage2, lift, panic, leave_with, with_platform in *; cbn -[Z.add Z.leb Z.eqb Z.modulo] in *.

(** ** A PSCI decoder and a firmware to run the model on

    The PSCI function numbers of the specification; a firmware with four
    cores that answers a forwarded call with its function number. *)

Module ExampleFirmware.
#[export] Instance example_psci : ArmPsci := {|
  Mpidr := Z; EntryPoint := Z * Z; PowerState := Z; PsciError := unit;
  u64_from_mpidr m := m; entry_point_address := fst; entry_context_id := snd;
  u32_from_power_state p := p; i32_from_psci_error _ := -1; RETURN_CODE_SUCCESS := 0 |}.

Definition decode (regs : list u64) : result unit Function :=
  match regs with
  | [f; a0; a1; a2] =>
      match f mod 32 with
      | 0 => Ok Version | 1 => Ok (CpuSuspend (Z.land a0 U32_MAX : PowerState) ((a1, a2) : EntryPoint))
      | 2 => Ok CpuOff | 3 => Ok (CpuOn (a0 : Mpidr) ((a1, a2) : EntryPoint))
      | 4 => Ok AffinityInfo | 5 => Ok Migrate | 6 => Ok MigrateInfoType
      | 7 => Ok MigrateInfoUpCpu | 8 => Ok SystemOff | 9 => Ok SystemReset | 10 => Ok Features
      | 11 => Ok CpuFreeze | 12 => Ok CpuDefaultSuspend | 13 => Ok NodeHwState
      | 14 => Ok SystemSuspend | 15 => Ok SetSuspendMode | 16 => Ok StatResidency
      | 17 => Ok StatCount | 18 => Ok SystemReset2 | 19 => Ok MemProtect
      | 20 => Ok MemProtectCheckRange | 21 => Ok SystemOff2 | _ => Err tt
      end
  | _ => Err tt
  end.
#[export] Instance example_decoder : PsciDecoder := {| function_try_from := decode |}.

#[export] Instance example_firmware : Firmware := {|
  PsciCallError := Z;
  i64_from_psci_call_error e := e;
  smc64 _ f _ := if bool_decide (f mod 32 = 2 \/ f mod 32 = 8) then None else Some (f :: replicate 17 0);
  start_core _ m := if bool_decide (0 <= m < 4) then Ok tt else Err (-2);
  suspend_core _ p := if p =? 0 then Some (Ok tt) else None |}.
End ExampleFirmware.
