(* ===== verification/Hypervisor.v ===== *)
(** * The hypervisor

    Model of src/src/hypervisor.rs: EL1 entry, stage-2 activation, the
    synchronous exception handler (HVC/SMC calls, stage-2 data aborts), PSCI
    forwarding, CPU_ON and CPU_SUSPEND, all in the monad [M] of World.v.  The
    guest's register frame, a [&mut] argument in the code, is passed and
    returned. *)

From Stdlib Require Import ZArith Lia.
From stdpp Require Import base tactics list gmap strings numbers.
From S2P Require Import Prelude MemoryAccess SimpleMap Stage2 Exceptions HvcResponse Platform Sysregs.
From S2P Require Import World.

#[local] Open Scope Z_scope.

(** ** Constants and the exception class *)

Definition AARCH64_INSTRUCTION_LENGTH : usize := 4.
Definition EC_DATA_ABORT_LOWER_EL : u8 := 0x24.
Definition EC_DATA_ABORT_SAME_EL : u8 := 0x25.
Definition SPSR_EL1H : u8 := 5.
Definition T0SZ_MAX_SIZE : u8 := 64.

Inductive ExceptionClass : Type :=
| HvcTrappedInAArch64
| SmcTrappedInAArch64
| DataAbortLowerEL
| Unknown (val : u8).

#[export] Instance ExceptionClass_eq_dec : EqDecision ExceptionClass.
Proof. solve_decision. Defined.

(** [impl From<u8> for ExceptionClass]. *)
Definition exception_class_from (value : u8) : ExceptionClass :=
  if value =? 0x16 then HvcTrappedInAArch64
  else if value =? 0x17 then SmcTrappedInAArch64
  else if value =? EC_DATA_ABORT_LOWER_EL then DataAbortLowerEL
  else Unknown value.

Section Hypervisor.
Context {PT : PageTable} {SA : SmcccArch} {PLAT : Platform}.
Context {SYS : ArmSysregs} {PSCI : ArmPsci} {DEC : PsciDecoder} {FW : Firmware}.

(** ** Stage-2 activation and EL1 entry *)

(** The barriers of src/src/arch.rs. *)
Definition dsb : M unit := emit EvDsb.
Definition isb : M unit := emit EvIsb.
Definition tlbi_vmalls12e1 : M unit := emit EvTlbiVmalls12e1.

(** [STAGE2_CONFIG.call_once(..)]. *)
Definition stage2_config : M (Stage2Config PT PlatformState) :=
  config ← get_stage2;
  match config with
  | Some config => mret config
  | None =>
      '(builder, r) ← lift (configure_memory_access Stage2Builder_new);
      _ ← lift (expect r "failed to configure stage-2 memory access");
      _ ← set_stage2 (build builder);
      mret (build builder)
  end.

(** The value of VTCR_EL2. *)
Definition stage2_vtcr : Z :=
  let vtcr := vtcr_set_ps 0 2 in
  let vtcr := vtcr_set_tg0 vtcr 0 in
  let vtcr := vtcr_set_sh0 vtcr 3 in
  let vtcr := vtcr_set_orgn0 vtcr 1 in
  let vtcr := vtcr_set_irgn0 vtcr 1 in
  let vtcr := vtcr_set_sl0 vtcr 2 in
  vtcr_set_t0sz vtcr (T0SZ_MAX_SIZE - 40).

(** [idmap.activate()] marks the locked table as active and points VTTBR_EL2 at
    its root. *)
Definition setup_stage2 : M unit :=
  config ← stage2_config;
  _ ← activate_root (idmap_root_address (s2c_idmap config));
  _ ← set_stage2 {| s2c_idmap := idmap_activate (s2c_idmap config);
                    s2c_memory_access_handlers := s2c_memory_access_handlers config |};
  _ ← write_sysreg VTCR_EL2 stage2_vtcr;
  _ ← tlbi_vmalls12e1;
  _ ← dsb;
  isb.

(** [eret_to_el1] itself is assembly: see Asm.v. *)
Definition entry_point_el1 (arg0 arg1 arg2 arg3 entry_point : u64) : M Empty_set :=
  _ ← setup_stage2;
  let hcr := flag_or 0 HCR_RW in
  let hcr := flag_or hcr HCR_TSC in
  let hcr := flag_or hcr HCR_VM in
  let hcr := flag_sub hcr HCR_IMO in
  _ ← write_sysreg HCR_EL2 hcr;
  _ ← write_sysreg CNTVOFF_EL2 0;
  cnthctl ← read_sysreg CNTHCTL_EL2;
  let cnthctl := flag_or cnthctl CNTHCTL_EL0PCTEN in
  let cnthctl := flag_or cnthctl CNTHCTL_EL1PCEN in
  _ ← write_sysreg CNTHCTL_EL2 cnthctl;
  icc_sre ← read_sysreg ICC_SRE_EL2;
  let icc_sre := flag_or icc_sre ICC_SRE_SRE in
  let icc_sre := flag_or icc_sre ICC_SRE_DFB in
  let icc_sre := flag_or icc_sre ICC_SRE_DIB in
  let icc_sre := flag_or icc_sre ICC_SRE_ENABLE in
  _ ← write_sysreg ICC_SRE_EL2 icc_sre;
  spsr ← read_sysreg SPSR_EL2;
  let spsr := spsr_set_m_3_0 spsr SPSR_EL1H in
  let spsr := flag_or spsr SPSR_D in
  let spsr := flag_or spsr SPSR_A in
  let spsr := flag_or spsr SPSR_I in
  let spsr := flag_or spsr SPSR_F in
  _ ← write_sysreg SPSR_EL2 spsr;
  _ ← write_sysreg ELR_EL2 (elr_set_addr 0 entry_point);
  let sctlr := flag_or 0 SCTLR1_EOS in
  let sctlr := flag_or sctlr SCTLR1_TSCXT in
  let sctlr := flag_or sctlr SCTLR1_EIS in
  let sctlr := flag_or sctlr SCTLR1_SPAN in
  let sctlr := flag_or sctlr SCTLR1_NTLSMD in
  let sctlr := flag_or sctlr SCTLR1_LSMAOE in
  _ ← write_sysreg TTBR0_EL1 0;
  _ ← write_sysreg TCR_EL1 0;
  _ ← write_sysreg VBAR_EL1 0;
  _ ← write_sysreg MAIR_EL1 0;
  _ ← write_sysreg SP_EL1 0;
  _ ← write_sysreg SCTLR_EL1 sctlr;
  leave_with (EretToEl1 arg0 arg1 arg2 arg3).

(** ** Memory access emulation and fault injection *)

Definition write_saved_guest_register (s : GuestRegisterState) (index : usize) (value : u64) :
    bool * GuestRegisterState := write_gpr s index value.

Definition advance_guest_pc (s : GuestRegisterState) : outcome GuestRegisterState :=
  advance_pc s AARCH64_INSTRUCTION_LENGTH.

(** The two arms of [match decoded.kind]. *)
Definition emulate_read (s : GuestRegisterState) (decoded : DecodedMemoryAccess)
    (handler_match : MemoryAccessHandlerMatch PlatformState) :
    M (GuestRegisterState * result unit unit) :=
  match mah_read (mar_handler (mahm_region handler_match)) with
  | None => mret (s, Err tt)
  | Some read_handler =>
      r ← with_platform (read_handler {| mra_ipa := dma_ipa decoded;
                                         mra_offset := mahm_offset handler_match;
                                         mra_width := dma_width decoded |});
      match r with
      | ReadValue value =>
          let value := extend_read_result value (dma_width decoded) (dma_sign_extend decoded)
                         (dma_register_width_64 decoded) in
          let '(ok, s) := write_saved_guest_register s (dma_register_index decoded) value in
          if negb ok then mret (s, Err tt)
          else s ← lift (advance_guest_pc s); mret (s, Ok tt)
      | ReadFault => mret (s, Err tt)
      end
  end.

Definition emulate_write (s : GuestRegisterState) (decoded : DecodedMemoryAccess) (value : u64)
    (handler_match : MemoryAccessHandlerMatch PlatformState) :
    M (GuestRegisterState * result unit unit) :=
  match mah_write (mar_handler (mahm_region handler_match)) with
  | None => mret (s, Err tt)
  | Some write_handler =>
      r ← with_platform (write_handler {| mwa_ipa := dma_ipa decoded;
                                          mwa_offset := mahm_offset handler_match;
                                          mwa_width := dma_width decoded;
                                          mwa_value := value |});
      match r with
      | WriteHandled => s ← lift (advance_guest_pc s); mret (s, Ok tt)
      | WriteFault => mret (s, Err tt)
      end
  end.

Definition try_memory_access_handler (s : GuestRegisterState) :
    M (GuestRegisterState * result unit unit) :=
  esr ← read_sysreg ESR_EL2;
  hpfar ← read_sysreg HPFAR_EL2;
  far ← read_sysreg FAR_EL2;
  decoded ← lift (decode_memory_access (esr_iss esr) (hpfar_fipa hpfar) (far_va far)
                    (fun index => Ret (read_gpr s index)));
  match decoded with
  | None => mret (s, Err tt)
  | Some decoded =>
      config ← stage2_config;
      handler_match ← lift (find (s2c_memory_access_handlers config) (dma_ipa decoded));
      match handler_match with
      | None => mret (s, Err tt)
      | Some handler_match =>
          match dma_kind decoded with
          | Read => emulate_read s decoded handler_match
          | Write value => emulate_write s decoded value handler_match
          end
      end
  end.

(** The syndrome the guest sees, and the PSTATE its handler starts in. *)
Definition injected_esr (esr : Z) : Z :=
  if esr_ec esr =? EC_DATA_ABORT_LOWER_EL then esr_set_ec esr EC_DATA_ABORT_SAME_EL else esr.

Definition injected_spsr : Z :=
  let spsr := spsr_set_m_3_0 0 SPSR_EL1H in
  let spsr := flag_or spsr SPSR_D in
  let spsr := flag_or spsr SPSR_A in
  let spsr := flag_or spsr SPSR_I in
  flag_or spsr SPSR_F.

Definition inject_data_abort (s : GuestRegisterState) : M GuestRegisterState :=
  fault_addr ← read_sysreg FAR_EL2;
  esr ← read_sysreg ESR_EL2;
  vbar ← read_sysreg VBAR_EL1;
  if vbar =? 0 then panic "Guest VBAR_EL1 is 0, cannot inject data abort" else
  handler ← lift (add64 vbar 0x200);
  let '(elr, spsr) := exception_return s in
  _ ← write_sysreg ELR_EL1 elr;
  _ ← write_sysreg SPSR_EL1 spsr;
  _ ← write_sysreg FAR_EL1 (far_va fault_addr);
  _ ← write_sysreg ESR_EL1 (injected_esr esr);
  mret (set_exception_return s handler injected_spsr).

(** ** PSCI *)

(** The external calls, as events and answers. *)
Definition smc64_call (function_id : u32) (args : list u64) : M (list u64) :=
  t ← get_trace;
  _ ← emit (EvSmc function_id args);
  match smc64 t function_id args with
  | Some regs => mret regs
  | None => leave_with NoReturn
  end.

Definition start_core_call (mpidr : u64) (stack : nat) (entry arg : u64) :
    M (result PsciCallError unit) :=
  t ← get_trace;
  _ ← emit (EvStartCore mpidr stack entry arg);
  mret (start_core t mpidr).

Definition suspend_core_call (power_state : u32) (stack : nat) : M (result PsciCallError unit) :=
  t ← get_trace;
  _ ← emit (EvSuspendCore power_state stack);
  match suspend_core t power_state with
  | Some r => mret r
  | None => leave_with NoReturn
  end.

(** A stack is named by its slot. *)
Definition get_secondary_stack (mpidr : u64) : M nat :=
  with_secondary_stacks (fun stack_map =>
    match get_mut stack_map mpidr with
    | Some stack => Ret (stack, stack_map)
    | None => SimpleMap.insert stack_map mpidr (tt : Stack)
    end).

(** The closure given to [start_core], run by the started core. *)
Definition cpu_on_entry (entry_ptr arg : u64) : M Empty_set :=
  entry_point_el1 arg 0 0 0 entry_ptr.

Definition psci_cpu_on (mpidr : Mpidr) (entry : EntryPoint) : M (result PsciCallError unit) :=
  let mpidr_u64 := u64_from_mpidr mpidr in
  stack ← get_secondary_stack mpidr_u64;
  start_core_call mpidr_u64 stack (entry_point_address entry) (entry_context_id entry).

Definition psci_cpu_suspend (power_state : PowerState) (entry : EntryPoint) :
    M (result PsciCallError unit) :=
  mpidr ← read_sysreg MPIDR_EL1;
  let context := {| scd_entry_point := entry_point_address entry;
                    scd_context_id := entry_context_id entry |} in
  _ ← with_suspend_contexts (fun m => SimpleMap.insert m mpidr context);
  stack ← get_secondary_stack mpidr;
  result ← suspend_core_call (u32_from_power_state power_state) stack;
  _ ← with_suspend_contexts (fun m => Ret (SimpleMap.remove m mpidr));
  mret result.

(** Where a powered-down core resumes. *)
Definition restore_from_suspend : M Empty_set :=
  mpidr ← read_sysreg MPIDR_EL1;
  context ← with_suspend_contexts (fun m => Ret (SimpleMap.remove m mpidr));
  context ← lift (expect_some context "context not found for resuming CPU");
  entry_point_el1 (scd_context_id context) 0 0 0 (scd_entry_point context).

Definition psci_result_to_u64 (r : result PsciCallError unit) : u64 :=
  match r with
  | Ok _ => RETURN_CODE_SUCCESS mod 2 ^ 32
  | Err err => cast_unsigned (i64_from_psci_call_error err)
  end.

(** [smc_args]: three arguments, the rest of the array zero. *)
Definition forwarded_args (arg0 arg1 arg2 : u64) : list u64 :=
  <[2%nat := arg2]> (<[1%nat := arg1]> (<[0%nat := arg0]> (replicate 17 0))).

Definition handle_psci (fn_id arg0 arg1 arg2 : u64) : M (result PsciError u64) :=
  match function_try_from [fn_id; arg0; arg1; arg2] with
  | Err e => mret (Err e)
  | Ok psci_fn =>
      match psci_fn with
      | Version | CpuOff | AffinityInfo | Migrate | MigrateInfoType | MigrateInfoUpCpu
      | SystemOff | SystemOff2 | SystemReset | SystemReset2 | MemProtect | MemProtectCheckRange
      | Features | CpuFreeze | CpuDefaultSuspend | NodeHwState | SystemSuspend | SetSuspendMode
      | StatResidency | StatCount =>
          regs ← smc64_call (fn_id mod 2 ^ 32) (forwarded_args arg0 arg1 arg2);
          mret (Ok (regs !!! 0%nat))
      | CpuOn target_cpu entry =>
          r ← psci_cpu_on target_cpu entry;
          mret (Ok (psci_result_to_u64 r))
      | CpuSuspend state entry =>
          r ← psci_cpu_suspend state entry;
          mret (Ok (psci_result_to_u64 r))
      end
  end.

Definition try_handle_psci (fn_id arg0 arg1 arg2 : u64) : M (result ArchError HvcResponse) :=
  r ← handle_psci fn_id arg0 arg1 arg2;
  mret match r with
       | Ok val => Ok (response_from_u64 val)
       | Err error => Err (arch_error_from_i32 (i32_from_psci_error error))
       end.

(** ** The exception handler *)

(** The pattern [0x8400_0000..=0x8400_001F | 0xC400_0000..=0xC400_001F]. *)
Definition is_psci_id (function_id : u64) : bool :=
  between 0x8400_0000 0x8400_001F function_id || between 0xC400_0000 0xC400_001F function_id.

Definition handle_call (s : GuestRegisterState) : M GuestRegisterState :=
  let gprs := volatile_gprs s in
  let function_id := gprs !!! 0%nat in
  let args := take 17 (drop 1 gprs) in
  result ←
    (if is_psci_id function_id then
       r ← try_handle_psci function_id (args !!! 0%nat) (args !!! 1%nat) (args !!! 2%nat);
       mret (Handled r)
     else mret (handle_hvc function_id args));
  mret (modify_register_state result s).

Definition handle_sync_lower (s : GuestRegisterState) : M GuestRegisterState :=
  esr_el2 ← read_sysreg ESR_EL2;
  let ec := exception_class_from (esr_ec esr_el2) in
  s ← match ec with
      | HvcTrappedInAArch64 | SmcTrappedInAArch64 => handle_call s
      | DataAbortLowerEL =>
          '(s, r) ← try_memory_access_handler s;
          match r with
          | Err _ => inject_data_abort s
          | Ok _ => mret s
          end
      | Unknown _ => panic "Unexpected sync_lower"
      end;
  if bool_decide (ec = SmcTrappedInAArch64)
  then lift (advance_pc s AARCH64_INSTRUCTION_LENGTH) else mret s.
End Hypervisor.
