(* ===== verification/Safety.v ===== *)
(** * What every run of the hypervisor preserves

    Each function of Hypervisor.v evolves the world in the sense of World.v:
    the trace grows, the stage-2 policy stays what the platform configured,
    stacks stay with their cores, the invariant holds.  The file ends with the
    histories of a running system as a step relation. *)

From Stdlib Require Import ZArith Lia.
From stdpp Require Import base tactics list gmap strings numbers.
From S2P Require Import Prelude MemoryAccess SimpleMap Stage2 Exceptions HvcResponse Pagetable.
From S2P Require Import Platform Qemu Sysregs World Hypervisor.

#[local] Open Scope Z_scope.

(** ** Every function evolves the world *)

Section Safety.
Context {PT : PageTable} {SA : SmcccArch} {PLAT : Platform}.
Context {SYS : ArmSysregs} {PSCI : ArmPsci} {DEC : PsciDecoder} {FW : Firmware}.
Context {PTL : PageTableLaws} {PLL : PlatformLaws}.

(** A configuration in force is returned as it is; otherwise the platform is
    asked once, and what it configured is stored. *)
Lemma stage2_config_some c w : w_stage2_config w = Some c -> stage2_config w = Done c w.
Proof. intros Hc. unfold stage2_config. run_monad. by rewrite Hc. Qed.

Lemma stage2_config_Done c w w' :
  stage2_config w = Done c w' ->
  (w_stage2_config w = Some c /\ w' = w) \/
  (w_stage2_config w = None /\ w' = world_of (set_stage2 c w) /\ exists b,
    configure_memory_access Stage2Builder_new = Ret (b, Ok tt) /\ c = build b).
Proof.
  unfold stage2_config. run_monad. destruct (w_stage2_config w) as [c0|].
  - intros [= -> ->]. by left.
  - destruct (configure_memory_access _) as [[b [[]|e]]|]; [|done..].
    intros [= <- <-]. right. eauto.
Qed.

Lemma stage2_config_world w :
  world_of (stage2_config w) = w \/ exists c, stage2_config w = Done c (world_of (set_stage2 c w)).
Proof.
  unfold stage2_config. run_monad. destruct (w_stage2_config w) as [c0|]; [by left|].
  destruct (configure_memory_access _) as [[b [[]|e]]|]; simpl; eauto.
Qed.

Lemma stage2_config_registry c w w' :
  world_wf w -> stage2_config w = Done c w' -> registry_wf (s2c_memory_access_handlers c).
Proof.
  intros Hwf [[Hc _]|(_ & _ & b & Hb & ->)]%stage2_config_Done; [by eapply wwf_config|].
  apply (bwf_registry b), configure_wf, Hb.
Qed.

Lemma safe_stage2_config : safe stage2_config.
Proof.
  intros w Hwf. destruct (stage2_config_world w) as [->|[c Hc]]; [by apply evolves_refl|].
  rewrite Hc. pose proof (stage2_config_registry _ _ _ Hwf Hc).
  destruct (stage2_config_Done _ _ _ Hc) as [[_ Hw]|(Hnone & _ & b & Hb & ->)].
  - simpl in *. rewrite Hw. by apply evolves_refl.
  - apply evolves_set_stage2; [done..|intros c0 Hc0; congruence|right].
    exists b. split; [done|]. apply same_policy_refl.
Qed.

(** Activating the table keeps the policy. *)
Lemma activate_same_policy (c : Stage2Config PT PlatformState) :
  same_policy c {| s2c_idmap := idmap_activate (s2c_idmap c);
                   s2c_memory_access_handlers := s2c_memory_access_handlers c |}.
Proof.
  split_and!; [done|apply root_activate|]. intros x. unfold stage2_access. simpl.
  by rewrite translate_activate.
Qed.

Lemma stage2_config_stored c w w' : stage2_config w = Done c w' -> w_stage2_config w' = Some c.
Proof. by intros [[Hc ->]|(_ & -> & _)]%stage2_config_Done. Qed.

Lemma safe_setup_stage2 : safe setup_stage2.
Proof.
  intros w Hwf. pose proof (safe_stage2_config w Hwf) as Hev.
  apply evolves_bind; [done|]. intros c w1 Hc. rewrite Hc in Hev. apply ev_wf in Hev. simpl in Hev.
  pose proof (stage2_config_stored _ _ _ Hc) as Hst.
  pose proof (stage2_config_registry _ _ _ Hwf Hc) as Hreg.
  apply evolves_bind; [by apply safe_activate_root|]. intros [] w2 [= <-].
  apply evolves_bind.
  - apply evolves_set_stage2; [by apply safe_activate_root|done|..].
    + simpl. rewrite Hst. intros c0 [= <-]. apply activate_same_policy.
    + left. by exists c.
  - intros [] w3 [= <-]. assert (Hs : safe (_ ← write_sysreg VTCR_EL2 stage2_vtcr;
      _ ← tlbi_vmalls12e1; _ ← dsb; isb)) by (unfold dsb, isb, tlbi_vmalls12e1; solve_safe).
    apply Hs. destruct Hev. constructor; simpl; try done. by intros c' [= <-].
Qed.

Lemma safe_entry_point_el1 a0 a1 a2 a3 ep : safe (entry_point_el1 a0 a1 a2 a3 ep).
Proof. pose proof safe_setup_stage2. unfold entry_point_el1. solve_safe. Qed.

Lemma safe_try_memory_access_handler s : safe (try_memory_access_handler s).
Proof.
  pose proof safe_stage2_config.
  unfold try_memory_access_handler, emulate_read, emulate_write. solve_safe.
Qed.

Lemma safe_inject_data_abort s : safe (inject_data_abort s).
Proof. unfold inject_data_abort. solve_safe. Qed.

(** A stack handed out stays in its slot. *)
Lemma safe_get_secondary_stack mpidr : safe (get_secondary_stack mpidr).
Proof.
  apply safe_with_secondary_stacks. intros m a m' Hwf.
  destruct (get_mut m mpidr) eqn:E; [by intros [= -> ->]|]. intros Hins.
  split_and!; [by eapply insert_wf|by eapply insert_length|].
  intros i k v Hi. apply (insert_at_slot _ _ _ _ _ _ _ _ Hwf Hins). right.
  rewrite find_key_None in E. assert (k <> mpidr) by (intros ->; by destruct (E i v)).
  split_and!; [|done..]. intros ->. apply insert_Ret in Hins as (Hf & _).
  apply find_slot_Some in Hf as (x & Hx & Hvac & _).
  assert (Hi' : at_slot (snd (SimpleMap.remove m mpidr)) a k v) by by apply remove_at_slot.
  unfold at_slot in Hi'. rewrite Hx in Hi'. by injection Hi' as ->.
Qed.

Lemma safe_suspend_insert mpidr c :
  safe (with_suspend_contexts (fun m => SimpleMap.insert m mpidr c)).
Proof.
  apply safe_with_suspend_contexts. intros m a m' Hwf Hins.
  split; [by eapply insert_wf|by eapply insert_length].
Qed.

Lemma safe_suspend_remove mpidr :
  safe (with_suspend_contexts (fun m => Ret (SimpleMap.remove m mpidr))).
Proof.
  apply safe_with_suspend_contexts. intros m a m' Hwf [= E].
  pose proof (remove_wf m mpidr Hwf). pose proof (remove_length m mpidr). by rewrite E in *.
Qed.

Lemma safe_psci_cpu_suspend state entry : safe (psci_cpu_suspend state entry).
Proof.
  pose proof safe_get_secondary_stack. pose proof safe_suspend_insert.
  pose proof safe_suspend_remove. unfold psci_cpu_suspend, suspend_core_call. solve_safe.
Qed.

Lemma safe_psci_cpu_on mpidr entry : safe (psci_cpu_on mpidr entry).
Proof.
  pose proof safe_get_secondary_stack. unfold psci_cpu_on, start_core_call. solve_safe.
Qed.

Lemma safe_restore_from_suspend : safe restore_from_suspend.
Proof.
  pose proof safe_suspend_remove. pose proof safe_entry_point_el1.
  unfold restore_from_suspend. solve_safe.
Qed.

Lemma safe_handle_psci f a0 a1 a2 : safe (handle_psci f a0 a1 a2).
Proof.
  pose proof safe_psci_cpu_suspend. pose proof safe_psci_cpu_on.
  unfold handle_psci, smc64_call. solve_safe.
Qed.

Lemma safe_handle_call s : safe (handle_call s).
Proof. pose proof safe_handle_psci. unfold handle_call, try_handle_psci. solve_safe. Qed.

Lemma safe_handle_sync_lower s : safe (handle_sync_lower s).
Proof.
  pose proof safe_handle_call. pose proof safe_try_memory_access_handler.
  pose proof safe_inject_data_abort. unfold handle_sync_lower. solve_safe.
Qed.
End Safety.

(** ** Histories *)

Section Histories.
Context {PT : PageTable} {SA : SmcccArch} {PLAT : Platform}.
Context {SYS : ArmSysregs} {PSCI : ArmPsci} {DEC : PsciDecoder} {FW : Firmware}.

Definition with_sysregs (w : World) (regs : sysregs) : World :=
  {| w_sysregs := regs; w_stage2_config := w_stage2_config w; w_platform := w_platform w;
     w_suspend_contexts := w_suspend_contexts w; w_secondary_stacks := w_secondary_stacks w;
     w_trace := w_trace w |}.

(** What can happen after boot, on any core: the guest runs and the system
    registers take any values, a guest exception is handled with any register
    frame, a core enters EL1 (the boot core or a started one), a suspended core
    resumes. *)
Inductive ritm_step : World -> World -> Prop :=
| step_guest w regs : ritm_step w (with_sysregs w regs)
| step_exception w s : ritm_step w (world_of (handle_sync_lower s w))
| step_entry w a0 a1 a2 a3 ep : ritm_step w (world_of (entry_point_el1 a0 a1 a2 a3 ep w))
| step_resume w : ritm_step w (world_of (restore_from_suspend w)).

Context {PTL : PageTableLaws} {PLL : PlatformLaws}.

Lemma ritm_step_evolves w w' : ritm_step w w' -> world_wf w -> evolves w w'.
Proof.
  intros [] Hwf.
  - destruct Hwf. constructor; simpl; try done; intros c Hc; eauto using same_policy_refl.
  - by apply safe_handle_sync_lower.
  - by apply safe_entry_point_el1.
  - by apply safe_restore_from_suspend.
Qed.

Lemma ritm_steps_evolve w w' : rtc ritm_step w w' -> world_wf w -> evolves w w'.
Proof.
  induction 1 as [|w w1 w' Hs _ IH]; intros Hwf; [by apply evolves_refl|].
  pose proof (ritm_step_evolves _ _ Hs Hwf) as Hev.
  eapply evolves_trans; [done|]. apply IH, (ev_wf _ _ Hev).
Qed.

(** Every reachable world is well-formed and its policy is the platform's. *)
Lemma reachable_wf regs p w : rtc ritm_step (boot_world regs p) w -> world_wf w.
Proof. intros H. eapply ev_wf, ritm_steps_evolve; [done|]. apply boot_world_wf. Qed.

Lemma reachable_policy regs p w c :
  rtc ritm_step (boot_world regs p) w -> w_stage2_config w = Some c -> platform_policy c.
Proof.
  intros H Hc. pose proof (ritm_steps_evolve _ _ H (boot_world_wf regs p)) as Hev.
  destruct (ev_configured _ _ Hev c Hc) as [(c0 & Hc0 & _)|]; done.
Qed.
End Histories.

(** ** Properties *)

(** C18: over any history after boot (guest execution, exceptions with any
    register frame, core starts, resumes, in any order), the stage-2 policy
    once in force never changes and is the one the platform configured, its
    table stays at its address, a secondary stack stays in its slot, nothing done to the outside is undone,
    and both fixed-capacity maps keep unique keys and their capacity. *)
Theorem history_evolves {PT : PageTable} {SA : SmcccArch} {PLAT : Platform} {SYS : ArmSysregs}
    {PSCI : ArmPsci} {DEC : PsciDecoder} {FW : Firmware} {PTL : PageTableLaws} {PLL : PlatformLaws}
    regs p w1 w2 :
  rtc ritm_step (boot_world regs p) w1 -> rtc ritm_step w1 w2 ->
  evolves w1 w2 /\ forall c, w_stage2_config w2 = Some c -> platform_policy c.
Proof.
  intros H1 H2. split.
  - apply ritm_steps_evolve; [done|]. by eapply reachable_wf.
  - intros c. eapply reachable_policy. by etrans.
Qed.
