(* ===== verification/Entry.v ===== *)
(** * Entering EL1

    What [entry_point_el1] of src/src/hypervisor.rs leaves behind when it
    executes [eret]: the stage-2 configuration in force, the order of the
    activation sequence, and the value of every system register it touches. *)

From Stdlib Require Import ZArith Lia.
From stdpp Require Import base tactics list gmap strings numbers.
From S2P Require Import Prelude Stage2 HvcResponse Pagetable Platform Qemu Sysregs World Hypervisor Safety.

#[local] Open Scope Z_scope.

Section Entry.
Context {PT : PageTable} {SA : SmcccArch} {PLAT : Platform}.
Context {SYS : ArmSysregs} {SYL : ArmSysregsLaws}.

(** The activated form of a configuration. *)
Definition activated (c : Stage2Config PT PlatformState) : Stage2Config PT PlatformState :=
  {| s2c_idmap := idmap_activate (s2c_idmap c);
     s2c_memory_access_handlers := s2c_memory_access_handlers c |}.

(** The registers [entry_point_el1] writes. *)
Definition entry_registers : list sysreg :=
  [VTTBR_EL2; VTCR_EL2; HCR_EL2; CNTVOFF_EL2; CNTHCTL_EL2; ICC_SRE_EL2; SPSR_EL2; ELR_EL2;
   TTBR0_EL1; TCR_EL1; VBAR_EL1; MAIR_EL1; SP_EL1; SCTLR_EL1].

(** 40-bit input and output addresses, 4 KiB granule, inner-shareable
    write-back walks starting at level 0. *)
Lemma stage2_vtcr_value : stage2_vtcr = 0x2_3598.
Proof.
  unfold stage2_vtcr. pose proof law_vtcr as L.
  rewrite (proj1 (L 0 2)).
  repeat match goal with
  | |- context [vtcr_set_tg0 ?x ?v] => rewrite (proj1 (proj2 (L x v)))
  | |- context [vtcr_set_sh0 ?x ?v] => rewrite (proj1 (proj2 (proj2 (L x v))))
  | |- context [vtcr_set_orgn0 ?x ?v] => rewrite (proj1 (proj2 (proj2 (proj2 (L x v)))))
  | |- context [vtcr_set_irgn0 ?x ?v] => rewrite (proj1 (proj2 (proj2 (proj2 (proj2 (L x v))))))
  | |- context [vtcr_set_sl0 ?x ?v] =>
      rewrite (proj1 (proj2 (proj2 (proj2 (proj2 (proj2 (L x v)))))))
  | |- context [vtcr_set_t0sz ?x ?v] =>
      rewrite (proj2 (proj2 (proj2 (proj2 (proj2 (proj2 (L x v)))))))
  end. reflexivity.
Qed.

Lemma setup_stage2_Done w c w0 :
  stage2_config w = Done c w0 ->
  setup_stage2 w = Done tt
    {| w_sysregs := set_sysreg VTCR_EL2 stage2_vtcr
         (set_sysreg VTTBR_EL2 (idmap_root_address (s2c_idmap c)) (w_sysregs w));
       w_stage2_config := Some (activated c); w_platform := w_platform w;
       w_suspend_contexts := w_suspend_contexts w; w_secondary_stacks := w_secondary_stacks w;
       w_trace := w_trace w ++ [EvActivateStage2 (idmap_root_address (s2c_idmap c));
         EvMsr VTCR_EL2 stage2_vtcr; EvTlbiVmalls12e1; EvDsb; EvIsb] |}.
Proof.
  intros Hc. unfold setup_stage2. unfold mbind at 1, M_bind at 1. rewrite Hc.
  assert (Hw : w_sysregs w0 = w_sysregs w /\ w_platform w0 = w_platform w /\
    w_suspend_contexts w0 = w_suspend_contexts w /\
    w_secondary_stacks w0 = w_secondary_stacks w /\ w_trace w0 = w_trace w)
    by (apply stage2_config_Done in Hc as [[_ ->]|(_ & -> & _)]; by split_and!).
  destruct Hw as (H1 & H2 & H3 & H4 & H5).
  unfold dsb, isb, tlbi_vmalls12e1. run_monad. rewrite H1, H2, H3, H4, H5, <- !app_assoc. done.
Qed.
End Entry.

(** Reads a register of a chain of writes. *)
Ltac sysreg_simpl :=
  repeat first [ rewrite set_sysreg_eq | rewrite set_sysreg_ne by done ].

Lemma lor_pow2_testbit a n i :
  0 <= n -> 0 <= i -> Z.testbit (Z.lor a (2 ^ n)) i = Z.testbit a i || (i =? n).
Proof.
  intros. rewrite Z.lor_spec, (Z.pow2_bits_eqb n i) by lia. by rewrite (Z.eqb_sym n i).
Qed.

(** The state in which [eret] is executed, after an entry from [w] under the
    configuration [c]. *)
Record entered {PT : PageTable} {SA : SmcccArch} {PLAT : Platform} {SYS : ArmSysregs}
    (w : World) (c : Stage2Config PT PlatformState) (entry_point : u64) (w' : World) : Prop := {
  en_config : w_stage2_config w' = Some (activated c);
  en_elr : w_sysregs w' ELR_EL2 = entry_point;
  (* AArch64 EL1, SMC trapped, stage 2 on, IRQs not routed to EL2 *)
  en_hcr : w_sysregs w' HCR_EL2 = 2 ^ 31 + 2 ^ 19 + 1;
  en_vtcr : w_sysregs w' VTCR_EL2 = 0x2_3598;
  (* the table of the configuration *)
  en_vttbr : w_sysregs w' VTTBR_EL2 = idmap_root_address (s2c_idmap c);
  (* EL1h with D, A, I, F masked; the other bits as they were *)
  en_spsr : forall i, 0 <= i -> Z.testbit (w_sysregs w' SPSR_EL2) i =
    if i <? 4 then Z.testbit 5 i else (6 <=? i) && (i <=? 9) || Z.testbit (w_sysregs w SPSR_EL2) i;
  en_timer : w_sysregs w' CNTVOFF_EL2 = 0 /\
    forall i, 0 <= i -> Z.testbit (w_sysregs w' CNTHCTL_EL2) i =
      (i <=? 1) || Z.testbit (w_sysregs w CNTHCTL_EL2) i;
  en_gic : forall i, 0 <= i -> Z.testbit (w_sysregs w' ICC_SRE_EL2) i =
    (i <=? 3) || Z.testbit (w_sysregs w ICC_SRE_EL2) i;
  (* stage 1 off, caches off: only the RES1-like bits *)
  en_sctlr : w_sysregs w' SCTLR_EL1 = 2 ^ 29 + 2 ^ 28 + 2 ^ 23 + 2 ^ 22 + 2 ^ 20 + 2 ^ 11;
  en_el1 : forall r, r ∈ [TTBR0_EL1; TCR_EL1; VBAR_EL1; MAIR_EL1; SP_EL1] -> w_sysregs w' r = 0;
  en_other : forall r, r ∉ entry_registers -> w_sysregs w' r = w_sysregs w r;
  (* stage 2 is activated, and stale translations are gone, before HCR_EL2.VM is set *)
  en_trace : exists rest, w_trace w' = w_trace w ++
    [EvActivateStage2 (idmap_root_address (s2c_idmap c)); EvMsr VTCR_EL2 0x2_3598;
     EvTlbiVmalls12e1; EvDsb; EvIsb; EvMsr HCR_EL2 (2 ^ 31 + 2 ^ 19 + 1)] ++ rest;
  en_statics : w_platform w' = w_platform w /\ w_suspend_contexts w' = w_suspend_contexts w /\
    w_secondary_stacks w' = w_secondary_stacks w;
}.

Section EntryLemmas.
Context {PT : PageTable} {SA : SmcccArch} {PLAT : Platform}.
Context {SYS : ArmSysregs} {SYL : ArmSysregsLaws}.

Lemma entry_hcr :
  flag_sub (flag_or (flag_or (flag_or 0 HCR_RW) HCR_TSC) HCR_VM) HCR_IMO = 2 ^ 31 + 2 ^ 19 + 1.
Proof. destruct law_hcr as (-> & -> & -> & ->). reflexivity. Qed.

Lemma entry_sctlr :
  flag_or (flag_or (flag_or (flag_or (flag_or (flag_or 0 SCTLR1_EOS) SCTLR1_TSCXT) SCTLR1_EIS)
    SCTLR1_SPAN) SCTLR1_NTLSMD) SCTLR1_LSMAOE =
  2 ^ 29 + 2 ^ 28 + 2 ^ 23 + 2 ^ 22 + 2 ^ 20 + 2 ^ 11.
Proof. destruct law_sctlr1 as (-> & -> & -> & -> & -> & ->). reflexivity. Qed.

(** Setting a few bits, decided bit by bit. *)
Ltac solve_bits :=
  repeat match goal with
  | |- context [?a <=? ?b] => destruct (Z.leb_spec a b)
  | |- context [?a <? ?b] => destruct (Z.ltb_spec a b)
  | |- context [?a =? ?b] => destruct (Z.eqb_spec a b)
  end; try lia; subst; rewrite ?orb_true_r, ?orb_false_r; try done.

Lemma daif_spsr_testbit spsr i :
  0 <= i ->
  Z.testbit (flag_or (flag_or (flag_or (flag_or (spsr_set_m_3_0 spsr SPSR_EL1H) SPSR_D) SPSR_A)
    SPSR_I) SPSR_F) i =
  if i <? 4 then Z.testbit 5 i else (6 <=? i) && (i <=? 9) || Z.testbit spsr i.
Proof.
  intros Hi. destruct law_daif as (-> & -> & -> & ->). rewrite law_spsr_m.
  unfold flag_or. rewrite !lor_pow2_testbit, set_field_testbit by lia.
  case_bool_decide; [rewrite Z.sub_0_r|]; solve_bits.
Qed.

Lemma cnthctl_testbit x i :
  0 <= i ->
  Z.testbit (flag_or (flag_or x CNTHCTL_EL0PCTEN) CNTHCTL_EL1PCEN) i = (i <=? 1) || Z.testbit x i.
Proof.
  intros Hi. destruct law_cnthctl as (-> & ->). unfold flag_or.
  rewrite !lor_pow2_testbit by lia. solve_bits.
Qed.

Lemma icc_sre_testbit x i :
  0 <= i ->
  Z.testbit (flag_or (flag_or (flag_or (flag_or x ICC_SRE_SRE) ICC_SRE_DFB) ICC_SRE_DIB)
    ICC_SRE_ENABLE) i = (i <=? 3) || Z.testbit x i.
Proof.
  intros Hi. destruct law_icc_sre as (-> & -> & -> & ->). unfold flag_or.
  rewrite !lor_pow2_testbit by lia. solve_bits.
Qed.

Lemma entry_point_el1_Leaves a0 a1 a2 a3 ep w c w0 :
  stage2_config w = Done c w0 ->
  exists w', entry_point_el1 a0 a1 a2 a3 ep w = Leaves (EretToEl1 a0 a1 a2 a3) w' /\
    entered w c ep w'.
Proof.
  intros Hc. unfold entry_point_el1. rewrite (bind_Done _ _ _ _ _ (setup_stage2_Done w c w0 Hc)).
  cbv zeta. repeat first [rewrite bind_write_sysreg | rewrite bind_read_sysreg].
  eexists. split; [reflexivity|].
  constructor; cbn [after_msr w_sysregs w_stage2_config w_platform w_suspend_contexts
    w_secondary_stacks w_trace].
  - done.
  - sysreg_simpl. apply law_elr.
  - sysreg_simpl. apply entry_hcr.
  - sysreg_simpl. apply stage2_vtcr_value.
  - by sysreg_simpl.
  - intros i Hi. sysreg_simpl. by apply daif_spsr_testbit.
  - split; [by sysreg_simpl|]. intros i Hi. sysreg_simpl. by apply cnthctl_testbit.
  - intros i Hi. sysreg_simpl. by apply icc_sre_testbit.
  - sysreg_simpl. apply entry_sctlr.
  - intros r Hr. rewrite !elem_of_cons, elem_of_nil in Hr. destruct_or! Hr; subst; try done;
      by sysreg_simpl.
  - intros r Hr. unfold entry_registers in Hr. rewrite !not_elem_of_cons in Hr.
    destruct_and! Hr. by rewrite !set_sysreg_ne.
  - rewrite stage2_vtcr_value, entry_hcr. eexists. rewrite <- !app_assoc. reflexivity.
  - done.
Qed.
End EntryLemmas.

(** ** Properties *)

(** The configuration a core enters under: the one in force, else what the
    platform configures. *)
Definition config_in_force {PT : PageTable} {SA : SmcccArch} {PLAT : Platform} (w : World) :
    option (Stage2Config PT PlatformState) :=
  match w_stage2_config w, configure_memory_access Stage2Builder_new with
  | Some c, _ => Some c
  | None, Ret (b, Ok _) => Some (build b)
  | None, _ => None
  end.

Lemma config_in_force_Done {PT : PageTable} {SA : SmcccArch} {PLAT : Platform} w c :
  config_in_force w = Some c -> exists w0, stage2_config w = Done c w0.
Proof.
  unfold config_in_force, stage2_config. run_monad.
  destruct (w_stage2_config w) as [c0|]; [intros [= ->]; eauto|].
  destruct (configure_memory_access _) as [[b [[]|e]]|]; [|done..]. intros [= ->]. eauto.
Qed.

Lemma entry_point_el1_Panics {PT : PageTable} {SA : SmcccArch} {PLAT : Platform}
    {SYS : ArmSysregs} a0 a1 a2 a3 ep w :
  config_in_force w = None -> exists msg, entry_point_el1 a0 a1 a2 a3 ep w = Panics msg w.
Proof.
  unfold config_in_force. intros Hc. destruct (w_stage2_config w) as [|] eqn:Hw; [done|].
  unfold entry_point_el1, setup_stage2, stage2_config. run_monad. rewrite Hw.
  destruct (configure_memory_access _) as [[b [[]|e]]|]; [done|simpl; eauto..].
Qed.

(** C6: entering EL1 is complete and exact.  If a stage-2 configuration is in
    force or the platform's configuration succeeds, [entry_point_el1] reaches
    [eret] with the four arguments in x0-x3 and leaves the state [entered]:
    stage 2 activated with VTTBR_EL2 at the root of the configuration's table,
    VTCR_EL2 written and the TLBs invalidated with barriers
    before HCR_EL2 enables translation; HCR_EL2 = RW|TSC|VM; EL1h with all
    interrupts masked; ELR_EL2 at the entry point; EL1's translation, vector
    and stack registers reset; no other register and no other static changed.
    Otherwise it panics before touching anything. *)
Theorem entry_point_el1_exact {PT : PageTable} {SA : SmcccArch} {PLAT : Platform}
    {SYS : ArmSysregs} {SYL : ArmSysregsLaws} a0 a1 a2 a3 ep w :
  match config_in_force w with
  | Some c => exists w', entry_point_el1 a0 a1 a2 a3 ep w = Leaves (EretToEl1 a0 a1 a2 a3) w' /\
      entered w c ep w'
  | None => exists msg, entry_point_el1 a0 a1 a2 a3 ep w = Panics msg w
  end.
Proof.
  destruct (config_in_force w) as [c|] eqn:Hc.
  - destruct (config_in_force_Done w c Hc) as [w0 H0]. by eapply entry_point_el1_Leaves.
  - by apply entry_point_el1_Panics.
Qed.

Section EntryExample.
Import QemuExample ArmArch.

Lemma entry_point_el1_exact_witness :
  exists c w', config_in_force (boot_world (fun _ => 0x3c0) 0) = Some c /\
    entry_point_el1 0x4702_0000 0 0 0 0x4020_0000 (boot_world (fun _ => 0x3c0) 0) =
      Leaves (EretToEl1 0x4702_0000 0 0 0) w' /\
    w_sysregs w' ELR_EL2 = 0x4020_0000.
Proof.
  pose proof (entry_point_el1_exact 0x4702_0000 0 0 0 0x4020_0000
    (boot_world (fun _ => 0x3c0) 0)) as H.
  destruct example_configured as [b Hb].
  assert (Hc : config_in_force (boot_world (fun _ => 0x3c0) 0) = Some (build b))
    by (unfold config_in_force; by rewrite Hb).
  rewrite Hc in H. destruct H as (w' & Hrun & Hen). exists (build b), w'.
  split_and!; [done..|]. apply (en_elr _ _ _ _ Hen).
Defined.
End EntryExample.
