(* ===== verification/Calls.v ===== *)
(** * HVC and SMC calls

    What the guest sees of a call trapped by [handle_sync_lower]
    (src/src/hypervisor.rs): the split between PSCI and the platform, the
    registers that carry the answer, the return address, and what each PSCI
    call does to the statics and the firmware. *)

From Stdlib Require Import ZArith Lia.
From stdpp Require Import base tactics list gmap strings numbers.
From S2P Require Import Prelude SimpleMap Stage2 Exceptions HvcResponse Pagetable Platform Qemu.
From S2P Require Import Sysregs World Hypervisor Safety.

#[local] Open Scope Z_scope.

Section Calls.
Context {PT : PageTable} {SA : SmcccArch} {PLAT : Platform}.
Context {SYS : ArmSysregs} {PSCI : ArmPsci} {DEC : PsciDecoder} {FW : Firmware}.
Implicit Types (s : GuestRegisterState) (w : World).

(** The exception class of a call: [smc] tells the two instructions apart. *)
Definition call_class (smc : bool) : u8 := if smc then 0x17 else 0x16.

(** The guest after a call that returned [r]: result registers written, the
    rest of the file unchanged, PSTATE unchanged, and the PC behind an SMC
    (HVC already points behind itself). *)
Record completes (smc : bool) s (r : HvcResult) s' : Prop := {
  co_wf : guest_wf s';
  co_return : exception_return s' =
    (vr_elr (volatile s) + (if smc then 4 else 0), vr_spsr (volatile s));
  co_gprs : forall j, 0 <= j -> read_gpr s' j =
    match result_registers r !! Z.to_nat j with Some v => Some v | None => read_gpr s j end;
}.

Lemma class_of_call smc : exception_class_from (call_class smc) =
  if smc then SmcTrappedInAArch64 else HvcTrappedInAArch64.
Proof. by destruct smc. Qed.

(** A call ends as [handle_call] does, and then steps over an SMC. *)
Lemma handle_sync_lower_call smc s w :
  esr_ec (w_sysregs w ESR_EL2) = call_class smc ->
  handle_sync_lower s w =
  match handle_call s w with
  | Done s' w' => if smc then lift (advance_pc s' AARCH64_INSTRUCTION_LENGTH) w' else Done s' w'
  | Panics msg w' => Panics msg w'
  | Leaves l w' => Leaves l w'
  end.
Proof.
  intros Hec. unfold handle_sync_lower. rewrite bind_read_sysreg, Hec, class_of_call.
  unfold mbind, M_bind. by destruct smc, (handle_call s w).
Qed.

Lemma call_completes smc s w r w' :
  guest_wf s -> result_wf r -> vr_elr (volatile s) + 4 <= U64_MAX ->
  esr_ec (w_sysregs w ESR_EL2) = call_class smc ->
  handle_call s w = Done (modify_register_state r s) w' ->
  exists s', handle_sync_lower s w = Done s' w' /\ completes smc s r s'.
Proof.
  intros Hs Hr Helr Hec Hcall. rewrite (handle_sync_lower_call smc), Hcall by done.
  destruct (modify_register_state_spec r s Hs Hr) as (H1 & H2 & H3).
  destruct smc; [|by eexists; split; [done|]; constructor; rewrite ?Z.add_0_r].
  destruct (advance_pc (modify_register_state r s) AARCH64_INSTRUCTION_LENGTH) as [s'|] eqn:E.
  - exists s'. split; [by unfold lift|]. injection H2 as He Hp.
    apply advance_pc_Ret in E as (Hg & Hwf & _ & Hret). constructor.
    + by apply Hwf.
    + by rewrite Hret, He, Hp.
    + intros j Hj. by rewrite Hg, H3.
  - injection H2 as He Hp. unfold advance_pc in E. rewrite He in E. by rewrite add64_ok in E.
Qed.

(** The call's operands, from the frame. *)
Lemma call_operands s f a0 a1 a2 :
  guest_wf s -> read_gpr s 0 = Some f -> read_gpr s 1 = Some a0 -> read_gpr s 2 = Some a1 ->
  read_gpr s 3 = Some a2 ->
  volatile_gprs s !!! 0%nat = f /\ take 17 (drop 1 (volatile_gprs s)) !!! 0%nat = a0 /\
  take 17 (drop 1 (volatile_gprs s)) !!! 1%nat = a1 /\
  take 17 (drop 1 (volatile_gprs s)) !!! 2%nat = a2.
Proof.
  intros [Hlen _] [= <-] [= <-] [= <-] [= <-]. unfold volatile_gprs.
  destruct (vr_registers (volatile s)) as [|x0 [|x1 [|x2 [|x3 l]]]]; try done.
Qed.

Lemma handle_call_psci s w f a0 a1 a2 :
  guest_wf s -> is_psci_id f = true ->
  read_gpr s 0 = Some f -> read_gpr s 1 = Some a0 -> read_gpr s 2 = Some a1 ->
  read_gpr s 3 = Some a2 ->
  handle_call s w =
  match handle_psci f a0 a1 a2 w with
  | Done (Ok v) w' => Done (modify_register_state (Handled (Ok (response_from_u64 v))) s) w'
  | Done (Err e) w' =>
      Done (modify_register_state
              (Handled (Err (arch_error_from_i32 (i32_from_psci_error e)))) s) w'
  | Panics msg w' => Panics msg w'
  | Leaves l w' => Leaves l w'
  end.
Proof.
  intros Hs Hid H0 H1 H2 H3. destruct (call_operands s f a0 a1 a2 Hs H0 H1 H2 H3) as (E0 & E1 & E2 & E3).
  unfold handle_call. rewrite E0, E1, E2, E3, Hid. unfold try_handle_psci, mbind, M_bind, mret, M_ret.
  by destruct (handle_psci f a0 a1 a2 w) as [[]| |].
Qed.

(** The functions [handle_psci] forwards. *)
Definition forwarded (f : Function) : bool :=
  match f with CpuOn _ _ | CpuSuspend _ _ => false | _ => true end.

Definition after_event (e : event) (w : World) : World := world_of (emit e w).

Lemma handle_psci_forward fn f a0 a1 a2 w :
  function_try_from [fn; a0; a1; a2] = Ok f -> forwarded f = true ->
  handle_psci fn a0 a1 a2 w =
  match smc64 (w_trace w) (fn mod 2 ^ 32) ([a0; a1; a2] ++ replicate 14 0) with
  | Some regs => Done (Ok (regs !!! 0%nat))
      (after_event (EvSmc (fn mod 2 ^ 32) ([a0; a1; a2] ++ replicate 14 0)) w)
  | None => Leaves NoReturn
      (after_event (EvSmc (fn mod 2 ^ 32) ([a0; a1; a2] ++ replicate 14 0)) w)
  end.
Proof.
  intros Hd Hf. unfold handle_psci. rewrite Hd.
  assert (Hfwd : (regs ← smc64_call (fn mod 2 ^ 32) (forwarded_args a0 a1 a2);
    mret (M := M) (Ok (E := PsciError) (regs !!! 0%nat))) w =
    match smc64 (w_trace w) (fn mod 2 ^ 32) ([a0; a1; a2] ++ replicate 14 0) with
    | Some regs => Done (Ok (regs !!! 0%nat))
        (after_event (EvSmc (fn mod 2 ^ 32) ([a0; a1; a2] ++ replicate 14 0)) w)
    | None => Leaves NoReturn
        (after_event (EvSmc (fn mod 2 ^ 32) ([a0; a1; a2] ++ replicate 14 0)) w)
    end).
  { unfold smc64_call, mbind, M_bind, mret, M_ret. simpl. by destruct (smc64 _ _ _). }
  by destruct f.
Qed.
End Calls.

(** ** CPU_ON and CPU_SUSPEND *)

Section Power.
Context {PT : PageTable} {SA : SmcccArch} {PLAT : Platform}.
Context {SYS : ArmSysregs} {PSCI : ArmPsci} {DEC : PsciDecoder} {FW : Firmware}.
Implicit Types (w : World).

(** The maps by their contents. *)
Definition stacks_of w : gmap Z Stack := abs (w_secondary_stacks w).
Definition contexts_of w : gmap Z SuspendCoreData := abs (w_suspend_contexts w).

(** There is a stack for [mpidr], or room for one. *)
Definition has_room {V} (m : gmap Z V) (mpidr : Z) : Prop :=
  (size m < MAX_CORES)%nat \/ is_Some (m !! mpidr).

(** [w'] is [w] with other secondary stacks. *)
Definition only_stacks_differ w w' : Prop :=
  w_sysregs w' = w_sysregs w /\ w_stage2_config w' = w_stage2_config w /\
  w_platform w' = w_platform w /\ w_suspend_contexts w' = w_suspend_contexts w /\
  w_trace w' = w_trace w.

Lemma get_secondary_stack_spec mpidr w :
  world_wf w ->
  match get_secondary_stack mpidr w with
  | Done i w' => has_room (stacks_of w) mpidr /\ only_stacks_differ w w' /\
      wf (w_secondary_stacks w') /\ at_slot (w_secondary_stacks w') i mpidr tt /\
      stacks_of w' = <[mpidr := tt]> (stacks_of w)
  | Panics msg w' => ~ has_room (stacks_of w) mpidr /\ w' = w
  | Leaves _ _ => False
  end.
Proof.
  intros Hwf. pose proof (wwf_stacks w Hwf) as Hs. pose proof (wwf_stacks_capacity w Hwf) as Hcap.
  unfold get_secondary_stack, with_secondary_stacks, has_room, stacks_of.
  destruct (get_mut (w_secondary_stacks w) mpidr) as [i|] eqn:E.
  - apply find_key_Some in E as [[] Hi]. simpl.
    assert (Hm : abs (w_secondary_stacks w) !! mpidr = Some tt) by (apply abs_lookup; eauto).
    split_and!; try done; [right; eauto|by rewrite insert_id].
  - assert (Hn : abs (w_secondary_stacks w) !! mpidr = None)
      by (apply abs_lookup_None; [done|]; by apply find_key_None).
    pose proof (insert_abs (w_secondary_stacks w) mpidr (tt : Stack) Hs) as Hins.
    destruct (SimpleMap.insert _ _ _) as [[i m']|msg] eqn:Ei.
    + destruct Hins as (Ha & Hi & Hroom). simpl. rewrite Hcap in Hroom.
      split_and!; try done. by eapply insert_wf.
    + destruct Hins as [Hsz _]. split; [|done]. rewrite Hn. intros [|[]]; [lia|done].
Qed.

Lemma psci_cpu_on_spec m e w :
  world_wf w ->
  match psci_cpu_on m e w with
  | Done r w' => has_room (stacks_of w) (u64_from_mpidr m) /\
      r = start_core (w_trace w) (u64_from_mpidr m) /\
      exists i, at_slot (w_secondary_stacks w') i (u64_from_mpidr m) tt /\
        stacks_of w' = <[u64_from_mpidr m := tt]> (stacks_of w) /\
        w_suspend_contexts w' = w_suspend_contexts w /\
        w_trace w' = w_trace w ++
          [EvStartCore (u64_from_mpidr m) i (entry_point_address e) (entry_context_id e)]
  | Panics _ w' => ~ has_room (stacks_of w) (u64_from_mpidr m) /\ w' = w
  | Leaves _ _ => False
  end.
Proof.
  intros Hwf. unfold psci_cpu_on, mbind, M_bind.
  pose proof (get_secondary_stack_spec (u64_from_mpidr m) w Hwf) as H.
  destruct (get_secondary_stack _ w) as [i w1|msg w1|l w1]; [|done..].
  destruct H as (Hroom & (_ & _ & _ & Hc & Ht) & _ & Hi & Ha). simpl. rewrite Ht.
  split_and!; [done..|]. exists i. by split_and!.
Qed.

Lemma suspend_insert_spec mpidr c w :
  world_wf w ->
  match with_suspend_contexts (fun m => SimpleMap.insert m mpidr c) w with
  | Done _ w' => has_room (contexts_of w) mpidr /\ contexts_of w' = <[mpidr := c]> (contexts_of w) /\
      world_wf w' /\ w_secondary_stacks w' = w_secondary_stacks w /\ w_trace w' = w_trace w /\
      w_sysregs w' = w_sysregs w
  | Panics _ w' => ~ has_room (contexts_of w) mpidr /\ w' = w
  | Leaves _ _ => False
  end.
Proof.
  intros Hwf. pose proof (wwf_contexts w Hwf) as Hs.
  pose proof (wwf_contexts_capacity w Hwf) as Hcap.
  pose proof (insert_abs (w_suspend_contexts w) mpidr c Hs) as Hins.
  unfold with_suspend_contexts, has_room, contexts_of.
  destruct (SimpleMap.insert _ _ _) as [[i m']|msg] eqn:Ei; simpl.
  - destruct Hins as (Ha & _ & Hroom). rewrite Hcap in Hroom. split_and!; try done.
    destruct Hwf. constructor; simpl; try done; [by eapply insert_wf|].
    by rewrite (insert_length _ _ _ _ _ Ei).
  - destruct Hins as [Hsz Hn]. split; [|done]. rewrite Hn. intros [|[]]; [lia|done].
Qed.

Definition suspend_context (e : EntryPoint) : SuspendCoreData :=
  {| scd_entry_point := entry_point_address e; scd_context_id := entry_context_id e |}.

(** What CPU_SUSPEND leaves: while the core sleeps its context is in the map;
    when the firmware comes back, it is not. *)
Lemma psci_cpu_suspend_spec p e w :
  world_wf w ->
  match psci_cpu_suspend p e w with
  | Done r w' =>
      has_room (contexts_of w) (w_sysregs w MPIDR_EL1) /\ has_room (stacks_of w) (w_sysregs w MPIDR_EL1) /\
      suspend_core (w_trace w) (u32_from_power_state p) = Some r /\
      contexts_of w' = delete (w_sysregs w MPIDR_EL1) (contexts_of w)
  | Leaves l w' =>
      has_room (contexts_of w) (w_sysregs w MPIDR_EL1) /\ has_room (stacks_of w) (w_sysregs w MPIDR_EL1) /\
      l = NoReturn /\ suspend_core (w_trace w) (u32_from_power_state p) = None /\
      contexts_of w' = <[w_sysregs w MPIDR_EL1 := suspend_context e]> (contexts_of w) /\
      exists i, at_slot (w_secondary_stacks w') i (w_sysregs w MPIDR_EL1) tt /\
        w_trace w' = w_trace w ++ [EvSuspendCore (u32_from_power_state p) i]
  | Panics _ w' => ~ (has_room (contexts_of w) (w_sysregs w MPIDR_EL1) /\
                      has_room (stacks_of w) (w_sysregs w MPIDR_EL1))
  end.
Proof.
  intros Hwf. unfold psci_cpu_suspend. rewrite bind_read_sysreg. cbv zeta. unfold mbind, M_bind.
  set (mp := w_sysregs w MPIDR_EL1). fold (suspend_context e).
  pose proof (suspend_insert_spec mp (suspend_context e) w Hwf) as H.
  destruct (with_suspend_contexts _ w) as [i0 w1|msg w1|l w1]; [|tauto..].
  destruct H as (Hroom & Hc1 & Hwf1 & Hst & Ht1 & _).
  pose proof (get_secondary_stack_spec mp w1 Hwf1) as H.
  assert (Hst' : stacks_of w1 = stacks_of w) by (unfold stacks_of; by rewrite Hst).
  rewrite Hst' in H.
  destruct (get_secondary_stack mp w1) as [i w2|msg w2|l w2]; [|tauto..].
  destruct H as (Hroom2 & (_ & _ & _ & Hc2 & Ht2) & _ & Hi & _).
  unfold suspend_core_call, mbind, M_bind. simpl. rewrite Ht2, Ht1.
  destruct (suspend_core (w_trace w) (u32_from_power_state p)) as [r|]; simpl.
  - destruct (remove_abs (w_suspend_contexts w1) mp (wwf_contexts _ Hwf1)) as [_ Ha].
    unfold contexts_of in *. unfold with_suspend_contexts. simpl. rewrite Hc2.
    destruct (SimpleMap.remove _ mp) as [o m']. simpl in *.
    split_and!; try done. by rewrite Ha, Hc1, delete_insert_eq.
  - split_and!; try done; [unfold contexts_of in *; simpl; by rewrite Hc2|]. by exists i.
Qed.

(** A resuming core takes its context out of the map. *)
Lemma restore_from_suspend_spec w c :
  world_wf w -> contexts_of w !! w_sysregs w MPIDR_EL1 = Some c ->
  let w1 := world_of (with_suspend_contexts
    (fun m => Ret (SimpleMap.remove m (w_sysregs w MPIDR_EL1))) w) in
  restore_from_suspend w = entry_point_el1 (scd_context_id c) 0 0 0 (scd_entry_point c) w1 /\
  contexts_of w1 = delete (w_sysregs w MPIDR_EL1) (contexts_of w).
Proof.
  intros Hwf Hc w1. unfold restore_from_suspend. rewrite bind_read_sysreg.
  destruct (remove_abs (w_suspend_contexts w) (w_sysregs w MPIDR_EL1) (wwf_contexts _ Hwf))
    as [Hv Ha]. unfold contexts_of in *. rewrite Hc in Hv.
  unfold w1, with_suspend_contexts, mbind, M_bind.
  destruct (SimpleMap.remove _ _) as [o m'] eqn:E. simpl in *. subst o. done.
Qed.
End Power.

(** The syndrome the hardware records for an HVC or a trapped SMC. *)
Lemma call_esr {SYS : ArmSysregs} {SYL : ArmSysregsLaws} smc :
  esr_ec ((if smc : bool then 0x17 else 0x16) * 2 ^ 26 + 2 ^ 25) = call_class smc.
Proof. rewrite law_esr_ec. by destruct smc. Qed.

(** ** Calls made by the guest *)

Section GuestCalls.
Context {PT : PageTable} {SA : SmcccArch} {PLAT : Platform}.
Context {SYS : ArmSysregs} {PSCI : ArmPsci} {DEC : PsciDecoder} {FW : Firmware}.

(** The guest executed HVC or SMC with a PSCI function id and arguments; the
    instruction is not the last of the address space. *)
Record psci_call (smc : bool) (s : GuestRegisterState) (w : World) (fn a0 a1 a2 : u64) : Prop := {
  pc_frame : guest_wf s;
  pc_next : vr_elr (volatile s) + 4 <= U64_MAX;
  pc_class : esr_ec (w_sysregs w ESR_EL2) = call_class smc;
  pc_id : is_psci_id fn = true;
  pc_operands : read_gpr s 0 = Some fn /\ read_gpr s 1 = Some a0 /\ read_gpr s 2 = Some a1 /\
    read_gpr s 3 = Some a2;
}.

(** A PSCI call ends as [handle_psci] does. *)
Lemma psci_call_outcome smc s w fn a0 a1 a2 :
  psci_call smc s w fn a0 a1 a2 ->
  match handle_psci fn a0 a1 a2 w with
  | Done r w' => exists s', handle_sync_lower s w = Done s' w' /\
      completes smc s (Handled match r with
        | Ok v => Ok (response_from_u64 v)
        | Err e => Err (arch_error_from_i32 (i32_from_psci_error e)) end) s'
  | Panics msg w' => handle_sync_lower s w = Panics msg w'
  | Leaves l w' => handle_sync_lower s w = Leaves l w'
  end.
Proof.
  intros [Hs Helr Hec Hid (H0 & H1 & H2 & H3)].
  pose proof (handle_call_psci s w fn a0 a1 a2 Hs Hid H0 H1 H2 H3) as Hcall.
  destruct (handle_psci fn a0 a1 a2 w) as [[v|e] w'|msg w'|l w'].
  - by eapply call_completes.
  - by eapply call_completes.
  - by rewrite (handle_sync_lower_call smc), Hcall.
  - by rewrite (handle_sync_lower_call smc), Hcall.
Qed.

Lemma psci_forward_completes smc s w fn a0 a1 a2 f :
  psci_call smc s w fn a0 a1 a2 ->
  function_try_from [fn; a0; a1; a2] = Ok f -> forwarded f = true ->
  let args := [a0; a1; a2] ++ replicate 14 0 in
  let w' := after_event (EvSmc (fn mod 2 ^ 32) args) w in
  match smc64 (w_trace w) (fn mod 2 ^ 32) args with
  | Some regs => exists s', handle_sync_lower s w = Done s' w' /\
      completes smc s (Handled (Ok (Success [regs !!! 0%nat; 0; 0; 0]))) s'
  | None => handle_sync_lower s w = Leaves NoReturn w'
  end.
Proof.
  intros Hc Hd Hf args w'. pose proof (psci_call_outcome _ _ _ _ _ _ _ Hc) as H.
  rewrite (handle_psci_forward fn f a0 a1 a2 w Hd Hf) in H. unfold args, w'.
  by destruct (smc64 _ _ _).
Qed.

Lemma platform_call_completes {PLL : PlatformLaws} smc s w fn :
  guest_wf s -> vr_elr (volatile s) + 4 <= U64_MAX ->
  esr_ec (w_sysregs w ESR_EL2) = call_class smc ->
  read_gpr s 0 = Some fn -> is_psci_id fn = false ->
  exists s', handle_sync_lower s w = Done s' w /\
    completes smc s (handle_hvc fn (take 17 (drop 1 (volatile_gprs s)))) s'.
Proof.
  intros Hs Helr Hec Hfn Hid. apply call_completes; try done; [apply handle_hvc_wf|].
  assert (E : volatile_gprs s !!! 0%nat = fn) by (by injection Hfn as <-).
  unfold handle_call. by rewrite E, Hid.
Qed.
End GuestCalls.

(** ** Properties *)

(** A call outside the PSCI ranges goes to the platform, with x0 as the
    function id and x1-x17 as arguments; its result is what the guest finds in
    the result registers, all other registers and PSTATE are preserved, an SMC
    resumes behind the instruction and an HVC at the saved PC, and RITM's own
    state is unchanged. *)
Theorem platform_call_exact {PT : PageTable} {SA : SmcccArch} {PLAT : Platform} {SYS : ArmSysregs}
    {PSCI : ArmPsci} {DEC : PsciDecoder} {FW : Firmware} {PLL : PlatformLaws} smc s w fn :
  guest_wf s -> vr_elr (volatile s) + 4 <= U64_MAX ->
  esr_ec (w_sysregs w ESR_EL2) = call_class smc ->
  read_gpr s 0 = Some fn -> is_psci_id fn = false ->
  exists s', handle_sync_lower s w = Done s' w /\
    completes smc s (handle_hvc fn (take 17 (drop 1 (volatile_gprs s)))) s'.
Proof. apply platform_call_completes. Qed.

(** C25: a PSCI call other than CPU_ON and CPU_SUSPEND is forwarded to the
    firmware unchanged: exactly one SMC is made, with the function id
    truncated to 32 bits and x1-x3 (every further argument zero); if the
    firmware answers, the guest gets its first result register in x0 and zero
    in x1-x3; if the call does not return (CPU_OFF, SYSTEM_OFF), nor does the
    handler.  Nothing else of RITM's state changes. *)
Theorem psci_forward_exact {PT : PageTable} {SA : SmcccArch} {PLAT : Platform} {SYS : ArmSysregs}
    {PSCI : ArmPsci} {DEC : PsciDecoder} {FW : Firmware} smc s w fn a0 a1 a2 f :
  psci_call smc s w fn a0 a1 a2 ->
  function_try_from [fn; a0; a1; a2] = Ok f -> forwarded f = true ->
  let args := [a0; a1; a2] ++ replicate 14 0 in
  let w' := after_event (EvSmc (fn mod 2 ^ 32) args) w in
  match smc64 (w_trace w) (fn mod 2 ^ 32) args with
  | Some regs => exists s', handle_sync_lower s w = Done s' w' /\
      completes smc s (Handled (Ok (Success [regs !!! 0%nat; 0; 0; 0]))) s'
  | None => handle_sync_lower s w = Leaves NoReturn w'
  end.
Proof. apply psci_forward_completes. Qed.

(** A PSCI id the decoder rejects is answered without calling the firmware:
    x0 gets the sign-extended error code, every other register is preserved,
    and RITM's state is unchanged. *)
Theorem psci_unknown_exact {PT : PageTable} {SA : SmcccArch} {SAL : SmcccArchLaws} {PLAT : Platform}
    {SYS : ArmSysregs} {PSCI : ArmPsci} {DEC : PsciDecoder} {FW : Firmware} smc s w fn a0 a1 a2 e :
  psci_call smc s w fn a0 a1 a2 ->
  function_try_from [fn; a0; a1; a2] = Err e ->
  - 2 ^ 31 <= i32_from_psci_error e < 0 ->
  exists s', handle_sync_lower s w = Done s' w /\
    read_gpr s' 0 = Some (2 ^ 64 + i32_from_psci_error e) /\
    (forall j, 0 < j -> read_gpr s' j = read_gpr s j) /\
    vr_elr (volatile s') = vr_elr (volatile s) + (if smc then 4 else 0).
Proof.
  intros Hc Hd He. pose proof (psci_call_outcome _ _ _ _ _ _ _ Hc) as H.
  unfold handle_psci in H. rewrite Hd in H. destruct H as (s' & Hrun & [Hwf Hret Hg]).
  exists s'. split_and!; [done|..].
  - rewrite Hg by lia. simpl. pose proof (arch_error_roundtrip _ He) as Hr.
    rewrite error_to_u64_code; rewrite Hr; (done || lia).
  - intros j Hj. rewrite Hg by lia. simpl. by destruct (Z.to_nat j) eqn:E; [lia|].
  - by injection Hret.
Qed.

(** C16: CPU_ON, on every path: when the target already has a stack or there is
    room for one, the firmware is asked once to start it, on the stack slot
    recorded for exactly that target and with the guest's entry point and
    context id, and its answer is returned in x0; otherwise (more targets
    than [MAX_CORES]) RITM panics before calling the firmware. *)
Theorem cpu_on_exact {PT : PageTable} {SA : SmcccArch} {PLAT : Platform} {SYS : ArmSysregs}
    {PSCI : ArmPsci} {DEC : PsciDecoder} {FW : Firmware} smc s w fn a0 a1 a2 m e :
  world_wf w -> psci_call smc s w fn a0 a1 a2 ->
  function_try_from [fn; a0; a1; a2] = Ok (CpuOn m e) ->
  let target := u64_from_mpidr m in
  match handle_sync_lower s w with
  | Done s' w' => has_room (stacks_of w) target /\
      completes smc s (Handled (Ok (Success
        [psci_result_to_u64 (start_core (w_trace w) target); 0; 0; 0]))) s' /\
      exists i, at_slot (w_secondary_stacks w') i target tt /\
        stacks_of w' = <[target := tt]> (stacks_of w) /\
        w_suspend_contexts w' = w_suspend_contexts w /\
        w_trace w' = w_trace w ++
          [EvStartCore target i (entry_point_address e) (entry_context_id e)]
  | Panics _ w' => ~ has_room (stacks_of w) target /\ w' = w
  | Leaves _ _ => False
  end.
Proof.
  intros Hwf Hc Hd target. pose proof (psci_call_outcome _ _ _ _ _ _ _ Hc) as H.
  unfold handle_psci in H. rewrite Hd in H. unfold mbind, M_bind, mret, M_ret in H.
  pose proof (psci_cpu_on_spec m e w Hwf) as Hon.
  destruct (psci_cpu_on m e w) as [r w'|msg w'|l w']; [|by rewrite H|done].
  destruct H as (s' & -> & Hco). destruct Hon as (Hroom & -> & i & Hi & Ha & Hcx & Ht). eauto 10.
Qed.

(** C10: CPU_SUSPEND, on every path: the context (guest entry point and context
    id) is recorded under the core's own MPIDR before the firmware is called;
    if the core powers down, it stays recorded for the resume path and the
    handler does not return; if the firmware comes back, it is removed again
    and the answer is in x0; RITM panics only when one of the maps is full. *)
Theorem cpu_suspend_exact {PT : PageTable} {SA : SmcccArch} {PLAT : Platform} {SYS : ArmSysregs}
    {PSCI : ArmPsci} {DEC : PsciDecoder} {FW : Firmware} smc s w fn a0 a1 a2 p e :
  world_wf w -> psci_call smc s w fn a0 a1 a2 ->
  function_try_from [fn; a0; a1; a2] = Ok (CpuSuspend p e) ->
  let cpu := w_sysregs w MPIDR_EL1 in
  match handle_sync_lower s w with
  | Done s' w' => exists r, suspend_core (w_trace w) (u32_from_power_state p) = Some r /\
      completes smc s (Handled (Ok (Success [psci_result_to_u64 r; 0; 0; 0]))) s' /\
      contexts_of w' = delete cpu (contexts_of w)
  | Leaves l w' => l = NoReturn /\
      suspend_core (w_trace w) (u32_from_power_state p) = None /\
      contexts_of w' = <[cpu := suspend_context e]> (contexts_of w)
  | Panics _ _ => ~ (has_room (contexts_of w) cpu /\ has_room (stacks_of w) cpu)
  end.
Proof.
  intros Hwf Hc Hd cpu. pose proof (psci_call_outcome _ _ _ _ _ _ _ Hc) as H.
  unfold handle_psci in H. rewrite Hd in H. unfold mbind, M_bind, mret, M_ret in H.
  pose proof (psci_cpu_suspend_spec p e w Hwf) as Hs.
  destruct (psci_cpu_suspend p e w) as [r w'|msg w'|l w'].
  - destruct H as (s' & -> & Hco). destruct Hs as (_ & _ & Hf & Ha). eauto.
  - by rewrite H.
  - rewrite H. destruct Hs as (_ & _ & -> & Hf & Ha & _). eauto.
Qed.

(** Secondary stacks are private and stable: a stack obtained for one MPIDR
    at any point and one obtained after any further history are the same slot
    exactly when the two MPIDRs are equal. *)
Theorem secondary_stacks_private {PT : PageTable} {SA : SmcccArch} {PLAT : Platform}
    {SYS : ArmSysregs} {PSCI : ArmPsci} {DEC : PsciDecoder} {FW : Firmware}
    {PTL : PageTableLaws} {PLL : PlatformLaws} m1 m2 w w1 w2 w3 i j :
  world_wf w ->
  get_secondary_stack m1 w = Done i w1 -> rtc ritm_step w1 w2 ->
  get_secondary_stack m2 w2 = Done j w3 ->
  i = j <-> m1 = m2.
Proof.
  intros Hwf H1 Hhist H2.
  pose proof (get_secondary_stack_spec m1 w Hwf) as S1. rewrite H1 in S1.
  destruct S1 as (_ & _ & _ & Hi & _).
  pose proof (safe_get_secondary_stack m1 w Hwf) as E1. rewrite H1 in E1. simpl in E1.
  pose proof (ritm_steps_evolve _ _ Hhist (ev_wf _ _ E1)) as E2.
  pose proof (get_secondary_stack_spec m2 w2 (ev_wf _ _ E2)) as S2. rewrite H2 in S2.
  destruct S2 as (_ & _ & Hwf3 & Hj & _).
  pose proof (safe_get_secondary_stack m2 w2 (ev_wf _ _ E2)) as E3. rewrite H2 in E3. simpl in E3.
  apply (ev_stacks _ _ E2), (ev_stacks _ _ E3) in Hi. split.
  - intros ->. unfold at_slot in Hi, Hj. congruence.
  - intros ->. by destruct (wf_slot_inj _ _ _ _ _ _ Hwf3 Hi Hj).
Qed.

(** The fresh targets of a run of CPU_ON calls. *)
Fixpoint cpu_on_all {PT : PageTable} {SA : SmcccArch} {PLAT : Platform} {PSCI : ArmPsci}
    {FW : Firmware} (targets : list Mpidr) (e : EntryPoint) : M unit :=
  match targets with
  | [] => mret tt
  | m :: targets => _ ← psci_cpu_on m e; cpu_on_all targets e
  end.

(** The guest can stop RITM with CPU_ON: a stack is reserved before the
    firmware checks the target and never given back, so a run of CPU_ON calls
    for pairwise different targets without a stack, more than there is room
    for, ends in a panic whatever the firmware answers. *)
Theorem cpu_on_exhausts_stacks {PT : PageTable} {SA : SmcccArch} {PLAT : Platform}
    {SYS : ArmSysregs} {PSCI : ArmPsci} {DEC : PsciDecoder} {FW : Firmware}
    {PTL : PageTableLaws} {PLL : PlatformLaws} (targets : list Mpidr) e w :
  world_wf w -> NoDup (u64_from_mpidr <$> targets) ->
  Forall (fun m => stacks_of w !! u64_from_mpidr m = None) targets ->
  (MAX_CORES < size (stacks_of w) + length targets)%nat ->
  exists msg w', cpu_on_all targets e w = Panics msg w'.
Proof.
  revert w. induction targets as [|m targets IH]; intros w Hwf Hnd Hfresh Hlen; simpl in *.
  - pose proof (abs_size _ (wwf_stacks w Hwf)) as [Hle _].
    rewrite (wwf_stacks_capacity w Hwf) in Hle. unfold stacks_of, abs in Hlen. lia.
  - inversion Hnd as [|? ? Hm Hnd']; subst. inversion Hfresh as [|? ? Hm0 Hfresh']; subst.
    pose proof (psci_cpu_on_spec m e w Hwf) as Hon. unfold mbind, M_bind.
    pose proof (safe_psci_cpu_on m e w Hwf) as Hev.
    destruct (psci_cpu_on m e w) as [r w'|msg w'|l w']; [|by eauto|done].
    destruct Hon as (_ & _ & i & _ & Ha & _). apply IH.
    + apply (ev_wf _ _ Hev).
    + done.
    + rewrite Ha. rewrite Forall_forall in Hfresh' |- *. intros m' Hm'.
      rewrite lookup_insert_ne; [auto|]. intros Heq. apply Hm. rewrite Heq.
      apply list_elem_of_fmap. exists m'. split; [done|]. by apply list_elem_of_In.
    + rewrite Ha, map_size_insert_None by done. lia.
Qed.

(** ** Witnesses

    The QEMU platform after boot, with the firmware of [ExampleFirmware]; the
    guest's register [i] holds [i] but for the function id in x0. *)

Section CallWitnesses.
Import QemuExample ArmArch ExampleFirmware.

Definition call_guest (fn : u64) : GuestRegisterState := snd (write_gpr example_guest 0 fn).
Definition call_world (smc : bool) : World :=
  boot_world (set_sysreg ESR_EL2 (call_class smc * 2 ^ 26) (fun _ => 0)) 0.

Lemma call_guest_wf fn : guest_wf (call_guest fn).
Proof. apply write_gpr_wf. by apply (bool_decide_unpack _); vm_compute. Qed.

Lemma call_guest_psci smc fn :
  is_psci_id fn = true -> psci_call smc (call_guest fn) (call_world smc) fn 101 102 103.
Proof. intros Hid. constructor; [apply call_guest_wf|done|by destruct smc|done|done]. Qed.

#[local] Instance example_platform_laws : PlatformLaws := qemu_platform_laws example_image_ok.

Lemma platform_call_exact_witness :
  exists s', handle_sync_lower (call_guest 0xFF00_0000) (call_world true) = Done s' (call_world true) /\
    completes true (call_guest 0xFF00_0000)
      (Handled (Ok (Success [0x1234_5678_9ABC_DEF0; 0; 0; 0]))) s'.
Proof.
  exact (platform_call_exact true (call_guest 0xFF00_0000) (call_world true) 0xFF00_0000
    (call_guest_wf _) ltac:(done) eq_refl eq_refl eq_refl).
Defined.

Lemma psci_forward_exact_witness :
  (exists s' w', handle_sync_lower (call_guest 0x8400_0000) (call_world false) = Done s' w' /\
    read_gpr s' 0 = Some 0x8400_0000 /\ read_gpr s' 4 = Some 104) /\
  exists w', handle_sync_lower (call_guest 0x8400_0002) (call_world false) = Leaves NoReturn w'.
Proof.
  split.
  - destruct (psci_forward_exact (DEC := example_decoder) (FW := example_firmware) false _ _ _ _ _ _ Version (call_guest_psci false 0x8400_0000 eq_refl)
      ltac:(vm_compute; reflexivity) eq_refl) as (s' & Hrun & Hco).
    exists s'. eexists. split; [exact Hrun|]. by split; rewrite (co_gprs _ _ _ _ Hco).
  - eexists. exact (psci_forward_exact (DEC := example_decoder) (FW := example_firmware) false _ _ _ _ _ _ CpuOff
      (call_guest_psci false 0x8400_0002 eq_refl) ltac:(vm_compute; reflexivity) eq_refl).
Defined.

Lemma psci_unknown_exact_witness :
  exists s', handle_sync_lower (call_guest 0x8400_001f) (call_world true) = Done s' (call_world true) /\
    read_gpr s' 0 = Some U64_MAX.
Proof.
  destruct (psci_unknown_exact (DEC := example_decoder) (FW := example_firmware) true _ _ _ _ _ _ tt (call_guest_psci true 0x8400_001f eq_refl)
    ltac:(vm_compute; reflexivity) ltac:(done)) as (s' & Hrun & H0 & _). by exists s'.
Defined.

Lemma cpu_on_exact_witness :
  exists s' w' i, handle_sync_lower (call_guest 0x8400_0003) (call_world true) = Done s' w' /\
    w_trace w' = [EvStartCore 101 i 102 103] /\ read_gpr s' 0 = Some (2 ^ 64 - 2).
Proof.
  pose proof (cpu_on_exact (DEC := example_decoder) (FW := example_firmware) true _ _ _ _ _ _
    (101 : Mpidr) ((102, 103) : EntryPoint) (boot_world_wf _ _)
    (call_guest_psci true 0x8400_0003 eq_refl) ltac:(vm_compute; reflexivity)) as H.
  fold (call_world true) in H.
  destruct (handle_sync_lower _ _) as [s' w'|msg w'|l w'].
  - destruct H as (_ & Hco & i & _ & _ & _ & Ht). exists s', w', i.
    by rewrite (co_gprs _ _ _ _ Hco).
  - destruct H as [Hroom _]. destruct Hroom. left. vm_compute. lia.
  - done.
Defined.

Lemma cpu_suspend_exact_witness :
  exists w', handle_sync_lower (call_guest 0x8400_0001) (call_world true) = Leaves NoReturn w' /\
    contexts_of w' !! 0 = Some (mkSuspendCoreData 102 103).
Proof.
  pose proof (cpu_suspend_exact (DEC := example_decoder) (FW := example_firmware) true _ _ _ _ _ _
    (101 : PowerState) ((102, 103) : EntryPoint) (boot_world_wf _ _)
    (call_guest_psci true 0x8400_0001 eq_refl) ltac:(vm_compute; reflexivity)) as H.
  fold (call_world true) in H.
  destruct (handle_sync_lower _ _) as [s' w'|msg w'|l w'].
  - by destruct H as (r & Hr & _).
  - destruct H. split; left; vm_compute; lia.
  - destruct H as (-> & _ & Ha). exists w'. split; [done|]. by rewrite Ha.
Defined.

Lemma secondary_stacks_private_witness :
  exists w1 w2, get_secondary_stack 7 (call_world true) = Done 0%nat w1 /\
    get_secondary_stack 9 w1 = Done 1%nat w2 /\ (0%nat = 1%nat <-> 7 = 9).
Proof.
  eexists _, _. split; [reflexivity|]. split; [reflexivity|].
  exact (secondary_stacks_private 7 9 (call_world true) _ _ _ 0 1 (boot_world_wf _ _) eq_refl
    (rtc_refl _ _) eq_refl).
Defined.

Lemma cpu_on_exhausts_stacks_witness :
  exists msg w', cpu_on_all (Z.of_nat <$> seq 100 9 : list Mpidr) ((0, 0) : EntryPoint)
    (call_world true) = Panics msg w'.
Proof.
  apply cpu_on_exhausts_stacks; [apply boot_world_wf|..].
  - by apply (bool_decide_unpack _); vm_compute.
  - by repeat constructor.
  - vm_compute. lia.
Defined.
End CallWitnesses.
