(* ===== verification/Aborts.v ===== *)
(** * Stage-2 data aborts

    What happens to a guest access that faults at stage 2: it is emulated by
    the handler the policy gives for its address, or a data abort is injected
    into the guest ([try_memory_access_handler] and [inject_data_abort] of
    src/src/hypervisor.rs). *)

From Stdlib Require Import ZArith Lia.
From stdpp Require Import base tactics list gmap strings numbers.
From S2P Require Import Prelude MemoryAccess SimpleMap Stage2 Exceptions HvcResponse Pagetable.
From S2P Require Import Platform Qemu Sysregs World Hypervisor Safety Entry.

#[local] Open Scope Z_scope.

Section Aborts.
Context {PT : PageTable} {SA : SmcccArch} {PLAT : Platform}.
Context {SYS : ArmSysregs} {PSCI : ArmPsci} {DEC : PsciDecoder} {FW : Firmware}.
Implicit Types (s : GuestRegisterState) (w : World) (d : DecodedMemoryAccess).

Definition after_platform (p : PlatformState) w : World :=
  {| w_sysregs := w_sysregs w; w_stage2_config := w_stage2_config w; w_platform := p;
     w_suspend_contexts := w_suspend_contexts w; w_secondary_stacks := w_secondary_stacks w;
     w_trace := w_trace w |}.

(** The access the syndrome registers describe. *)
Definition abort_access s w : option DecodedMemoryAccess :=
  match decode_memory_access (esr_iss (w_sysregs w ESR_EL2)) (hpfar_fipa (w_sysregs w HPFAR_EL2))
    (far_va (w_sysregs w FAR_EL2)) (fun i => Ret (read_gpr s i)) with
  | Ret o => o
  | Panic _ => None
  end.

(** The effect of an access under a policy: a fault, a completed store, or a
    completed load of a value into a register. *)
Inductive effect : Type :=
| Faults
| Stores
| Loads (register_index : usize) (value : u64).

Definition access_effect (a : access PT PlatformState) d (p : PlatformState) :
    effect * PlatformState :=
  match a with
  | Direct _ | Denied => (Faults, p)
  | Emulated h off =>
      match dma_kind d with
      | Read =>
          match mah_read h with
          | None => (Faults, p)
          | Some read =>
              match read (mkMemoryReadAccess (dma_ipa d) off (dma_width d)) p with
              | (ReadValue v, p) =>
                  (Loads (dma_register_index d)
                     (extend_read_result v (dma_width d) (dma_sign_extend d)
                        (dma_register_width_64 d)), p)
              | (ReadFault, p) => (Faults, p)
              end
          end
      | Write value =>
          match mah_write h with
          | None => (Faults, p)
          | Some write =>
              match write (mkMemoryWriteAccess (dma_ipa d) off (dma_width d) value) p with
              | (WriteHandled, p) => (Stores, p)
              | (WriteFault, p) => (Faults, p)
              end
          end
      end
  end.

(** The effect of the faulting access under the policy in force. *)
Definition abort_effect (c : Stage2Config PT PlatformState) s w : effect * PlatformState :=
  match abort_access s w with
  | Some d => access_effect (stage2_access c (dma_ipa d)) d (w_platform w)
  | None => (Faults, w_platform w)
  end.

(** The guest after an emulated access. *)
Record resumed s (e : effect) s' : Prop := {
  re_wf : guest_wf s';
  re_next : vr_elr (volatile s) + 4 <= U64_MAX;
  re_return : exception_return s' = (vr_elr (volatile s) + 4, vr_spsr (volatile s));
  re_gprs : forall j, 0 <= j -> read_gpr s' j =
    match e with
    | Loads r v => if bool_decide (j = r /\ r <= 30) then Some v else read_gpr s j
    | _ => read_gpr s j
    end;
}.

(** The guest after an injected data abort: at its EL1h synchronous vector with
    interrupts masked, the interrupted state in its EL1 exception registers,
    the syndrome that of an abort from the same EL. *)
Record injected s w s' w' : Prop := {
  in_wf : guest_wf s';
  in_vector : w_sysregs w VBAR_EL1 <> 0 /\ w_sysregs w VBAR_EL1 + 0x200 <= U64_MAX;
  in_gprs : same_gprs s s';
  in_return : exception_return s' = (w_sysregs w VBAR_EL1 + 0x200, 0x3c5);
  in_elr : w_sysregs w' ELR_EL1 = vr_elr (volatile s);
  in_spsr : w_sysregs w' SPSR_EL1 = vr_spsr (volatile s);
  in_far : w_sysregs w' FAR_EL1 = w_sysregs w FAR_EL2;
  in_ec : get_field 26 6 (w_sysregs w' ESR_EL1) = 0x25;
  in_iss : forall i, 0 <= i -> ~ 26 <= i < 32 ->
    Z.testbit (w_sysregs w' ESR_EL1) i = Z.testbit (w_sysregs w ESR_EL2) i;
  in_other : forall r, r ∉ [ELR_EL1; SPSR_EL1; FAR_EL1; ESR_EL1] ->
    w_sysregs w' r = w_sysregs w r;
  in_config : w_stage2_config w' = w_stage2_config w;
  in_maps : w_suspend_contexts w' = w_suspend_contexts w /\
    w_secondary_stacks w' = w_secondary_stacks w;
}.

Context {SYL : ArmSysregsLaws}.

Lemma injected_spsr_value : injected_spsr = 0x3c5.
Proof.
  unfold injected_spsr. rewrite law_spsr_m. by destruct law_daif as (-> & -> & -> & ->).
Qed.

Lemma inject_data_abort_spec s w :
  guest_wf s -> esr_ec (w_sysregs w ESR_EL2) = EC_DATA_ABORT_LOWER_EL ->
  match inject_data_abort s w with
  | Done s' w' => injected s w s' w' /\ w_platform w' = w_platform w
  | Panics _ w' => w' = w /\ (w_sysregs w VBAR_EL1 = 0 \/ U64_MAX < w_sysregs w VBAR_EL1 + 0x200)
  | Leaves _ _ => False
  end.
Proof.
  intros Hs Hec. unfold inject_data_abort. rewrite !bind_read_sysreg.
  destruct (Z.eqb_spec (w_sysregs w VBAR_EL1) 0); [by split; [|left]|].
  unfold add64. destruct (Z.leb_spec (w_sysregs w VBAR_EL1 + 0x200) U64_MAX);
    [|by split; [|right]].
  rewrite (bind_Done _ _ _ _ _ (eq_refl : lift (Ret _) w = Done _ w)).
  unfold exception_return at 1. cbv beta iota. rewrite !bind_write_sysreg.
  unfold injected_esr. rewrite Hec, Z.eqb_refl. split; [|done].
  constructor; cbn [after_msr w_sysregs w_stage2_config w_suspend_contexts w_secondary_stacks].
  - done.
  - done.
  - apply set_exception_return_gprs.
  - by rewrite injected_spsr_value.
  - by sysreg_simpl.
  - by sysreg_simpl.
  - sysreg_simpl. apply law_far_va.
  - sysreg_simpl. rewrite law_esr_set_ec. by apply get_set_field_same.
  - intros i Hi Hn. sysreg_simpl. rewrite law_esr_set_ec, set_field_testbit by lia.
    by rewrite bool_decide_eq_false_2 by lia.
  - intros r Hr. rewrite !not_elem_of_cons in Hr. destruct_and! Hr. by rewrite !set_sysreg_ne.
  - done.
  - done.
Qed.

Lemma abort_access_decode s w :
  decode_memory_access (esr_iss (w_sysregs w ESR_EL2)) (hpfar_fipa (w_sysregs w HPFAR_EL2))
    (far_va (w_sysregs w FAR_EL2)) (fun i => Ret (read_gpr s i)) = Ret (abort_access s w).
Proof.
  unfold abort_access. pose proof (decode_memory_access_cases (esr_iss (w_sysregs w ESR_EL2))
    (hpfar_fipa (w_sysregs w HPFAR_EL2)) (far_va (w_sysregs w FAR_EL2)) (read_gpr s)) as H.
  by destruct (decode_memory_access _ _ _ _).
Qed.

Lemma abort_access_index s w d : abort_access s w = Some d -> 0 <= dma_register_index d <= 31.
Proof.
  intros Hd. pose proof (abort_access_decode s w) as H. rewrite Hd in H.
  by eapply decode_memory_access_index.
Qed.

Lemma after_platform_same w : after_platform (w_platform w) w = w.
Proof. by destruct w. Qed.

(** How an emulated access ends: one instruction further, or in the overflow
    panic of the last instruction of the address space. *)
Definition emulated s (e : effect) w (r : run_result (GuestRegisterState * result unit unit)) : Prop :=
  match r with
  | Done (s', Ok tt) w' => w' = w /\ resumed s e s'
  | Panics _ w' => w' = w /\ U64_MAX < vr_elr (volatile s) + 4
  | _ => False
  end.

Lemma advance_emulated s s0 e w :
  guest_wf s0 -> exception_return s0 = exception_return s ->
  (forall j, 0 <= j -> read_gpr s0 j =
    match e with
    | Loads r v => if bool_decide (j = r /\ r <= 30) then Some v else read_gpr s j
    | _ => read_gpr s j
    end) ->
  emulated s e w ((s' ← lift (advance_guest_pc s0); mret (s', Ok tt)) w).
Proof.
  intros Hwf Hret Hg. injection Hret as He Hp.
  unfold mbind, M_bind, mret, M_ret, advance_guest_pc, lift.
  destruct (advance_pc s0 AARCH64_INSTRUCTION_LENGTH) as [s'|msg] eqn:E; simpl; (split; [done|]).
  - apply advance_pc_Ret in E as (Hsame & Hwf' & Hle & Hr). constructor; [by apply Hwf'| | |].
    + by rewrite <- He.
    + by rewrite Hr, He, Hp.
    + intros j Hj. by rewrite Hsame, Hg.
  - unfold advance_pc, add64, AARCH64_INSTRUCTION_LENGTH in E. rewrite He in E.
    destruct (Z.leb_spec (vr_elr (volatile s) + 4) U64_MAX); [done|lia].
Qed.

Lemma bind_with_platform {A B} (f : PlatformState -> A * PlatformState) (k : A -> M B) w a p :
  f (w_platform w) = (a, p) -> (with_platform f ≫= k) w = k a (after_platform p w).
Proof. intros Hf. unfold with_platform, mbind, M_bind. by rewrite Hf. Qed.

Lemma emulate_read_spec s w d m :
  guest_wf s -> 0 <= dma_register_index d <= 31 -> dma_kind d = Read ->
  let '(e, p) := access_effect (Emulated (mar_handler (mahm_region m)) (mahm_offset m)) d
                   (w_platform w) in
  match e with
  | Faults => emulate_read s d m w = Done (s, Err tt) (after_platform p w)
  | _ => emulated s e (after_platform p w) (emulate_read s d m w)
  end.
Proof.
  intros Hwf Hidx Hk. unfold emulate_read, access_effect. rewrite Hk.
  destruct (mah_read _) as [read|]; [|by rewrite after_platform_same].
  destruct (read _ (w_platform w)) as [[v|] p] eqn:Er;
    rewrite (bind_with_platform _ _ _ _ _ Er); [|done].
  unfold write_saved_guest_register.
  set (v' := extend_read_result _ _ _ _).
  pose proof (write_gpr_ok s (dma_register_index d) v' ltac:(lia)) as Hok.
  pose proof (write_gpr_wf s (dma_register_index d) v' Hwf) as Hwf'.
  pose proof (write_gpr_exception_return s (dma_register_index d) v') as Hret.
  pose proof (fun j => read_write_gpr s (dma_register_index d) v' j Hwf ltac:(lia)) as Hg.
  destruct (write_gpr s (dma_register_index d) v') as [ok s0]. simpl in Hok, Hwf', Hret, Hg.
  rewrite Hok, (proj2 (Z.leb_le _ _)) by lia. by apply advance_emulated.
Qed.

Lemma emulate_write_spec s w d value m :
  guest_wf s -> dma_kind d = Write value ->
  let '(e, p) := access_effect (Emulated (mar_handler (mahm_region m)) (mahm_offset m)) d
                   (w_platform w) in
  match e with
  | Faults => emulate_write s d value m w = Done (s, Err tt) (after_platform p w)
  | _ => emulated s e (after_platform p w) (emulate_write s d value m w)
  end.
Proof.
  intros Hwf Hk. unfold emulate_write, access_effect. rewrite Hk.
  destruct (mah_write _) as [write|]; [|by rewrite after_platform_same].
  destruct (write _ (w_platform w)) as [[|] p] eqn:Ew;
    rewrite (bind_with_platform _ _ _ _ _ Ew); [|done]. by apply advance_emulated.
Qed.

(** The access faulted at stage 2 because the policy in force does not map its
    address. *)
Definition unmapped (c : Stage2Config PT PlatformState) s w : Prop :=
  forall d, abort_access s w = Some d -> idmap_translate (s2c_idmap c) (dma_ipa d) = None.

Lemma try_memory_access_handler_spec s w c :
  guest_wf s -> world_wf w -> w_stage2_config w = Some c -> unmapped c s w ->
  let '(e, p) := abort_effect c s w in
  match e with
  | Faults => try_memory_access_handler s w = Done (s, Err tt) (after_platform p w)
  | _ => emulated s e (after_platform p w) (try_memory_access_handler s w)
  end.
Proof.
  intros Hs Hw Hc Hun. unfold abort_effect, try_memory_access_handler.
  rewrite !bind_read_sysreg, abort_access_decode.
  rewrite (bind_Done _ _ _ _ _ (eq_refl : lift (Ret _) w = Done _ w)).
  destruct (abort_access s w) as [d|] eqn:Hd; [|by rewrite after_platform_same].
  rewrite (bind_Done _ _ _ _ _ (stage2_config_some c w Hc)).
  unfold stage2_access. rewrite (Hun d Hd).
  pose proof (find_wf _ (dma_ipa d) (wwf_config w Hw c Hc)) as Hf.
  destruct (find _ _) as [[m|]|]; [|by simpl; rewrite after_platform_same|done].
  rewrite (bind_Done _ _ _ _ _ (eq_refl : lift (Ret _) w = Done _ w)).
  pose proof (abort_access_index s w d Hd).
  destruct (dma_kind d) eqn:Hk; [by apply emulate_read_spec|by apply emulate_write_spec].
Qed.

(** How the handling of a stage-2 data abort with effect [e] ends. *)
Definition abort_outcome (e : effect) (p : PlatformState) s w
    (r : run_result GuestRegisterState) : Prop :=
  match r with
  | Done s' w' =>
      w_platform w' = p /\
      match e with
      | Faults => injected s w s' w'
      | _ => resumed s e s' /\ w' = after_platform p w
      end
  | Panics _ w' =>
      w' = after_platform p w /\
      match e with
      | Faults => w_sysregs w VBAR_EL1 = 0 \/ U64_MAX < w_sysregs w VBAR_EL1 + 0x200
      | _ => U64_MAX < vr_elr (volatile s) + 4
      end
  | Leaves _ _ => False
  end.

Lemma handle_data_abort s w c :
  guest_wf s -> world_wf w -> w_stage2_config w = Some c -> unmapped c s w ->
  esr_ec (w_sysregs w ESR_EL2) = EC_DATA_ABORT_LOWER_EL ->
  abort_outcome (fst (abort_effect c s w)) (snd (abort_effect c s w)) s w (handle_sync_lower s w).
Proof.
  intros Hs Hw Hc Hun Hec. pose proof (try_memory_access_handler_spec s w c Hs Hw Hc Hun) as H.
  destruct (abort_effect c s w) as [e p]. unfold handle_sync_lower, abort_outcome. simpl fst. simpl snd.
  rewrite bind_read_sysreg, Hec. change (exception_class_from _) with DataAbortLowerEL.
  cbv zeta iota beta. rewrite bool_decide_eq_false_2 by done. unfold mbind, M_bind.
  assert (He : e = Faults \/
    e <> Faults /\ emulated s e (after_platform p w) (try_memory_access_handler s w))
    by (destruct e; [left|right..]; done).
  destruct He as [->|[Hne He]].
  - rewrite H. pose proof (inject_data_abort_spec s (after_platform p w) Hs Hec) as Hinj.
    destruct (inject_data_abort s (after_platform p w)); simpl; [|done..].
    destruct Hinj as [[] Hp]. split; [done|]. by constructor.
  - clear H. unfold emulated in He.
    destruct (try_memory_access_handler s w) as [[s' [[]|]] w'|msg w'|l w']; [|done|..|done].
    + destruct He as [-> Hre]. simpl. split; [done|]. by destruct e.
    + destruct He as [-> Hre]. split; [done|]. by destruct e.
Qed.
End Aborts.

(** ** Properties *)

(** C8: a stage-2 data abort, on every path.  The handler decodes the access,
    looks up the policy in force for its address and, when the policy's
    handler accepts it, completes exactly that load or store (the handler is
    called once, with the address, offset, width and masked value; a loaded
    value is extended as the instruction asks and written to its register,
    nothing else changes) and resumes behind the instruction.  In every other
    case a data abort is injected, with all general registers preserved.  It
    panics exactly if the guest has no vector table (VBAR_EL1 is 0, or so high
    that the vector's address overflows), or sits on the last instruction of
    the address space. *)
Theorem data_abort_exact {PT : PageTable} {SA : SmcccArch} {PLAT : Platform} {SYS : ArmSysregs}
    {SYL : ArmSysregsLaws} {PSCI : ArmPsci} {DEC : PsciDecoder} {FW : Firmware} s w c :
  guest_wf s -> world_wf w -> w_stage2_config w = Some c -> unmapped c s w ->
  esr_ec (w_sysregs w ESR_EL2) = EC_DATA_ABORT_LOWER_EL ->
  let '(e, p) := abort_effect c s w in abort_outcome e p s w (handle_sync_lower s w).
Proof.
  intros Hs Hw Hc Hun Hec. pose proof (handle_data_abort s w c Hs Hw Hc Hun Hec) as H.
  by destruct (abort_effect c s w).
Qed.
