(* ===== verification/QemuSystem.v ===== *)
(** * RITM on the QEMU platform

    The hypervisor's theorems and the platform's policy put together: in every
    world reachable from boot the guest has exactly the accesses of
    [qemu_policy], RITM's image is out of its reach, and the filtered MMIO
    page behaves as the platform's handlers say. *)

From Stdlib Require Import ZArith Lia.
From stdpp Require Import base tactics list gmap strings numbers.
From S2P Require Import Prelude MemoryAccess SimpleMap Stage2 Exceptions HvcResponse Pagetable.
From S2P Require Import Platform Qemu Sysregs World Hypervisor Safety Entry Aborts.

#[local] Open Scope Z_scope.

Section QemuSystem.
Context {PT : PageTable} {S2F : Stage2Flags} {SA : SmcccArch} {IMG : QemuImage}.
Context {SYS : ArmSysregs} {PSCI : ArmPsci} {DEC : PsciDecoder} {FW : Firmware}.
Context {PTL : PageTableLaws}.

Lemma qemu_reachable_access regs n w c x :
  image_ok -> rtc ritm_step (boot_world regs n) w -> w_stage2_config w = Some c ->
  stage2_access c x = qemu_policy x.
Proof.
  intros Himg Hreach Hc. pose proof (qemu_platform_laws Himg) as PLL.
  destruct (reachable_policy regs n w c Hreach Hc) as (b & Hb & _ & _ & Hsame).
  rewrite Hsame. by apply qemu_configured_access.
Qed.

Lemma qemu_reachable_wf regs n w :
  image_ok -> rtc ritm_step (boot_world regs n) w -> world_wf w.
Proof.
  intros Himg Hreach. pose proof (qemu_platform_laws Himg) as PLL. by eapply reachable_wf.
Qed.

(** An address without a direct mapping under the policy is unmapped. *)
Lemma qemu_unmapped c x :
  stage2_access c x = qemu_policy x -> (forall a, qemu_policy x <> Direct a) ->
  idmap_translate (s2c_idmap c) x = None.
Proof.
  intros Hp Hn. destruct (idmap_translate (s2c_idmap c) x) as [a|] eqn:E; [|done].
  destruct (Hn a). rewrite <- Hp. unfold stage2_access. by rewrite E.
Qed.

Lemma qemu_policy_filtered x :
  FILTERED_MMIO_BASE <= x < FILTERED_MMIO_BASE + FILTERED_MMIO_SIZE ->
  qemu_policy x = Emulated filtered_mmio_handler (x - FILTERED_MMIO_BASE).
Proof. intros Hx. unfold qemu_policy. by rewrite (proj2 (inside_true _ _ _)). Qed.

Lemma qemu_policy_image x :
  image_ok -> RITM_START <= x < RITM_END -> ~ shared_lo <= x < shared_hi ->
  qemu_policy x = Denied.
Proof.
  intros (_ & ? & ? & ? & ?) Hx Hs.
  unfold qemu_policy, DRAM_START, FILTERED_MMIO_BASE, FILTERED_MMIO_SIZE, PAGE_SIZE in *.
  repeat match goal with |- context [inside ?lo ?hi x] =>
    rewrite (proj2 (inside_false lo hi x)) by lia end. done.
Qed.

(** What the filtered page does with a decoded access. *)
Definition filtered_effect (d : DecodedMemoryAccess) (n : Counter) : effect * Counter :=
  let off := dma_ipa d - FILTERED_MMIO_BASE in
  match dma_kind d with
  | Read =>
      let load v := Loads (dma_register_index d)
        (extend_read_result v U64 (dma_sign_extend d) (dma_register_width_64 d)) in
      if negb (bool_decide (dma_width d = U64)) then (Faults, n)
      else if off =? 0 then (load 0xfeed_face_cafe_beef, n)
      else if off =? 16 then (load n, (n + 1) mod 2 ^ 64)
      else if off =? 24 then (load 0x1111_2222_3333_4444, n)
      else if off =? 32 then (load 0x5555_6666_7777_8888, n)
      else if off =? 40 then (load 0x9999_aaaa_bbbb_cccc, n)
      else (Faults, n)
  | Write v =>
      (if bool_decide (off = 8 /\ dma_width d = U64 /\ v = 0x1234_5678_9abc_def0)
       then Stores else Faults, n)
  end.

Lemma match_offset {A} (off : Z) (a b c d e f : A) :
  match off with 0 => a | 16 => b | 24 => c | 32 => d | 40 => e | _ => f end =
  if off =? 0 then a else if off =? 16 then b else if off =? 24 then c
  else if off =? 32 then d else if off =? 40 then e else f.
Proof.
  repeat match goal with |- context [off =? ?k] => destruct (Z.eqb_spec off k); [by subst|] end.
  destruct off as [|p|p]; [done| |done].
  repeat (destruct p as [p|p|]; try done).
Qed.

Lemma filtered_access_effect d n :
  access_effect (Emulated filtered_mmio_handler (dma_ipa d - FILTERED_MMIO_BASE)) d n =
  filtered_effect d n.
Proof.
  unfold access_effect, filtered_effect, filtered_mmio_handler, read_write.
  cbn [mah_read mah_write].
  destruct (dma_kind d) as [|v].
  - unfold read_filtered_mmio. cbn [mra_width mra_offset mra_ipa].
    destruct (decide (dma_width d = U64)) as [->|Hw].
    + rewrite match_offset, bool_decide_eq_true_2 by done. unfold fetch_add_one. cbn [negb].
      by repeat match goal with |- context [?o =? ?k] => destruct (o =? k) end.
    + by rewrite bool_decide_eq_false_2.
  - unfold write_filtered_mmio. cbn [mwa_width mwa_offset mwa_value].
    destruct (Z.eqb_spec (dma_ipa d - FILTERED_MMIO_BASE) 8),
      (bool_decide_reflect (dma_width d = U64)), (Z.eqb_spec v 0x1234_5678_9abc_def0); simpl;
      first [by rewrite bool_decide_eq_true_2 | by rewrite bool_decide_eq_false_2 by naive_solver].
Qed.
End QemuSystem.

(** ** Properties *)

(** At every point after boot, whatever the guest and the other cores did,
    the stage-2 configuration in force treats every address exactly as
    [qemu_policy] says. *)
Theorem qemu_reachable_policy {PT : PageTable} {S2F : Stage2Flags} {SA : SmcccArch}
    {IMG : QemuImage} {SYS : ArmSysregs} {PSCI : ArmPsci} {DEC : PsciDecoder} {FW : Firmware}
    {PTL : PageTableLaws} regs n w c x :
  image_ok -> rtc ritm_step (boot_world regs n) w -> w_stage2_config w = Some c ->
  stage2_access c x = qemu_policy x.
Proof. apply qemu_reachable_access. Qed.

(** C17: the guest cannot use the trap path to get at RITM: in every reachable
    world, a data abort on an address of the RITM image outside the shared
    heap's pages is never emulated and leaves the platform's state alone; the
    guest gets a data abort of its own (RITM stops only if the guest has no
    usable vector table). *)
Theorem qemu_image_access_faults {PT : PageTable} {S2F : Stage2Flags} {SA : SmcccArch}
    {IMG : QemuImage} {SYS : ArmSysregs} {SYL : ArmSysregsLaws} {PSCI : ArmPsci}
    {DEC : PsciDecoder} {FW : Firmware} {PTL : PageTableLaws} regs n w c s d :
  image_ok -> rtc ritm_step (boot_world regs n) w -> w_stage2_config w = Some c ->
  guest_wf s -> esr_ec (w_sysregs w ESR_EL2) = EC_DATA_ABORT_LOWER_EL ->
  abort_access s w = Some d ->
  RITM_START <= dma_ipa d < RITM_END -> ~ shared_lo <= dma_ipa d < shared_hi ->
  abort_outcome Faults (w_platform w) s w (handle_sync_lower s w).
Proof.
  intros Himg Hreach Hc Hs Hec Hd Hx Hns.
  pose proof (qemu_reachable_access regs n w c (dma_ipa d) Himg Hreach Hc) as Hacc.
  pose proof (qemu_policy_image (dma_ipa d) Himg Hx Hns) as Hpol.
  pose proof (handle_data_abort s w c Hs (qemu_reachable_wf _ _ _ Himg Hreach) Hc) as H.
  unfold abort_effect in H. rewrite Hd, Hacc, Hpol in H. apply H; [|done].
  intros d' Hd'. replace d' with d by congruence. apply qemu_unmapped; [done|]. by rewrite Hpol.
Qed.

(** The filtered MMIO page end to end: in every reachable world, a trapped
    access to the page is completed or faulted exactly as [filtered_effect]
    says: 64-bit loads at offsets 0, 16, 24, 32 and 40 (16 counts up), the one
    accepted store at offset 8, a data abort for everything else. *)
Theorem qemu_filtered_mmio_exact {PT : PageTable} {S2F : Stage2Flags} {SA : SmcccArch}
    {IMG : QemuImage} {SYS : ArmSysregs} {SYL : ArmSysregsLaws} {PSCI : ArmPsci}
    {DEC : PsciDecoder} {FW : Firmware} {PTL : PageTableLaws} regs n w c s d :
  image_ok -> rtc ritm_step (boot_world regs n) w -> w_stage2_config w = Some c ->
  guest_wf s -> esr_ec (w_sysregs w ESR_EL2) = EC_DATA_ABORT_LOWER_EL ->
  abort_access s w = Some d ->
  FILTERED_MMIO_BASE <= dma_ipa d < FILTERED_MMIO_BASE + FILTERED_MMIO_SIZE ->
  let '(e, n') := filtered_effect d (w_platform w) in
  abort_outcome e n' s w (handle_sync_lower s w).
Proof.
  intros Himg Hreach Hc Hs Hec Hd Hx.
  pose proof (qemu_reachable_access regs n w c (dma_ipa d) Himg Hreach Hc) as Hacc.
  pose proof (qemu_policy_filtered (dma_ipa d) Hx) as Hpol.
  pose proof (handle_data_abort s w c Hs (qemu_reachable_wf _ _ _ Himg Hreach) Hc) as H.
  unfold abort_effect in H. rewrite Hd, Hacc, Hpol, filtered_access_effect in H.
  destruct (filtered_effect d (w_platform w)) as [e n']. apply H; [|done].
  intros d' Hd'. replace d' with d by congruence. apply qemu_unmapped; [done|]. by rewrite Hpol.
Qed.

Lemma qemu_policy_40_bits {PT : PageTable} {S2F : Stage2Flags} {SA : SmcccArch} {IMG : QemuImage} x :
  image_ok -> qemu_policy x <> Denied -> 0 <= x < 2 ^ 40.
Proof.
  intros Himg. pose proof (shared_pages Himg) as (_ & _ & ? & ? & ? & ?). destruct Himg as (_ & ? & ? & ? & ?).
  assert (RITM_START < RITM_END) by (unfold RITM_END; lia).
  unfold qemu_policy, DRAM_START, FILTERED_MMIO_BASE, FILTERED_MMIO_SIZE, PAGE_SIZE in *.
  repeat match goal with
  | |- context [inside ?lo ?hi x] =>
      destruct (inside lo hi x) eqn:?; [rewrite inside_true in *; simpl; lia|]
  end. simpl. intros Hn. by destruct Hn.
Qed.

(** The physical address size of VTCR_EL2.PS, in bits. *)
Definition ps_bits (ps : Z) : option Z :=
  nth_error [32; 36; 40; 42; 44; 48; 52; 56] (Z.to_nat ps).

(** C37: the configured tables fit the translation regime: on any configuration
    that configure_memory_access builds, every address the guest may access,
    directly or by emulation, is within the input range that the programmed
    VTCR_EL2.T0SZ gives stage 2, and, the map being the identity, within the
    output range of its PS field. *)
Theorem qemu_policy_in_ipa_range {PT : PageTable} {S2F : Stage2Flags} {SA : SmcccArch}
    {IMG : QemuImage} {Laws : PageTableLaws} {SYS : ArmSysregs} {SYL : ArmSysregsLaws} b x :
  image_ok -> configure_memory_access Stage2Builder_new = Ret (b, Ok tt) ->
  stage2_access (build b) x <> Denied ->
  0 <= x < 2 ^ (64 - get_field 0 6 stage2_vtcr) /\
  exists bits, ps_bits (get_field 16 3 stage2_vtcr) = Some bits /\ x < 2 ^ bits.
Proof.
  intros Himg Hb Hn. rewrite (qemu_configured_access b x Himg Hb) in Hn.
  pose proof (qemu_policy_40_bits x Himg Hn). rewrite stage2_vtcr_value. split; [done|].
  exists 40. split; [done|lia].
Qed.

(** ** Witnesses: the example image, after the boot core entered EL1 *)

Section QemuWitnesses.
Import QemuExample ArmArch ExampleFirmware.

Definition boot_regs : sysregs := fun _ => 0.

(** The translation registers after the entry into EL1. *)
Definition el1_regs : sysregs :=
  set_sysreg HCR_EL2 (2 ^ 31 + 2 ^ 19 + 1)
    (set_sysreg VTCR_EL2 0x2_3598 (set_sysreg VTTBR_EL2 0x4701_0000 boot_regs)).

(** The guest faults at [ipa]: a 64-bit load into x1, ISV set. *)
Definition fault_regs (ipa : Z) : sysregs :=
  set_sysreg ESR_EL2 (0x24 * 2 ^ 26 + iss_of U64 1 DATA_ABORT_ISS_SF)
    (set_sysreg HPFAR_EL2 (ipa / 4096 * 16)
       (set_sysreg FAR_EL2 ipa (set_sysreg VBAR_EL1 0x4020_0000 el1_regs))).

Definition booted : World := boot_world boot_regs 0.

(** A reachable world in which the guest has just faulted at [ipa]. *)
Lemma fault_world_fresh {FW : Firmware} ipa :
  exists w c, rtc ritm_step booted w /\ w_stage2_config w = Some c /\ w_sysregs w = fault_regs ipa /\
    w_platform w = 0 /\ w_suspend_contexts w = SimpleMap.new MAX_CORES /\
    w_secondary_stacks w = SimpleMap.new MAX_CORES.
Proof.
  destruct example_configured as [b Hb].
  destruct (entry_point_el1_Leaves 0 0 0 0 0x4020_0000 booted (build b)
    (world_of (set_stage2 (build b) booted))) as (w' & Hrun & Hen).
  { unfold stage2_config, mbind, M_bind, get_stage2, lift. cbn [w_stage2_config booted boot_world].
    by rewrite Hb. }
  exists (with_sysregs w' (fault_regs ipa)), (activated (build b)). split_and!.
  - pose proof (step_entry booted 0 0 0 0 0x4020_0000) as Hstep. rewrite Hrun in Hstep.
    eapply rtc_l; [exact Hstep|]. apply rtc_once, step_guest.
  - apply (en_config _ _ _ _ Hen).
  - done.
  - apply (en_statics _ _ _ _ Hen).
  - apply (en_statics _ _ _ _ Hen).
  - apply (en_statics _ _ _ _ Hen).
Qed.

Lemma fault_world_counter {FW : Firmware} ipa :
  exists w c, rtc ritm_step booted w /\ w_stage2_config w = Some c /\ w_sysregs w = fault_regs ipa /\
    w_platform w = 0.
Proof. destruct (fault_world_fresh ipa) as (w & c & ? & ? & ? & ? & _). by exists w, c. Qed.

Lemma fault_world ipa :
  exists w c, rtc ritm_step booted w /\ w_stage2_config w = Some c /\ w_sysregs w = fault_regs ipa.
Proof. destruct (fault_world_counter ipa) as (w & c & ? & ? & ? & _). by exists w, c. Qed.

Lemma example_guest_wf : guest_wf example_guest.
Proof. by apply (bool_decide_unpack _); vm_compute. Qed.

Lemma fault_ec w ipa : w_sysregs w = fault_regs ipa ->
  esr_ec (w_sysregs w ESR_EL2) = EC_DATA_ABORT_LOWER_EL.
Proof. by intros ->. Qed.

(** The access such a fault describes. *)
Lemma fault_access w ipa :
  w_sysregs w = fault_regs ipa -> In ipa [0x4710_0000; 0x0f00_0010] ->
  abort_access example_guest w = Some (mkDecodedMemoryAccess ipa U64 Read 1 false true).
Proof. intros Hr Hin. unfold abort_access. rewrite Hr. by destruct Hin as [<-|[<-|[]]]. Qed.

(** The boot core has entered EL1, so that a policy is in force, and faults in
    the filtered page; handling that keeps the policy, which is the platform's. *)
Lemma history_evolves_witness :
  exists w c w' c', rtc ritm_step booted w /\ w_stage2_config w = Some c /\
    w' = world_of (handle_sync_lower example_guest w) /\
    w_stage2_config w' = Some c' /\ same_policy c c' /\ platform_policy c'.
Proof.
  destruct (fault_world 0x0f00_0010) as (w & c & Hreach & Hc & _).
  assert (Hstep : rtc ritm_step w (world_of (handle_sync_lower example_guest w)))
    by (apply rtc_once, step_exception).
  destruct (history_evolves (PLL := qemu_platform_laws example_image_ok) boot_regs 0 w _ Hreach Hstep)
    as [Hev Hpol].
  destruct (ev_policy _ _ Hev c Hc) as (c' & Hc' & Hsame).
  exists w, c, (world_of (handle_sync_lower example_guest w)), c'.
  split_and!; [exact Hreach|exact Hc|reflexivity|exact Hc'|exact Hsame|exact (Hpol c' Hc')].
Defined.

Lemma qemu_reachable_policy_witness :
  exists w c, w_stage2_config w = Some c /\ stage2_access c 0x4700_0000 = Denied /\
    stage2_access c 0x0900_0000 = Direct STAGE2_DEVICE_ATTRIBUTES.
Proof.
  destruct (fault_world 0) as (w & c & Hreach & Hc & _). exists w, c. split; [done|].
  rewrite !(qemu_reachable_policy boot_regs 0 w c _ example_image_ok Hreach Hc). by vm_compute.
Defined.

Lemma qemu_image_access_faults_witness :
  exists w, w_sysregs w = fault_regs 0x4710_0000 /\
    abort_outcome Faults (w_platform w) example_guest w (handle_sync_lower example_guest w).
Proof.
  destruct (fault_world 0x4710_0000) as (w & c & Hreach & Hc & Hr). exists w. split; [done|].
  apply (qemu_image_access_faults boot_regs 0 w c example_guest
    (mkDecodedMemoryAccess 0x4710_0000 U64 Read 1 false true) example_image_ok Hreach Hc
    example_guest_wf (fault_ec _ _ Hr) (fault_access _ _ Hr ltac:(simpl; tauto))).
  - by vm_compute.
  - vm_compute. intuition discriminate.
Defined.

Lemma qemu_filtered_mmio_exact_witness :
  exists w, w_sysregs w = fault_regs 0x0f00_0010 /\
    abort_outcome (Loads 1 (extend_read_result (w_platform w) U64 false true))
      ((w_platform w + 1) mod 2 ^ 64) example_guest w (handle_sync_lower example_guest w).
Proof.
  destruct (fault_world 0x0f00_0010) as (w & c & Hreach & Hc & Hr). exists w. split; [done|].
  apply (qemu_filtered_mmio_exact boot_regs 0 w c example_guest
    (mkDecodedMemoryAccess 0x0f00_0010 U64 Read 1 false true) example_image_ok Hreach Hc
    example_guest_wf (fault_ec _ _ Hr) (fault_access _ _ Hr ltac:(simpl; tauto))).
  by vm_compute.
Defined.

Lemma qemu_policy_in_ipa_range_witness :
  exists b, configure_memory_access Stage2Builder_new = Ret (b, Ok tt) /\
    0 <= 0xff_ffff_ffff < 2 ^ (64 - get_field 0 6 stage2_vtcr) /\
    exists bits, ps_bits (get_field 16 3 stage2_vtcr) = Some bits /\ 0xff_ffff_ffff < 2 ^ bits.
Proof.
  destruct example_configured as [b Hb]. exists b. split; [exact Hb|].
  apply (qemu_policy_in_ipa_range b _ example_image_ok Hb).
  rewrite (qemu_configured_access b _ example_image_ok Hb). by vm_compute.
Defined.

Lemma data_abort_exact_witness :
  exists w, w_sysregs w = fault_regs 0x4710_0000 /\
    abort_outcome Faults (w_platform w) example_guest w (handle_sync_lower example_guest w).
Proof.
  destruct (fault_world 0x4710_0000) as (w & c & Hreach & Hc & Hr). exists w. split; [done|].
  pose proof (qemu_reachable_access boot_regs 0 w c 0x4710_0000 example_image_ok Hreach Hc) as Ha.
  pose proof (data_abort_exact example_guest w c example_guest_wf
    (qemu_reachable_wf _ _ _ example_image_ok Hreach) Hc) as H.
  unfold abort_effect, unmapped in H. rewrite (fault_access _ _ Hr) in H by (simpl; tauto).
  cbn [dma_ipa] in H. rewrite Ha in H. apply H; [|by apply (fault_ec _ _ Hr)].
  intros d [= <-]. apply qemu_unmapped; [done|]. by vm_compute.
Defined.
End QemuWitnesses.
