(* ===== verification/Prog.v ===== *)
(** * The hypervisor as programs of single accesses

    The functions of src/src/hypervisor.rs once more, as trees of the atomic
    accesses they make: one system register, one locked operation on a shared
    map, one [call_once], one call of the firmware.  Between two accesses the
    other cores may run.  [run] executes a tree without interruption, and each
    program is shown to be the function of Hypervisor.v it is written after;
    the machine that interleaves the programs of all cores is in Concurrent.v.

    The guard of the identity map's lock lives to the end of [setup_stage2]:
    taking it and dropping it are accesses of their own.  The other locks
    protect one map operation each, which is one access. *)

From Stdlib Require Import ZArith Lia.
From stdpp Require Import base tactics list gmap strings numbers.
From S2P Require Import Prelude MemoryAccess SimpleMap Stage2 Exceptions HvcResponse Platform Sysregs.
From S2P Require Import World Hypervisor.

#[local] Open Scope Z_scope.

(** ** Accesses *)

Section Ops.
Context {PT : PageTable} {SA : SmcccArch} {PLAT : Platform}.
Context {SYS : ArmSysregs} {PSCI : ArmPsci} {FW : Firmware}.

Inductive op : Type -> Type :=
| OpRead (r : sysreg) : op Z
| OpWrite (r : sysreg) (v : Z) : op unit
| OpBarrier (e : event) : op unit                                 (* tlbi, dsb, isb *)
| OpCallOnce : op (Stage2Config PT PlatformState)                 (* STAGE2_CONFIG.call_once *)
| OpLockIdmap : op unit                                           (* config.idmap.lock() *)
| OpActivate : op unit                                            (* idmap.activate() *)
| OpUnlockIdmap : op unit                                         (* the guard is dropped *)
| OpReadHandler (h : MemoryReadAccess -> PlatformState -> MemoryReadResult * PlatformState)
    (a : MemoryReadAccess) : op MemoryReadResult
| OpWriteHandler (h : MemoryWriteAccess -> PlatformState -> MemoryWriteResult * PlatformState)
    (a : MemoryWriteAccess) : op MemoryWriteResult
| OpSaveContext (mpidr : u64) (c : SuspendCoreData) : op nat      (* SUSPEND_CONTEXTS.lock().insert *)
| OpTakeContext (mpidr : u64) : op (option SuspendCoreData)       (* SUSPEND_CONTEXTS.lock().remove *)
| OpStack (mpidr : u64) : op nat                                  (* get_secondary_stack *)
| OpSmc (function_id : u32) (args : list u64) : op (list u64)
| OpStartCore (mpidr : u64) (stack : nat) (entry arg : u64) : op (result PsciCallError unit)
| OpSuspendCore (power_state : u32) (stack : nat) : op (result PsciCallError unit).

(** [idmap.activate()] on the table in the static.  A reference to the static
    exists only after it was set. *)
Definition activate_stage2 : M unit :=
  config ← get_stage2;
  match config with
  | Some config =>
      _ ← activate_root (idmap_root_address (s2c_idmap config));
      set_stage2 {| s2c_idmap := idmap_activate (s2c_idmap config);
                    s2c_memory_access_handlers := s2c_memory_access_handlers config |}
  | None => mret tt
  end.

(** What an access does to the world.  Who holds the lock is not part of the
    world: see Concurrent.v. *)
Definition op_sem {X} (o : op X) : M X :=
  match o with
  | OpRead r => read_sysreg r
  | OpWrite r v => write_sysreg r v
  | OpBarrier e => emit e
  | OpCallOnce => stage2_config
  | OpLockIdmap => mret tt
  | OpActivate => activate_stage2
  | OpUnlockIdmap => mret tt
  | OpReadHandler h a => with_platform (h a)
  | OpWriteHandler h a => with_platform (h a)
  | OpSaveContext mpidr c => with_suspend_contexts (fun m => SimpleMap.insert m mpidr c)
  | OpTakeContext mpidr => with_suspend_contexts (fun m => Ret (SimpleMap.remove m mpidr))
  | OpStack mpidr => get_secondary_stack mpidr
  | OpSmc function_id args => smc64_call function_id args
  | OpStartCore mpidr stack entry arg => start_core_call mpidr stack entry arg
  | OpSuspendCore power_state stack => suspend_core_call power_state stack
  end.

(** ** Programs *)

Inductive Prog (A : Type) : Type :=
| PRet (a : A)
| PPanic (msg : string)
| PLeave (l : leave)
| POp (X : Type) (o : op X) (k : X -> Prog A).
Arguments PRet {A} _.
Arguments PPanic {A} _.
Arguments PLeave {A} _.
Arguments POp {A} _ _ _.

Fixpoint prog_bind {A B} (f : A -> Prog B) (p : Prog A) : Prog B :=
  match p with
  | PRet a => f a
  | PPanic msg => PPanic msg
  | PLeave l => PLeave l
  | POp X o k => POp X o (fun x => prog_bind f (k x))
  end.

#[export] Instance Prog_ret : MRet Prog := @PRet.
#[export] Instance Prog_bind : MBind Prog := fun A B f p => prog_bind f p.

(** One access; a value that may be a panic. *)
Definition access {X} (o : op X) : Prog X := POp X o PRet.
Definition plift {A} (o : outcome A) : Prog A :=
  match o with Ret a => PRet a | Panic msg => PPanic msg end.

(** The program without interruption. *)
Fixpoint run {A} (p : Prog A) : M A := fun w =>
  match p with
  | PRet a => Done a w
  | PPanic msg => Panics msg w
  | PLeave l => Leaves l w
  | POp X o k =>
      match op_sem o w with
      | Done x w => run (k x) w
      | Panics msg w => Panics msg w
      | Leaves l w => Leaves l w
      end
  end.

(** [p] is a program for [m]. *)
Definition implements {A} (p : Prog A) (m : M A) : Prop := forall w, run p w = m w.

Lemma run_bind {A B} (p : Prog A) (f : A -> Prog B) w :
  run (p ≫= f) w = (run p ≫= fun a => run (f a)) w.
Proof.
  revert w. induction p as [a|msg|l|X o k IH]; intros w; try done.
  unfold mbind, Prog_bind, M_bind. simpl. destruct (op_sem o w); [apply IH|done..].
Qed.

Lemma implements_ret {A} (a : A) : implements (mret a) (mret a).
Proof. done. Qed.
Lemma implements_panic {A} msg : implements (A := A) (PPanic msg) (panic msg).
Proof. done. Qed.
Lemma implements_leave {A} l : implements (A := A) (PLeave l) (leave_with l).
Proof. done. Qed.
Lemma implements_lift {A} (o : outcome A) : implements (plift o) (lift o).
Proof. by destruct o. Qed.
Lemma implements_access {X} (o : op X) : implements (access o) (op_sem o).
Proof. intros w. simpl. by destruct (op_sem o w). Qed.

Lemma implements_bind {A B} (p : Prog A) m (f : A -> Prog B) (k : A -> M B) :
  implements p m -> (forall a, implements (f a) (k a)) -> implements (p ≫= f) (m ≫= k).
Proof.
  intros Hp Hf w. rewrite run_bind. unfold mbind, M_bind. rewrite Hp.
  destruct (m w); [apply Hf|done..].
Qed.
End Ops.
Arguments PRet {_ _ _ _ A} _.
Arguments PPanic {_ _ _ _ A} _.
Arguments PLeave {_ _ _ _ A} _.
Arguments POp {_ _ _ _ A} _ _ _.

Create HintDb prog.
#[export] Hint Resolve implements_ret implements_panic implements_leave implements_lift : prog.

(** Proves [implements] along the structure of the two sides. *)
Ltac solve_implements :=
  repeat first
    [ solve [eauto with prog]
    | match goal with
      | |- implements (access ?o) ?m => exact (implements_access o)
      | |- implements (match ?x with _ => _ end) _ => destruct x
      end
    | apply implements_bind; [|intros ?] ].

(** ** The functions of the hypervisor *)

Section Programs.
Context {PT : PageTable} {SA : SmcccArch} {PLAT : Platform}.
Context {SYS : ArmSysregs} {PSCI : ArmPsci} {DEC : PsciDecoder} {FW : Firmware}.

Definition setup_stage2_prog : Prog unit :=
  _ ← access OpCallOnce;
  _ ← access OpLockIdmap;
  _ ← access OpActivate;
  _ ← access (OpWrite VTCR_EL2 stage2_vtcr);
  _ ← access (OpBarrier EvTlbiVmalls12e1);
  _ ← access (OpBarrier EvDsb);
  _ ← access (OpBarrier EvIsb);
  access OpUnlockIdmap.

Definition entry_point_el1_prog (arg0 arg1 arg2 arg3 entry_point : u64) : Prog Empty_set :=
  _ ← setup_stage2_prog;
  let hcr := flag_or 0 HCR_RW in
  let hcr := flag_or hcr HCR_TSC in
  let hcr := flag_or hcr HCR_VM in
  let hcr := flag_sub hcr HCR_IMO in
  _ ← access (OpWrite HCR_EL2 hcr);
  _ ← access (OpWrite CNTVOFF_EL2 0);
  cnthctl ← access (OpRead CNTHCTL_EL2);
  let cnthctl := flag_or cnthctl CNTHCTL_EL0PCTEN in
  let cnthctl := flag_or cnthctl CNTHCTL_EL1PCEN in
  _ ← access (OpWrite CNTHCTL_EL2 cnthctl);
  icc_sre ← access (OpRead ICC_SRE_EL2);
  let icc_sre := flag_or icc_sre ICC_SRE_SRE in
  let icc_sre := flag_or icc_sre ICC_SRE_DFB in
  let icc_sre := flag_or icc_sre ICC_SRE_DIB in
  let icc_sre := flag_or icc_sre ICC_SRE_ENABLE in
  _ ← access (OpWrite ICC_SRE_EL2 icc_sre);
  spsr ← access (OpRead SPSR_EL2);
  let spsr := spsr_set_m_3_0 spsr SPSR_EL1H in
  let spsr := flag_or spsr SPSR_D in
  let spsr := flag_or spsr SPSR_A in
  let spsr := flag_or spsr SPSR_I in
  let spsr := flag_or spsr SPSR_F in
  _ ← access (OpWrite SPSR_EL2 spsr);
  _ ← access (OpWrite ELR_EL2 (elr_set_addr 0 entry_point));
  let sctlr := flag_or 0 SCTLR1_EOS in
  let sctlr := flag_or sctlr SCTLR1_TSCXT in
  let sctlr := flag_or sctlr SCTLR1_EIS in
  let sctlr := flag_or sctlr SCTLR1_SPAN in
  let sctlr := flag_or sctlr SCTLR1_NTLSMD in
  let sctlr := flag_or sctlr SCTLR1_LSMAOE in
  _ ← access (OpWrite TTBR0_EL1 0);
  _ ← access (OpWrite TCR_EL1 0);
  _ ← access (OpWrite VBAR_EL1 0);
  _ ← access (OpWrite MAIR_EL1 0);
  _ ← access (OpWrite SP_EL1 0);
  _ ← access (OpWrite SCTLR_EL1 sctlr);
  PLeave (EretToEl1 arg0 arg1 arg2 arg3).

Definition emulate_read_prog (s : GuestRegisterState) (decoded : DecodedMemoryAccess)
    (handler_match : MemoryAccessHandlerMatch PlatformState) :
    Prog (GuestRegisterState * result unit unit) :=
  match mah_read (mar_handler (mahm_region handler_match)) with
  | None => mret (s, Err tt)
  | Some read_handler =>
      r ← access (OpReadHandler read_handler {| mra_ipa := dma_ipa decoded;
                                                mra_offset := mahm_offset handler_match;
                                                mra_width := dma_width decoded |});
      match r with
      | ReadValue value =>
          let value := extend_read_result value (dma_width decoded) (dma_sign_extend decoded)
                         (dma_register_width_64 decoded) in
          let '(ok, s) := write_saved_guest_register s (dma_register_index decoded) value in
          if negb ok then mret (s, Err tt)
          else s ← plift (advance_guest_pc s); mret (s, Ok tt)
      | ReadFault => mret (s, Err tt)
      end
  end.

Definition emulate_write_prog (s : GuestRegisterState) (decoded : DecodedMemoryAccess) (value : u64)
    (handler_match : MemoryAccessHandlerMatch PlatformState) :
    Prog (GuestRegisterState * result unit unit) :=
  match mah_write (mar_handler (mahm_region handler_match)) with
  | None => mret (s, Err tt)
  | Some write_handler =>
      r ← access (OpWriteHandler write_handler {| mwa_ipa := dma_ipa decoded;
                                                  mwa_offset := mahm_offset handler_match;
                                                  mwa_width := dma_width decoded;
                                                  mwa_value := value |});
      match r with
      | WriteHandled => s ← plift (advance_guest_pc s); mret (s, Ok tt)
      | WriteFault => mret (s, Err tt)
      end
  end.

(** The registry of handlers is not behind the lock and never changes: what
    [call_once] returned is looked up without another access. *)
Definition try_memory_access_handler_prog (s : GuestRegisterState) :
    Prog (GuestRegisterState * result unit unit) :=
  esr ← access (OpRead ESR_EL2);
  hpfar ← access (OpRead HPFAR_EL2);
  far ← access (OpRead FAR_EL2);
  decoded ← plift (decode_memory_access (esr_iss esr) (hpfar_fipa hpfar) (far_va far)
                     (fun index => Ret (read_gpr s index)));
  match decoded with
  | None => mret (s, Err tt)
  | Some decoded =>
      config ← access OpCallOnce;
      handler_match ← plift (find (s2c_memory_access_handlers config) (dma_ipa decoded));
      match handler_match with
      | None => mret (s, Err tt)
      | Some handler_match =>
          match dma_kind decoded with
          | Read => emulate_read_prog s decoded handler_match
          | Write value => emulate_write_prog s decoded value handler_match
          end
      end
  end.

Definition inject_data_abort_prog (s : GuestRegisterState) : Prog GuestRegisterState :=
  fault_addr ← access (OpRead FAR_EL2);
  esr ← access (OpRead ESR_EL2);
  vbar ← access (OpRead VBAR_EL1);
  if vbar =? 0 then PPanic "Guest VBAR_EL1 is 0, cannot inject data abort" else
  handler ← plift (add64 vbar 0x200);
  let '(elr, spsr) := exception_return s in
  _ ← access (OpWrite ELR_EL1 elr);
  _ ← access (OpWrite SPSR_EL1 spsr);
  _ ← access (OpWrite FAR_EL1 (far_va fault_addr));
  _ ← access (OpWrite ESR_EL1 (injected_esr esr));
  mret (set_exception_return s handler injected_spsr).

Definition psci_cpu_on_prog (mpidr : Mpidr) (entry : EntryPoint) :
    Prog (result PsciCallError unit) :=
  let mpidr_u64 := u64_from_mpidr mpidr in
  stack ← access (OpStack mpidr_u64);
  access (OpStartCore mpidr_u64 stack (entry_point_address entry) (entry_context_id entry)).

Definition psci_cpu_suspend_prog (power_state : PowerState) (entry : EntryPoint) :
    Prog (result PsciCallError unit) :=
  mpidr ← access (OpRead MPIDR_EL1);
  let context := {| scd_entry_point := entry_point_address entry;
                    scd_context_id := entry_context_id entry |} in
  _ ← access (OpSaveContext mpidr context);
  stack ← access (OpStack mpidr);
  result ← access (OpSuspendCore (u32_from_power_state power_state) stack);
  _ ← access (OpTakeContext mpidr);
  mret result.

Definition restore_from_suspend_prog : Prog Empty_set :=
  mpidr ← access (OpRead MPIDR_EL1);
  context ← access (OpTakeContext mpidr);
  context ← plift (expect_some context "context not found for resuming CPU");
  entry_point_el1_prog (scd_context_id context) 0 0 0 (scd_entry_point context).

Definition cpu_on_entry_prog (entry_ptr arg : u64) : Prog Empty_set :=
  entry_point_el1_prog arg 0 0 0 entry_ptr.

Definition handle_psci_prog (fn_id arg0 arg1 arg2 : u64) : Prog (result PsciError u64) :=
  match function_try_from [fn_id; arg0; arg1; arg2] with
  | Err e => mret (Err e)
  | Ok psci_fn =>
      match psci_fn with
      | Version | CpuOff | AffinityInfo | Migrate | MigrateInfoType | MigrateInfoUpCpu
      | SystemOff | SystemOff2 | SystemReset | SystemReset2 | MemProtect | MemProtectCheckRange
      | Features | CpuFreeze | CpuDefaultSuspend | NodeHwState | SystemSuspend | SetSuspendMode
      | StatResidency | StatCount =>
          regs ← access (OpSmc (fn_id mod 2 ^ 32) (forwarded_args arg0 arg1 arg2));
          mret (Ok (regs !!! 0%nat))
      | CpuOn target_cpu entry =>
          r ← psci_cpu_on_prog target_cpu entry;
          mret (Ok (psci_result_to_u64 r))
      | CpuSuspend state entry =>
          r ← psci_cpu_suspend_prog state entry;
          mret (Ok (psci_result_to_u64 r))
      end
  end.

Definition try_handle_psci_prog (fn_id arg0 arg1 arg2 : u64) : Prog (result ArchError HvcResponse) :=
  r ← handle_psci_prog fn_id arg0 arg1 arg2;
  mret match r with
       | Ok val => Ok (response_from_u64 val)
       | Err error => Err (arch_error_from_i32 (i32_from_psci_error error))
       end.

Definition handle_call_prog (s : GuestRegisterState) : Prog GuestRegisterState :=
  let gprs := volatile_gprs s in
  let function_id := gprs !!! 0%nat in
  let args := take 17 (drop 1 gprs) in
  result ←
    (if is_psci_id function_id then
       r ← try_handle_psci_prog function_id (args !!! 0%nat) (args !!! 1%nat) (args !!! 2%nat);
       mret (Handled r)
     else mret (handle_hvc function_id args));
  mret (modify_register_state result s).

Definition handle_sync_lower_prog (s : GuestRegisterState) : Prog GuestRegisterState :=
  esr_el2 ← access (OpRead ESR_EL2);
  let ec := exception_class_from (esr_ec esr_el2) in
  s ← match ec with
      | HvcTrappedInAArch64 | SmcTrappedInAArch64 => handle_call_prog s
      | DataAbortLowerEL =>
          '(s, r) ← try_memory_access_handler_prog s;
          match r with
          | Err _ => inject_data_abort_prog s
          | Ok _ => mret s
          end
      | Unknown _ => PPanic "Unexpected sync_lower"
      end;
  if bool_decide (ec = SmcTrappedInAArch64)
  then plift (advance_pc s AARCH64_INSTRUCTION_LENGTH) else mret s.

(** ** They are the functions of Hypervisor.v *)

Lemma setup_stage2_implements : implements setup_stage2_prog setup_stage2.
Proof.
  intros w. unfold setup_stage2_prog, setup_stage2. unfold mbind, M_bind. simpl.
  destruct (stage2_config w) as [c w'|msg w'|l w'] eqn:E; [|done..].
  unfold activate_stage2. run_monad.
  unfold stage2_config in E. run_monad. destruct (w_stage2_config w) as [c0|] eqn:Ec.
  - injection E as <- <-. by rewrite Ec.
  - destruct (configure_memory_access _) as [[b [[]|e]]|]; [|done..]. by injection E as <- <-.
Qed.
Hint Resolve setup_stage2_implements : prog.

Lemma entry_point_el1_implements a0 a1 a2 a3 ep :
  implements (entry_point_el1_prog a0 a1 a2 a3 ep) (entry_point_el1 a0 a1 a2 a3 ep).
Proof. unfold entry_point_el1_prog, entry_point_el1. solve_implements. Qed.
Hint Resolve entry_point_el1_implements : prog.

Lemma try_memory_access_handler_implements s :
  implements (try_memory_access_handler_prog s) (try_memory_access_handler s).
Proof.
  unfold try_memory_access_handler_prog, try_memory_access_handler, emulate_read_prog,
    emulate_read, emulate_write_prog, emulate_write. solve_implements.
Qed.
Hint Resolve try_memory_access_handler_implements : prog.

Lemma inject_data_abort_implements s : implements (inject_data_abort_prog s) (inject_data_abort s).
Proof. unfold inject_data_abort_prog, inject_data_abort. solve_implements. Qed.
Hint Resolve inject_data_abort_implements : prog.

Lemma restore_from_suspend_implements : implements restore_from_suspend_prog restore_from_suspend.
Proof. unfold restore_from_suspend_prog, restore_from_suspend. solve_implements. Qed.

Lemma handle_psci_implements f a0 a1 a2 :
  implements (handle_psci_prog f a0 a1 a2) (handle_psci f a0 a1 a2).
Proof.
  unfold handle_psci_prog, handle_psci, psci_cpu_on_prog, psci_cpu_on, psci_cpu_suspend_prog,
    psci_cpu_suspend. solve_implements.
Qed.
Hint Resolve handle_psci_implements : prog.

Lemma handle_call_implements s : implements (handle_call_prog s) (handle_call s).
Proof. unfold handle_call_prog, handle_call, try_handle_psci_prog, try_handle_psci. solve_implements. Qed.
Hint Resolve handle_call_implements : prog.

Lemma handle_sync_lower_implements s : implements (handle_sync_lower_prog s) (handle_sync_lower s).
Proof. unfold handle_sync_lower_prog, handle_sync_lower. solve_implements. Qed.
End Programs.

(** ** What the programs keep to *)

Section Disciplines.
Context {PT : PageTable} {SA : SmcccArch} {PLAT : Platform}.
Context {SYS : ArmSysregs} {PSCI : ArmPsci} {DEC : PsciDecoder} {FW : Firmware}.

(** At most [n] accesses. *)
Fixpoint bounded {A} (n : nat) (p : Prog A) {struct p} : Prop :=
  match p with
  | POp X o k => match n with O => False | S n => forall x, bounded n (k x) end
  | _ => True
  end.

(** Whether an access takes ([Some true]) or gives back ([Some false]) the
    identity map's lock. *)
Definition lock_effect {X} (o : op X) : option bool :=
  match o with OpLockIdmap => Some true | OpUnlockIdmap => Some false | _ => None end.

(** Accesses after which the program always goes on. *)
Definition always_returns {X} (o : op X) : bool :=
  match o with
  | OpCallOnce | OpSaveContext _ _ | OpStack _ | OpSmc _ _ | OpSuspendCore _ _ => false
  | _ => true
  end.

(** The lock is taken and given back in turn, the program ends without it, and
    nothing it does while it holds the lock can stop it; [b] and [b']: whether
    it is held before and after. *)
Fixpoint locks {A} (b b' : bool) (p : Prog A) : Prop :=
  match p with
  | PRet _ => b = b'
  | PPanic _ | PLeave _ => b = false
  | POp X o k =>
      (b = true -> always_returns o = true) /\
      match lock_effect o with
      | Some taken => b = negb taken /\ forall x, locks taken b' (k x)
      | None => forall x, locks b b' (k x)
      end
  end.

(** The program does not go to EL1 before it has asked for the stage-2
    configuration. *)
Definition is_call_once {X} (o : op X) : bool := match o with OpCallOnce => true | _ => false end.
Fixpoint opens {A} (p : Prog A) : Prop :=
  match p with
  | PPanic _ | PLeave NoReturn => True
  | PRet _ | PLeave _ => False
  | POp X o k => is_call_once o = true \/ forall x, opens (k x)
  end.

(** The program does not write [r]; it does not go to EL1 before it has
    written [v] to [r], and then leaves [r] alone. *)
Definition writes {X} (o : op X) : option (sysreg * Z) :=
  match o with OpWrite r v => Some (r, v) | _ => None end.
Definition is_activate {X} (o : op X) : bool := match o with OpActivate => true | _ => false end.
(** The system register an access changes. *)
Definition touches {X} (o : op X) : option sysreg :=
  match o with OpWrite r _ => Some r | OpActivate => Some VTTBR_EL2 | _ => None end.
Fixpoint keeps {A} (r : sysreg) (p : Prog A) : Prop :=
  match p with
  | POp X o k => touches o <> Some r /\ forall x, keeps r (k x)
  | _ => True
  end.
Fixpoint establishes {A} (r : sysreg) (v : Z) (p : Prog A) : Prop :=
  match p with
  | PPanic _ | PLeave NoReturn => True
  | PRet _ | PLeave _ => False
  | POp X o k =>
      (writes o = Some (r, v) /\ forall x, keeps r (k x)) \/ forall x, establishes r v (k x)
  end.

(** The program goes to EL1 only after it has activated the table, at a time
    when the configuration is known to be there ([known]: it is from the start),
    and then leaves VTTBR_EL2 alone. *)
Fixpoint roots {A} (known : bool) (p : Prog A) : Prop :=
  match p with
  | PPanic _ | PLeave NoReturn => True
  | PRet _ | PLeave _ => False
  | POp X o k =>
      (known = true /\ is_activate o = true /\ forall x, keeps VTTBR_EL2 (k x)) \/
      forall x, roots (known || is_call_once o) (k x)
  end.

Lemma bounded_mono {A} n m (p : Prog A) : (n <= m)%nat -> bounded n p -> bounded m p.
Proof.
  revert n m. induction p as [a|msg|l|X o k IH]; intros n m Hle Hp; try exact I.
  destruct n as [|n]; [destruct Hp|]. destruct m as [|m]; [lia|]. intros x. apply (IH x n); [lia|apply Hp].
Qed.

Lemma bounded_bind {A B} n m (p : Prog A) (f : A -> Prog B) :
  bounded n p -> (forall a, bounded m (f a)) -> bounded (n + m) (p ≫= f).
Proof.
  revert n. induction p as [a|msg|l|X o k IH]; intros n Hp Hf; simpl; try done.
  - apply (bounded_mono m); [lia|apply Hf].
  - destruct n as [|n]; [destruct Hp|]. simpl in *. intros x. by apply IH.
Qed.

Lemma locks_bind {A B} b b1 b2 (p : Prog A) (f : A -> Prog B) :
  locks b b1 p -> (forall a, locks b1 b2 (f a)) -> locks b b2 (p ≫= f).
Proof.
  revert b. induction p as [a|msg|l|X o k IH]; intros b Hp Hf; simpl in *; try done.
  - subst. apply Hf.
  - destruct Hp as [Hr Hp]. split; [done|]. destruct (lock_effect o) as [t|].
    + destruct Hp as [-> Hp]. split; [done|]. intros x. by apply IH.
    + intros x. by apply IH.
Qed.

Lemma keeps_bind {A B} r (p : Prog A) (f : A -> Prog B) :
  keeps r p -> (forall a, keeps r (f a)) -> keeps r (p ≫= f).
Proof.
  induction p as [a|msg|l|X o k IH]; intros Hp Hf; simpl in *; try done.
  destruct Hp as [Hw Hp]. split; [done|]. intros x. by apply IH.
Qed.

Lemma bounded_ret {A} n (a : A) : bounded n (mret a).
Proof. done. Qed.
Lemma bounded_lift {A} n (o : outcome A) : bounded n (plift o).
Proof. by destruct o. Qed.
Lemma bounded_access {X} n (o : op X) : bounded (S n) (access o).
Proof. done. Qed.
Lemma bounded_step {X A} n (o : op X) (f : X -> Prog A) :
  (forall x, bounded n (f x)) -> bounded (S n) (access o ≫= f).
Proof. done. Qed.

Lemma locks_ret {A} b (a : A) : locks b b (mret a).
Proof. done. Qed.
Lemma locks_lift {A} (o : outcome A) : locks false false (plift o).
Proof. by destruct o. Qed.
Lemma locks_access {X} (o : op X) : lock_effect o = None -> locks false false (access o).
Proof. intros H. simpl. by rewrite H. Qed.
Lemma locks_panic {A} msg : locks (A := A) false false (PPanic msg).
Proof. done. Qed.

Lemma keeps_ret {A} r (a : A) : keeps r (mret a).
Proof. done. Qed.
Lemma keeps_lift {A} r (o : outcome A) : keeps r (plift o).
Proof. by destruct o. Qed.
Lemma keeps_access {X} r (o : op X) : touches o = None -> keeps r (access o).
Proof. intros H. simpl. by rewrite H. Qed.
Lemma keeps_write r r' v : r' <> r -> keeps r (access (OpWrite r' v)).
Proof. intros H. split; [|done]. by intros [= ?]. Qed.
Lemma keeps_panic {A} r msg : keeps (A := A) r (PPanic msg).
Proof. done. Qed.
End Disciplines.

Create HintDb walk.
#[export] Hint Resolve bounded_ret bounded_lift bounded_access locks_ret locks_lift locks_access
  locks_panic keeps_ret keeps_lift keeps_access keeps_write keeps_panic : walk.

(** Walks along a program, for a discipline with the given lemma on binds. *)
Ltac walk_with bind_lemma :=
  repeat first
    [ solve [eauto with walk]
    | match goal with
      | |- _ (_ ≫= _) => eapply bind_lemma; [|intros ?]
      | |- _ (match ?x with _ => _ end) => destruct x
      end
    | progress cbv zeta ].

Section Disciplined.
Context {PT : PageTable} {SA : SmcccArch} {PLAT : Platform}.
Context {SYS : ArmSysregs} {PSCI : ArmPsci} {DEC : PsciDecoder} {FW : Firmware}.

Lemma locks_entry a0 a1 a2 a3 ep : locks false false (entry_point_el1_prog a0 a1 a2 a3 ep).
Proof. simpl. repeat (split; [done|]; try (split; [done|]); intros ?). done. Qed.

Lemma locks_restore : locks false false restore_from_suspend_prog.
Proof.
  pose proof locks_entry. unfold restore_from_suspend_prog. walk_with @locks_bind.
Qed.

Lemma locks_handle_call s : locks false false (handle_call_prog s).
Proof.
  unfold handle_call_prog, try_handle_psci_prog, handle_psci_prog, psci_cpu_on_prog,
    psci_cpu_suspend_prog. walk_with @locks_bind.
Qed.

Lemma locks_handle_sync_lower s : locks false false (handle_sync_lower_prog s).
Proof.
  pose proof locks_handle_call. unfold handle_sync_lower_prog, try_memory_access_handler_prog,
    emulate_read_prog, emulate_write_prog, inject_data_abort_prog. walk_with @locks_bind.
Qed.

(** Handling an exception writes no register of EL2. *)
Lemma keeps_handle_sync_lower r s :
  ELR_EL1 <> r -> SPSR_EL1 <> r -> FAR_EL1 <> r -> ESR_EL1 <> r -> keeps r (handle_sync_lower_prog s).
Proof.
  intros. unfold handle_sync_lower_prog, try_memory_access_handler_prog, emulate_read_prog,
    emulate_write_prog, inject_data_abort_prog, handle_call_prog, try_handle_psci_prog,
    handle_psci_prog, psci_cpu_on_prog, psci_cpu_suspend_prog.
  walk_with @keeps_bind.
Qed.

(** The longest programs: an exception takes at most 13 accesses, entering EL1
    23, resuming 25. *)
Lemma bounded_entry a0 a1 a2 a3 ep : bounded 23 (entry_point_el1_prog a0 a1 a2 a3 ep).
Proof. simpl. by intros. Qed.

Lemma bounded_restore : bounded 25 restore_from_suspend_prog.
Proof.
  unfold restore_from_suspend_prog. do 2 (apply bounded_step; intros ?).
  apply (bounded_bind 0 23); [apply bounded_lift|]. intros. apply bounded_entry.
Qed.

Lemma bounded_try s : bounded 5 (try_memory_access_handler_prog s).
Proof.
  unfold try_memory_access_handler_prog. do 3 (apply bounded_step; intros ?).
  apply (bounded_bind 0 2); [apply bounded_lift|]. intros [d|]; [|done].
  apply bounded_step. intros c. apply (bounded_bind 0 1); [apply bounded_lift|]. intros [m|]; [|done].
  unfold emulate_read_prog, emulate_write_prog.
  destruct (dma_kind d); repeat case_match; try done; apply bounded_step; intros []; try done.
  all: try (destruct (write_saved_guest_register _ _ _) as [[] s1]; [|done]).
  all: apply (bounded_bind 0 0); [apply bounded_lift|done].
Qed.

Lemma bounded_inject s : bounded 7 (inject_data_abort_prog s).
Proof.
  unfold inject_data_abort_prog. do 3 (apply bounded_step; intros ?). destruct (_ =? _); [done|].
  apply (bounded_bind 0 4); [apply bounded_lift|]. by intros.
Qed.

Lemma bounded_handle_call s : bounded 5 (handle_call_prog s).
Proof.
  unfold handle_call_prog. apply (bounded_bind 5 0); [|done]. destruct (is_psci_id _); [|done].
  apply (bounded_bind 5 0); [|done]. apply (bounded_bind 5 0); [|done].
  unfold handle_psci_prog. destruct (function_try_from _) as [[]|]; try done; simpl; by intros.
Qed.

Lemma bounded_handle_sync_lower s : bounded 13 (handle_sync_lower_prog s).
Proof.
  unfold handle_sync_lower_prog. apply bounded_step. intros esr. apply (bounded_bind 12 0).
  - destruct (exception_class_from _); [apply (bounded_mono 5), bounded_handle_call; lia..| |done].
    apply (bounded_bind 5 7); [apply bounded_try|]. intros [s' []]; [done|apply bounded_inject].
  - intros s'. destruct (bool_decide _); [apply bounded_lift|done].
Qed.

(** Every way into EL1 asks for the configuration first and sets up the
    core's own stage-2 registers. *)
Lemma opens_entry a0 a1 a2 a3 ep : opens (entry_point_el1_prog a0 a1 a2 a3 ep).
Proof. by left. Qed.

Lemma opens_restore : opens restore_from_suspend_prog.
Proof. right. intros m. right. intros [c|]; [apply opens_entry|done]. Qed.

Lemma roots_entry a0 a1 a2 a3 ep : roots false (entry_point_el1_prog a0 a1 a2 a3 ep).
Proof.
  cbn -[flag_or flag_sub stage2_vtcr]. right. intros c. right. intros _. left.
  split_and!; [done..|]. intros _. repeat (split; [done|]; intros ?). done.
Qed.

Lemma roots_restore : roots false restore_from_suspend_prog.
Proof. right. intros m. right. intros [c|]; [apply roots_entry|done]. Qed.

(** The value of HCR_EL2 the guest runs under. *)
Definition guest_hcr : Z :=
  flag_sub (flag_or (flag_or (flag_or 0 HCR_RW) HCR_TSC) HCR_VM) HCR_IMO.

Lemma establishes_entry a0 a1 a2 a3 ep :
  establishes VTCR_EL2 stage2_vtcr (entry_point_el1_prog a0 a1 a2 a3 ep) /\
  establishes HCR_EL2 guest_hcr (entry_point_el1_prog a0 a1 a2 a3 ep).
Proof.
  split; cbn -[flag_or flag_sub stage2_vtcr].
  - do 3 (right; intros _). left. split; [done|]. intros _. repeat (split; [done|]; intros ?). done.
  - do 8 (right; intros _). left. split; [done|]. intros _. repeat (split; [done|]; intros ?). done.
Qed.

Lemma establishes_restore :
  establishes VTCR_EL2 stage2_vtcr restore_from_suspend_prog /\
  establishes HCR_EL2 guest_hcr restore_from_suspend_prog.
Proof.
  split; right; intros m; right; intros [c|]; try done; apply establishes_entry.
Qed.

(** *** The registers after a run *)

(** Only these accesses change a system register. *)
Lemma op_sysregs {X} (o : op X) w r :
  touches o <> Some r -> w_sysregs (world_of (op_sem o w)) r = w_sysregs w r.
Proof.
  intros H. destruct o; simpl in H |- *; unfold activate_stage2, get_secondary_stack, smc64_call,
    start_core_call, suspend_core_call, stage2_config, with_suspend_contexts, with_secondary_stacks;
    run_monad; repeat case_match; simplify_eq/=; try done; rewrite set_sysreg_ne; congruence.
Qed.

Lemma run_keeps {A} r (p : Prog A) w : keeps r p -> w_sysregs (world_of (run p w)) r = w_sysregs w r.
Proof.
  revert w. induction p as [a|msg|l|X o k IH]; intros w; simpl; try done.
  intros [Ho Hk]. pose proof (op_sysregs o w r Ho) as H.
  destruct (op_sem o w) as [x w'|msg w'|l w']; simpl in H; rewrite <- H; [|done..]. by apply IH.
Qed.

(** Handling an exception leaves the registers of stage-2 translation alone. *)
Lemma handle_sync_lower_keeps r s w :
  r = HCR_EL2 \/ r = VTCR_EL2 \/ r = VTTBR_EL2 ->
  w_sysregs (world_of (handle_sync_lower s w)) r = w_sysregs w r.
Proof.
  intros Hr. rewrite <- (handle_sync_lower_implements s w). apply run_keeps, keeps_handle_sync_lower;
    by destruct Hr as [->|[->| ->]].
Qed.
End Disciplined.
