(* ===== verification/Guest.v ===== *)
(** * The guest on top of RITM

    The machine the guest sees: its registers, physical memory, and RITM below
    it.  A step is one action of a core at EL1: a load or a store, which the
    hardware lets through where the stage-2 table maps its page and turns into
    an exception to RITM elsewhere, an HVC or SMC, any other exception, local
    computation, the start or the resume of a core.  Exceptions are handled by
    [handle_sync_lower] of Hypervisor.v.

    The file shows what the stage-2 policy is for: no guest can change or
    observe RITM's private memory. *)

From Stdlib Require Import ZArith Lia.
From stdpp Require Import base tactics list gmap strings numbers.
From S2P Require Import Prelude MemoryAccess SimpleMap Stage2 Exceptions HvcResponse Pagetable.
From S2P Require Import Platform Qemu Sysregs World Hypervisor Safety Entry Aborts QemuSystem Prog.

#[local] Open Scope Z_scope.

(** ** Physical memory *)

(** Bytes by physical address, little-endian words. *)
Definition memory : Type := Z -> Z.

Definition width_bytes (w : MemoryAccessWidth) : nat :=
  match w with U8 => 1 | U16 => 2 | U32 => 4 | U64 => 8 end.

Fixpoint load_le (n : nat) (mem : memory) (a : Z) : Z :=
  match n with
  | O => 0
  | S n => mem a + 256 * load_le n mem (a + 1)
  end.

Definition store_le (n : nat) (mem : memory) (a v : Z) : memory := fun x =>
  if (a <=? x) && (x <? a + Z.of_nat n) then (v / 256 ^ (x - a)) mod 256 else mem x.

Definition aligned (w : MemoryAccessWidth) (a : Z) : bool := a mod Z.of_nat (width_bytes w) =? 0.

(** ** Actions *)

(** A load or store names the intermediate physical address and the virtual
    address its core used; [dev] is what a device answers to a load that does
    not go to memory.  Unaligned accesses are sequences of aligned ones. *)
Inductive action : Type :=
| ALoad (w : MemoryAccessWidth) (sign_extend register_width_64 : bool) (rt ipa va dev : u64)
| AStore (w : MemoryAccessWidth) (register_width_64 : bool) (rt ipa va : u64)
| ACall (smc : bool)
| AException (esr : u64)
| ALocal (s : GuestRegisterState) (regs : sysregs)
| AStart (arg entry : u64)
| AResume.

(** What the hardware records of a stage-2 abort: the class of an abort from a
    lower EL, the syndrome, the page of the intermediate address and the
    virtual address. *)
Definition abort_sysregs (iss : u32) (ipa va : u64) (regs : sysregs) : sysregs :=
  set_sysreg ESR_EL2 (0x24 * 2 ^ 26 + 2 ^ 25 + iss)
    (set_sysreg HPFAR_EL2 (ipa / 4096 * 2 ^ 4) (set_sysreg FAR_EL2 va regs)).

Section Guest.
Context {PT : PageTable} {SA : SmcccArch} {PLAT : Platform}.
Context {SYS : ArmSysregs} {PSCI : ArmPsci} {DEC : PsciDecoder} {FW : Firmware}.
(** Which physical addresses are memory; the others belong to devices. *)
Context (is_ram : Z -> bool).

Record gmachine : Type := mkG {
  g_regs : GuestRegisterState;   (* the ELR of the frame is the PC *)
  g_world : World;
  g_mem : memory;
}.

(** The core runs on in the guest, or it does not (powered off, suspended in
    the firmware, or stopped by a panic of RITM). *)
Inductive gresult : Type :=
| Runs (g : gmachine)
| Stops (w : World) (mem : memory).

(** The next instruction; the PC wraps around. *)
Definition next_pc (s : GuestRegisterState) : GuestRegisterState :=
  set_exception_return s ((vr_elr (volatile s) + 4) mod 2 ^ 64) (vr_spsr (volatile s)).

(** Stage 2 of the executing core translates by the table of [c]: HCR_EL2.VM is
    set, VTCR_EL2 describes the table (T0SZ = 24, SL0 = 2, TG0 = 0, PS = 2: 40-bit
    addresses, 4 KiB pages, walks from level 0), and VTTBR_EL2 is its root. *)
Definition stage2_on (regs : sysregs) (c : Stage2Config PT PlatformState) : bool :=
  Z.testbit (regs HCR_EL2) 0
  && (get_field 0 6 (regs VTCR_EL2) =? 24) && (get_field 6 2 (regs VTCR_EL2) =? 2)
  && (get_field 14 2 (regs VTCR_EL2) =? 0) && (get_field 16 3 (regs VTCR_EL2) =? 2)
  && (regs VTTBR_EL2 =? idmap_root_address (s2c_idmap c)).

(** The hardware's walk of the table in force.  Without one, and where the
    registers of the core do not describe it, nothing is promised: any address
    may be reachable. *)
Definition mapped (g : gmachine) (ipa : Z) : bool :=
  match w_stage2_config (g_world g) with
  | Some c =>
      if stage2_on (w_sysregs (g_world g)) c
      then bool_decide (is_Some (idmap_translate (s2c_idmap c) ipa)) else true
  | None => true
  end.

(** The registers after code at EL1 wrote any it can write. *)
Definition local_regs (new old : sysregs) : sysregs := fun r => if is_el2 r then old r else new r.

(** Taking an exception to RITM with the given register file. *)
Definition trap (s : GuestRegisterState) (regs : sysregs) (g : gmachine) : gresult :=
  match handle_sync_lower s (with_sysregs (g_world g) regs) with
  | Done s' w' => Runs (mkG s' w' (g_mem g))
  | Panics _ w' | Leaves _ w' => Stops w' (g_mem g)
  end.

(** The frame of a core that enters EL1: [eret_to_el1] leaves x0-x3 as given
    and clears the other registers (Asm.v). *)
Definition entry_frame (x0 x1 x2 x3 : u64) (w : World) : GuestRegisterState :=
  guest_new {| vr_registers := [x0; x1; x2; x3] ++ replicate 15 0; vr_fp := 0; vr_sp := 0;
               vr_elr := w_sysregs w ELR_EL2; vr_spsr := w_sysregs w SPSR_EL2 |}
            {| nvr_registers := replicate 10 0 |}.

Definition enter (r : run_result Empty_set) (mem : memory) : gresult :=
  match r with
  | Leaves (EretToEl1 x0 x1 x2 x3) w' => Runs (mkG (entry_frame x0 x1 x2 x3 w') w' mem)
  | _ => Stops (world_of r) mem
  end.

(** An access the hardware lets through. *)
Definition direct_load (w : MemoryAccessWidth) (sx r64 : bool) (rt ipa dev : u64) (g : gmachine) :
    gmachine :=
  let v := if is_ram ipa then load_le (width_bytes w) (g_mem g) ipa else dev in
  mkG (next_pc (snd (write_gpr (g_regs g) rt (extend_read_result v w sx r64)))) (g_world g) (g_mem g).
Definition direct_store (w : MemoryAccessWidth) (rt ipa : u64) (g : gmachine) : gmachine :=
  let v := default 0 (read_gpr (g_regs g) rt) in
  mkG (next_pc (g_regs g)) (g_world g)
    (if is_ram ipa then store_le (width_bytes w) (g_mem g) ipa v else g_mem g).

Definition gstep (a : action) (g : gmachine) : gresult :=
  let s := g_regs g in
  let regs := w_sysregs (g_world g) in
  match a with
  | ALoad w sx r64 rt ipa va dev =>
      if negb (aligned w ipa) then Runs g
      else if mapped g ipa then Runs (direct_load w sx r64 rt ipa dev g)
      else trap s (abort_sysregs (access_iss w rt sx r64 false) ipa va regs) g
  | AStore w r64 rt ipa va =>
      if negb (aligned w ipa) then Runs g
      else if mapped g ipa then Runs (direct_store w rt ipa g)
      else trap s (abort_sysregs (access_iss w rt false r64 true) ipa va regs) g
  | ACall smc =>
      (* an HVC returns behind itself, a trapped SMC to itself *)
      trap (if smc then s else next_pc s)
        (set_sysreg ESR_EL2 ((if smc then 0x17 else 0x16) * 2 ^ 26 + 2 ^ 25) regs) g
  | AException esr => trap s (set_sysreg ESR_EL2 esr regs) g
  | ALocal s' regs' => Runs (mkG s' (with_sysregs (g_world g) (local_regs regs' regs)) (g_mem g))
  | AStart arg entry => enter (cpu_on_entry entry arg (g_world g)) (g_mem g)
  | AResume => enter (restore_from_suspend (g_world g)) (g_mem g)
  end.

(** A guest program chooses its next action from the state; [grun n] lets it
    make [n] steps. *)
Fixpoint grun (prog : gmachine -> action) (n : nat) (g : gmachine) : gresult :=
  match n with
  | O => Runs g
  | S n =>
      match gstep (prog g) g with
      | Runs g' => grun prog n g'
      | r => r
      end
  end.

Definition result_world (r : gresult) : World :=
  match r with Runs g => g_world g | Stops w _ => w end.
Definition result_mem (r : gresult) : memory :=
  match r with Runs g => g_mem g | Stops _ mem => mem end.

(** ** Every step is a history of RITM *)

Lemma trap_history s regs g : rtc ritm_step (g_world g) (result_world (trap s regs g)).
Proof.
  eapply rtc_l; [apply (step_guest _ regs)|].
  pose proof (step_exception (with_sysregs (g_world g) regs) s) as H. unfold trap.
  destruct (handle_sync_lower s _); by apply rtc_once.
Qed.

Lemma enter_world r mem : result_world (enter r mem) = world_of r.
Proof. by destruct r as [[]| |[] ?]. Qed.

Lemma gstep_history a g : rtc ritm_step (g_world g) (result_world (gstep a g)).
Proof.
  destruct a as [w sx r64 rt ipa va dev|w r64 rt ipa va|smc|esr|s' regs'|arg entry|]; simpl.
  - destruct (negb _); [done|]. destruct (mapped g ipa); [done|]. apply trap_history.
  - destruct (negb _); [done|]. destruct (mapped g ipa); [done|]. apply trap_history.
  - apply trap_history.
  - apply trap_history.
  - apply rtc_once, step_guest.
  - rewrite enter_world. apply rtc_once, step_entry.
  - rewrite enter_world. apply rtc_once, step_resume.
Qed.

(** *** Stage 2 stays on *)

Lemma stage2_on_ext regs regs' c c' :
  (forall r, r = HCR_EL2 \/ r = VTCR_EL2 \/ r = VTTBR_EL2 -> regs' r = regs r) ->
  idmap_root_address (s2c_idmap c') = idmap_root_address (s2c_idmap c) ->
  stage2_on regs' c' = stage2_on regs c.
Proof. intros Hr Hc. unfold stage2_on. by rewrite !Hr, Hc by auto. Qed.

Context {SYL : ArmSysregsLaws} {PTL : PageTableLaws} {PLL : PlatformLaws}.

(** Stage 2 of the core that runs translates by the configuration in force. *)
Definition core_on (w : World) (regs : sysregs) : Prop :=
  exists c, w_stage2_config w = Some c /\ stage2_on regs c = true.

(** Every entry into EL1 switches it on. *)
Lemma entered_on w c ep w' : entered w c ep w' -> core_on w' (w_sysregs w').
Proof.
  intros Hen. exists (activated c). split; [apply (en_config _ _ _ _ Hen)|]. unfold stage2_on.
  rewrite (en_hcr _ _ _ _ Hen), (en_vtcr _ _ _ _ Hen), (en_vttbr _ _ _ _ Hen).
  change (idmap_root_address (s2c_idmap (activated c)))
    with (idmap_root_address (idmap_activate (s2c_idmap c))).
  by rewrite root_activate, (Z.eqb_refl (idmap_root_address _)).
Qed.

Lemma entry_on a0 a1 a2 a3 ep w l w' :
  entry_point_el1 a0 a1 a2 a3 ep w = Leaves l w' -> core_on w' (w_sysregs w').
Proof.
  intros H. destruct (config_in_force w) as [c|] eqn:Hc.
  - destruct (config_in_force_Done w c Hc) as [w0 H0].
    destruct (entry_point_el1_Leaves a0 a1 a2 a3 ep w c w0 H0) as (w'' & Hrun & Hen).
    rewrite Hrun in H. injection H as _ <-. by eapply entered_on.
  - destruct (entry_point_el1_Panics a0 a1 a2 a3 ep w Hc) as [msg Hp]. congruence.
Qed.

Lemma restore_on w l w' : restore_from_suspend w = Leaves l w' -> core_on w' (w_sysregs w').
Proof.
  unfold restore_from_suspend. rewrite bind_read_sysreg. unfold mbind, M_bind, with_suspend_contexts.
  destruct (SimpleMap.remove _ _) as [[c|] m]; simpl; [apply entry_on|done].
Qed.

(** Nothing another core does switches it off: the table stays where it is. *)
Lemma core_on_evolves w w' regs : evolves w w' -> core_on w regs -> core_on w' regs.
Proof.
  intros Hev (c & Hc & Hon). destruct (ev_policy _ _ Hev c Hc) as (c' & Hc' & _ & Hroot & _).
  exists c'. split; [done|]. rewrite <- Hon. by apply stage2_on_ext.
Qed.

Lemma core_on_regs w regs regs' :
  (forall r, r = HCR_EL2 \/ r = VTCR_EL2 \/ r = VTTBR_EL2 -> regs' r = regs r) ->
  core_on w regs -> core_on w regs'.
Proof.
  intros Hr (c & Hc & Hon). exists c. split; [done|]. rewrite <- Hon. by apply stage2_on_ext.
Qed.

Lemma trap_on s regs g g' :
  world_wf (g_world g) -> core_on (g_world g) regs ->
  trap s regs g = Runs g' -> core_on (g_world g') (w_sysregs (g_world g')).
Proof.
  intros Hwf Hon. unfold trap. set (w := with_sysregs (g_world g) regs).
  assert (Hw : world_wf w) by (destruct Hwf; by constructor).
  pose proof (safe_handle_sync_lower s w Hw) as Hev.
  pose proof (fun r => handle_sync_lower_keeps r s w) as Hk.
  destruct (handle_sync_lower s w) as [s' w'|msg w'|l w']; [|done..]. intros [= <-]. simpl in *.
  apply (core_on_regs _ regs); [|by apply (core_on_evolves w)]. intros r Hr. by rewrite Hk.
Qed.

Lemma enter_on r mem g' :
  (forall l w', r = Leaves l w' -> core_on w' (w_sysregs w')) ->
  enter r mem = Runs g' -> core_on (g_world g') (w_sysregs (g_world g')).
Proof. intros H. destruct r as [[]|msg w'|[] w']; simpl; try done. intros [= <-]. by eapply H. Qed.

Lemma abort_sysregs_keeps iss ipa va regs r :
  r = HCR_EL2 \/ r = VTCR_EL2 \/ r = VTTBR_EL2 -> abort_sysregs iss ipa va regs r = regs r.
Proof. intros Hr. unfold abort_sysregs. destruct Hr as [->|[->| ->]]; by rewrite !set_sysreg_ne. Qed.

Lemma esr_keeps v regs r :
  r = HCR_EL2 \/ r = VTCR_EL2 \/ r = VTTBR_EL2 -> set_sysreg ESR_EL2 v regs r = regs r.
Proof. intros Hr. destruct Hr as [->|[->| ->]]; by rewrite !set_sysreg_ne. Qed.

Lemma gstep_on a g g' :
  world_wf (g_world g) -> core_on (g_world g) (w_sysregs (g_world g)) ->
  gstep a g = Runs g' -> core_on (g_world g') (w_sysregs (g_world g')).
Proof.
  intros Hwf Hon.
  destruct a as [w sx r64 rt ipa va dev|w r64 rt ipa va|smc|esr|s' regs'|arg entry|]; simpl.
  - destruct (negb _); [by intros [= <-]|]. destruct (mapped g ipa); [by intros [= <-]|].
    apply trap_on; [done|]. eapply core_on_regs; [|exact Hon]. apply abort_sysregs_keeps.
  - destruct (negb _); [by intros [= <-]|]. destruct (mapped g ipa); [by intros [= <-]|].
    apply trap_on; [done|]. eapply core_on_regs; [|exact Hon]. apply abort_sysregs_keeps.
  - apply trap_on; [done|]. eapply core_on_regs; [|exact Hon]. apply esr_keeps.
  - apply trap_on; [done|]. eapply core_on_regs; [|exact Hon]. apply esr_keeps.
  - intros [= <-]. simpl. eapply core_on_regs; [|exact Hon]. by intros r [->|[->| ->]].
  - apply enter_on. intros l w'. apply entry_on.
  - apply enter_on. intros l w'. apply restore_on.
Qed.

(** A core that wakes up has it on, whatever its registers were. *)
Definition is_wake (a : action) : bool := match a with AStart _ _ | AResume => true | _ => false end.

Lemma gstep_wake_on a g g' :
  is_wake a = true -> gstep a g = Runs g' -> core_on (g_world g') (w_sysregs (g_world g')).
Proof.
  destruct a; try done; intros _; apply enter_on; intros l w'; [apply entry_on|apply restore_on].
Qed.

(** Only a store of the guest to a mapped address of memory changes memory. *)
Lemma trap_mem s regs g : result_mem (trap s regs g) = g_mem g.
Proof. unfold trap. by destruct (handle_sync_lower _ _). Qed.

Lemma enter_mem r mem : result_mem (enter r mem) = mem.
Proof. by destruct r as [[]| |[] ?]. Qed.

Lemma gstep_mem a g x :
  result_mem (gstep a g) x = g_mem g x \/
  exists w r64 rt ipa va, a = AStore w r64 rt ipa va /\ aligned w ipa = true /\ mapped g ipa = true /\
    ipa <= x < ipa + Z.of_nat (width_bytes w).
Proof.
  destruct a as [w sx r64 rt ipa va dev|w r64 rt ipa va|smc|esr|s' regs'|arg entry|]; simpl;
    rewrite ?trap_mem, ?enter_mem; try by left.
  - left. destruct (negb _); [done|]. destruct (mapped g ipa); [done|]. by rewrite trap_mem.
  - destruct (aligned w ipa) eqn:Ha; simpl; [|by left].
    destruct (mapped g ipa) eqn:Hm; [|left; by rewrite trap_mem]. simpl.
    destruct (is_ram ipa); [|by left]. unfold store_le.
    destruct (Z.leb_spec ipa x), (Z.ltb_spec x (ipa + Z.of_nat (width_bytes w))); simpl; try by left.
    right. by exists w, r64, rt, ipa, va.
Qed.
End Guest.
Arguments g_regs {_ _ _} _.
Arguments g_world {_ _ _} _.
Arguments g_mem {_ _ _} _.
Arguments mkG {_ _ _} _ _ _.

(** An aligned access stays within its page. *)
Lemma aligned_page w a x :
  aligned w a = true -> a <= x < a + Z.of_nat (width_bytes w) -> x / PAGE_SIZE = a / PAGE_SIZE.
Proof.
  unfold aligned. intros Ha%Z.eqb_eq Hx. unfold PAGE_SIZE.
  assert (Z.of_nat (width_bytes w) = 1 \/ Z.of_nat (width_bytes w) = 2 \/
    Z.of_nat (width_bytes w) = 4 \/ Z.of_nat (width_bytes w) = 8) as Hw by (destruct w; simpl; lia).
  destruct Hw as [Hw|[Hw|[Hw|Hw]]]; rewrite Hw in *; Z.div_mod_to_equations; lia.
Qed.

Lemma load_le_ext n mem mem' a :
  (forall x, a <= x < a + Z.of_nat n -> mem x = mem' x) -> load_le n mem a = load_le n mem' a.
Proof.
  revert a. induction n as [|n IH]; intros a H; simpl; [done|].
  rewrite (H a) by lia. f_equal. f_equal. apply IH. intros x Hx. apply H. lia.
Qed.

(** ** RITM's private memory on the QEMU platform *)

Section QemuGuest.
Context {PT : PageTable} {S2F : Stage2Flags} {SA : SmcccArch} {IMG : QemuImage}.
Context {SYS : ArmSysregs} {PSCI : ArmPsci} {DEC : PsciDecoder} {FW : Firmware}.

(** The image without the pages of the shared heap. *)
Definition private (x : Z) : Prop :=
  RITM_START <= x < RITM_END /\ ~ shared_lo <= x < shared_hi.

(** The machine after boot: a history of RITM led here, and the core has entered
    EL1, so that its stage 2 translates by a configuration. *)
Definition after_boot (g : gmachine) : Prop :=
  (exists regs n, rtc ritm_step (boot_world regs n) (g_world g)) /\
  core_on (g_world g) (w_sysregs (g_world g)).

(** The policy of the platform is in force, on the core as in the static. *)
Definition policy_in_force (w : World) : Prop :=
  exists c, w_stage2_config w = Some c /\ stage2_on (w_sysregs w) c = true /\
    forall x, stage2_access c x = qemu_policy x.

(** Two machines the guest cannot tell apart: they differ in private memory
    only. *)
Definition low_eq (g1 g2 : gmachine) : Prop :=
  g_regs g1 = g_regs g2 /\ g_world g1 = g_world g2 /\
  forall x, ~ private x -> g_mem g1 x = g_mem g2 x.

Definition low_result (r1 r2 : gresult) : Prop :=
  match r1, r2 with
  | Runs g1, Runs g2 => low_eq g1 g2
  | Stops w1 m1, Stops w2 m2 => w1 = w2 /\ forall x, ~ private x -> m1 x = m2 x
  | _, _ => False
  end.

#[export] Instance low_eq_equivalence : Equivalence low_eq.
Proof.
  split.
  - by intros g.
  - intros g1 g2 (? & ? & H). split_and!; [done..|]. intros x Hx. by rewrite H.
  - intros g1 g2 g3 (? & ? & H) (? & ? & H'). split_and!; [by etrans..|].
    intros x Hx. by rewrite H, H'.
Qed.

Lemma private_page x y : image_ok -> x / PAGE_SIZE = y / PAGE_SIZE -> private x -> private y.
Proof.
  intros Himg Hxy [Hx Hs]. pose proof (RITM_END_page Himg) as [e He].
  pose proof (shared_pages Himg) as ([l Hl] & [h Hh] & _).
  destruct Himg as ([k Hk] & _). unfold private. unfold PAGE_SIZE in *.
  split; [|intros Hy; apply Hs]; Z.div_mod_to_equations; lia.
Qed.

Lemma private_not_direct x a : image_ok -> private x -> qemu_policy x <> Direct a.
Proof. intros Himg [Hx Hs]. by rewrite (qemu_policy_image x Himg Hx Hs). Qed.

Context {PTL : PageTableLaws}.

Lemma after_boot_policy g : image_ok -> after_boot g -> policy_in_force (g_world g).
Proof.
  intros Himg [(regs & n & Hreach) (c & Hc & Hon)]. exists c. split_and!; [done..|]. intros x.
  by apply (qemu_reachable_access regs n (g_world g)).
Qed.

Lemma mapped_not_private g ipa :
  image_ok -> policy_in_force (g_world g) -> mapped g ipa = true -> ~ private ipa.
Proof.
  intros Himg (c & Hc & Hon & Hpol) Hm Hp. unfold mapped in Hm. rewrite Hc, Hon in Hm.
  apply bool_decide_eq_true in Hm as [a Ha].
  apply (private_not_direct ipa a Himg Hp).
  rewrite <- Hpol. unfold stage2_access. by rewrite Ha.
Qed.

(** The bytes of an aligned access to a mapped address are not private. *)
Lemma access_not_private g w ipa x :
  image_ok -> policy_in_force (g_world g) -> aligned w ipa = true -> mapped g ipa = true ->
  ipa <= x < ipa + Z.of_nat (width_bytes w) -> ~ private x.
Proof.
  intros Himg Hb Ha Hm Hx Hp. apply (mapped_not_private g ipa Himg Hb Hm).
  eapply private_page; [done| |exact Hp]. by eapply aligned_page.
Qed.

Context (is_ram : Z -> bool) {SYL : ArmSysregsLaws}.

Lemma after_boot_step a g g' :
  image_ok -> after_boot g -> gstep is_ram a g = Runs g' -> after_boot g'.
Proof.
  intros Himg [(regs & n & Hreach) Hon] Hs.
  pose proof (gstep_history is_ram a g) as Hh. rewrite Hs in Hh. simpl in Hh.
  pose proof (qemu_platform_laws Himg) as PLL. split.
  - exists regs, n. by etrans.
  - refine (gstep_on is_ram a g g' _ Hon Hs). by eapply qemu_reachable_wf.
Qed.

(** No step changes private memory. *)
Lemma gstep_private a g x :
  image_ok -> is_wake a = true \/ policy_in_force (g_world g) -> private x -> result_mem (gstep is_ram a g) x = g_mem g x.
Proof.
  intros Himg Hb Hx.
  destruct (gstep_mem is_ram a g x) as [H|(w & r64 & rt & ipa & va & -> & Ha & Hm & Hin)]; [done|].
  destruct Hb as [|Hb]; [done|].
  by destruct (access_not_private g w ipa x Himg Hb Ha Hm Hin).
Qed.

(** One step of two indistinguishable machines. *)
Lemma trap_low s regs g1 g2 :
  low_eq g1 g2 -> low_result (trap s regs g1) (trap s regs g2).
Proof.
  intros (_ & Hw & Hm). unfold trap. rewrite <- Hw. by destruct (handle_sync_lower _ _).
Qed.

Lemma enter_low r m1 m2 :
  (forall x, ~ private x -> m1 x = m2 x) -> low_result (enter r m1) (enter r m2).
Proof. intros Hm. by destruct r as [[]| |[] ?]. Qed.

Lemma gstep_low a g1 g2 :
  image_ok -> is_wake a = true \/ policy_in_force (g_world g1) -> low_eq g1 g2 ->
  low_result (gstep is_ram a g1) (gstep is_ram a g2).
Proof.
  intros Himg Hb Hlow. pose proof Hlow as (Hr & Hw & Hm).
  assert (Hmap : forall ipa, mapped g2 ipa = mapped g1 ipa) by (intros; unfold mapped; by rewrite Hw).
  destruct a as [w sx r64 rt ipa va dev|w r64 rt ipa va|smc|esr|s' regs'|arg entry|];
    unfold gstep; rewrite ?Hmap, <- ?Hr, <- ?Hw.
  - destruct (aligned w ipa) eqn:Ha; simpl; [|done].
    destruct (mapped g1 ipa) eqn:E; [|by apply trap_low].
    unfold direct_load. rewrite (load_le_ext _ (g_mem g1) (g_mem g2)), <- ?Hr, <- ?Hw; [done|].
    intros x Hx. destruct Hb as [|Hb]; [done|]. by apply Hm, (access_not_private g1 w ipa).
  - destruct (aligned w ipa) eqn:Ha; simpl; [|done].
    destruct (mapped g1 ipa) eqn:E; [|by apply trap_low].
    unfold direct_store. rewrite <- Hr, <- Hw. split_and!; [done..|].
    intros x Hx. simpl. destruct (is_ram ipa); [|by apply Hm].
    unfold store_le. destruct (_ && _); [done|by apply Hm].
  - by apply trap_low.
  - by apply trap_low.
  - done.
  - by apply enter_low.
  - by apply enter_low.
Qed.
End QemuGuest.

(** ** Properties *)

(** Integrity of RITM: whatever program the guest runs, on any platform
    memory map and for any number of steps (loads, stores, calls, other
    exceptions, core starts and resumes, in any order), no byte of RITM's
    image outside the shared heap's pages changes. *)
Theorem guest_memory_integrity {PT : PageTable} {S2F : Stage2Flags} {SA : SmcccArch} {IMG : QemuImage}
    {SYS : ArmSysregs} {PSCI : ArmPsci} {DEC : PsciDecoder} {FW : Firmware} {PTL : PageTableLaws}
    {SYL : ArmSysregsLaws} is_ram (prog : gmachine -> action) (k : nat) (g : gmachine) x :
  image_ok -> after_boot g -> private x ->
  result_mem (grun is_ram prog k g) x = g_mem g x.
Proof.
  intros Himg Hb Hx. revert g Hb. induction k as [|k IH]; intros g Hb; simpl; [done|].
  pose proof (gstep_private is_ram (prog g) g x Himg (or_intror (after_boot_policy g Himg Hb)) Hx) as Hstep.
  destruct (gstep is_ram (prog g) g) as [g'|w' mem'] eqn:E; simpl in Hstep; [|done].
  rewrite IH; [done|]. by eapply after_boot_step.
Qed.

(** Confidentiality of RITM: two machines that differ only in RITM's
    private memory are indistinguishable for every guest.  A guest whose
    actions depend on what it can see makes the same run on both: the same
    registers, the same effects on RITM and the firmware, the same memory
    outside the private part, for any number of steps. *)
Theorem guest_noninterference {PT : PageTable} {S2F : Stage2Flags} {SA : SmcccArch} {IMG : QemuImage}
    {SYS : ArmSysregs} {PSCI : ArmPsci} {DEC : PsciDecoder} {FW : Firmware} {PTL : PageTableLaws}
    {SYL : ArmSysregsLaws} is_ram (prog : gmachine -> action) (k : nat) (g1 g2 : gmachine) :
  image_ok -> Proper (low_eq ==> eq) prog -> after_boot g1 -> low_eq g1 g2 ->
  low_result (grun is_ram prog k g1) (grun is_ram prog k g2).
Proof.
  intros Himg Hprog. revert g1 g2. induction k as [|k IH]; intros g1 g2 Hb Hlow; simpl; [done|].
  rewrite <- (Hprog g1 g2 Hlow).
  pose proof (gstep_low is_ram (prog g1) g1 g2 Himg (or_intror (after_boot_policy g1 Himg Hb)) Hlow) as Hs.
  destruct (gstep is_ram (prog g1) g1) as [g1'|] eqn:E1, (gstep is_ram (prog g1) g2) as [g2'|]; try done.
  apply IH; [|done]. by eapply after_boot_step.
Qed.

(** ** Witnesses *)

Section GuestWitnesses.
Import QemuExample ArmArch ExampleFirmware.

(** Memory from the start of DRAM; the private bytes hold a secret. *)
Definition example_ram (x : Z) : bool := DRAM_START <=? x.
Definition example_memory (secret : Z) : memory := fun x =>
  if inside 0x4700_0000 0x4702_0000 x then secret else 0.

(** A guest that reads the image and stores what it got. *)
Definition spy (g : gmachine) : action :=
  if vr_elr (volatile (g_regs g)) =? 0x4020_0000
  then ALoad U64 false true 1 0x4700_0000 0x4700_0000 0
  else AStore U64 true 1 0x4100_0000 0x4100_0000.

Lemma spy_proper : Proper (low_eq ==> eq) spy.
Proof. intros g1 g2 (Hr & _ & _). unfold spy. by rewrite Hr. Qed.

Lemma example_booted s mem :
  exists g, after_boot g /\ g_regs g = s /\ g_mem g = mem.
Proof.
  destruct (fault_world 0) as (w & c & Hreach & Hc & Hr).
  exists (mkG s w mem). split_and!; [|done..]. split; [by exists boot_regs, 0|].
  exists c. split; [done|]. simpl. by rewrite Hr.
Qed.

Lemma guest_memory_integrity_witness :
  exists g, g_mem g 0x4700_0008 = 42 /\
    result_mem (grun example_ram spy 2 g) 0x4700_0008 = 42.
Proof.
  destruct (example_booted example_guest (example_memory 42)) as (g & Hb & _ & Hm). exists g.
  rewrite (guest_memory_integrity example_ram spy 2 g 0x4700_0008 example_image_ok Hb);
    [by rewrite Hm|]. vm_compute. intuition discriminate.
Defined.

Lemma guest_noninterference_witness :
  exists g1 g2, g_mem g1 0x4700_0000 = 1 /\ g_mem g2 0x4700_0000 = 2 /\
    low_result (grun example_ram spy 2 g1) (grun example_ram spy 2 g2).
Proof.
  destruct (example_booted example_guest (example_memory 1)) as (g & Hb & _ & Hm).
  exists g, (mkG (g_regs g) (g_world g) (example_memory 2)). split_and!; [by rewrite Hm|done|].
  apply (guest_noninterference example_ram spy 2 _ _ example_image_ok spy_proper Hb).
  split_and!; [done..|]. intros x Hx. rewrite Hm. simpl. unfold example_memory.
  destruct (inside 0x4700_0000 0x4702_0000 x) eqn:E; [|done]. apply inside_true in E.
  destruct Hx. unfold private. change RITM_START with 0x4700_0000. change RITM_END with 0x4740_0000.
  change shared_lo with 0x4702_0000. lia.
Defined.
End GuestWitnesses.
