(* ===== verification/MultiCore.v ===== *)
(** * The guest on several cores

    The machine of Guest.v with any number of cores: each has its own registers
    and system registers, all share the memory and RITM's statics (the maps, the
    stage-2 configuration and the platform's state of src/src/hypervisor.rs and
    src/src/platform/qemu.rs).  A scheduler interleaves the instructions of the
    cores in any order and wakes cores up; a core leaves the machine when it is
    powered off or suspended, or when RITM panics on it.

    RITM's own data is the [World]; the bytes of its image in the machine's
    memory stand for what a guest access would reach there. *)

From Stdlib Require Import ZArith Lia.
From stdpp Require Import base tactics list gmap strings numbers.
From S2P Require Import Prelude MemoryAccess SimpleMap Stage2 Exceptions HvcResponse Pagetable.
From S2P Require Import Platform Qemu Sysregs World Hypervisor Safety Entry Aborts QemuSystem Guest.

#[local] Open Scope Z_scope.

(** ** The machine *)

Section MultiCore.
Context {PT : PageTable} {SA : SmcccArch} {PLAT : Platform}.
Context {SYS : ArmSysregs} {PSCI : ArmPsci} {DEC : PsciDecoder} {FW : Firmware}.
Context (is_ram : Z -> bool).

(** The running cores by number; the system registers in [mm_world] are those
    of the core that ran last. *)
Record mmachine : Type := mkMM {
  mm_cores : gmap Z (GuestRegisterState * sysregs);
  mm_world : World;
  mm_mem : memory;
}.

(** How a core that is not running enters RITM: started by CPU_ON, or woken up
    from a suspend; its registers have any values. *)
Inductive wakeup : Type :=
| WakeStart (arg entry : u64)
| WakeResume.
Definition wakeup_action (k : wakeup) : action :=
  match k with WakeStart arg entry => AStart arg entry | WakeResume => AResume end.

Inductive mevent : Type :=
| MAct (i : Z) (a : action)                                             (* a running core acts *)
| MWake (i : Z) (s : GuestRegisterState) (regs : sysregs) (k : wakeup). (* another one wakes up *)

(** The single-core machine that core [i] is, with the given registers. *)
Definition seen_by (c : GuestRegisterState * sysregs) (M : mmachine) : gmachine :=
  mkG c.1 (with_sysregs (mm_world M) c.2) (mm_mem M).

(** The machine after core [i] ran. *)
Definition put_back (i : Z) (r : gresult) (M : mmachine) : mmachine :=
  match r with
  | Runs g => mkMM (<[i := (g_regs g, w_sysregs (g_world g))]> (mm_cores M)) (g_world g) (g_mem g)
  | Stops w mem => mkMM (delete i (mm_cores M)) w mem
  end.

Definition mstep (e : mevent) (M : mmachine) : mmachine :=
  match e with
  | MAct i a =>
      match mm_cores M !! i with
      | Some c => put_back i (gstep is_ram a (seen_by c M)) M
      | None => M
      end
  | MWake i s regs k =>
      match mm_cores M !! i with
      | Some _ => M
      | None => put_back i (gstep is_ram (wakeup_action k) (seen_by (s, regs) M)) M
      end
  end.

(** A scheduler chooses the next event from the state. *)
Fixpoint mrun (sched : mmachine -> mevent) (n : nat) (M : mmachine) : mmachine :=
  match n with
  | O => M
  | S n => mrun sched n (mstep (sched M) M)
  end.

(** An event is a step of one single-core machine, or nothing. *)
Lemma mstep_cases e M :
  mstep e M = M \/ exists i c a, mstep e M = put_back i (gstep is_ram a (seen_by c M)) M.
Proof.
  destruct e as [i a|i s regs k]; simpl; destruct (mm_cores M !! i) as [c|]; eauto.
Qed.

Lemma put_back_world i r M : mm_world (put_back i r M) = result_world r.
Proof. by destruct r. Qed.
Lemma put_back_mem i r M : mm_mem (put_back i r M) = result_mem r.
Proof. by destruct r. Qed.
End MultiCore.
Arguments mm_cores {_ _ _} _.
Arguments mm_world {_ _ _} _.
Arguments mm_mem {_ _ _} _.
Arguments mkMM {_ _ _} _ _ _.

(** ** Isolation on the QEMU platform *)

Section QemuMultiCore.
Context {PT : PageTable} {S2F : Stage2Flags} {SA : SmcccArch} {IMG : QemuImage}.
Context {SYS : ArmSysregs} {PSCI : ArmPsci} {DEC : PsciDecoder} {FW : Firmware} {PTL : PageTableLaws}.
Context (is_ram : Z -> bool).

(** RITM has booted: a history led to its state, and stage 2 is configured. *)
Definition booted_world (w : World) : Prop :=
  (exists regs n, rtc ritm_step (boot_world regs n) w) /\ is_Some (w_stage2_config w).

(** Machines that differ in RITM's private memory only. *)
Definition mlow_eq (M1 M2 : mmachine) : Prop :=
  mm_cores M1 = mm_cores M2 /\ mm_world M1 = mm_world M2 /\
  forall x, ~ private x -> mm_mem M1 x = mm_mem M2 x.

#[export] Instance mlow_eq_equivalence : Equivalence mlow_eq.
Proof.
  split.
  - by intros M.
  - intros M1 M2 (? & ? & H). split_and!; [done..|]. intros x Hx. by rewrite H.
  - intros M1 M2 M3 (? & ? & H) (? & ? & H'). split_and!; [by etrans..|].
    intros x Hx. rewrite H by done. by apply H'.
Qed.

(** Stage 2 of every core that executes translates by the configuration. *)
Definition cores_on (M : mmachine) : Prop :=
  forall i c, mm_cores M !! i = Some c -> core_on (mm_world M) c.2.

Definition booted_machine (M : mmachine) : Prop := booted_world (mm_world M) /\ cores_on M.

Lemma seen_by_after_boot i c M : booted_machine M -> mm_cores M !! i = Some c -> after_boot (seen_by c M).
Proof.
  intros [[(regs & n & Hreach) _] Hon] Hi. split; [|exact (Hon i c Hi)].
  exists regs, n. eapply rtc_r; [exact Hreach|apply step_guest].
Qed.

Lemma seen_by_policy i c M :
  image_ok -> booted_machine M -> mm_cores M !! i = Some c -> policy_in_force (g_world (seen_by c M)).
Proof. intros Himg Hb Hi. by eapply after_boot_policy, seen_by_after_boot. Qed.

(** An event is a step of a core that is on, or of one that wakes up. *)
Lemma mstep_on_cases e M :
  mstep is_ram e M = M \/ exists i c a, mstep is_ram e M = put_back i (gstep is_ram a (seen_by c M)) M /\
    (is_wake a = true \/ mm_cores M !! i = Some c).
Proof.
  destruct e as [i a|i s regs k]; simpl; destruct (mm_cores M !! i) as [c|] eqn:Hi; eauto 7.
  right. exists i, (s, regs), (wakeup_action k). split; [done|]. left. by destruct k.
Qed.

Context {SYL : ArmSysregsLaws}.

Lemma put_back_booted i c a M :
  image_ok -> booted_machine M -> is_wake a = true \/ mm_cores M !! i = Some c ->
  booted_machine (put_back i (gstep is_ram a (seen_by c M)) M).
Proof.
  intros Himg [[(regs & n & Hreach) Hsome] Hon] Ha. pose proof (qemu_platform_laws Himg) as PLL.
  pose proof (gstep_history is_ram a (seen_by c M)) as Hh.
  assert (Hreach' : rtc ritm_step (boot_world regs n) (g_world (seen_by c M)))
    by (eapply rtc_r; [exact Hreach|apply step_guest]).
  pose proof (qemu_reachable_wf _ _ _ Himg Hreach') as Hwf.
  pose proof (ritm_steps_evolve _ _ Hh Hwf) as Hev.
  assert (Hothers : forall j d, mm_cores M !! j = Some d ->
    core_on (result_world (gstep is_ram a (seen_by c M))) d.2)
    by (intros j d Hj; exact (core_on_evolves (g_world (seen_by c M)) _ d.2 Hev (Hon j d Hj))).
  split; [rewrite put_back_world; split|].
  - exists regs, n. by etrans.
  - destruct Hsome as [cfg Hcfg]. by destruct (ev_policy _ _ Hev cfg Hcfg) as (c' & Hc' & _).
  - intros j d. destruct (gstep is_ram a (seen_by c M)) as [g|w mem] eqn:E; simpl in *.
    + intros [[<- <-]|[_ Hj]]%lookup_insert_Some; [|by eapply Hothers]. simpl.
      destruct Ha as [Ha|Hi]; [by eapply gstep_wake_on|].
      refine (gstep_on is_ram a (seen_by c M) g Hwf _ E). exact (Hon i c Hi).
    + intros [_ Hj]%lookup_delete_Some. by eapply Hothers.
Qed.

Lemma mstep_booted e M :
  image_ok -> booted_machine M -> booted_machine (mstep is_ram e M).
Proof.
  intros Himg Hb. destruct (mstep_on_cases e M) as [->|(i & c & a & -> & Ha)]; [done|].
  by apply put_back_booted.
Qed.

(** One event leaves private memory alone. *)
Lemma mstep_private e M x :
  image_ok -> booted_machine M -> private x -> mm_mem (mstep is_ram e M) x = mm_mem M x.
Proof.
  intros Himg Hb Hx. destruct (mstep_on_cases e M) as [->|(i & c & a & -> & Ha)]; [done|].
  rewrite put_back_mem. rewrite gstep_private; [done..| |done].
  destruct Ha; [by left|right]. by eapply seen_by_policy.
Qed.

(** One event on indistinguishable machines. *)
Lemma put_back_low i r1 r2 M1 M2 :
  low_result r1 r2 -> mm_cores M1 = mm_cores M2 -> mlow_eq (put_back i r1 M1) (put_back i r2 M2).
Proof.
  intros Hr Hc. destruct r1 as [g1|w1 m1], r2 as [g2|w2 m2]; try done; simpl in Hr.
  - destruct Hr as (Hr & Hw & Hm). unfold mlow_eq. simpl. by rewrite Hr, Hw, Hc.
  - destruct Hr as (Hw & Hm). unfold mlow_eq. simpl. by rewrite Hc.
Qed.

Lemma seen_by_low c M1 M2 : mlow_eq M1 M2 -> low_eq (seen_by c M1) (seen_by c M2).
Proof. intros (_ & Hw & Hm). unfold low_eq. simpl. by rewrite Hw. Qed.

Lemma mstep_low e M1 M2 :
  image_ok -> booted_machine M1 -> mlow_eq M1 M2 ->
  mlow_eq (mstep is_ram e M1) (mstep is_ram e M2).
Proof.
  intros Himg Hb Hlow. pose proof Hlow as (Hc & _ & _).
  assert (H : forall i c a, is_wake a = true \/ mm_cores M1 !! i = Some c -> mlow_eq (put_back i (gstep is_ram a (seen_by c M1)) M1)
    (put_back i (gstep is_ram a (seen_by c M2)) M2)).
  { intros i c a Ha. apply put_back_low; [|done].
    apply gstep_low; [done| |by apply seen_by_low].
    destruct Ha; [by left|right]. by eapply seen_by_policy. }
  destruct e as [i a|i s regs k]; simpl; rewrite <- Hc; destruct (mm_cores M1 !! i) eqn:Hi; try done.
  - apply H. by right.
  - apply H. left. by destruct k.
Qed.
End QemuMultiCore.

(** ** Properties *)

(** Integrity of RITM: whatever the guest does on any number of cores, in
    any interleaving (loads, stores, calls, other exceptions, core starts and
    resumes), on any memory map and for any number of steps, no byte of RITM's
    image outside the shared heap's pages is changed by it. *)
Theorem multicore_integrity {PT : PageTable} {S2F : Stage2Flags} {SA : SmcccArch} {IMG : QemuImage}
    {SYS : ArmSysregs} {PSCI : ArmPsci} {DEC : PsciDecoder} {FW : Firmware} {PTL : PageTableLaws}
    {SYL : ArmSysregsLaws} is_ram (sched : mmachine -> mevent) (k : nat) (M : mmachine) x :
  image_ok -> booted_machine M -> private x ->
  mm_mem (mrun is_ram sched k M) x = mm_mem M x.
Proof.
  intros Himg Hb Hx. revert M Hb. induction k as [|k IH]; intros M Hb; simpl; [done|].
  rewrite IH by by apply mstep_booted. by apply mstep_private.
Qed.

(** Confidentiality of RITM: two multi-core machines that differ only in
    RITM's private memory are indistinguishable for every guest.  Under every
    scheduler that depends on what is visible, the runs agree for any number of
    steps: the same cores run with the same registers and system registers, the
    statics of RITM and the calls made to the firmware are the same, and so is
    all memory outside the private part. *)
Theorem multicore_noninterference {PT : PageTable} {S2F : Stage2Flags} {SA : SmcccArch} {IMG : QemuImage}
    {SYS : ArmSysregs} {PSCI : ArmPsci} {DEC : PsciDecoder} {FW : Firmware} {PTL : PageTableLaws}
    {SYL : ArmSysregsLaws} is_ram (sched : mmachine -> mevent) (k : nat) (M1 M2 : mmachine) :
  image_ok -> Proper (mlow_eq ==> eq) sched -> booted_machine M1 -> mlow_eq M1 M2 ->
  mlow_eq (mrun is_ram sched k M1) (mrun is_ram sched k M2).
Proof.
  intros Himg Hs. revert M1 M2. induction k as [|k IH]; intros M1 M2 Hb Hlow; simpl; [done|].
  rewrite <- (Hs M1 M2 Hlow). apply IH; [by apply mstep_booted|by apply mstep_low].
Qed.

(** ** Witnesses *)

Section MultiCoreWitnesses.
Import QemuExample ArmArch ExampleFirmware.

(** Two cores: core 0 reads the image and stores what it got, over and over,
    while core 1 writes to the image; core 2 is started in between. *)
Definition two_spies (M : mmachine) : mevent :=
  match mm_cores M !! 0, mm_cores M !! 2 with
  | Some c, None => MWake 2 c.1 c.2 (WakeStart 7 0x4020_0000)
  | Some c, Some _ =>
      if vr_elr (volatile c.1) =? 0x4020_0000
      then MAct 0 (ALoad U64 false true 1 0x4700_0000 0x4700_0000 0)
      else MAct 0 (AStore U64 true 1 0x4100_0000 0x4100_0000)
  | None, _ => MAct 1 (AStore U32 true 2 0x4700_0004 0x4700_0004)
  end.

Lemma two_spies_proper : Proper (mlow_eq ==> eq) two_spies.
Proof. intros M1 M2 (Hc & _ & _). unfold two_spies. by rewrite Hc. Qed.

Definition two_cores (w : World) (mem : memory) : mmachine :=
  mkMM {[0 := (example_guest, w_sysregs w); 1 := (example_guest, w_sysregs w)]} w mem.

Lemma example_booted_machine : exists w, forall mem, booted_machine (two_cores w mem).
Proof.
  destruct (fault_world 0) as (w & c & Hreach & Hc & Hr). exists w. intros mem.
  split; [split; [by exists boot_regs, 0|by exists c]|].
  assert (Hon : core_on w (w_sysregs w)) by (exists c; split; [done|by rewrite Hr]).
  intros i d Hd. simpl in Hd. by apply lookup_insert_Some in Hd as [[_ <-]|[_ [_ <-]%lookup_singleton_Some]].
Qed.

Lemma multicore_integrity_witness :
  exists w, mm_mem (mrun example_ram two_spies 3 (two_cores w (example_memory 42))) 0x4700_0004 = 42.
Proof.
  destruct example_booted_machine as [w Hb]. exists w.
  rewrite (multicore_integrity example_ram two_spies 3 (two_cores w (example_memory 42)) 0x4700_0004
    example_image_ok (Hb _)); [done|]. vm_compute. intuition discriminate.
Defined.

Lemma multicore_noninterference_witness :
  exists w, mlow_eq (mrun example_ram two_spies 3 (two_cores w (example_memory 1)))
                    (mrun example_ram two_spies 3 (two_cores w (example_memory 2))).
Proof.
  destruct example_booted_machine as [w Hb]. exists w.
  apply (multicore_noninterference example_ram two_spies 3
    (two_cores w (example_memory 1)) _ example_image_ok two_spies_proper (Hb _)).
  split_and!; [done..|]. intros x Hx. simpl. unfold example_memory.
  destruct (inside 0x4700_0000 0x4702_0000 x) eqn:E; [|done]. apply inside_true in E.
  destruct Hx. unfold private. change RITM_START with 0x4700_0000. change RITM_END with 0x4740_0000.
  change shared_lo with 0x4702_0000. lia.
Defined.
End MultiCoreWitnesses.
