(* ===== verification/Str.v ===== *)
(** * Rust strings

    A [&str] is the list of its code points.  The file holds the operations of
    the Rust standard library that the build script, the platform configuration
    parser and the boot code use on strings, integer parsing and formatting,
    and their lemmas. *)

From Stdlib Require Import ZArith Lia Ascii.
From stdpp Require Import base tactics list strings numbers.
From S2P Require Import Prelude.

#[local] Open Scope Z_scope.

Abbreviation str := (list Z) (only parsing).

(** An ASCII literal. *)
Fixpoint lit (s : string) : str :=
  match s with
  | EmptyString => []
  | String c s => Z.of_nat (nat_of_ascii c) :: lit s
  end.

Definition CR : Z := 13.
Definition LF : Z := 10.
Definition HASH : Z := 35.
Definition PLUS : Z := 43.
Definition MINUS : Z := 45.
Definition EQUALS : Z := 61.
Definition UNDERSCORE : Z := 95.

(** ** Splitting and trimming *)

(** [char::is_whitespace]: the White_Space property of Unicode. *)
Definition is_whitespace (c : Z) : bool :=
  (9 <=? c) && (c <=? 13) || (c =? 32) || (c =? 0x85) || (c =? 0xa0) || (c =? 0x1680)
  || (0x2000 <=? c) && (c <=? 0x200a) || (c =? 0x2028) || (c =? 0x2029) || (c =? 0x202f)
  || (c =? 0x205f) || (c =? 0x3000).

Fixpoint trim_start (s : str) : str :=
  match s with
  | c :: s' => if is_whitespace c then trim_start s' else s
  | [] => []
  end.
Definition trim_end (s : str) : str := reverse (trim_start (reverse s)).
(** [str::trim]. *)
Definition trim (s : str) : str := trim_end (trim_start s).

(** The text before the first [c], and what follows it. *)
Fixpoint split_once (c : Z) (s : str) : option (str * str) :=
  match s with
  | [] => None
  | d :: s =>
      if d =? c then Some ([], s)
      else match split_once c s with
           | Some (a, b) => Some (d :: a, b)
           | None => None
           end
  end.

(** [s.split(c).next()]: always [Some], the text up to the first [c]. *)
Definition split_first (c : Z) (s : str) : str :=
  match split_once c s with Some (a, _) => a | None => s end.

Fixpoint strip_prefix (p s : str) : option str :=
  match p, s with
  | [], _ => Some s
  | a :: p, b :: s => if a =? b then strip_prefix p s else None
  | _ :: _, [] => None
  end.

(** [s.replace(c, "")]. *)
Definition remove_char (c : Z) (s : str) : str := base.filter (fun d => d <> c) s.

(** [str::lines]: a line ends with LF or CR LF, neither part of it; the text
    after the last LF is a line if it is not empty. *)
Definition strip_cr (line : str) : str :=
  match reverse line with
  | c :: r => if c =? CR then reverse r else line
  | [] => line
  end.
Fixpoint lines_from (cur : str) (s : str) : list str :=
  match s with
  | [] => match cur with [] => [] | _ => [reverse cur] end
  | c :: s => if c =? LF then strip_cr (reverse cur) :: lines_from [] s else lines_from (c :: cur) s
  end.
Definition lines (s : str) : list str := lines_from [] s.

(** [str::split_whitespace]: the maximal runs of non-whitespace. *)
Definition flush (cur : str) : list str := match cur with [] => [] | _ => [reverse cur] end.
Fixpoint words_from (cur : str) (s : str) : list str :=
  match s with
  | [] => flush cur
  | c :: s => if is_whitespace c then flush cur ++ words_from [] s else words_from (c :: cur) s
  end.
Definition split_whitespace (s : str) : list str := words_from [] s.

(** ** Integers *)

(** [char::to_digit]. *)
Definition to_digit (radix c : Z) : option Z :=
  let d := if (48 <=? c) && (c <=? 57) then Some (c - 48)
           else if (97 <=? c) && (c <=? 122) then Some (c - 87)
           else if (65 <=? c) && (c <=? 90) then Some (c - 55)
           else None in
  match d with
  | Some d => if d <? radix then Some d else None
  | None => None
  end.

(** [result.checked_mul(radix)?.checked_add(digit)?] over the digits. *)
Fixpoint parse_digits (radix acc : Z) (s : str) : option u64 :=
  match s with
  | [] => Some acc
  | c :: s =>
      match to_digit radix c with
      | None => None
      | Some d =>
          if acc * radix <=? U64_MAX then
            if acc * radix + d <=? U64_MAX then parse_digits radix (acc * radix + d) s else None
          else None
      end
  end.

(** [u64::from_str_radix(..).ok()]; [str::parse] is the case of radix 10. *)
Definition from_str_radix (radix : Z) (s : str) : option u64 :=
  match s with
  | [] => None
  | [c] => if (c =? PLUS) || (c =? MINUS) then None else parse_digits radix 0 s
  | c :: rest => if c =? PLUS then parse_digits radix 0 rest else parse_digits radix 0 s
  end.

(** A digit as text, in lower case. *)
Definition from_digit (d : Z) : Z := if d <? 10 then d + 48 else d + 87.

(** The digits of [n], most significant first; 64 digits are enough for every
    radix from 2. *)
Fixpoint digits_fuel (fuel : nat) (radix n : Z) : str :=
  match fuel with
  | O => []
  | S fuel => (if n <? radix then [] else digits_fuel fuel radix (n / radix)) ++ [from_digit (n mod radix)]
  end.
Definition digits (radix n : Z) : str := digits_fuel 64 radix n.

(** [format!("{}")] and [format!("{:#x}")]. *)
Definition fmt_dec (n : u64) : str := digits 10 n.
Definition fmt_hex (n : u64) : str := lit "0x" ++ digits 16 n.

(** ** Lemmas *)

Lemma strip_prefix_Some p s t : strip_prefix p s = Some t <-> s = p ++ t.
Proof.
  revert s. induction p as [|a p IH]; intros s; simpl; [naive_solver|].
  destruct s as [|b s]; [done|]. destruct (Z.eqb_spec a b) as [->|Hne]; [|naive_solver].
  rewrite IH. naive_solver.
Qed.

Lemma to_from_digit radix d : 2 <= radix <= 16 -> 0 <= d < radix -> to_digit radix (from_digit d) = Some d.
Proof.
  intros Hr Hd. unfold to_digit, from_digit.
  destruct (Z.ltb_spec d 10);
    repeat match goal with |- context [?a <=? ?b] => destruct (Z.leb_spec a b); try lia end; simpl;
    match goal with |- context [?a <? ?b] => destruct (Z.ltb_spec a b); try lia end; f_equal; lia.
Qed.

Lemma from_digit_cases d : 0 <= d < 16 ->
  48 <= from_digit d <= 57 \/ 97 <= from_digit d <= 102.
Proof. intros. unfold from_digit. destruct (Z.ltb_spec d 10); lia. Qed.

Lemma parse_digits_app radix acc s c n :
  parse_digits radix acc s = Some n ->
  parse_digits radix acc (s ++ [c]) =
    match to_digit radix c with
    | None => None
    | Some d => if n * radix <=? U64_MAX then
                  if n * radix + d <=? U64_MAX then Some (n * radix + d) else None
                else None
    end.
Proof.
  revert acc. induction s as [|a s IH]; intros acc; simpl.
  - intros [= ->]. done.
  - destruct (to_digit radix a) as [d|]; [|done].
    destruct (acc * radix <=? U64_MAX); [|done].
    destruct (acc * radix + d <=? U64_MAX); [|done]. apply IH.
Qed.

Lemma parse_digits_fuel fuel radix n :
  2 <= radix <= 16 -> 0 <= n < radix ^ Z.of_nat fuel -> n <= U64_MAX -> (0 < fuel)%nat ->
  parse_digits radix 0 (digits_fuel fuel radix n) = Some n.
Proof.
  intros Hr. revert n. induction fuel as [|fuel IH]; intros n Hn Hmax Hf; [lia|].
  cbn [digits_fuel].
  pose proof (Z.mod_pos_bound n radix ltac:(lia)) as Hm.
  pose proof (Z.div_mod n radix ltac:(lia)) as Hdm.
  destruct (Z.ltb_spec n radix) as [Hlt|Hge].
  - rewrite (Z.mod_small n) by lia. cbn [app parse_digits].
    rewrite to_from_digit, Z.mul_0_l, Z.add_0_l by lia.
    by rewrite (proj2 (Z.leb_le 0 U64_MAX)), (proj2 (Z.leb_le n U64_MAX)) by (done || lia).
  - assert (Hq : parse_digits radix 0 (digits_fuel fuel radix (n / radix)) = Some (n / radix)).
    { assert (Hp : radix ^ Z.of_nat (S fuel) = radix * radix ^ Z.of_nat fuel)
        by (rewrite Nat2Z.inj_succ, Z.pow_succ_r by lia; done).
      apply IH.
      - split; [apply Z.div_pos; lia|]. apply Z.div_lt_upper_bound; lia.
      - assert (n / radix <= n) by (apply Z.div_le_upper_bound; nia). lia.
      - destruct fuel; [simpl in Hn; lia|lia]. }
    rewrite (parse_digits_app _ _ _ _ _ Hq), to_from_digit by lia.
    rewrite !(proj2 (Z.leb_le _ _)) by lia. f_equal. lia.
Qed.

Lemma digits_ne radix n : digits radix n <> [].
Proof. unfold digits. cbn [digits_fuel]. intros H. by apply app_eq_nil in H as [_ ?]. Qed.

(** Every character of a rendering is a digit. *)
Lemma digits_chars fuel radix n c :
  2 <= radix <= 16 -> 0 <= n -> c ∈ digits_fuel fuel radix n -> 48 <= c <= 57 \/ 97 <= c <= 102.
Proof.
  intros Hr. revert n. induction fuel as [|fuel IH]; intros n Hn Hc; simpl in Hc.
  { by apply elem_of_nil in Hc. }
  pose proof (Z.mod_pos_bound n radix ltac:(lia)).
  apply elem_of_app in Hc as [Hc|Hc%list_elem_of_singleton].
  - destruct (n <? radix); [by apply elem_of_nil in Hc|]. apply (IH (n / radix)); [|done].
    apply Z.div_pos; lia.
  - subst. apply from_digit_cases. lia.
Qed.

Lemma parse_digits_render radix n :
  2 <= radix <= 16 -> is_u64 n -> parse_digits radix 0 (digits radix n) = Some n.
Proof.
  intros Hr Hn. apply parse_digits_fuel; [done| |unfold in_range, U64_MAX in *; lia|lia].
  split; [apply Hn|]. eapply Z.lt_le_trans; [apply Hn|].
  apply (Z.pow_le_mono_l 2 radix). lia.
Qed.

(** A string of digits is parsed as digits: it has no sign. *)
Lemma from_str_radix_digits radix s :
  s <> [] -> (forall c, c ∈ s -> 48 <= c) -> from_str_radix radix s = parse_digits radix 0 s.
Proof.
  intros Hne Hc. destruct s as [|c [|d s]]; [done|..]; unfold from_str_radix, PLUS, MINUS;
    specialize (Hc c ltac:(left)); repeat (rewrite (proj2 (Z.eqb_neq c _)) by lia); done.
Qed.

Lemma from_str_radix_render radix n :
  2 <= radix <= 16 -> is_u64 n -> from_str_radix radix (digits radix n) = Some n.
Proof.
  intros Hr Hn. rewrite from_str_radix_digits.
  - by apply parse_digits_render.
  - apply digits_ne.
  - intros c Hc. apply (digits_chars 64 radix n) in Hc; [lia|done|apply Hn].
Qed.

(** Parsed values fit. *)
Lemma parse_digits_range radix acc s n :
  2 <= radix -> is_u64 acc -> parse_digits radix acc s = Some n -> is_u64 n.
Proof.
  intros Hr. revert acc. induction s as [|c s IH]; intros acc Ha; simpl; [by intros [= <-]|].
  destruct (to_digit radix c) as [d|] eqn:Hd; [|done].
  assert (0 <= d).
  { unfold to_digit in Hd. repeat case_match; simplify_eq; lia. }
  destruct (acc * radix <=? U64_MAX); [|done].
  destruct (Z.leb_spec (acc * radix + d) U64_MAX); [|done].
  apply IH. unfold in_range, U64_MAX in *. nia.
Qed.

Lemma from_str_radix_range radix s n : 2 <= radix -> from_str_radix radix s = Some n -> is_u64 n.
Proof.
  intros Hr. assert (is_u64 0) by by apply (bool_decide_unpack _); vm_compute.
  unfold from_str_radix. destruct s as [|c [|d s]]; [done|..];
    case_match; try done; eauto using parse_digits_range.
Qed.
