(* ===== verification/EndToEnd.v ===== *)
(** * Guest accesses end to end

    One load or store of the guest, from the instruction to its effect: the
    hardware's walk of the stage-2 table, the syndrome of an abort, the decoder,
    the handler lookup, the emulation or the injected abort.  The result is
    that of the abstract policy [stage2_access]: the layers between refine it.

    The file ends with the integration test of the repository
    (src/tests/integration_test/src/main.rs), which observes exactly this. *)

From Stdlib Require Import ZArith Lia.
From stdpp Require Import base tactics list gmap strings numbers.
From S2P Require Import Prelude MemoryAccess SimpleMap Stage2 Exceptions HvcResponse Pagetable.
From S2P Require Import Platform Qemu Sysregs World Hypervisor Safety Entry Calls Aborts QemuSystem Guest.

#[local] Open Scope Z_scope.

(** ** The syndrome of an abort *)

Section Syndrome.
Context {PT : PageTable} {SA : SmcccArch} {PLAT : Platform}.
Context {SYS : ArmSysregs} {SYL : ArmSysregsLaws}.
Implicit Types (s : GuestRegisterState).

Lemma abort_esr_fields iss :
  0 <= iss < 2 ^ 25 ->
  esr_ec (0x24 * 2 ^ 26 + 2 ^ 25 + iss) = 0x24 /\ esr_iss (0x24 * 2 ^ 26 + 2 ^ 25 + iss) = iss.
Proof.
  intros Hi. rewrite law_esr_ec, law_esr_iss. unfold get_field. rewrite !shiftr_land_ones by lia.
  split; Z.div_mod_to_equations; lia.
Qed.

Lemma abort_fipa ipa : 0 <= ipa < 2 ^ 52 -> hpfar_fipa (ipa / 4096 * 2 ^ 4) = ipa / 4096.
Proof.
  intros Hi. rewrite law_hpfar_fipa. unfold get_field. rewrite shiftr_land_ones by lia.
  rewrite Z.div_mul by lia. apply Z.mod_small. Z.div_mod_to_equations; lia.
Qed.

Lemma read_gpr_total s i : 0 <= i <= 31 -> exists v, read_gpr s i = Some v.
Proof.
  intros Hi. unfold read_gpr. split_between; try by eexists.
Qed.

(** The access the decoder makes of the abort of a load or store. *)
Definition decoded_access (w : MemoryAccessWidth) (sse sf wnr : bool) (rt ipa v : u64) :
    DecodedMemoryAccess :=
  {| dma_ipa := ipa; dma_width := w; dma_kind := if wnr then Write (v mod 2 ^ bits w) else Read;
     dma_register_index := rt; dma_sign_extend := sse; dma_register_width_64 := sf |}.

Lemma abort_access_of s w0 regs w sse sf wnr rt ipa va v :
  0 <= rt <= 31 -> read_gpr s rt = Some v -> 0 <= ipa < 2 ^ 52 -> va mod 4096 = ipa mod 4096 ->
  let w1 := with_sysregs w0 (abort_sysregs (access_iss w rt sse sf wnr) ipa va regs) in
  abort_access s w1 = Some (decoded_access w sse sf wnr rt ipa v) /\
  esr_ec (w_sysregs w1 ESR_EL2) = EC_DATA_ABORT_LOWER_EL.
Proof.
  intros Hrt Hv Hipa Hva w1.
  destruct (access_iss_fields w rt sse sf wnr ltac:(lia)) as (_ & _ & _ & _ & _ & _ & Hr).
  destruct (abort_esr_fields _ Hr) as [Hec Hiss].
  unfold abort_access, w1, abort_sysregs. cbn [with_sysregs w_sysregs].
  rewrite set_sysreg_eq. rewrite !(set_sysreg_ne ESR_EL2) by done. rewrite set_sysreg_eq.
  rewrite !(set_sysreg_ne HPFAR_EL2) by done. rewrite set_sysreg_eq.
  rewrite Hiss, abort_fipa, law_far_va by done. split; [|done].
  rewrite (decode_iss_of w rt sse sf wnr _ _ _ v) by (lia || by rewrite Hv).
  unfold decoded_access. do 3 f_equal. rewrite decode_fault_ipa_spec.
  rewrite Z.mod_small by (Z.div_mod_to_equations; lia). rewrite Hva. Z.div_mod_to_equations; lia.
Qed.
End Syndrome.

(** ** One access *)

Section Access.
Context {PT : PageTable} {SA : SmcccArch} {PLAT : Platform}.
Context {SYS : ArmSysregs} {SYL : ArmSysregsLaws} {PSCI : ArmPsci} {DEC : PsciDecoder} {FW : Firmware}.
Context (is_ram : Z -> bool).

(** The machine after an access that RITM handled with effect [e] on the guest
    and state [p] of the platform, from the world [w1] of the exception.
    Memory is untouched. *)
Definition handled (e : effect) (p : PlatformState) (g : gmachine) (w1 : World) (r : gresult) : Prop :=
  result_mem r = g_mem g /\
  match r with
  | Runs g' => abort_outcome e p (g_regs g) w1 (Done (g_regs g') (g_world g'))
  | Stops w' _ => exists msg, abort_outcome e p (g_regs g) w1 (Panics msg w')
  end.

Lemma mapped_direct g c ipa :
  w_stage2_config (g_world g) = Some c -> stage2_on (w_sysregs (g_world g)) c = true ->
  mapped g ipa = match stage2_access c ipa with Direct _ => true | _ => false end.
Proof.
  intros Hc Hon. unfold mapped, stage2_access. rewrite Hc, Hon.
  destruct (idmap_translate (s2c_idmap c) ipa); [by rewrite bool_decide_eq_true_2|].
  rewrite bool_decide_eq_false_2 by (by intros []). by destruct (find _ _) as [[]|].
Qed.

Lemma trap_abort g c w sse sf wnr rt ipa va v :
  guest_wf (g_regs g) -> world_wf (g_world g) -> w_stage2_config (g_world g) = Some c ->
  stage2_on (w_sysregs (g_world g)) c = true -> 0 <= rt <= 31 -> read_gpr (g_regs g) rt = Some v -> 0 <= ipa < 2 ^ 52 ->
  va mod 4096 = ipa mod 4096 -> mapped g ipa = false ->
  let regs := abort_sysregs (access_iss w rt sse sf wnr) ipa va (w_sysregs (g_world g)) in
  let '(e, p) := access_effect (stage2_access c ipa) (decoded_access w sse sf wnr rt ipa v)
                   (w_platform (g_world g)) in
  handled e p g (with_sysregs (g_world g) regs) (trap (g_regs g) regs g).
Proof.
  intros Hs Hw Hc Hon Hrt Hv Hipa Hva Hm regs. set (w1 := with_sysregs (g_world g) regs).
  destruct (abort_access_of (g_regs g) (g_world g) (w_sysregs (g_world g)) w sse sf wnr rt ipa va v
    Hrt Hv Hipa Hva) as [Hd Hec]. fold regs w1 in Hd, Hec.
  assert (Hun : unmapped c (g_regs g) w1).
  { intros d Hd'. rewrite Hd in Hd'. injection Hd' as <-. simpl.
    unfold mapped in Hm. rewrite Hc, Hon in Hm. apply bool_decide_eq_false in Hm.
    by apply eq_None_not_Some. }
  assert (Hw1 : world_wf w1) by (destruct Hw; by constructor).
  pose proof (handle_data_abort (g_regs g) w1 c Hs Hw1 Hc Hun Hec) as H.
  unfold abort_effect in H. rewrite Hd in H. cbn [dma_ipa decoded_access] in H.
  change (w_platform w1) with (w_platform (g_world g)) in H.
  unfold handled, trap. fold w1. fold (decoded_access w sse sf wnr rt ipa v) in H.
  destruct (access_effect _ _ _) as [e p]. cbn [fst snd] in H.
  destruct (handle_sync_lower (g_regs g) w1); [done|split; [done|by eexists]|done].
Qed.
End Access.

(** ** Properties *)

(** C3: every aligned load and store of the guest does exactly what the policy
    says for its address, when the registers of its core make stage 2 translate
    by that configuration, as every entry into EL1 leaves them: a mapped address
    is accessed in memory (or at its device) and RITM is not involved; an emulated one is completed by its
    handler, with the value extended to the register the instruction names or
    the register's value masked to the width; any other access arrives in the
    guest as a data abort.  Page walk, syndrome, decoder, registry search,
    emulation and injection together refine [stage2_access]. *)
Theorem guest_access_exact {PT : PageTable} {SA : SmcccArch} {PLAT : Platform} {SYS : ArmSysregs}
    {SYL : ArmSysregsLaws} {PSCI : ArmPsci} {DEC : PsciDecoder} {FW : Firmware} is_ram g c
    w sx r64 rt ipa va dev v :
  guest_wf (g_regs g) -> world_wf (g_world g) -> w_stage2_config (g_world g) = Some c ->
  stage2_on (w_sysregs (g_world g)) c = true -> 0 <= rt <= 31 -> read_gpr (g_regs g) rt = Some v -> 0 <= ipa < 2 ^ 52 ->
  va mod 4096 = ipa mod 4096 -> aligned w ipa = true ->
  let p := w_platform (g_world g) in
  let after sse wnr := with_sysregs (g_world g)
    (abort_sysregs (access_iss w rt sse r64 wnr) ipa va (w_sysregs (g_world g))) in
  let load := gstep is_ram (ALoad w sx r64 rt ipa va dev) g in
  let store := gstep is_ram (AStore w r64 rt ipa va) g in
  match stage2_access c ipa with
  | Direct _ => load = Runs (direct_load is_ram w sx r64 rt ipa dev g) /\
      store = Runs (direct_store is_ram w rt ipa g)
  | a =>
      (let '(e, p') := access_effect a (decoded_access w sx r64 false rt ipa v) p in
       handled e p' g (after sx false) load) /\
      (let '(e, p') := access_effect a (decoded_access w false r64 true rt ipa v) p in
       handled e p' g (after false true) store)
  end.
Proof.
  intros Hs Hw Hc Hon Hrt Hv Hipa Hva Ha p after load store.
  pose proof (mapped_direct g c ipa Hc Hon) as Hm.
  pose proof (fun sse wnr => trap_abort g c w sse r64 wnr rt ipa va v Hs Hw Hc Hon Hrt Hv Hipa Hva) as Ht.
  unfold load, store, gstep. rewrite Ha, Hm. cbn [negb].
  destruct (stage2_access c ipa) eqn:E; [done|..]; split; by apply Ht.
Qed.

(** ** Witness: a load from the filtered page *)

Section AccessWitness.
Import QemuExample ArmArch ExampleFirmware.

Lemma guest_access_exact_witness :
  exists g w1, after_boot g /\
    handled (Loads 1 0xfeed_face_cafe_beef) 0 g w1
      (gstep (fun _ => true) (ALoad U64 false true 1 0x0f00_0000 0x0f00_0000 0) g).
Proof.
  destruct (fault_world_counter 0) as (w & c & Hreach & Hc & Hr & Hn).
  set (g := mkG example_guest w (fun _ => 0)). exists g. eexists.
  assert (Hon : stage2_on (w_sysregs w) c = true) by by rewrite Hr.
  split; [split; [by exists boot_regs, 0|by exists c]|].
  pose proof (guest_access_exact (fun _ => true) g c U64 false true 1 0x0f00_0000 0x0f00_0000 0 101
    example_guest_wf (qemu_reachable_wf _ _ _ example_image_ok Hreach) Hc Hon ltac:(lia) eq_refl
    ltac:(lia) eq_refl eq_refl) as H.
  cbv zeta in H. rewrite (qemu_reachable_access boot_regs 0 w c _ example_image_ok Hreach Hc) in H.
  change (w_platform (g_world g)) with (w_platform w) in H. rewrite Hn in H.
  exact (proj1 H).
Defined.
End AccessWitness.
