(* ===== verification/PowerDown.v ===== *)
(** * Power-down and resume, as the guest sees it

    The scenario of src/tests/psci_test/src/main.rs ([test_powerdown]): the guest
    calls CPU_SUSPEND with a power-down state, the firmware powers the core
    down, and at the wake-up the core comes back through RITM's resume path
    (src/src/hypervisor.rs: [psci_cpu_suspend], [restore_from_suspend]) to the
    entry point the guest named.  Calls.v has the two halves; here they are put
    together on the machine of Guest.v. *)

From Stdlib Require Import ZArith Lia.
From stdpp Require Import base tactics list gmap strings numbers.
From S2P Require Import Prelude MemoryAccess SimpleMap Stage2 Exceptions HvcResponse Pagetable.
From S2P Require Import Platform Qemu Sysregs World Hypervisor Safety Entry Calls Aborts QemuSystem Guest.

#[local] Open Scope Z_scope.

Section PowerDown.
Context {PT : PageTable} {S2F : Stage2Flags} {SA : SmcccArch} {IMG : QemuImage}.
Context {SYS : ArmSysregs} {SYL : ArmSysregsLaws} {PSCI : ArmPsci} {DEC : PsciDecoder} {FW : Firmware}.
Context {PTL : PageTableLaws} (is_ram : Z -> bool).

(** The guest is about to execute HVC or SMC with CPU_SUSPEND: the operands
    decode to the power state [p] and the entry point [e]. *)
Record suspend_call (g : gmachine) (p : PowerState) (e : EntryPoint) : Prop := {
  sc_frame : guest_wf (g_regs g);
  sc_pc : 0 <= vr_elr (volatile (g_regs g)) /\ vr_elr (volatile (g_regs g)) + 8 <= U64_MAX;
  sc_operands : exists fn a0 a1 a2, is_psci_id fn = true /\
    read_gpr (g_regs g) 0 = Some fn /\ read_gpr (g_regs g) 1 = Some a0 /\
    read_gpr (g_regs g) 2 = Some a1 /\ read_gpr (g_regs g) 3 = Some a2 /\
    function_try_from [fn; a0; a1; a2] = Ok (CpuSuspend p e);
}.

(** The frame and the world at the exception of a call. *)
Definition call_frame (smc : bool) (g : gmachine) : GuestRegisterState :=
  if smc then g_regs g else next_pc (g_regs g).
Definition call_exception (smc : bool) (g : gmachine) : World :=
  with_sysregs (g_world g)
    (set_sysreg ESR_EL2 ((if smc then 0x17 else 0x16) * 2 ^ 26 + 2 ^ 25) (w_sysregs (g_world g))).

Lemma suspend_call_psci smc g p e :
  suspend_call g p e -> exists fn a0 a1 a2,
    psci_call smc (call_frame smc g) (call_exception smc g) fn a0 a1 a2 /\
    function_try_from [fn; a0; a1; a2] = Ok (CpuSuspend p e).
Proof.
  intros [Hf [Hpc0 Hpc] (fn & a0 & a1 & a2 & Hid & H0 & H1 & H2 & H3 & Hd)].
  exists fn, a0, a1, a2. split; [|done]. unfold call_frame, next_pc. constructor.
  - destruct smc; [done|]. by apply set_exception_return_wf.
  - destruct smc; simpl; [lia|]. rewrite Z.mod_small; unfold U64_MAX in *; lia.
  - apply call_esr.
  - done.
  - destruct smc; [done|]. rewrite !set_exception_return_gprs. done.
Qed.

(** A call that powers the core down. *)
Lemma suspend_stops smc g p e :
  world_wf (g_world g) -> suspend_call g p e ->
  suspend_core (w_trace (g_world g)) (u32_from_power_state p) = None ->
  let cpu := w_sysregs (g_world g) MPIDR_EL1 in
  has_room (contexts_of (g_world g)) cpu -> has_room (stacks_of (g_world g)) cpu ->
  exists w1, gstep is_ram (ACall smc) g = Stops w1 (g_mem g) /\
    contexts_of w1 = <[cpu := suspend_context e]> (contexts_of (g_world g)).
Proof.
  intros Hwf Hc Hdown cpu Hr1 Hr2.
  destruct (suspend_call_psci smc g p e Hc) as (fn & a0 & a1 & a2 & Hcall & Hd).
  set (w := call_exception smc g) in *.
  assert (Hwf' : world_wf w) by (destruct Hwf; by constructor).
  assert (Hcpu : w_sysregs w MPIDR_EL1 = cpu) by (unfold w; simpl; by rewrite set_sysreg_ne).
  pose proof (psci_call_outcome _ _ _ _ _ _ _ Hcall) as H. unfold handle_psci in H. rewrite Hd in H.
  unfold mbind, M_bind, mret, M_ret in H. pose proof (psci_cpu_suspend_spec p e w Hwf') as Hs.
  rewrite Hcpu in Hs. unfold gstep, trap. fold (call_frame smc g). fold (call_exception smc g). fold w.
  destruct (psci_cpu_suspend p e w) as [r w'|msg w'|l w'].
  - destruct Hs as (_ & _ & Hf & _). simpl in Hf. congruence.
  - by destruct Hs.
  - rewrite H. destruct Hs as (_ & _ & _ & _ & Ha & _). by exists w'.
Qed.

(** A core that resumes with a saved context. *)
Lemma resume_enters w c cpu s mem regs n :
  image_ok -> rtc ritm_step (boot_world regs n) w -> is_Some (w_stage2_config w) ->
  w_sysregs w MPIDR_EL1 = cpu -> contexts_of w !! cpu = Some c ->
  exists w', gstep is_ram AResume (mkG s w mem) = Runs (mkG (entry_frame (scd_context_id c) 0 0 0 w') w' mem) /\
    w_sysregs w' ELR_EL2 = scd_entry_point c /\ w_sysregs w' HCR_EL2 = 2 ^ 31 + 2 ^ 19 + 1 /\
    contexts_of w' = delete cpu (contexts_of w).
Proof.
  intros Himg Hreach [c0 Hc0] <- Hctx. pose proof (qemu_reachable_wf _ _ _ Himg Hreach) as Hwf.
  destruct (restore_from_suspend_spec w c Hwf Hctx) as [Hrun Hdel].
  set (w1 := world_of _) in *.
  assert (Hc1 : w_stage2_config w1 = Some c0).
  { unfold w1, with_suspend_contexts. by destruct (SimpleMap.remove _ _). }
  destruct (entry_point_el1_Leaves (scd_context_id c) 0 0 0 (scd_entry_point c) w1 c0 w1)
    as (w' & Hent & [? ? ? ? ? ? ? ? ? ? ? ? (_ & Hs & _)]); [by apply stage2_config_some|].
  exists w'. split_and!; [|done..|].
  - unfold gstep, enter. cbn [g_world g_mem]. by rewrite Hrun, Hent.
  - rewrite <- Hdel. unfold contexts_of. by rewrite Hs.
Qed.
End PowerDown.

(** C12: power-down and resume are a round trip for the guest: when a core of
    a booted system calls CPU_SUSPEND, by HVC or SMC, and the firmware powers
    it down, the core stops; when the same core wakes up, with any contents of
    the other system registers and of memory, it runs again at the entry point
    the guest named, with the context id in x0 and zero in every other
    register, under the same stage-2 policy with translation enabled by its own
    HCR_EL2, VTCR_EL2 and VTTBR_EL2, and its saved context is gone. *)
Theorem powerdown_resume_roundtrip {PT : PageTable} {S2F : Stage2Flags} {SA : SmcccArch}
    {IMG : QemuImage} {SYS : ArmSysregs} {SYL : ArmSysregsLaws} {PSCI : ArmPsci} {DEC : PsciDecoder}
    {FW : Firmware} {PTL : PageTableLaws} is_ram (smc : bool) g p e s' mem' regs' :
  let cpu := w_sysregs (g_world g) MPIDR_EL1 in
  image_ok -> after_boot g -> suspend_call g p e ->
  suspend_core (w_trace (g_world g)) (u32_from_power_state p) = None ->
  has_room (contexts_of (g_world g)) cpu -> has_room (stacks_of (g_world g)) cpu ->
  regs' MPIDR_EL1 = cpu ->
  exists w1 g2, gstep is_ram (ACall smc) g = Stops w1 (g_mem g) /\
    gstep is_ram AResume (mkG s' (with_sysregs w1 regs') mem') = Runs g2 /\
    vr_elr (volatile (g_regs g2)) = entry_point_address e /\
    (forall j, 0 <= j <= 30 ->
      read_gpr (g_regs g2) j = Some (if j =? 0 then entry_context_id e else 0)) /\
    g_mem g2 = mem' /\ Z.testbit (w_sysregs (g_world g2) HCR_EL2) 0 = true /\
    (exists c, w_stage2_config (g_world g2) = Some c /\ stage2_on (w_sysregs (g_world g2)) c = true /\
       forall x, stage2_access c x = qemu_policy x) /\
    contexts_of (g_world g2) = delete cpu (contexts_of (g_world g)).
Proof.
  intros cpu Himg Hb Hc Hdown Hr1 Hr2 Hcpu. pose proof Hb as [(regs & n & Hreach) (c0 & Hc0 & _)].
  pose proof (qemu_reachable_wf _ _ _ Himg Hreach) as Hwf. pose proof (qemu_platform_laws Himg) as PLL.
  destruct (suspend_stops is_ram smc g p e Hwf Hc Hdown Hr1 Hr2) as (w1 & Hstop & Hctx).
  pose proof (gstep_history is_ram (ACall smc) g) as Hh. rewrite Hstop in Hh. simpl in Hh.
  assert (Hreach1 : rtc ritm_step (boot_world regs n) (with_sysregs w1 regs'))
    by (etrans; [exact Hreach|]; eapply rtc_r; [exact Hh|apply step_guest]).
  assert (Hcfg : is_Some (w_stage2_config (with_sysregs w1 regs'))).
  { destruct (ev_policy _ _ (ritm_steps_evolve _ _ Hh Hwf) c0 Hc0) as (c1 & Hc1 & _). by exists c1. }
  destruct (resume_enters is_ram (with_sysregs w1 regs') (suspend_context e) cpu s' mem' regs n
    Himg Hreach1 Hcfg Hcpu) as (w' & Hres & Helr & Hhcr & Hdel).
  { change (contexts_of (with_sysregs w1 regs')) with (contexts_of w1). rewrite Hctx. apply lookup_insert_eq. }
  exists w1. eexists. split_and!; [exact Hstop|exact Hres|exact Helr| |done|by simpl; rewrite Hhcr|..].
  - intros j Hj. assert (Hin : In j (map Z.of_nat (seq 0 31))).
    { apply in_map_iff. exists (Z.to_nat j). split; [lia|]. apply in_seq. lia. }
    simpl in Hin. by repeat destruct Hin as [<- | Hin].
  - pose proof (gstep_history is_ram AResume (mkG s' (with_sysregs w1 regs') mem')) as Hh2.
    rewrite Hres in Hh2. simpl in Hh2.
    destruct (gstep_wake_on is_ram AResume _ _ eq_refl Hres) as (c2 & Hc2 & Hon2).
    exists c2. split_and!; [exact Hc2|exact Hon2|]. intros x.
    refine (qemu_reachable_access regs n w' c2 x Himg _ Hc2). by etrans.
  - simpl. rewrite Hdel. change (contexts_of (with_sysregs w1 regs')) with (contexts_of w1).
    by rewrite Hctx, delete_insert_eq.
Qed.

Section PowerDownWitness.
Import QemuExample ArmArch ExampleFirmware.

(** A core about to call CPU_SUSPEND with power state 1, entry point 102 and context id 103. *)
Definition suspending : GuestRegisterState :=
  snd (write_gpr (snd (write_gpr example_guest 0 0x8400_0001)) 1 1).

Lemma powerdown_resume_roundtrip_witness :
  exists g w1 g2, gstep (PLAT := qemu_platform) (fun _ => true) (ACall false) g = Stops w1 (g_mem g) /\
    gstep (fun _ => true) AResume (mkG (g_regs g) (with_sysregs w1 (w_sysregs (g_world g))) (g_mem g)) = Runs g2 /\
    vr_elr (volatile (g_regs g2)) = 102 /\ read_gpr (g_regs g2) 0 = Some 103.
Proof.
  destruct (fault_world_fresh 0) as (w & c & Hreach & Hc & Hregs & _ & Hctx & Hst).
  set (g := mkG suspending w (fun _ => 0)). exists g.
  destruct (powerdown_resume_roundtrip (fun _ => true) false g (1 : @PowerState example_psci)
    ((102, 103) : @EntryPoint example_psci) (g_regs g) (g_mem g) (w_sysregs (g_world g)))
    as (w1 & g2 & H1 & H2 & H3 & H4 & _).
  - apply example_image_ok.
  - split; [by exists boot_regs, 0|]. exists c. split; [done|]. simpl. by rewrite Hregs.
  - constructor; [by apply (bool_decide_unpack _); vm_compute|by vm_compute|].
    exists 0x8400_0001, 1, 102, 103. by vm_compute.
  - reflexivity.
  - left. unfold contexts_of. simpl. rewrite Hctx, abs_new. by vm_compute; lia.
  - left. unfold stacks_of. simpl. rewrite Hst, abs_new. by vm_compute; lia.
  - reflexivity.
  - exists w1, g2. split_and!; [exact H1|exact H2|exact H3|exact (H4 0 ltac:(lia))].
Defined.
End PowerDownWitness.
