(* ===== verification/IntegrationTest.v ===== *)
(** * The integration test

    The guest program of src/tests/integration_test/src/main.rs, run on the
    machine of Guest.v: its calls, its inline-assembly accesses, its exception
    and panic handlers, its assertions and what it prints.  The file shows that
    the payload prints its success message and powers the core off on the QEMU
    platform, for every placement of the image, every page table and every
    firmware that answers PSCI_VERSION and obeys CPU_OFF.

    The driver of the UART is external: a line arrives when the page of the
    UART is mapped for the guest.  The code runs with an identity-mapped first
    stage, so that virtual and intermediate addresses agree. *)

From Stdlib Require Import ZArith Lia.
From stdpp Require Import base tactics list gmap strings numbers.
From S2P Require Import Prelude MemoryAccess SimpleMap Stage2 Exceptions HvcResponse Pagetable.
From S2P Require Import Platform Qemu Sysregs World Hypervisor Safety Entry Calls Aborts QemuSystem.
From S2P Require Import Guest EndToEnd Str.

#[local] Open Scope Z_scope.

(** ** Constants *)

Definition FILTERED_MMIO_READ_VALUE : u64 := 0xfeed_face_cafe_beef.
Definition FILTERED_MMIO_WRITE_VALUE : u64 := 0x1234_5678_9abc_def0.
Definition FILTERED_MMIO_COUNTER_OFFSET : usize := 16.
Definition FILTERED_MMIO_OFFSET_VALUES : list (usize * u64) :=
  [(24, 0x1111_2222_3333_4444); (32, 0x5555_6666_7777_8888); (40, 0x9999_aaaa_bbbb_cccc)].
Definition PSCI_VERSION : u32 := 0x8400_0000.
Definition PSCI_CPU_OFF : u32 := 0x8400_0002.
Definition UART_BASE : usize := 0x0900_0000.

Section IntegrationTest.
Context {PT : PageTable} {S2F : Stage2Flags} {SA : SmcccArch} {IMG : QemuImage}.
Context {SYS : ArmSysregs} {PSCI : ArmPsci} {DEC : PsciDecoder} {FW : Firmware}.
Context (is_ram : Z -> bool).
(** [pc]: where the code runs.  [version_is_err]: whether [psci::version] of the
    smccc crate takes a result for an error; [version_debug]: its [Debug] text.
    [panic_info]: the [Display] of a [PanicInfo] with this message. *)
Context (pc : u64) (version_is_err : u64 -> bool) (version_debug : u64 -> Str.str)
  (panic_info : Str.str -> Str.str).

(** ** The test program *)

(** The guest machine, the static TRAP_COUNT, and the lines on the UART. *)
Record tstate : Type := mkT { t_g : gmachine; t_traps : Z; t_out : list Str.str }.

(** A test goes on with a value, panics, or the core stops under it. *)
Inductive tresult (A : Type) : Type :=
| TOk (a : A) (t : tstate)
| TPanic (msg : Str.str) (t : tstate)
| TStopped (out : list Str.str).
Arguments TOk {A} _ _.
Arguments TPanic {A} _ _.
Arguments TStopped {A} _.

Definition T (A : Type) : Type := tstate -> tresult A.
#[export] Instance T_ret : MRet T := fun A a t => TOk a t.
#[export] Instance T_bind : MBind T := fun A B k m t =>
  match m t with
  | TOk a t => k a t
  | TPanic msg t => TPanic msg t
  | TStopped out => TStopped out
  end.

Definition test_panic {A} (msg : Str.str) : T A := fun t => TPanic msg t.
Definition trap_count : T Z := fun t => TOk (t_traps t) t.
Definition check (b : bool) (msg : Str.str) : T unit := if b then mret tt else test_panic msg.

(** [writeln!(get_uart(), ..)]. *)
Definition writeln (line : Str.str) : T unit := fun t =>
  if mapped (t_g t) UART_BASE then TOk tt (mkT (t_g t) (t_traps t) (t_out t ++ [line]))
  else TStopped (t_out t).

(** [assert_eq!(left, right, msg)]. *)
Definition assert_eq (left right : Z) (msg : Str.str) : T unit :=
  check (left =? right)
    (lit "assertion `left == right` failed: " ++ msg ++ [LF] ++ lit "  left: " ++ fmt_dec left
     ++ [LF] ++ lit " right: " ++ fmt_dec right).

(** [sync_current]: the handler of the test counts a data abort and steps over
    the instruction. *)
Definition sync_current : T unit := fun t =>
  let g := t_g t in
  let regs := w_sysregs (g_world g) in
  let ec := esr_ec (regs ESR_EL1) in
  if (ec =? 0x25) || (ec =? 0x24)
  then TOk tt (mkT (mkG (set_exception_return (g_regs g) (regs ELR_EL1 + 4) (regs SPSR_EL1))
                        (g_world g) (g_mem g)) (t_traps t + 1) (t_out t))
  else TPanic (lit "Unexpected exception: ESR=" ++ fmt_hex (regs ESR_EL1)) t.

(** One instruction of the test at [pc], with the registers set up by [f]; an
    exception that arrives at the guest's vector runs the handler. *)
Definition instruction (f : GuestRegisterState -> GuestRegisterState) (a : action) : T unit := fun t =>
  let g := t_g t in
  let s := set_exception_return (f (g_regs g)) pc (vr_spsr (volatile (g_regs g))) in
  match gstep is_ram a (mkG s (g_world g) (g_mem g)) with
  | Stops _ _ => TStopped (t_out t)
  | Runs g' =>
      if vr_elr (volatile (g_regs g')) =? w_sysregs (g_world g') VBAR_EL1 + 0x200
      then sync_current (mkT g' (t_traps t) (t_out t)) else TOk tt (mkT g' (t_traps t) (t_out t))
  end.

Definition reg_value (i : Z) : T u64 := fun t => TOk (default 0 (read_gpr (g_regs (t_g t)) i)) t.
Definition set_reg (i v : Z) (s : GuestRegisterState) : GuestRegisterState := snd (write_gpr s i v).

(** [ldr xt, [xn]] and [str xt, [xn]]. *)
Definition ldr (rt rn : Z) (address : u64) : T u64 :=
  instruction (set_reg rn address) (ALoad U64 false true rt address address 0) ≫= fun _ => reg_value rt.
Definition str (rt rn : Z) (value address : u64) : T unit :=
  instruction (fun s => set_reg rn address (set_reg rt value s)) (AStore U64 true rt address address).

(** An HVC with [nargs] zero arguments: x0 after it. *)
Definition hvc_setup (nargs : nat) (function : u32) (s : GuestRegisterState) : GuestRegisterState :=
  set_reg 0 function (foldr (fun i => set_reg i 0) s (Z.of_nat <$> seq 1 nargs)).
Definition hvc_x0 (nargs : nat) (function : u32) : T u64 :=
  instruction (hvc_setup nargs function) (ACall false) ≫= fun _ => reg_value 0.

(** [hvc64(function, [0; 17])], and [hvc32(function, [0; 7])] of [psci::version],
    which reads w0. *)
Definition hvc64 (function : u32) : T u64 := hvc_x0 17 function.
Definition hvc32 (function : u32) : T u32 :=
  hvc_x0 7 function ≫= fun x0 => mret (x0 mod 2 ^ 32).

Definition test_psci : T unit :=
  hvc32 PSCI_VERSION ≫= fun version =>
  writeln (lit "TEST: PSCI version: " ++ version_debug version) ≫= fun _ =>
  check (negb (version_is_err version)) (lit "PSCI version call failed").

Definition test_dummy_hvc : T unit :=
  writeln (lit "TEST: Attempting a dummy HVC call...") ≫= fun _ =>
  hvc64 0xFF00_0000 ≫= fun res =>
  check (res =? 0x1234_5678_9ABC_DEF0) (lit "Dummy HVC failed, x0=" ++ fmt_hex res) ≫= fun _ =>
  writeln (lit "TEST: Dummy HVC succeeded").

Definition test_unknown_hvc : T unit :=
  writeln (lit "TEST: Attempting an unknown HVC call...") ≫= fun _ =>
  hvc64 0xFF00_0001 ≫= fun res =>
  writeln (lit "TEST: Unknown HVC handled (returned " ++ fmt_hex res ++ lit ")").

(** The frame of the filtered-page tests: no access of [body] may fault. *)
Definition without_traps (attempt : Str.str) (body : T unit) (msg success : Str.str) : T unit :=
  writeln attempt ≫= fun _ =>
  trap_count ≫= fun before => body ≫= fun _ => trap_count ≫= fun after =>
  assert_eq after before msg ≫= fun _ =>
  writeln success.

Definition test_mmio_handler : T unit :=
  without_traps
    (lit "TEST: Attempting filtered MMIO access...")
    (ldr 0 1 FILTERED_MMIO_BASE ≫= fun value =>
     check (value =? FILTERED_MMIO_READ_VALUE)
       (lit "Filtered MMIO read returned " ++ fmt_hex value) ≫= fun _ =>
     str 0 1 FILTERED_MMIO_WRITE_VALUE (FILTERED_MMIO_BASE + 8))
    (lit "Filtered MMIO access unexpectedly faulted")
    (lit "TEST: Filtered MMIO access succeeded").

(** The naked functions that go through x19 and x28, which [sync_lower] saves
    itself.  The pair pushed on the test's own stack is kept aside and popped at
    the end. *)
Definition set_register (i : Z) (v : u64) : T unit := fun t =>
  TOk tt (mkT (mkG (set_reg i v (g_regs (t_g t))) (g_world (t_g t)) (g_mem (t_g t))) (t_traps t)
              (t_out t)).
Definition pop (i : Z) (saved : u64 * u64) : T unit :=
  set_register i saved.1 ≫= fun _ => set_register 30 saved.2.
Definition push (i : Z) : T (u64 * u64) :=
  reg_value i ≫= fun v => reg_value 30 ≫= fun x30 => mret (v, x30).

Definition read_filtered_mmio_x19 (address : usize) : T u64 :=
  push 19 ≫= fun saved =>
  ldr 19 0 address ≫= fun x19 =>
  set_register 0 x19 ≫= fun _ =>
  pop 19 saved ≫= fun _ => reg_value 0.

Definition write_filtered_mmio_x28 (address : usize) (value : u64) : T unit :=
  push 28 ≫= fun saved =>
  str 28 0 value address ≫= fun _ =>
  pop 28 saved.

Definition test_mmio_handler_callee_saved_registers : T unit :=
  without_traps
    (lit "TEST: Attempting filtered MMIO access with callee-saved registers...")
    (read_filtered_mmio_x19 FILTERED_MMIO_BASE ≫= fun value =>
     check (value =? FILTERED_MMIO_READ_VALUE)
       (lit "Filtered MMIO read through x19 returned " ++ fmt_hex value) ≫= fun _ =>
     write_filtered_mmio_x28 (FILTERED_MMIO_BASE + 8) FILTERED_MMIO_WRITE_VALUE)
    (lit "Filtered MMIO callee-saved access unexpectedly faulted")
    (lit "TEST: Filtered MMIO callee-saved register access succeeded").

(** A loop over reads: each has to return what is expected. *)
Fixpoint expect_reads (msg : usize -> u64 -> u64 -> Str.str) (l : list (usize * u64)) : T unit :=
  match l with
  | [] => mret tt
  | (offset, expected) :: l =>
      ldr 0 1 (FILTERED_MMIO_BASE + offset) ≫= fun value =>
      check (value =? expected) (msg offset value expected) ≫= fun _ => expect_reads msg l
  end.

Definition test_mmio_handler_counter : T unit :=
  without_traps
    (lit "TEST: Attempting filtered MMIO counter reads...")
    (expect_reads (fun _ value expected =>
       lit "Filtered MMIO counter read returned " ++ fmt_hex value ++ lit ", expected " ++ fmt_hex expected)
       ((fun expected => (FILTERED_MMIO_COUNTER_OFFSET, Z.of_nat expected)) <$> seq 0 4))
    (lit "Filtered MMIO counter access unexpectedly faulted")
    (lit "TEST: Filtered MMIO counter reads succeeded").

Definition test_mmio_handler_offsets : T unit :=
  without_traps
    (lit "TEST: Attempting filtered MMIO offset reads...")
    (expect_reads (fun offset value expected =>
       lit "Filtered MMIO read at offset " ++ fmt_hex offset ++ lit " returned " ++ fmt_hex value
       ++ lit ", expected " ++ fmt_hex expected) FILTERED_MMIO_OFFSET_VALUES)
    (lit "Filtered MMIO offset access unexpectedly faulted")
    (lit "TEST: Filtered MMIO offset reads succeeded").

Definition test_memory_isolation : T unit :=
  writeln (lit "TEST: Attempting to read protected memory at " ++ fmt_hex RITM_START) ≫= fun _ =>
  trap_count ≫= fun before => ldr 0 0 RITM_START ≫= fun val =>
  trap_count ≫= fun after =>
  check (after =? before + 1)
    (lit "Isolation test failed! Read value " ++ fmt_hex val
     ++ lit " from protected memory without trap") ≫= fun _ =>
  writeln (lit "TEST: Caught expected Data Abort! Isolation test passed.").

(** The eight tests, in the order of [main]. *)
Definition integration_tests : T unit :=
  test_psci ≫= fun _ => test_dummy_hvc ≫= fun _ => test_unknown_hvc ≫= fun _ =>
  test_mmio_handler ≫= fun _ => test_mmio_handler_callee_saved_registers ≫= fun _ =>
  test_mmio_handler_counter ≫= fun _ => test_mmio_handler_offsets ≫= fun _ =>
  test_memory_isolation.

(** How the payload ends, with what it printed: the core is off, or it waits for
    interrupts forever. *)
Inductive test_end : Type :=
| PoweredOff (out : list Str.str)
| WaitsForever (out : list Str.str).

(** [power_off]: the loop after a CPU_OFF that comes back does nothing more. *)
Definition power_off (t : tstate) : test_end :=
  match hvc32 PSCI_CPU_OFF t with
  | TOk _ t' => WaitsForever (t_out t')
  | TPanic _ t' => WaitsForever (t_out t')
  | TStopped out => PoweredOff out
  end.

(** The panic handler ignores a failed write. *)
Definition test_panic_handler (msg : Str.str) (t : tstate) : test_end :=
  match writeln (lit "TEST: PANIC: " ++ panic_info msg) t with
  | TOk _ t' => power_off t'
  | TPanic _ t' => power_off t'
  | TStopped out => PoweredOff out
  end.

Definition test_main (t : tstate) : test_end :=
  match (writeln (lit "TEST: Starting integration tests") ≫= fun _ =>
         integration_tests ≫= fun _ => writeln (lit "TEST: All tests passed!")) t with
  | TOk _ t' => power_off t'
  | TPanic msg t' => test_panic_handler msg t'
  | TStopped out => PoweredOff out
  end.

(** ** Lemmas *)

Context {SYL : ArmSysregsLaws} {PTL : PageTableLaws}.
Context (vbar : u64).
Hypothesis Himg : image_ok.
Hypothesis Hpc : 0 <= pc /\ pc + 8 <= U64_MAX.
Hypothesis Hvbar : vbar <> 0 /\ vbar + 0x200 <= U64_MAX.
(** The code does not lie on the vector. *)
Hypothesis Happart : pc + 4 <> vbar + 0x200.

(** Between two instructions: the machine is booted, the guest's vectors are in
    place, the counter is [n] and [k] traps were counted. *)
Record ready (n k : Z) (o : list Str.str) (t : tstate) : Prop := {
  rd_boot : after_boot (t_g t);
  rd_frame : guest_wf (g_regs (t_g t));
  rd_vbar : w_sysregs (g_world (t_g t)) VBAR_EL1 = vbar;
  rd_counter : w_platform (g_world (t_g t)) = n;
  rd_traps : t_traps t = k;
  rd_out : t_out t = o;
}.

Lemma T_bind_ok {A B} (m : T A) (f : A -> T B) t a t' : m t = TOk a t' -> (m ≫= f) t = f a t'.
Proof. intros H. unfold mbind, T_bind. by rewrite H. Qed.

Lemma set_reg_wf i v s : guest_wf s -> guest_wf (set_reg i v s).
Proof. apply write_gpr_wf. Qed.

Lemma read_set_reg i v s j :
  guest_wf s -> 0 <= i -> 0 <= j ->
  read_gpr (set_reg i v s) j = if bool_decide (j = i /\ i <= 30) then Some v else read_gpr s j.
Proof. apply read_write_gpr. Qed.

Lemma read_set_pc s e p j : read_gpr (set_exception_return s e p) j = read_gpr s j.
Proof. apply set_exception_return_gprs. Qed.

(** The state in which an instruction runs. *)
Definition at_instruction (f : GuestRegisterState -> GuestRegisterState) (t : tstate) : gmachine :=
  mkG (set_exception_return (f (g_regs (t_g t))) pc (vr_spsr (volatile (g_regs (t_g t)))))
      (g_world (t_g t)) (g_mem (t_g t)).

Lemma after_boot_config g :
  after_boot g -> exists c, w_stage2_config (g_world g) = Some c /\ world_wf (g_world g) /\
    stage2_on (w_sysregs (g_world g)) c = true /\ forall x, stage2_access c x = qemu_policy x.
Proof.
  intros [(regs & n & Hreach) (c & Hc & Hon)]. exists c. split_and!; [done|by eapply qemu_reachable_wf|done|].
  intros x. by eapply qemu_reachable_access.
Qed.

(** An instruction that RITM handles: from the world of the exception on. *)
Lemma instruction_trap f a t s regs n k o :
  ready n k o t -> gstep is_ram a (at_instruction f t) = trap s regs (at_instruction f t) ->
  instruction f a t =
    match trap s regs (at_instruction f t) with
    | Stops _ _ => TStopped o
    | Runs g' =>
        if vr_elr (volatile (g_regs g')) =? w_sysregs (g_world g') VBAR_EL1 + 0x200
        then sync_current (mkT g' k o) else TOk tt (mkT g' k o)
    end.
Proof.
  intros Hr Hs. unfold instruction. fold (at_instruction f t). rewrite Hs. by rewrite (rd_traps _ _ _ _ Hr), (rd_out _ _ _ _ Hr).
Qed.

(** A 64-bit access to an address the policy does not map. *)
Lemma instruction_abort f wnr rt address n k o t v :
  ready n k o t -> guest_wf (f (g_regs (t_g t))) -> 0 <= rt <= 31 ->
  read_gpr (f (g_regs (t_g t))) rt = Some v -> 0 <= address < 2 ^ 52 -> aligned U64 address = true ->
  (forall a, qemu_policy address <> Direct a) ->
  let g := at_instruction f t in
  let a := if wnr : bool then AStore U64 true rt address address
           else ALoad U64 false true rt address address 0 in
  let regs := abort_sysregs (access_iss U64 rt false true wnr) address address
                (w_sysregs (g_world g)) in
  let '(e, n') := access_effect (qemu_policy address)
                    (decoded_access U64 false true wnr rt address v) n in
  exists g', trap (g_regs g) regs g = Runs g' /\ g_mem g' = g_mem g /\ after_boot g' /\
    gstep is_ram a g = Runs g' /\
    abort_outcome e n' (g_regs g) (with_sysregs (g_world g) regs) (Done (g_regs g') (g_world g')).
Proof.
  intros [Hb Hf Hvb Hn Hk Ho] Hwf Hrt Hv Ha Hal Hpol g a regs.
  destruct (after_boot_config _ Hb) as (c & Hc & Hw & Hon & Hacc).
  assert (Hm : mapped g address = false).
  { rewrite (mapped_direct g c) by done. rewrite Hacc. destruct (qemu_policy address) eqn:E; try done.
    by destruct (Hpol a0). }
  assert (Hrd : read_gpr (g_regs g) rt = Some v) by (by unfold g; simpl; rewrite read_set_pc).
  pose proof (trap_abort g c U64 false true wnr rt address address v Hwf Hw Hc Hon Hrt Hrd Ha eq_refl Hm) as H.
  cbv zeta in H. fold regs in H. rewrite Hacc in H.
  assert (Hp : w_platform (g_world g) = n) by done. rewrite Hp in H.
  destruct (access_effect _ _ _) as [e n'] in H |- *.
  assert (Hst : gstep is_ram a g = trap (g_regs g) regs g).
  { unfold a. destruct wnr; unfold gstep; rewrite Hal, Hm; done. }
  destruct H as [Hmem H].
  pose proof (after_boot_step is_ram a g) as Hbs. rewrite Hst in Hbs.
  destruct (trap (g_regs g) regs g) as [g'|w' mem'] eqn:E.
  - exists g'. split_and!; try done. by apply Hbs.
  - exfalso. destruct H as [msg [_ H]]. destruct e; simpl in H.
    + unfold regs, abort_sysregs in H. rewrite !set_sysreg_ne in H by done.
      change (w_sysregs (g_world g) VBAR_EL1) with (w_sysregs (g_world (t_g t)) VBAR_EL1) in H.
      rewrite Hvb in H. lia.
    + lia.
    + lia.
Qed.

(** The registers of a machine after an access that was completed. *)
Lemma abort_sysregs_vbar iss ipa va regs : abort_sysregs iss ipa va regs VBAR_EL1 = regs VBAR_EL1.
Proof. unfold abort_sysregs. by rewrite !set_sysreg_ne. Qed.

Lemma completed_ready f t n n' k o e g' regs :
  ready n k o t -> after_boot g' -> regs VBAR_EL1 = vbar ->
  (e = Faults -> False) ->
  abort_outcome e n' (g_regs (at_instruction f t)) (with_sysregs (g_world (t_g t)) regs)
    (Done (g_regs g') (g_world g')) ->
  (vr_elr (volatile (g_regs g')) =? w_sysregs (g_world g') VBAR_EL1 + 0x200) = false /\
  ready n' k o (mkT g' k o) /\ resumed (g_regs (at_instruction f t)) e (g_regs g').
Proof.
  intros Hr Hb' Hv Hne [Hp H]. assert (Hre : resumed (g_regs (at_instruction f t)) e (g_regs g') /\
    g_world g' = after_platform n' (with_sysregs (g_world (t_g t)) regs)) by (by destruct e).
  destruct Hre as [Hre Hw]. pose proof (re_return _ _ _ Hre) as Hret. injection Hret as Helr _.
  split_and!; [|constructor; simpl|done].
  - rewrite Hw, Helr. simpl. rewrite Hv. apply Z.eqb_neq. lia.
  - done.
  - apply (re_wf _ _ _ Hre).
  - by rewrite Hw.
  - done.
  - done.
  - done.
Qed.

Lemma filtered_not_direct x a :
  FILTERED_MMIO_BASE <= x < FILTERED_MMIO_BASE + FILTERED_MMIO_SIZE -> qemu_policy x <> Direct a.
Proof. intros Hx. by rewrite qemu_policy_filtered. Qed.

Lemma filtered_range x :
  FILTERED_MMIO_BASE <= x < FILTERED_MMIO_BASE + FILTERED_MMIO_SIZE -> 0 <= x < 2 ^ 52.
Proof. unfold FILTERED_MMIO_BASE, FILTERED_MMIO_SIZE, PAGE_SIZE. lia. Qed.

Lemma ldr_filtered rt rn address n n' k o t x :
  ready n k o t -> 0 <= rt <= 30 -> 0 <= rn ->
  FILTERED_MMIO_BASE <= address < FILTERED_MMIO_BASE + FILTERED_MMIO_SIZE ->
  aligned U64 address = true ->
  (forall v, filtered_effect (decoded_access U64 false true false rt address v) n = (Loads rt x, n')) ->
  exists t', ldr rt rn address t = TOk x t' /\ ready n' k o t'.
Proof.
  intros Hr Hrt Hrn Ha Hal He. pose proof (rd_frame _ _ _ _ Hr) as Hf.
  destruct (read_gpr_total (set_reg rn address (g_regs (t_g t))) rt ltac:(lia)) as [v Hv].
  pose proof (instruction_abort (set_reg rn address) false rt address n k o t v Hr
    (set_reg_wf _ _ _ Hf) ltac:(lia) Hv (filtered_range _ Ha) Hal (fun a => filtered_not_direct _ a Ha)) as H.
  cbv zeta in H. rewrite (qemu_policy_filtered address Ha) in H.
  change (address - FILTERED_MMIO_BASE) with
    (dma_ipa (decoded_access U64 false true false rt address v) - FILTERED_MMIO_BASE) in H.
  rewrite filtered_access_effect, He in H. destruct H as (g' & Ht & _ & Hb' & Hs & Hout).
  destruct (completed_ready _ _ _ _ _ _ (Loads rt x) _ _ Hr Hb'
    ltac:(rewrite abort_sysregs_vbar; exact (rd_vbar _ _ _ _ Hr)) ltac:(done) Hout) as (Hvec & Hr' & Hre).
  exists (mkT g' k o). split; [|done]. unfold ldr. rewrite (T_bind_ok _ _ t tt (mkT g' k o)).
  - unfold reg_value. simpl. by rewrite (re_gprs _ _ _ Hre), bool_decide_eq_true_2 by lia.
  - rewrite (instruction_trap _ _ _ _ _ _ _ _ Hr (eq_trans Hs (eq_sym Ht))), Ht. by rewrite Hvec.
Qed.

Lemma str_filtered rt rn value address n k o t :
  ready n k o t -> 0 <= rt <= 30 -> 0 <= rn -> rn <> rt ->
  FILTERED_MMIO_BASE <= address < FILTERED_MMIO_BASE + FILTERED_MMIO_SIZE ->
  aligned U64 address = true ->
  filtered_effect (decoded_access U64 false true true rt address value) n = (Stores, n) ->
  exists t', str rt rn value address t = TOk tt t' /\ ready n k o t'.
Proof.
  intros Hr Hrt Hrn Hne Ha Hal He. pose proof (rd_frame _ _ _ _ Hr) as Hf.
  set (f := fun s => set_reg rn address (set_reg rt value s)).
  assert (Hv : read_gpr (f (g_regs (t_g t))) rt = Some value).
  { unfold f. rewrite !read_set_reg by (try apply set_reg_wf; done || lia).
    rewrite bool_decide_eq_false_2 by lia. by rewrite bool_decide_eq_true_2 by lia. }
  pose proof (instruction_abort f true rt address n k o t value Hr
    (set_reg_wf _ _ _ (set_reg_wf _ _ _ Hf)) ltac:(lia) Hv (filtered_range _ Ha) Hal
    (fun a => filtered_not_direct _ a Ha)) as H.
  cbv zeta in H. rewrite (qemu_policy_filtered address Ha) in H.
  change (address - FILTERED_MMIO_BASE) with
    (dma_ipa (decoded_access U64 false true true rt address value) - FILTERED_MMIO_BASE) in H.
  rewrite filtered_access_effect, He in H. destruct H as (g' & Ht & _ & Hb' & Hs & Hout).
  destruct (completed_ready _ _ _ _ _ _ Stores _ _ Hr Hb'
    ltac:(rewrite abort_sysregs_vbar; exact (rd_vbar _ _ _ _ Hr)) ltac:(done) Hout) as (Hvec & Hr' & _).
  exists (mkT g' k o). split; [|done]. unfold str. fold f.
  rewrite (instruction_trap _ _ _ _ _ _ _ _ Hr (eq_trans Hs (eq_sym Ht))), Ht. by rewrite Hvec.
Qed.

(** A load from the image: the guest's handler runs once. *)
Lemma ldr_image n k o t :
  private RITM_START -> ready n k o t ->
  exists v t', ldr 0 0 RITM_START t = TOk v t' /\ ready n (k + 1) o t'.
Proof.
  intros Hp Hr. pose proof (rd_frame _ _ _ _ Hr) as Hf. pose proof Himg as (Hpage & Hlo & Hhi & _).
  destruct (read_gpr_total (set_reg 0 RITM_START (g_regs (t_g t))) 0 ltac:(lia)) as [v Hv].
  assert (Hran : 0 <= RITM_START < 2 ^ 52) by (unfold DRAM_START, RITM_END in *; lia).
  assert (Hal : aligned U64 RITM_START = true).
  { unfold aligned. simpl. apply Z.eqb_eq. destruct Hpage as [q ->]. unfold PAGE_SIZE.
    Z.div_mod_to_equations; lia. }
  pose proof (instruction_abort (set_reg 0 RITM_START) false 0 RITM_START n k o t v Hr
    (set_reg_wf _ _ _ Hf) ltac:(lia) Hv Hran Hal (fun a => private_not_direct _ a Himg Hp)) as H.
  cbv zeta in H. destruct Hp as [Hp Hs]. rewrite (qemu_policy_image _ Himg Hp Hs) in H.
  cbn [access_effect] in H. destruct H as (g' & Ht & _ & Hb' & Hst & Hpl & Hin).
  exists (default 0 (read_gpr (g_regs g') 0)). eexists. split.
  - unfold ldr. erewrite T_bind_ok.
    2: { rewrite (instruction_trap _ _ _ _ _ _ _ _ Hr (eq_trans Hst (eq_sym Ht))), Ht.
         pose proof (in_return _ _ _ _ Hin) as [= -> _]. rewrite (in_other _ _ _ _ Hin) by set_solver.
         rewrite Z.eqb_refl. unfold sync_current. simpl t_g.
         rewrite law_esr_ec, (in_ec _ _ _ _ Hin). simpl. reflexivity. }
    reflexivity.
  - constructor; simpl.
    + done.
    + apply (in_wf _ _ _ _ Hin).
    + rewrite (in_other _ _ _ _ Hin) by set_solver. simpl. rewrite abort_sysregs_vbar.
      apply (rd_vbar _ _ _ _ Hr).
    + done.
    + done.
    + done.
Qed.

(** Calls. *)
Lemma zeroed_wf l s : guest_wf s -> guest_wf (foldr (fun i => set_reg i 0) s l).
Proof. intros Hs. by induction l; [|apply set_reg_wf]. Qed.

Lemma hvc_setup_wf nargs function s : guest_wf s -> guest_wf (hvc_setup nargs function s).
Proof. intros Hs. by apply set_reg_wf, zeroed_wf. Qed.

Lemma read_zeroed l s j :
  guest_wf s -> Forall (fun i => 0 <= i <= 30) l -> j ∈ l ->
  read_gpr (foldr (fun i => set_reg i 0) s l) j = Some 0.
Proof.
  intros Hs. induction l as [|i l IH]; [by intros _ ?%not_elem_of_nil|].
  intros Hl Hin. assert (Hj : 0 <= j) by (apply (proj1 (list.Forall_forall _ _) Hl j Hin)).
  apply List.Forall_cons_iff in Hl as [Hi Hl]. simpl.
  rewrite read_set_reg; [|by apply zeroed_wf|lia..].
  case_bool_decide; [done|]. apply elem_of_cons in Hin as [->|Hin]; [lia|]. by apply IH.
Qed.

Lemma hvc_setup_low nargs function s j :
  guest_wf s -> (3 <= nargs <= 17)%nat -> 0 <= j <= 3 ->
  read_gpr (hvc_setup nargs function s) j = Some (if j =? 0 then function else 0).
Proof.
  intros Hs Hn Hj. unfold hvc_setup. rewrite read_set_reg by (by try apply zeroed_wf || lia).
  destruct (Z.eqb_spec j 0); [by rewrite bool_decide_eq_true_2 by lia|].
  rewrite bool_decide_eq_false_2 by lia. apply read_zeroed; [done|..].
  - apply list.Forall_forall. intros i (m & -> & Hm%elem_of_seq)%list_elem_of_fmap. lia.
  - apply list_elem_of_fmap. exists (Z.to_nat j). split; [lia|]. apply elem_of_seq. lia.
Qed.

#[local] Opaque hvc_setup.

(** The frame at the exception of an HVC. *)
Definition hvc_frame (nargs : nat) (function : u32) (t : tstate) : GuestRegisterState :=
  next_pc (g_regs (at_instruction (hvc_setup nargs function) t)).

Lemma hvc_frame_facts nargs function n k o t :
  ready n k o t -> (3 <= nargs <= 17)%nat ->
  guest_wf (hvc_frame nargs function t) /\ vr_elr (volatile (hvc_frame nargs function t)) = pc + 4 /\
  forall j, 0 <= j <= 3 ->
    read_gpr (hvc_frame nargs function t) j = Some (if j =? 0 then function else 0).
Proof.
  intros Hr Hn. pose proof (rd_frame _ _ _ _ Hr) as Hf. unfold hvc_frame, next_pc. split_and!.
  - apply set_exception_return_wf, set_exception_return_wf, hvc_setup_wf, Hf.
  - change ((pc + 4) mod 2 ^ 64 = pc + 4). apply Z.mod_small. unfold U64_MAX in *. lia.
  - intros j Hj. rewrite read_set_pc. unfold at_instruction. cbn [g_regs]. rewrite read_set_pc.
    exact (hvc_setup_low nargs function _ j Hf Hn Hj).
Qed.

(** An HVC that RITM completes with the result [r] and the world [w']. *)
Lemma hvc_completes nargs function r t n k o w' :
  ready n k o t -> result_wf r ->
  let g := at_instruction (hvc_setup nargs function) t in
  let s := next_pc (g_regs g) in
  let w := with_sysregs (g_world g)
             (set_sysreg ESR_EL2 (0x16 * 2 ^ 26 + 2 ^ 25) (w_sysregs (g_world g))) in
  (exists s', handle_sync_lower s w = Done s' w' /\ completes false s r s') ->
  w_sysregs w' VBAR_EL1 = vbar -> w_platform w' = n ->
  exists t', hvc_x0 nargs function t = TOk (default 0 (result_registers r !! 0%nat)) t' /\ ready n k o t'.
Proof.
  intros Hr Hwf g s w (s' & Hrun & Hco) Hv Hn.
  assert (Hst : gstep is_ram (ACall false) g = Runs (mkG s' w' (g_mem g))).
  { unfold gstep, trap. fold s w. by rewrite Hrun. }
  pose proof (after_boot_step is_ram _ g _ Himg (rd_boot _ _ _ _ Hr) Hst) as Hb'.
  assert (Helr : vr_elr (volatile s') = pc + 4).
  { pose proof (co_return _ _ _ _ Hco) as [= -> _]. simpl. rewrite Z.mod_small; [lia|].
    unfold U64_MAX in *. lia. }
  exists (mkT (mkG s' w' (g_mem g)) k o). split.
  - unfold hvc_x0. rewrite (T_bind_ok _ _ t tt (mkT (mkG s' w' (g_mem g)) k o)).
    + unfold reg_value. cbn [t_g g_regs]. rewrite (co_gprs _ _ _ _ Hco) by lia. change (Z.to_nat 0) with 0%nat.
      destruct (result_registers r !! 0%nat) eqn:E; [done|].
      exfalso. apply lookup_ge_None in E. destruct r as [|[[]|]]; simpl in *; lia.
    + unfold instruction. fold (at_instruction (hvc_setup nargs function) t) g. rewrite Hst. simpl.
      rewrite Helr, Hv, (rd_traps _ _ _ _ Hr), (rd_out _ _ _ _ Hr). rewrite (proj2 (Z.eqb_neq _ _)) by lia. done.
  - constructor; simpl; try done. apply (co_wf _ _ _ _ Hco).
Qed.

Lemma hvc64_platform function t n k o :
  ready n k o t -> is_psci_id function = false ->
  exists t', hvc64 function t =
    TOk (default 0 (result_registers (qemu_handle_hvc function []) !! 0%nat)) t' /\ ready n k o t'.
Proof.
  intros Hr Hid. pose proof (qemu_platform_laws Himg) as PLL.
  destruct (hvc_frame_facts 17 function n k o t Hr ltac:(lia)) as (Hs & Helr & Hg).
  pose proof (handle_hvc_wf (PlatformLaws := PLL) function []) as Hwf.
  set (w := with_sysregs (g_world (t_g t))
    (set_sysreg ESR_EL2 (0x16 * 2 ^ 26 + 2 ^ 25) (w_sysregs (g_world (t_g t))))).
  apply (hvc_completes 17 function (qemu_handle_hvc function []) t n k o w Hr Hwf).
  - exact (platform_call_completes false (hvc_frame 17 function t) w function Hs ltac:(lia)
      (call_esr false) (Hg 0 ltac:(lia)) Hid).
  - apply (rd_vbar _ _ _ _ Hr).
  - apply (rd_counter _ _ _ _ Hr).
Qed.

(** The firmware answers PSCI_VERSION, and not with an error. *)
Hypothesis Hdecode : function_try_from [PSCI_VERSION; 0; 0; 0] = Ok Version.
Hypothesis Hversion : forall trace, exists regs,
  smc64 trace PSCI_VERSION ([0; 0; 0] ++ replicate 14 0) = Some regs /\
  version_is_err ((regs !!! 0%nat) mod 2 ^ 32) = false.

Lemma hvc32_version t n k o :
  ready n k o t ->
  exists v t', hvc32 PSCI_VERSION t = TOk v t' /\ version_is_err v = false /\ ready n k o t'.
Proof.
  intros Hr. destruct (hvc_frame_facts 7 PSCI_VERSION n k o t Hr ltac:(lia)) as (Hs & Helr & Hg).
  set (w := with_sysregs (g_world (t_g t))
    (set_sysreg ESR_EL2 (0x16 * 2 ^ 26 + 2 ^ 25) (w_sysregs (g_world (t_g t))))).
  assert (Hcall : psci_call false (hvc_frame 7 PSCI_VERSION t) w PSCI_VERSION 0 0 0).
  { constructor; [done|lia|exact (call_esr false)|done|]. by rewrite !Hg by lia. }
  pose proof (psci_forward_completes _ _ _ _ _ _ _ Version Hcall Hdecode eq_refl) as H.
  cbv zeta in H. change (PSCI_VERSION mod 2 ^ 32) with PSCI_VERSION in H.
  destruct (Hversion (w_trace w)) as (regs & Hsmc & Herr). rewrite Hsmc in H.
  destruct (hvc_completes 7 PSCI_VERSION _ t n k o _ Hr
    (eq_refl : result_wf (Handled (Ok (Success [regs !!! 0%nat; 0; 0; 0])))) H) as (t' & Hrun & Hr').
  - simpl. apply (rd_vbar _ _ _ _ Hr).
  - simpl. apply (rd_counter _ _ _ _ Hr).
  - exists ((regs !!! 0%nat) mod 2 ^ 32), t'. split_and!; [|done..].
    unfold hvc32. by rewrite (T_bind_ok _ _ _ _ _ Hrun).
Qed.

(** ** The tests *)

Lemma check_true (b : bool) msg t : b = true -> check b msg t = TOk tt t.
Proof. by intros ->. Qed.

(** The UART is mapped. *)
Lemma writeln_ok line n k o t :
  ready n k o t -> exists t', writeln line t = TOk tt t' /\ ready n k (o ++ [line]) t'.
Proof.
  intros Hr. destruct (after_boot_config _ (rd_boot _ _ _ _ Hr)) as (c & Hc & _ & Hon & Hacc).
  assert (Hm : mapped (t_g t) UART_BASE = true) by (rewrite (mapped_direct _ c _ Hc Hon), Hacc; done).
  unfold writeln. rewrite Hm. eexists. split; [reflexivity|].
  destruct Hr. constructor; simpl; congruence.
Qed.

(** [m] takes a state with counter [n], [k] traps and output [o] to one with
    [n'], [k'] and [o'], without a panic. *)
Definition passes (m : T unit) (n k : Z) (o : list Str.str) (n' k' : Z) (o' : list Str.str) : Prop :=
  forall t, ready n k o t -> exists t', m t = TOk tt t' /\ ready n' k' o' t'.

Lemma passes_bind m m' n k o n1 k1 o1 n2 k2 o2 :
  passes m n k o n1 k1 o1 -> passes m' n1 k1 o1 n2 k2 o2 ->
  passes (m ≫= fun _ => m') n k o n2 k2 o2.
Proof.
  intros H1 H2 t (t1 & E & Hr1)%H1. destruct (H2 t1 Hr1) as (t2 & E2 & Hr2). exists t2.
  split; [|done]. by rewrite (T_bind_ok _ _ _ _ _ E).
Qed.

Lemma passes_writeln line n k o : passes (writeln line) n k o n k (o ++ [line]).
Proof. intros t. apply writeln_ok. Qed.

Lemma passes_without_traps attempt body msg success n n' k o :
  (forall o, passes body n k o n' k o) ->
  passes (without_traps attempt body msg success) n k o n' k (o ++ [attempt; success]).
Proof.
  intros Hb t Hr. unfold without_traps. destruct (writeln_ok attempt n k o t Hr) as (t1 & E1 & Hr1).
  rewrite (T_bind_ok _ _ _ _ _ E1), (T_bind_ok trap_count _ t1 (t_traps t1) t1 eq_refl).
  destruct (Hb _ t1 Hr1) as (t2 & E2 & Hr2).
  rewrite (T_bind_ok _ _ t1 tt t2 E2), (T_bind_ok trap_count _ t2 (t_traps t2) t2 eq_refl).
  assert (E : (t_traps t2 =? t_traps t1) = true)
    by (rewrite (rd_traps _ _ _ _ Hr1), (rd_traps _ _ _ _ Hr2); apply Z.eqb_refl).
  unfold assert_eq. rewrite (T_bind_ok _ _ _ _ _ (check_true _ _ t2 E)).
  destruct (writeln_ok success n' k _ t2 Hr2) as (t3 & E3 & Hr3). exists t3.
  split; [done|]. by rewrite <- app_assoc in Hr3.
Qed.

(** A sequence of loads the filtered page completes, from counter to counter. *)
Inductive reads_ok : Z -> list (usize * u64) -> Z -> Prop :=
| reads_nil n : reads_ok n [] n
| reads_cons n off x n1 l n2 :
    0 <= off < FILTERED_MMIO_SIZE -> aligned U64 (FILTERED_MMIO_BASE + off) = true ->
    (forall v, filtered_effect
       (decoded_access U64 false true false 0 (FILTERED_MMIO_BASE + off) v) n = (Loads 0 x, n1)) ->
    reads_ok n1 l n2 -> reads_ok n ((off, x) :: l) n2.

Lemma expect_reads_ok msg l n n' k o t :
  reads_ok n l n' -> ready n k o t -> exists t', expect_reads msg l t = TOk tt t' /\ ready n' k o t'.
Proof.
  intros Hl. revert t. induction Hl as [n|n off x n1 l n2 Ho Hal Hx _ IH]; intros t Hr; [by exists t|].
  cbn [expect_reads].
  destruct (ldr_filtered 0 1 (FILTERED_MMIO_BASE + off) n n1 k o t x Hr ltac:(lia) ltac:(lia) ltac:(lia)
    Hal Hx) as (t1 & Hrun & Hr1).
  rewrite (T_bind_ok _ _ _ _ _ Hrun), (T_bind_ok _ _ _ _ _ (check_true _ _ t1 (Z.eqb_refl x))).
  by apply IH.
Qed.

Ltac solve_reads := repeat (econstructor; [by vm_compute|done|intros v; by vm_compute|]); constructor.

Lemma counter_reads_ok :
  reads_ok 0 ((fun expected => (FILTERED_MMIO_COUNTER_OFFSET, Z.of_nat expected)) <$> seq 0 4) 4.
Proof. simpl. solve_reads. Qed.

Lemma offset_reads_ok n : reads_ok n FILTERED_MMIO_OFFSET_VALUES n.
Proof. unfold FILTERED_MMIO_OFFSET_VALUES. solve_reads. Qed.

(** The two accesses of the handler's tests. *)
Lemma read_value_ok rt rn n k o t :
  ready n k o t -> 0 <= rt <= 30 -> 0 <= rn ->
  exists t', ldr rt rn FILTERED_MMIO_BASE t = TOk FILTERED_MMIO_READ_VALUE t' /\ ready n k o t'.
Proof.
  intros Hr Hrt Hrn. apply (ldr_filtered rt rn FILTERED_MMIO_BASE n n k o t _ Hr Hrt Hrn);
    [by vm_compute|done|intros v; by vm_compute].
Qed.

Lemma write_value_ok rt rn n k o t :
  ready n k o t -> 0 <= rt <= 30 -> 0 <= rn -> rn <> rt ->
  exists t', str rt rn FILTERED_MMIO_WRITE_VALUE (FILTERED_MMIO_BASE + 8) t = TOk tt t' /\ ready n k o t'.
Proof. intros Hr Hrt Hrn Hne. apply str_filtered; [done..| | |]; by vm_compute. Qed.

Lemma handler_accesses_ok n k o t :
  ready n k o t ->
  exists t', (ldr 0 1 FILTERED_MMIO_BASE ≫= fun value =>
     check (value =? FILTERED_MMIO_READ_VALUE)
       (lit "Filtered MMIO read returned " ++ fmt_hex value) ≫= fun _ =>
     str 0 1 FILTERED_MMIO_WRITE_VALUE (FILTERED_MMIO_BASE + 8)) t = TOk tt t' /\ ready n k o t'.
Proof.
  intros Hr. destruct (read_value_ok 0 1 n k o t Hr) as (t1 & Hrun & Hr1); [lia..|].
  rewrite (T_bind_ok _ _ _ _ _ Hrun), (T_bind_ok _ _ _ _ _ (check_true _ _ t1 (Z.eqb_refl _))).
  apply write_value_ok; [done|lia..].
Qed.

(** Register moves between the instructions. *)
Definition moved (i v : Z) (t : tstate) : tstate :=
  mkT (mkG (set_reg i v (g_regs (t_g t))) (g_world (t_g t)) (g_mem (t_g t))) (t_traps t) (t_out t).

Lemma set_register_run i v t : set_register i v t = TOk tt (moved i v t).
Proof. done. Qed.

Lemma pop_run i saved t : pop i saved t = TOk tt (moved 30 saved.2 (moved i saved.1 t)).
Proof. done. Qed.

Lemma moved_ready i v n k o t : ready n k o t -> ready n k o (moved i v t).
Proof. intros []. constructor; try done. by apply set_reg_wf. Qed.

Lemma read_x19_ok n k o t :
  ready n k o t ->
  exists t', read_filtered_mmio_x19 FILTERED_MMIO_BASE t = TOk FILTERED_MMIO_READ_VALUE t' /\ ready n k o t'.
Proof.
  intros Hr. destruct (read_value_ok 19 0 n k o t Hr) as (t1 & Hrun & Hr1); [lia..|].
  unfold read_filtered_mmio_x19. rewrite (T_bind_ok (push 19) _ t _ t eq_refl), (T_bind_ok _ _ _ _ _ Hrun).
  rewrite (T_bind_ok _ _ _ _ _ (set_register_run 0 _ t1)), (T_bind_ok _ _ _ _ _ (pop_run 19 _ _)).
  match goal with |- exists _, reg_value 0 ?u = _ /\ _ =>
    assert (Hu : read_gpr (g_regs (t_g u)) 0 = Some FILTERED_MMIO_READ_VALUE /\ ready n k o u) end.
  { split; [|by do 3 apply moved_ready]. pose proof (rd_frame _ _ _ _ Hr1). unfold moved. cbn [t_g g_regs].
    rewrite !read_set_reg by (repeat apply set_reg_wf; done || lia).
    by rewrite bool_decide_eq_false_2, bool_decide_eq_false_2, bool_decide_eq_true_2 by lia. }
  eexists. unfold reg_value. rewrite (proj1 Hu). split; [reflexivity|exact (proj2 Hu)].
Qed.

Lemma write_x28_ok n k o t :
  ready n k o t ->
  exists t', write_filtered_mmio_x28 (FILTERED_MMIO_BASE + 8) FILTERED_MMIO_WRITE_VALUE t = TOk tt t' /\
    ready n k o t'.
Proof.
  intros Hr. destruct (write_value_ok 28 0 n k o t Hr) as (t1 & Hrun & Hr1); [lia..|].
  unfold write_filtered_mmio_x28. rewrite (T_bind_ok (push 28) _ t _ t eq_refl), (T_bind_ok _ _ _ _ _ Hrun).
  rewrite pop_run. eexists. split; [reflexivity|]. by do 2 apply moved_ready.
Qed.

Lemma callee_saved_ok n k o t :
  ready n k o t ->
  exists t', (read_filtered_mmio_x19 FILTERED_MMIO_BASE ≫= fun value =>
     check (value =? FILTERED_MMIO_READ_VALUE)
       (lit "Filtered MMIO read through x19 returned " ++ fmt_hex value) ≫= fun _ =>
     write_filtered_mmio_x28 (FILTERED_MMIO_BASE + 8) FILTERED_MMIO_WRITE_VALUE) t = TOk tt t' /\
    ready n k o t'.
Proof.
  intros Hr. destruct (read_x19_ok n k o t Hr) as (t1 & Hrun & Hr1).
  rewrite (T_bind_ok _ _ _ _ _ Hrun), (T_bind_ok _ _ _ _ _ (check_true _ _ t1 (Z.eqb_refl _))).
  by apply write_x28_ok.
Qed.

(** What the payload prints before its last line. *)
Definition test_output (version unknown : u64) : list Str.str :=
  [lit "TEST: PSCI version: " ++ version_debug version;
   lit "TEST: Attempting a dummy HVC call..."; lit "TEST: Dummy HVC succeeded";
   lit "TEST: Attempting an unknown HVC call...";
   lit "TEST: Unknown HVC handled (returned " ++ fmt_hex unknown ++ lit ")";
   lit "TEST: Attempting filtered MMIO access..."; lit "TEST: Filtered MMIO access succeeded";
   lit "TEST: Attempting filtered MMIO access with callee-saved registers...";
   lit "TEST: Filtered MMIO callee-saved register access succeeded";
   lit "TEST: Attempting filtered MMIO counter reads..."; lit "TEST: Filtered MMIO counter reads succeeded";
   lit "TEST: Attempting filtered MMIO offset reads..."; lit "TEST: Filtered MMIO offset reads succeeded";
   lit "TEST: Attempting to read protected memory at " ++ fmt_hex RITM_START;
   lit "TEST: Caught expected Data Abort! Isolation test passed."].

(** What the platform answers to an unknown call. *)
Definition unknown_result : u64 :=
  default 0 (result_registers (qemu_handle_hvc 0xFF00_0001 []) !! 0%nat).

Lemma passes_dummy_hvc n k o :
  passes test_dummy_hvc n k o n k
    (o ++ [lit "TEST: Attempting a dummy HVC call..."; lit "TEST: Dummy HVC succeeded"]).
Proof.
  intros t Hr. unfold test_dummy_hvc. destruct (writeln_ok (lit "TEST: Attempting a dummy HVC call...") n k o t Hr) as (t1 & E1 & Hr1).
  rewrite (T_bind_ok _ _ _ _ _ E1).
  destruct (hvc64_platform 0xFF00_0000 t1 n k _ Hr1 eq_refl) as (t2 & E2 & Hr2).
  rewrite (T_bind_ok _ _ _ _ _ E2), (T_bind_ok _ _ _ _ _ (check_true _ _ t2 eq_refl)).
  destruct (writeln_ok (lit "TEST: Dummy HVC succeeded") n k _ t2 Hr2) as (t3 & E3 & Hr3). exists t3.
  split; [done|]. by rewrite <- app_assoc in Hr3.
Qed.

Lemma passes_unknown_hvc n k o :
  passes test_unknown_hvc n k o n k
    (o ++ [lit "TEST: Attempting an unknown HVC call...";
           lit "TEST: Unknown HVC handled (returned " ++ fmt_hex unknown_result ++ lit ")"]).
Proof.
  intros t Hr. unfold test_unknown_hvc. destruct (writeln_ok (lit "TEST: Attempting an unknown HVC call...") n k o t Hr) as (t1 & E1 & Hr1).
  rewrite (T_bind_ok _ _ _ _ _ E1).
  destruct (hvc64_platform 0xFF00_0001 t1 n k _ Hr1 eq_refl) as (t2 & E2 & Hr2).
  rewrite (T_bind_ok _ _ _ _ _ E2). fold unknown_result.
  destruct (writeln_ok (lit "TEST: Unknown HVC handled (returned " ++ fmt_hex unknown_result ++ lit ")") n k _ t2 Hr2) as (t3 & E3 & Hr3).
  exists t3. split; [done|]. by rewrite <- app_assoc in Hr3.
Qed.

Lemma passes_memory_isolation n k o :
  private RITM_START ->
  passes test_memory_isolation n k o n (k + 1)
    (o ++ [lit "TEST: Attempting to read protected memory at " ++ fmt_hex RITM_START;
           lit "TEST: Caught expected Data Abort! Isolation test passed."]).
Proof.
  intros Hp t Hr. unfold test_memory_isolation.
  destruct (writeln_ok (lit "TEST: Attempting to read protected memory at " ++ fmt_hex RITM_START) n k o t Hr)
    as (t1 & E1 & Hr1).
  rewrite (T_bind_ok _ _ _ _ _ E1), (T_bind_ok trap_count _ t1 (t_traps t1) t1 eq_refl).
  destruct (ldr_image n k _ t1 Hp Hr1) as (x & t2 & E2 & Hr2).
  rewrite (T_bind_ok _ _ _ _ _ E2), (T_bind_ok trap_count _ t2 (t_traps t2) t2 eq_refl).
  assert (E : (t_traps t2 =? t_traps t1 + 1) = true)
    by (rewrite (rd_traps _ _ _ _ Hr1), (rd_traps _ _ _ _ Hr2); apply Z.eqb_refl).
  rewrite (T_bind_ok _ _ _ _ _ (check_true _ _ t2 E)).
  destruct (writeln_ok (lit "TEST: Caught expected Data Abort! Isolation test passed.") n (k + 1) _ t2 Hr2)
    as (t3 & E3 & Hr3).
  exists t3. split; [done|]. by rewrite <- app_assoc in Hr3.
Qed.

Lemma psci_test_ok n k o t :
  ready n k o t -> exists v t', test_psci t = TOk tt t' /\
    ready n k (o ++ [lit "TEST: PSCI version: " ++ version_debug v]) t'.
Proof.
  intros Hr. destruct (hvc32_version t n k o Hr) as (v & t1 & E1 & Hv & Hr1). exists v.
  unfold test_psci. rewrite (T_bind_ok _ _ _ _ _ E1).
  destruct (writeln_ok (lit "TEST: PSCI version: " ++ version_debug v) n k o t1 Hr1) as (t2 & E2 & Hr2).
  rewrite (T_bind_ok _ _ _ _ _ E2). exists t2. split; [|done]. apply check_true. by rewrite Hv.
Qed.

Lemma integration_tests_ok k o t :
  private RITM_START -> ready 0 k o t ->
  exists v t', integration_tests t = TOk tt t' /\ ready 4 (k + 1) (o ++ test_output v unknown_result) t'.
Proof.
  intros Hp Hr. destruct (psci_test_ok 0 k o t Hr) as (v & t1 & E1 & Hr1). exists v.
  unfold integration_tests. rewrite (T_bind_ok _ _ _ _ _ E1).
  eassert (H : passes (test_dummy_hvc ≫= fun _ => test_unknown_hvc ≫= fun _ =>
    test_mmio_handler ≫= fun _ => test_mmio_handler_callee_saved_registers ≫= fun _ =>
    test_mmio_handler_counter ≫= fun _ => test_mmio_handler_offsets ≫= fun _ =>
    test_memory_isolation) 0 k _ 4 (k + 1) _).
  { eapply passes_bind; [apply passes_dummy_hvc|]. eapply passes_bind; [apply passes_unknown_hvc|].
    eapply passes_bind; [apply passes_without_traps; intros o' t'; apply handler_accesses_ok|].
    eapply passes_bind; [apply passes_without_traps; intros o' t'; apply callee_saved_ok|].
    eapply passes_bind; [apply passes_without_traps; intros o' t' Ht'; eapply expect_reads_ok;
      [apply counter_reads_ok|exact Ht']|].
    eapply passes_bind; [apply passes_without_traps; intros o' t' Ht'; eapply expect_reads_ok;
      [apply offset_reads_ok|exact Ht']|].
    by apply passes_memory_isolation. }
  destruct (H t1 Hr1) as (t2 & E2 & Hr2). exists t2. split; [exact E2|].
  unfold test_output. by rewrite <- !app_assoc in Hr2.
Qed.

(** CPU_OFF does not come back. *)
Hypothesis Hdecode_off : function_try_from [PSCI_CPU_OFF; 0; 0; 0] = Ok CpuOff.
Hypothesis Hoff : forall trace, smc64 trace PSCI_CPU_OFF ([0; 0; 0] ++ replicate 14 0) = None.

Lemma power_off_ok n k o t : ready n k o t -> power_off t = PoweredOff o.
Proof.
  intros Hr. destruct (hvc_frame_facts 7 PSCI_CPU_OFF n k o t Hr ltac:(lia)) as (Hs & Helr & Hg).
  set (w := with_sysregs (g_world (t_g t))
    (set_sysreg ESR_EL2 (0x16 * 2 ^ 26 + 2 ^ 25) (w_sysregs (g_world (t_g t))))).
  assert (Hcall : psci_call false (hvc_frame 7 PSCI_CPU_OFF t) w PSCI_CPU_OFF 0 0 0).
  { constructor; [done|lia|exact (call_esr false)|done|]. by rewrite !Hg by lia. }
  pose proof (psci_forward_completes _ _ _ _ _ _ _ CpuOff Hcall Hdecode_off eq_refl) as H.
  cbv zeta in H. change (PSCI_CPU_OFF mod 2 ^ 32) with PSCI_CPU_OFF in H. rewrite Hoff in H.
  unfold power_off, hvc32, hvc_x0, mbind, T_bind, instruction.
  fold (at_instruction (hvc_setup 7 PSCI_CPU_OFF) t). unfold gstep, trap.
  fold (hvc_frame 7 PSCI_CPU_OFF t). simpl g_world. fold w. rewrite H. simpl.
  by rewrite (rd_out _ _ _ _ Hr).
Qed.

Lemma test_main_ok k t :
  private RITM_START -> ready 0 k [] t ->
  exists v, test_main t = PoweredOff ([lit "TEST: Starting integration tests"] ++
    test_output v unknown_result ++ [lit "TEST: All tests passed!"]).
Proof.
  intros Hp Hr. destruct (writeln_ok (lit "TEST: Starting integration tests") 0 k [] t Hr) as (t1 & E1 & Hr1).
  destruct (integration_tests_ok k _ t1 Hp Hr1) as (v & t2 & E2 & Hr2). exists v.
  destruct (writeln_ok (lit "TEST: All tests passed!") 4 (k + 1) _ t2 Hr2) as (t3 & E3 & Hr3).
  unfold test_main. rewrite (T_bind_ok _ _ _ _ _ E1), (T_bind_ok _ _ _ _ _ E2), E3.
  rewrite (power_off_ok _ _ _ _ Hr3). by rewrite <- app_assoc.
Qed.
End IntegrationTest.
Arguments TOk {_ _ _ _ A} _ _.

(** ** Property *)

(** C19: the integration test passes: on a booted QEMU platform, for every
    placement of the image, every page table and every firmware that answers
    PSCI_VERSION without an error and obeys CPU_OFF, the payload prints exactly
    the lines of its eight tests, then "TEST: All tests passed!", and is powered
    off; it never panics.  The PSCI and platform calls return what the test
    expects, the filtered page serves its loads and stores through volatile and
    callee-saved registers without a fault, the counter reads 0, 1, 2, 3, and
    the read of RITM's image is caught by the guest's handler exactly once. *)
Theorem integration_tests_pass {PT : PageTable} {S2F : Stage2Flags} {SA : SmcccArch} {IMG : QemuImage}
    {SYS : ArmSysregs} {SYL : ArmSysregsLaws} {PSCI : ArmPsci} {DEC : PsciDecoder} {FW : Firmware}
    {PTL : PageTableLaws} is_ram (pc : u64) (version_is_err : u64 -> bool)
    (version_debug : u64 -> Str.str) (panic_info : Str.str -> Str.str) (t : tstate) :
  let vbar := w_sysregs (g_world (t_g t)) VBAR_EL1 in
  image_ok -> private RITM_START ->
  0 <= pc /\ pc + 8 <= U64_MAX -> vbar <> 0 /\ vbar + 0x200 <= U64_MAX -> pc + 4 <> vbar + 0x200 ->
  function_try_from [PSCI_VERSION; 0; 0; 0] = Ok Version ->
  function_try_from [PSCI_CPU_OFF; 0; 0; 0] = Ok CpuOff ->
  (forall trace, exists regs, smc64 trace PSCI_VERSION ([0; 0; 0] ++ replicate 14 0) = Some regs /\
     version_is_err ((regs !!! 0%nat) mod 2 ^ 32) = false) ->
  (forall trace, smc64 trace PSCI_CPU_OFF ([0; 0; 0] ++ replicate 14 0) = None) ->
  after_boot (t_g t) -> guest_wf (g_regs (t_g t)) -> w_platform (g_world (t_g t)) = 0 ->
  t_out t = [] ->
  exists version, test_main is_ram pc version_is_err version_debug panic_info t =
    PoweredOff ([lit "TEST: Starting integration tests"] ++
      test_output version_debug version unknown_result ++ [lit "TEST: All tests passed!"]).
Proof.
  intros vbar Himg Hp Hpc Hv Hne Hd Hd' Hver Hoff Hb Hf Hn Ho.
  by apply (test_main_ok is_ram pc version_is_err version_debug panic_info vbar Himg Hpc Hv Hne Hd Hver
    Hd' Hoff (t_traps t) t Hp).
Qed.

(** ** Witness *)

Section TestWitness.
Import QemuExample ArmArch ExampleFirmware.

(** A firmware with PSCI 1.1. *)
#[local] Instance version_firmware : Firmware := {|
  PsciCallError := unit; i64_from_psci_call_error _ := -1;
  smc64 _ fn _ := if fn =? PSCI_VERSION then Some (0x1_0001 :: replicate 17 0) else None;
  start_core _ _ := Err tt; suspend_core _ _ := None |}.

Lemma integration_tests_pass_witness :
  exists t version,
    test_main (fun _ => true) 0x4030_0000 (fun v => Z.testbit v 31) fmt_dec (fun msg => msg) t =
    PoweredOff ([lit "TEST: Starting integration tests"] ++
      test_output fmt_dec version unknown_result ++ [lit "TEST: All tests passed!"]).
Proof.
  destruct (fault_world_counter 0) as (w & c & Hreach & Hc & Hr & Hn).
  exists (mkT (mkG example_guest w (fun _ => 0)) 0 []).
  apply integration_tests_pass; simpl.
  - apply example_image_ok.
  - vm_compute. intuition discriminate.
  - by vm_compute.
  - rewrite Hr. by vm_compute.
  - rewrite Hr. by vm_compute.
  - reflexivity.
  - reflexivity.
  - intros trace. by eexists.
  - reflexivity.
  - split; [by exists boot_regs, 0|]. exists c. split; [done|simpl; by rewrite Hr].
  - apply example_guest_wf.
  - done.
  - done.
Defined.
End TestWitness.
