(* ===== verification/PsciTest.v ===== *)
(** * The PSCI test

    The guest program of src/tests/psci_test/src (main.rs, gic_helper.rs and
    timer_helper.rs) on the machine of Guest.v: it suspends its core in
    standby, then powers it down, each time with the timer as the wake-up, and
    waits for the timer's interrupt.  The calls go through the model of RITM;
    the GIC, the timer and the firmware are interfaces.  Time passes, and
    an unmasked interrupt can be taken, between any two instructions.

    The file shows that the wait terminates, whenever the timer fires, and that
    the whole test succeeds on the QEMU platform.  Its proofs use a small program
    logic ([tri]) over the phases of a run. *)

From Stdlib Require Import ZArith Lia.
From stdpp Require Import base tactics list gmap strings numbers.
From S2P Require Import Prelude MemoryAccess SimpleMap Stage2 Exceptions HvcResponse Pagetable.
From S2P Require Import Platform Qemu Sysregs World Hypervisor Safety Entry Calls Aborts QemuSystem.
From S2P Require Import Guest Str EndToEnd PowerDown IntegrationTest.

#[local] Open Scope Z_scope.

(** ** Devices *)

(** [IntId::ppi(14)]: private peripheral interrupts start at 16. *)
Definition INTERRUPT_ID : Z := 16 + 14.

Definition GICD_BASE : usize := 0x0800_0000.
Definition GICR_BASE : usize := 0x080a_0000.
Definition CORE_COUNT : usize := 4.

(** What gic_helper.rs asks of the [arm_gic] crate.  The interrupts it
    configures are private ones of core 0 ([cpu = Some(0)]). *)
Inductive gic_call : Type :=
| GicNew (gicd gicr cores : usize) (gic_v4 : bool)
| EnableGroup1NonSecure (enable : bool)
| EnableSystemRegisterEl1
| EnableGroup1 (enable : bool)
| SetInterruptPriority (id : Z)       (* HIGHEST_NS_PRIORITY *)
| SetGroup (id : Z)                   (* Group1NS *)
| SetTrigger (id : Z)                 (* Level *)
| EnableInterrupt (id : Z) (enable : bool).

(** What has to be in place for the timer's interrupt to reach the core. *)
Inductive setting : Type :=
| DistributorGroup1     (* the distributor forwards group 1 *)
| SystemRegisters       (* the CPU interface is used by system registers *)
| CpuGroup1             (* the CPU interface signals group 1 *)
| TimerPriority
| TimerGroup
| TimerTrigger
| TimerEnabled.

#[export] Instance setting_eq_dec : EqDecision setting.
Proof. solve_decision. Defined.

(** The GIC and the timer of the core, with what can be observed of them:
    [has], a setting is in place; [timer_enabled]; [remaining], an upper bound
    on the wake-ups until the timer's condition is met, zero when it is;
    [serving], the interrupt was acknowledged and has not ended.  [gic_do] says
    whether the call succeeded.  [tick] is the time between two instructions;
    [wfi] waits, for ever if it is [None], in the core or in the firmware's
    standby state; [power_cycle] is a power-down up to the wake-up, if it comes. *)
Class Devices : Type := {
  Dev : Type;
  has : setting -> Dev -> bool;
  timer_enabled : Dev -> bool;
  remaining : Dev -> nat;
  serving : Dev -> bool;
  gic_do : gic_call -> Dev -> bool * Dev;
  get_and_acknowledge_interrupt : Dev -> option Z * Dev;
  end_interrupt : Z -> Dev -> Dev;
  write_cntp_tval_el0 : Z -> Dev -> Dev;
  write_cntp_ctl_el0 : Z -> Dev -> Dev;
  cntfrq : u32;
  tick : Dev -> Dev;
  wfi : Dev -> option Dev;
  power_cycle : Dev -> option Dev;
}.

Definition settings : list setting :=
  [DistributorGroup1; SystemRegisters; CpuGroup1; TimerPriority; TimerGroup; TimerTrigger; TimerEnabled].

(** The interrupt is signalled to the core; it is the only source on the board. *)
Definition irq_pending `{Devices} (d : Dev) : bool :=
  forallb (fun x => has x d) settings && timer_enabled d && (remaining d =? 0)%nat && negb (serving d).

Definition CNTP_CTL_ENABLE : Z := 1.

(** What a call does to a setting. *)
Definition gic_effect (c : gic_call) (x : setting) (b : bool) : bool :=
  match c, x with
  | EnableGroup1NonSecure v, DistributorGroup1 => v
  | EnableSystemRegisterEl1, SystemRegisters => true
  | EnableGroup1 v, CpuGroup1 => v
  | SetInterruptPriority id, TimerPriority => (id =? INTERRUPT_ID) || b
  | SetGroup id, TimerGroup => (id =? INTERRUPT_ID) || b
  | SetTrigger id, TimerTrigger => (id =? INTERRUPT_ID) || b
  | EnableInterrupt id v, TimerEnabled => if id =? INTERRUPT_ID then v else b
  | _, _ => b
  end.

(** Nothing but time changed. *)
Definition same_state `{Devices} (d d' : Dev) : Prop :=
  (forall x, has x d' = has x d) /\ timer_enabled d' = timer_enabled d /\ serving d' = serving d.

(** The documented behaviour of GIC and timer.  Calls change the settings they
    are for and nothing else; the interrupt in service is not signalled again
    until it ends; the timer runs from its value to its condition; a core that
    waits with the timer running and its interrupt routed wakes up, possibly
    before the interrupt, but only finitely often; without that, nothing is
    said of waiting.  A power-down keeps what the test relies on, the timer, which
    is its wake-up, and the distributor's group; the CPU interface and the
    interrupt's own settings may be lost. *)
Class DeviceLaws `{Devices} : Prop := {
  law_gic : forall c d, fst (gic_do c d) = true /\
    (forall x, has x (snd (gic_do c d)) = gic_effect c x (has x d)) /\
    timer_enabled (snd (gic_do c d)) = timer_enabled d /\
    remaining (snd (gic_do c d)) = remaining d /\ serving (snd (gic_do c d)) = serving d;
  law_ack : forall d, irq_pending d = true -> exists d',
    get_and_acknowledge_interrupt d = (Some INTERRUPT_ID, d') /\
    (forall x, has x d' = has x d) /\ timer_enabled d' = timer_enabled d /\ serving d' = true;
  law_end : forall d, (forall x, has x (end_interrupt INTERRUPT_ID d) = has x d) /\
    timer_enabled (end_interrupt INTERRUPT_ID d) = timer_enabled d /\
    serving (end_interrupt INTERRUPT_ID d) = false;
  law_tval : forall t, exists n, forall d, let d' := write_cntp_tval_el0 t d in
    same_state d d' /\ (remaining d' <= n)%nat;
  law_ctl : forall v d, let d' := write_cntp_ctl_el0 v d in
    (forall x, has x d' = has x d) /\ timer_enabled d' = Z.testbit v 0 /\
    serving d' = serving d /\ remaining d' = remaining d;
  law_tick : forall d, same_state d (tick d) /\ (remaining (tick d) <= remaining d)%nat;
  law_wfi : forall d, (forall x, has x d = true) -> timer_enabled d = true -> serving d = false ->
    exists d', wfi d = Some d' /\ same_state d d' /\ (remaining d' <= pred (remaining d))%nat;
  law_power_cycle : forall d,
    (forall x, has x d = true) -> timer_enabled d = true -> serving d = false ->
    exists d', power_cycle d = Some d' /\ has DistributorGroup1 d' = true /\
      timer_enabled d' = true /\ serving d' = false /\ (remaining d' <= remaining d)%nat;
}.

(** PSCI function numbers. *)
Definition PSCI_SET_SUSPEND_MODE : u32 := 0x8400_000F.
Definition PSCI_CPU_SUSPEND_64 : u32 := 0xC400_0001.
Definition OS_INITIATED : u32 := 1.

Section PsciTest.
Context {PT : PageTable} {S2F : Stage2Flags} {SA : SmcccArch} {IMG : QemuImage}.
Context {SYS : ArmSysregs} {PSCI : ArmPsci} {DEC : PsciDecoder} {FW : Firmware} {DV : Devices}.
Context (is_ram : Z -> bool).

(** Compile-time facts of the payload: where its calls are made ([pc]), the
    entry point and the context id that [aarch64_rt::suspend_core] registers, the
    numbers of its two power states, and the text of external types.
    [psci_is_err]: the results the smccc crate takes for errors. *)
Record PsciPayload : Type := mkPsciPayload {
  pc : u64;
  resume_entry : u64;
  resume_context : u64;
  standby_state : u32;      (* u32::from(PowerState::StandbyOrRetention(0x01)) *)
  powerdown_state : u32;    (* u32::from(PowerState::PowerDown((1 << 12) | 0x002)) *)
  int_id_debug : Z -> Str.str;
  psci_panic_info : Str.str -> Str.str;
  psci_is_err : u64 -> bool;
}.
Context (PP : PsciPayload).

(** ** State *)

(** The machine, the devices, the statics IRQ_RECEIVED and GIC (whether it is
    initialised), the interrupt mask of the core, the lines on the UART. *)
Record pstate : Type := mkP {
  p_g : gmachine;
  p_dev : Dev;
  p_irq_received : bool;
  p_gic : bool;
  p_masked : bool;
  p_out : list Str.str;
}.

(** A step goes on with a value, panics, or ends: the core stopped, a handler
    waits for a lock its own core holds, the core waits for an interrupt that
    never comes, or the fuel of a loop is used up. *)
Inductive presult (A : Type) : Type :=
| POk (a : A) (s : pstate)
| PTestPanic (msg : Str.str) (s : pstate)
| PStopped (s : pstate)
| PDeadlock (s : pstate)
| PSleeps (s : pstate)
| POutOfFuel.
Arguments POk {A} _ _.
Arguments PTestPanic {A} _ _.
Arguments PStopped {A} _.
Arguments PDeadlock {A} _.
Arguments PSleeps {A} _.
Arguments POutOfFuel {A}.

Definition P (A : Type) : Type := pstate -> presult A.
#[export] Instance P_ret : MRet P := fun A a s => POk a s.
#[export] Instance P_bind : MBind P := fun A B k m s =>
  match m s with
  | POk a s => k a s
  | PTestPanic msg s => PTestPanic msg s
  | PStopped s => PStopped s
  | PDeadlock s => PDeadlock s
  | PSleeps s => PSleeps s
  | POutOfFuel => POutOfFuel
  end.

Definition test_panic {A} (msg : Str.str) : P A := fun s => PTestPanic msg s.
Definition psci_check (b : bool) (msg : Str.str) : P unit := if b then mret tt else test_panic msg.

Definition get_dev : P Dev := fun s => POk (p_dev s) s.
Definition on_dev (f : Dev -> Dev) : P unit := fun s =>
  POk tt (mkP (p_g s) (f (p_dev s)) (p_irq_received s) (p_gic s) (p_masked s) (p_out s)).
Definition store_irq_received (b : bool) : P unit := fun s =>
  POk tt (mkP (p_g s) (p_dev s) b (p_gic s) (p_masked s) (p_out s)).
Definition load_irq_received : P bool := fun s => POk (p_irq_received s) s.
Definition set_mask (b : bool) : P unit := fun s =>
  POk tt (mkP (p_g s) (p_dev s) (p_irq_received s) (p_gic s) b (p_out s)).

(** What a wait does: the device state when the core goes on. *)
Definition wait_with (f : Dev -> option Dev) : P unit := fun s =>
  match f (p_dev s) with
  | Some d => POk tt (mkP (p_g s) d (p_irq_received s) (p_gic s) (p_masked s) (p_out s))
  | None => PSleeps s
  end.

(** Time between two instructions while the UART's spin lock is held.  An
    interrupt taken there would spin on the lock in its handler. *)
Definition irq_taken : P bool := fun s => POk (negb (p_masked s) && irq_pending (p_dev s)) s.
Definition deadlock : P unit := fun s => PDeadlock s.
Definition uart_held : P unit :=
  _ ← on_dev tick;
  taken ← irq_taken;
  if taken : bool then deadlock else mret tt.
Definition uart_write (line : Str.str) : P unit := fun s =>
  if mapped (p_g s) UART_BASE
  then POk tt (mkP (p_g s) (p_dev s) (p_irq_received s) (p_gic s) (p_masked s)
                   (p_out s ++ [lit "TEST: " ++ line]))
  else PStopped s.

(** The code that both the handler and the rest of the payload use; [between]
    is what can happen between two instructions. *)
Section Shared.
Context (between : P unit).

Definition println (line : Str.str) : P unit :=
  _ ← uart_held;
  _ ← uart_write line;
  _ ← uart_held;
  between.

Definition timer_stop : P unit := _ ← on_dev (write_cntp_ctl_el0 0); between.

(** [GicInterrupt::ack_interrupt]. *)
Definition acknowledge : P (option Z) := fun s =>
  let '(id, d) := get_and_acknowledge_interrupt (p_dev s) in
  POk id (mkP (p_g s) d (p_irq_received s) (p_gic s) (p_masked s) (p_out s)).
Definition ack_interrupt : P Z :=
  id ← acknowledge;
  _ ← between;
  match id with
  | Some id => mret id
  | None => test_panic (lit "Failed to ack interrupt")
  end.

(** The handler of IRQs.  The interrupt ends when [interrupt] is dropped. *)
Definition irq_current : P unit :=
  _ ← println (lit "IRQ caught!");
  id ← ack_interrupt;
  _ ← println (lit "IRQ ID: " ++ int_id_debug PP id);
  _ ← (if id =? INTERRUPT_ID then
         _ ← println (lit "Timer IRQ received");
         _ ← timer_stop;
         store_irq_received true
       else println (lit "Unexpected IRQ: " ++ int_id_debug PP id));
  on_dev (end_interrupt id).
End Shared.

(** A pending interrupt is taken when it is not masked; the hardware masks
    interrupts for the handler, where only time passes between two
    instructions. *)
Definition take_irq : P unit :=
  taken ← irq_taken;
  if taken : bool then _ ← set_mask true; _ ← irq_current (on_dev tick); set_mask false else mret tt.

(** Between two instructions of the payload outside its handler. *)
Definition arrive : P unit := _ ← on_dev tick; take_irq.

(** An instruction, and what can happen before the next one. *)
Definition instr {A} (m : P A) : P A := a ← m; _ ← arrive; mret a.

(** ** timer_helper.rs and gic_helper.rs *)

Definition timer_set (ticks : u32) : P unit :=
  _ ← instr (on_dev (write_cntp_tval_el0 ticks));
  instr (on_dev (write_cntp_ctl_el0 CNTP_CTL_ENABLE)).

(** A call of the GIC's driver that cannot fail, and one whose error is
    unwrapped. *)
Definition gic (c : gic_call) : P unit := instr (on_dev (fun d => snd (gic_do c d))).
Definition gic_unwrap (c : gic_call) : P unit :=
  d ← get_dev;
  _ ← gic c;
  psci_check (fst (gic_do c d)) (lit "called `Result::unwrap()` on an `Err` value").

(** The first use of the lazy static creates the driver. *)
Definition create_gic : P unit :=
  _ ← gic (GicNew GICD_BASE GICR_BASE CORE_COUNT false);
  gic (EnableGroup1NonSecure true).
Definition gic_created : P bool := fun s => POk (p_gic s) s.
Definition set_gic_created : P unit := fun s =>
  POk tt (mkP (p_g s) (p_dev s) (p_irq_received s) true (p_masked s) (p_out s)).
Definition force_gic : P unit :=
  created ← gic_created;
  if created : bool then mret tt else _ ← create_gic; set_gic_created.

Definition irq_enable : P unit := instr (set_mask false).
Definition irq_disable : P unit := instr (set_mask true).

Definition init_core : P unit :=
  _ ← gic EnableSystemRegisterEl1;
  _ ← gic (EnableGroup1 true);
  irq_enable.

Definition setup_timer_irq : P unit :=
  _ ← force_gic;
  _ ← gic_unwrap (SetInterruptPriority INTERRUPT_ID);
  _ ← gic_unwrap (SetGroup INTERRUPT_ID);
  _ ← gic_unwrap (SetTrigger INTERRUPT_ID);
  gic_unwrap (EnableInterrupt INTERRUPT_ID true).

(** ** Calls *)

(** The registers of an HVC with three arguments, the others zero. *)
Definition call_setup (nargs : nat) (fn a0 a1 a2 : u64) (r : GuestRegisterState) : GuestRegisterState :=
  set_reg 0 fn (set_reg 1 a0 (set_reg 2 a1 (set_reg 3 a2
    (foldr (fun i => set_reg i 0) r (Z.of_nat <$> seq 4 (nargs - 3)))))).

Definition calling (f : GuestRegisterState -> GuestRegisterState) (g : gmachine) : gmachine :=
  mkG (set_exception_return (f (g_regs g)) (pc PP) (vr_spsr (volatile (g_regs g)))) (g_world g) (g_mem g).

(** The HVC: x0 after it.  RITM returns behind the instruction, or the core
    stops. *)
Definition hvc (nargs : nat) (fn a0 a1 a2 : u64) : P u64 := fun s =>
  let at_ g := mkP g (p_dev s) (p_irq_received s) (p_gic s) (p_masked s) (p_out s) in
  let g := calling (call_setup nargs fn a0 a1 a2) (p_g s) in
  match gstep is_ram (ACall false) g with
  | Runs g' =>
      if vr_elr (volatile (g_regs g')) =? pc PP + 4
      then POk (default 0 (read_gpr (g_regs g') 0)) (at_ g') else PStopped (at_ g')
  | Stops w mem => PStopped (at_ (mkG (g_regs g) w mem))
  end.

(** [psci::set_suspend_mode::<Hvc>] reads w0, [aarch64_rt::suspend_core::<Hvc>]
    makes the 64-bit call; [true]: success. *)
Definition set_suspend_mode (mode : u32) : P bool :=
  x0 ← instr (hvc 7 PSCI_SET_SUSPEND_MODE mode 0 0);
  mret (negb (psci_is_err PP (x0 mod 2 ^ 32))).
Definition suspend_core_hvc (pstate : u32) : P bool :=
  x0 ← hvc 17 PSCI_CPU_SUSPEND_64 pstate (resume_entry PP) (resume_context PP);
  let ok := negb (psci_is_err PP x0) in
  _ ← instr (if ok then wait_with wfi else mret tt);   (* the standby itself *)
  mret ok.

(** ** main.rs *)

Definition reset_irq_received : P unit := instr (store_irq_received false).

(** [exception_free] masks interrupts around its closure and restores the
    mask. *)
Definition get_mask : P bool := fun s => POk (p_masked s) s.
Definition exception_free {A} (body : P A) : P A :=
  masked ← get_mask;
  _ ← instr (set_mask true);
  a ← body;
  _ ← instr (set_mask masked);
  mret a.

(** One evaluation of the loop's condition. *)
Definition poll_irq : P bool :=
  exception_free
    (received ← instr load_irq_received;
     _ ← (if received : bool then mret tt else instr (wait_with wfi));
     mret received).

Fixpoint wait_for_irq (fuel : nat) : P unit :=
  match fuel with
  | O => fun _ => POutOfFuel
  | S fuel => received ← poll_irq; if received : bool then mret tt else wait_for_irq fuel
  end.

(** What [test_standby] and [test_powerdown] do alike before the suspend. *)
Definition prepare (line : Str.str) (divisor : u32) (next : Str.str) : P unit :=
  _ ← println arrive line;
  let duration := cntfrq / divisor in
  _ ← reset_irq_received;
  _ ← irq_disable;
  _ ← setup_timer_irq;
  _ ← timer_set duration;
  println arrive next.

Definition test_standby (fuel : nat) : P unit :=
  _ ← prepare (lit "Testing Standby...") 100 (lit "Calling cpu_suspend (Standby)...");
  ok ← suspend_core_hvc (standby_state PP);
  _ ← psci_check ok (lit "FAILED: Standby cpu_suspend returned error");
  _ ← println arrive (lit "Returned from cpu_suspend (Standby)");
  _ ← irq_enable;
  _ ← wait_for_irq fuel;
  println arrive (lit "Standby Passed").

(** [test_powerdown], up to the power-down. *)
Definition test_powerdown : P unit :=
  _ ← prepare (lit "Testing PowerDown...") 10 (lit "Suspending (PowerDown)...");
  ok ← suspend_core_hvc (powerdown_state PP);
  _ ← psci_check ok (lit "FAILED: PowerDown cpu_suspend returned unexpectedly");
  test_panic (lit "internal error: entered unreachable code: PowerDown suspend should never return").

Definition powerdown_resume (fuel : nat) : P unit :=
  _ ← init_core;
  _ ← setup_timer_irq;
  _ ← irq_enable;
  _ ← wait_for_irq fuel;
  _ ← println arrive (lit "PowerDown Passed");
  println arrive (lit "All tests passed!").

(** [main] before [test_powerdown]. *)
Definition psci_tests (fuel : nat) : P unit :=
  _ ← println arrive (lit "Starting PSCI OSI Test");
  _ ← init_core;
  ok ← set_suspend_mode OS_INITIATED;
  _ ← psci_check ok (lit "FAILED: set_suspend_mode(OsInitiated) failed");
  _ ← println arrive (lit "OSI Mode Enabled");
  test_standby fuel.

(** How the payload ends. *)
Inductive psci_end : Type :=
| PsciPoweredOff (out : list Str.str)
| PsciWaitsForever (out : list Str.str)
| PsciHangs (out : list Str.str)
| PsciSleeps (out : list Str.str)
| PsciOutOfFuel.

Definition psci_power_off (s : pstate) : psci_end :=
  match hvc 7 PSCI_CPU_OFF 0 0 0 s with
  | PStopped s' => PsciPoweredOff (p_out s')
  | _ => PsciWaitsForever (p_out s)
  end.

(** The panic handler takes the UART's lock as well. *)
Definition psci_panic_handler (msg : Str.str) (s : pstate) : psci_end :=
  psci_power_off (mkP (p_g s) (p_dev s) (p_irq_received s) (p_gic s) (p_masked s)
                      (p_out s ++ [lit "PANIC: " ++ psci_panic_info PP msg])).

(** The end of a run that is not expected to stop. *)
Definition finish {A} (r : presult A) (next : pstate -> psci_end) : psci_end :=
  match r with
  | POk _ s => next s
  | PTestPanic msg s => psci_panic_handler msg s
  | PStopped s => PsciPoweredOff (p_out s)
  | PDeadlock s => PsciHangs (p_out s)
  | PSleeps s => PsciSleeps (p_out s)
  | POutOfFuel => PsciOutOfFuel
  end.

(** The wake-up of the core that was powered down: with the given system
    registers it comes back through RITM's resume path, interrupts masked; at
    the entry point, the code of aarch64_rt calls [powerdown_resume]. *)
Definition wake (regs : sysregs) (s : pstate) : option pstate :=
  match gstep is_ram AResume
      (mkG (g_regs (p_g s)) (with_sysregs (g_world (p_g s)) regs) (g_mem (p_g s))), power_cycle (p_dev s) with
  | Runs g, Some d =>
      if (vr_elr (volatile (g_regs g)) =? resume_entry PP) &&
         bool_decide (read_gpr (g_regs g) 0 = Some (resume_context PP))
      then Some (mkP g d (p_irq_received s) (p_gic s) true (p_out s))
      else None
  | _, _ => None
  end.

Definition psci_main (fuel : nat) (wake_regs : sysregs) (s : pstate) : psci_end :=
  finish (psci_tests fuel s) (fun s =>
    match test_powerdown s with
    | PStopped s1 =>
        match wake wake_regs s1 with
        | Some s2 => finish (powerdown_resume fuel s2) psci_power_off
        | None => PsciPoweredOff (p_out s1)
        end
    | r => finish r psci_power_off
    end).

(** ** A logic of runs *)

(** From every state of [Pre] the code goes on, to a state of [Post]. *)
Definition tri {A} (Pre : pstate -> Prop) (m : P A) (Post : A -> pstate -> Prop) : Prop :=
  forall s, Pre s -> exists a s', m s = POk a s' /\ Post a s'.

Lemma tri_ret {A} (a : A) (Post : A -> pstate -> Prop) : tri (Post a) (mret a) Post.
Proof. intros s Hs. by exists a, s. Qed.

Lemma tri_bind {A B} Pre (m : P A) Mid (k : A -> P B) Post :
  tri Pre m Mid -> (forall a, tri (Mid a) (k a) Post) -> tri Pre (m ≫= k) Post.
Proof.
  intros Hm Hk s Hs. destruct (Hm s Hs) as (a & s1 & E1 & H1). destruct (Hk a s1 H1) as (b & s2 & E2 & H2).
  exists b, s2. split; [|done]. unfold mbind, P_bind. by rewrite E1.
Qed.

Lemma tri_pre {A} (Pre Pre' : pstate -> Prop) (m : P A) Post :
  (forall s, Pre s -> Pre' s) -> tri Pre' m Post -> tri Pre m Post.
Proof. intros Hp Hm s Hs. by apply Hm, Hp. Qed.

Lemma tri_post {A} Pre (m : P A) (Post Post' : A -> pstate -> Prop) :
  (forall a s, Post' a s -> Post a s) -> tri Pre m Post' -> tri Pre m Post.
Proof. intros Hp Hm s Hs. destruct (Hm s Hs) as (a & s' & E & H). exists a, s'. auto. Qed.

Lemma tri_or {A} (Pre Pre' : pstate -> Prop) (m : P A) Post :
  tri Pre m Post -> tri Pre' m Post -> tri (fun s => Pre s \/ Pre' s) m Post.
Proof. intros H H' s [Hs|Hs]; auto. Qed.

(** ** Lemmas: devices and interrupts *)

Context {DL : DeviceLaws}.

(** Lines reach the UART. *)
Definition up (g : gmachine) : Prop := mapped g UART_BASE = true.

(** What is known of the timer: whether it runs, whether its interrupt is in
    service, and after how many wake-ups its condition is met. *)
Record timer : Type := mkT { t_on : bool; t_serving : bool; t_bound : option nat }.
Definition off : timer := mkT false false None.
Definition armed (n : nat) : timer := mkT true false (Some n).

Definition timer_is (t : timer) (d : Dev) : Prop :=
  timer_enabled d = t_on t /\ serving d = t_serving t /\ forall n, t_bound t = Some n -> (remaining d <= n)%nat.

(** The settings [S] are in place. *)
Definition configured (S : setting -> bool) (d : Dev) : Prop := forall x, S x = true -> has x d = true.
Definition every (x : setting) : bool := true.

Lemma pending_spec d :
  irq_pending d = true <-> configured every d /\ timer_is (armed 0) d.
Proof.
  unfold irq_pending, configured, timer_is. rewrite !andb_true_iff, forallb_forall, Nat.eqb_eq, negb_true_iff. simpl.
  split.
  - intros [[[Ha Ht] Hn] Hs]. split; [|split_and!; [done..|intros n [= <-]; lia]].
    intros x _. apply Ha. destruct x; simpl; tauto.
  - intros [Ha (Ht & Hs & Hn)]. specialize (Hn 0%nat eq_refl). split_and!; [|done|lia|done].
    intros x _. by apply Ha.
Qed.

(** Everything that is known of a state.  The devices are the only part that
    can change by itself. *)
Record known (g : gmachine) (c : bool) (S : setting -> bool) (mk r : bool) (t : timer)
    (o : list Str.str) (s : pstate) : Prop := {
  kn_g : p_g s = g;
  kn_gic : p_gic s = c;
  kn_settings : configured S (p_dev s);
  kn_masked : p_masked s = mk;
  kn_received : p_irq_received s = r;
  kn_timer : timer_is t (p_dev s);
  kn_out : p_out s = o;
}.

(** No interrupt is taken. *)
Definition calm (mk : bool) (t : timer) : Prop := mk = true \/ t_on t = false.

Lemma calm_not_taken g c S mk r t o s :
  calm mk t -> known g c S mk r t o s -> irq_taken s = POk false s.
Proof.
  intros Hc [_ _ _ Hm _ (Ht & _ & _) _]. unfold irq_taken. rewrite Hm.
  destruct Hc as [->|Hc]; [done|]. destruct (irq_pending (p_dev s)) eqn:Hp; [|by rewrite andb_false_r].
  apply pending_spec in Hp as [_ (Hon & _)]. simpl in Hon. congruence.
Qed.

(** What a change of the devices does, on what is known. *)
Lemma known_dev (f : Dev -> Dev) g c S S' mk r t t' o :
  (forall d, configured S d -> timer_is t d -> configured S' (f d) /\ timer_is t' (f d)) ->
  tri (known g c S mk r t o) (on_dev f) (fun _ => known g c S' mk r t' o).
Proof.
  intros Hf s [Hg Hc HS Hm Hr Ht Ho]. eexists _, _. split; [reflexivity|].
  destruct (Hf _ HS Ht). by constructor.
Qed.

Lemma known_tick g c S mk r t o :
  tri (known g c S mk r t o) (on_dev tick) (fun _ => known g c S mk r t o).
Proof.
  apply known_dev. intros d HS (Hon & Hs & Hn). destruct (law_tick d) as [(Hh & Ht' & Hs') Hle]. split.
  - intros x Hx. rewrite Hh. auto.
  - unfold timer_is. rewrite Ht', Hs'. split_and!; [done..|]. intros n E. specialize (Hn n E). lia.
Qed.

Lemma known_mask b g c S mk r t o :
  tri (known g c S mk r t o) (set_mask b) (fun _ => known g c S b r t o).
Proof. intros s [Hg Hc HS Hm Hr Ht Ho]. eexists _, _. split; [reflexivity|]. by constructor. Qed.

Lemma known_store b g c S mk r t o :
  tri (known g c S mk r t o) (store_irq_received b) (fun _ => known g c S mk b t o).
Proof. intros s [Hg Hc HS Hm Hr Ht Ho]. eexists _, _. split; [reflexivity|]. by constructor. Qed.

Lemma known_uart_held g c S mk r t o :
  calm mk t -> tri (known g c S mk r t o) uart_held (fun _ => known g c S mk r t o).
Proof.
  intros Hc. eapply tri_bind; [apply known_tick|]. intros _ s Hs. exists tt, s. split; [|done].
  unfold mbind, P_bind. by rewrite (calm_not_taken _ _ _ _ _ _ _ _ Hc Hs).
Qed.

Definition out_lines (l : list Str.str) : list Str.str := (fun line => lit "TEST: " ++ line) <$> l.

Lemma known_println between line g c S mk r t o :
  up g -> calm mk t ->
  (forall o, tri (known g c S mk r t o) between (fun _ => known g c S mk r t o)) ->
  tri (known g c S mk r t o) (println between line) (fun _ => known g c S mk r t (o ++ out_lines [line])).
Proof.
  intros Hu Hc Hb. eapply tri_bind; [by apply known_uart_held|intros ?].
  apply (tri_bind _ _ (fun _ => known g c S mk r t (o ++ out_lines [line])));
    [|intros ?; eapply tri_bind; [by apply known_uart_held|intros ?; apply Hb]].
  intros s [Hg Hgic HS Hm Hr Ht Ho]. eexists tt, _. split.
  - unfold uart_write. rewrite Hg, Hu. reflexivity.
  - constructor; try done. simpl. by rewrite Ho.
Qed.

(** The handler, when the interrupt is pending. *)
Definition irq_lines : list Str.str :=
  out_lines [lit "IRQ caught!"; lit "IRQ ID: " ++ int_id_debug PP INTERRUPT_ID; lit "Timer IRQ received"].

Lemma known_acknowledge g c mk r o :
  tri (known g c every mk r (armed 0) o) acknowledge
    (fun id s => id = Some INTERRUPT_ID /\ known g c every mk r (mkT true true None) o s).
Proof.
  intros s [Hg Hc HS Hm Hr Ht Ho].
  destruct (law_ack (p_dev s)) as (d' & E & Hh & Hon & Hsv); [by apply pending_spec|].
  exists (Some INTERRUPT_ID). eexists. split; [unfold acknowledge; by rewrite E|]. split; [done|].
  constructor; try done; simpl.
  - intros x _. rewrite Hh. by apply HS.
  - split_and!; [|done..]. rewrite Hon. apply Ht.
Qed.

Lemma known_ctl v g c S mk r on sv b o :
  tri (known g c S mk r (mkT on sv b) o) (on_dev (write_cntp_ctl_el0 v))
    (fun _ => known g c S mk r (mkT (Z.testbit v 0) sv b) o).
Proof.
  apply known_dev. intros d HS (Hon & Hs & Hn). destruct (law_ctl v d) as (Hh & Ht & Hsv & Hrem). split.
  - intros x Hx. rewrite Hh. auto.
  - unfold timer_is. simpl in *. rewrite Ht, Hsv, Hrem. by split_and!.
Qed.

Lemma known_irq_current g c o :
  up g ->
  tri (known g c every true false (armed 0) o) (irq_current (on_dev tick))
    (fun _ => known g c every true true off (o ++ irq_lines)).
Proof.
  intros Hu. unfold irq_current.
  replace (o ++ irq_lines) with (((o ++ out_lines [lit "IRQ caught!"]) ++
    out_lines [lit "IRQ ID: " ++ int_id_debug PP INTERRUPT_ID]) ++ out_lines [lit "Timer IRQ received"])
    by by rewrite <- !app_assoc.
  assert (Hp : forall line r t o, tri (known g c every true r t o) (println (on_dev tick) line)
    (fun _ => known g c every true r t (o ++ out_lines [line]))).
  { intros. apply known_println; [done|by left|]. intros. apply known_tick. }
  eapply tri_bind; [apply Hp|intros ?].
  eapply tri_bind; [|intros id].
  { refine (tri_bind _ _ _ _ (fun id s => id = INTERRUPT_ID /\
      known g c every true false (mkT true true None) (o ++ out_lines [lit "IRQ caught!"]) s)
      (known_acknowledge _ _ _ _ _) _). intros id.
    apply (tri_bind _ _ (fun _ s => id = Some INTERRUPT_ID /\
      known g c every true false (mkT true true None) (o ++ out_lines [lit "IRQ caught!"]) s)).
    - intros s0 [-> Hs]. destruct (known_tick _ _ _ _ _ _ _ s0 Hs) as (b & s' & E & Hs').
      exists b, s'. by split_and!.
    - intros _ s0 [-> Hs]. exists INTERRUPT_ID, s0. split; [done|]. exact (conj eq_refl Hs). }
  intros s [Hid Hs]. subst id. revert s Hs. eapply tri_bind; [apply Hp|intros ?]. rewrite Z.eqb_refl.
  set (out := _ ++ out_lines [lit "Timer IRQ received"]).
  apply (tri_bind _ _ (fun _ => known g c every true true (mkT false true None) out)).
  - eapply tri_bind; [apply Hp|intros ?].
    apply (tri_bind _ _ (fun _ => known g c every true false (mkT false true None) out));
      [|intros ?; apply known_store].
    unfold timer_stop. eapply tri_bind; [apply known_ctl|intros ?]. apply known_tick.
  - intros ?. apply known_dev. intros d HS (Hon & Hs & _). destruct (law_end d) as (Hh & Ht & Hsv). split.
    + intros x Hx. rewrite Hh. auto.
    + split_and!; [by rewrite Ht|done..].
Qed.

(** Where a run is: nothing is taken while the given facts hold; or the timer
    runs and its interrupt has not come, or was handled, which printed its
    lines. *)
Inductive phase : Type :=
| At (r : bool) (t : timer) (o : list Str.str)
| Awaiting (n : nat) (o : list Str.str).

Definition in_phase (g : gmachine) (c : bool) (S : setting -> bool) (mk : bool) (ph : phase) (s : pstate) : Prop :=
  match ph with
  | At r t o => calm mk t /\ known g c S mk r t o s
  | Awaiting n o => known g c S mk false (armed n) o s \/ known g c S mk true off (o ++ irq_lines) s
  end.

Lemma known_weaken g c S S' mk r t o s :
  (forall x, S' x = true -> S x = true) -> known g c S mk r t o s -> known g c S' mk r t o s.
Proof. intros Hle [Hg Hc HS Hm Hr Ht Ho]. constructor; try done. intros x Hx. auto. Qed.

Lemma phase_weaken g c S S' mk ph s :
  (forall x, S' x = true -> S x = true) -> in_phase g c S mk ph s -> in_phase g c S' mk ph s.
Proof.
  intros Hle. destruct ph as [r t o|n o].
  - intros [Hc Hs]. split; [done|]. by eapply known_weaken.
  - intros [Hs|Hs]; [left|right]; by eapply known_weaken.
Qed.

(** A timer whose condition is met, its interrupt routed and not masked. *)
Lemma known_taken g c S o s :
  up g -> irq_pending (p_dev s) = true -> known g c S false false (armed 0) o s \/
    (exists n, known g c S false false (armed n) o s) ->
  exists s', take_irq s = POk tt s' /\ known g c every false true off (o ++ irq_lines) s'.
Proof.
  intros Hu Hp Hs. assert (Hs' : known g c every false false (armed 0) o s).
  { apply pending_spec in Hp as [Hev H0].
    destruct Hs as [[Hg Hc HS Hm Hr Ht Ho]|(n & [Hg Hc HS Hm Hr Ht Ho])]; by constructor. }
  destruct (known_mask true _ _ _ _ _ _ _ s Hs') as (a1 & s1 & E1 & H1).
  destruct (known_irq_current g c o Hu s1 H1) as (a2 & s2 & E2 & H2).
  destruct (known_mask false _ _ _ _ _ _ _ s2 H2) as (a3 & s3 & E3 & H3). destruct a1, a2, a3.
  exists s3. split; [|done]. unfold take_irq, irq_taken, mbind, P_bind.
  rewrite (kn_masked _ _ _ _ _ _ _ _ Hs'), Hp. cbn [negb andb]. by rewrite E1, E2.
Qed.

Lemma take_irq_none s : irq_taken s = POk false s -> take_irq s = POk tt s.
Proof. intros H. unfold take_irq, mbind, P_bind. by rewrite H. Qed.

Lemma phase_take g c S mk ph :
  up g -> tri (in_phase g c S mk ph) take_irq (fun _ => in_phase g c S mk ph).
Proof.
  intros Hu s Hs. destruct ph as [r t o|n o].
  - exists tt, s. split; [|done]. destruct Hs as [Hc Hs]. eapply take_irq_none, calm_not_taken; done.
  - destruct Hs as [Hs|Hs].
    + destruct (irq_taken s) as [b s1|?? |? |? |? |] eqn:E; try done. unfold irq_taken in E.
      injection E as Hb <-. destruct b.
      * apply andb_true_iff in Hb as [Hm%negb_true_iff Hp]. rewrite (kn_masked _ _ _ _ _ _ _ _ Hs) in Hm.
        subst mk. destruct (known_taken g c S o s Hu Hp) as (s' & Ht & Hk); [right; by exists n|].
        exists tt, s'. split; [done|]. right. by eapply known_weaken.
      * exists tt, s. split; [|by left]. apply take_irq_none. unfold irq_taken. by rewrite Hb.
    + exists tt, s. split; [|by right]. eapply take_irq_none, calm_not_taken; [|exact Hs]. by right.
Qed.

(** What holds of a state in each case of a phase holds of the phase. *)
Lemma phase_case {A} g c S mk (m : P A) g' c' S' mk' ph :
  (forall r t o, tri (known g c S mk r t o) m (fun a s => known g' c' S' mk' r t o s)) ->
  (forall r t o, ph = At r t o -> calm mk t -> calm mk' t) ->
  tri (in_phase g c S mk ph) m (fun _ => in_phase g' c' S' mk' ph).
Proof.
  intros H Hc s. destruct ph as [r t o|n o].
  - intros [Hcm Hs]. destruct (H r t o s Hs) as (a & s' & E & Hs'). exists a, s'.
    split; [done|]. split; [by eapply Hc|done].
  - intros [Hs|Hs]; destruct (H _ _ _ s Hs) as (a & s' & E & Hs'); exists a, s'; (split; [done|]);
      [by left|by right].
Qed.

Lemma phase_arrive g c S mk ph :
  up g -> tri (in_phase g c S mk ph) arrive (fun _ => in_phase g c S mk ph).
Proof.
  intros Hu. eapply tri_bind; [|intros ?; by apply phase_take].
  apply phase_case; [intros; apply known_tick|done].
Qed.

Lemma phase_instr {A} Pre (m : P A) g c (S : A -> setting -> bool) (mk : A -> bool) (ph : A -> phase) :
  up g -> tri Pre m (fun a => in_phase g c (S a) (mk a) (ph a)) ->
  tri Pre (instr m) (fun a => in_phase g c (S a) (mk a) (ph a)).
Proof.
  intros Hu Hm. eapply tri_bind; [exact Hm|intros a].
  apply (tri_bind _ _ (fun _ => in_phase g c (S a) (mk a) (ph a))); [by apply phase_arrive|intros ?].
  exact (tri_ret a (fun a => in_phase g c (S a) (mk a) (ph a))).
Qed.

Lemma phase_println line g c S mk r t o :
  up g -> tri (in_phase g c S mk (At r t o)) (println arrive line)
              (fun _ => in_phase g c S mk (At r t (o ++ out_lines [line]))).
Proof.
  intros Hu s [Hc Hs].
  destruct (known_println arrive line g c S mk r t o Hu Hc) with (s := s) as (a & s' & E & H); [|done|].
  - intros o'. refine (tri_post _ _ _ (fun _ => in_phase g c S mk (At r t o')) _
      (tri_pre _ _ _ _ _ (phase_arrive g c S mk (At r t o') Hu))).
    + by intros _ s' [_ H].
    + by split.
  - exists a, s'. by split_and!.
Qed.

(** *** Instructions *)

Lemma phase_mask b g c S mk ph :
  up g -> (forall r t o, ph = At r t o -> calm mk t -> calm b t) ->
  tri (in_phase g c S mk ph) (instr (set_mask b)) (fun _ => in_phase g c S b ph).
Proof.
  intros Hu Hc. apply (phase_instr _ _ g c (fun _ => S) (fun _ => b) (fun _ => ph) Hu).
  apply phase_case; [intros; apply known_mask|done].
Qed.

(** Unmasked, a timer that runs may interrupt. *)
Lemma phase_unmask g c S mk n o :
  up g -> tri (in_phase g c S mk (At false (armed n) o)) irq_enable
              (fun _ => in_phase g c S false (Awaiting n o)).
Proof.
  intros Hu. apply (tri_pre _ (in_phase g c S mk (Awaiting n o))).
  - intros s [_ Hs]. by left.
  - by apply phase_mask.
Qed.

Lemma phase_reset g c S mk r t o :
  up g -> tri (in_phase g c S mk (At r t o)) reset_irq_received
              (fun _ => in_phase g c S mk (At false t o)).
Proof.
  intros Hu. apply (phase_instr _ _ g c (fun _ => S) (fun _ => mk) (fun _ => At false t o) Hu).
  intros s [Hc Hs]. destruct (known_store false _ _ _ _ _ _ _ s Hs) as (a & s' & E & H).
  exists a, s'. by split_and!.
Qed.

(** *** The GIC *)

Lemma effect_mono c x b b' : (b = true -> b' = true) -> gic_effect c x b = true -> gic_effect c x b' = true.
Proof.
  intros H. destruct c, x; simpl; try done; try (by rewrite !orb_true_iff; intuition).
  destruct (_ =? _); [done|exact H].
Qed.

Lemma phase_gic call g c S mk ph :
  up g -> tri (in_phase g c S mk ph) (gic call) (fun _ => in_phase g c (fun x => gic_effect call x (S x)) mk ph).
Proof.
  intros Hu. unfold gic.
  apply (phase_instr _ _ g c (fun _ x => gic_effect call x (S x)) (fun _ => mk) (fun _ => ph) Hu).
  apply phase_case; [|done]. intros r t o. apply known_dev. intros d HS (Hon & Hs & Hn).
  destruct (law_gic call d) as (_ & Hh & Ht & Hrem & Hsv). split.
  - intros x Hx. rewrite Hh. revert Hx. apply effect_mono, HS.
  - unfold timer_is. by rewrite Ht, Hrem, Hsv.
Qed.

Lemma phase_gic_unwrap call g c S mk ph :
  up g -> tri (in_phase g c S mk ph) (gic_unwrap call)
              (fun _ => in_phase g c (fun x => gic_effect call x (S x)) mk ph).
Proof.
  intros Hu s Hs. destruct (phase_gic call g c S mk ph Hu s Hs) as (a & s' & E & H).
  exists tt, s'. split; [|done]. unfold gic_unwrap, get_dev. unfold mbind, P_bind. rewrite E.
  unfold psci_check. by rewrite (proj1 (law_gic call (p_dev s))).
Qed.

(** The driver exists only after group 1 was enabled in the distributor. *)
Definition created (c : bool) (S : setting -> bool) : Prop := c = true -> S DistributorGroup1 = true.

Definition with_settings (l : list setting) (S : setting -> bool) (x : setting) : bool :=
  existsb (fun y => bool_decide (x = y)) l || S x.

Lemma phase_force_gic g c S mk ph :
  up g -> created c S ->
  tri (in_phase g c S mk ph) force_gic (fun _ => in_phase g true (with_settings [DistributorGroup1] S) mk ph).
Proof.
  intros Hu Hc. unfold force_gic. destruct c.
  - intros s Hs. exists tt, s. split.
    + unfold gic_created, mbind, P_bind.
      assert (Hg : p_gic s = true) by (destruct ph; [by destruct Hs as [_ []]|by destruct Hs as [[]|[]]]).
      by rewrite Hg.
    + eapply phase_weaken; [|exact Hs]. intros x. destruct x; vm_compute; auto.
  - apply (tri_bind _ _ (fun b s => b = false /\ in_phase g false S mk ph s)).
    + intros s Hs. exists false, s. split; [|done]. unfold gic_created.
      assert (Hg : p_gic s = false) by (destruct ph; [by destruct Hs as [_ []]|by destruct Hs as [[]|[]]]).
      by rewrite Hg.
    + intros b s [-> Hs]. revert s Hs. eapply tri_bind.
      * unfold create_gic. eapply tri_bind; [by apply phase_gic|intros ?]. by apply phase_gic.
      * intros ?. eapply tri_pre; [|apply (phase_case g false (with_settings [DistributorGroup1] S) mk)].
        -- intros s Hs. cbv beta in Hs. eapply phase_weaken; [|exact Hs].
           intros x. destruct x; vm_compute; auto.
        -- intros r t o s [Hg Hgc HS Hm Hr Ht Ho]. eexists _, _. split; [reflexivity|]. by constructor.
        -- done.
Qed.

Definition timer_settings : list setting :=
  [DistributorGroup1; TimerPriority; TimerGroup; TimerTrigger; TimerEnabled].

Lemma phase_setup g c S mk ph :
  up g -> created c S ->
  tri (in_phase g c S mk ph) setup_timer_irq
    (fun _ => in_phase g true (with_settings timer_settings S) mk ph).
Proof.
  intros Hu Hc. eapply tri_bind; [by apply phase_force_gic|intros ?].
  do 3 (eapply tri_bind; [by apply phase_gic_unwrap|intros ?]).
  eapply tri_post; [|by apply phase_gic_unwrap]. intros ? s Hs. eapply phase_weaken; [|exact Hs].
  intros x. destruct x; vm_compute; auto.
Qed.

(** [init_core], without its last instruction. *)
Lemma phase_init_core g c S mk ph mk' ph' :
  up g ->
  tri (in_phase g c (with_settings [SystemRegisters; CpuGroup1] S) mk ph) irq_enable
      (fun _ => in_phase g c (with_settings [SystemRegisters; CpuGroup1] S) mk' ph') ->
  tri (in_phase g c S mk ph) init_core
      (fun _ => in_phase g c (with_settings [SystemRegisters; CpuGroup1] S) mk' ph').
Proof.
  intros Hu Hen. do 2 (eapply tri_bind; [by apply phase_gic|intros ?]).
  eapply tri_pre; [|exact Hen]. intros s Hs. eapply phase_weaken; [|exact Hs].
  intros x. destruct x; vm_compute; auto.
Qed.

(** *** The timer *)

(** The value [t] runs out after at most [n] wake-ups. *)
Definition runs_out (t : Z) (n : nat) : Prop :=
  forall d, same_state d (write_cntp_tval_el0 t d) /\ (remaining (write_cntp_tval_el0 t d) <= n)%nat.

Lemma runs_out_ex t : exists n, runs_out t n.
Proof. destruct (law_tval t) as [n H]. exists n. intros d. apply H. Qed.

Lemma phase_timer_set t n g c S r o :
  up g -> runs_out t n ->
  tri (in_phase g c S true (At r off o)) (timer_set t)
      (fun _ => in_phase g c S true (At r (armed n) o)).
Proof.
  intros Hu Hn. apply (tri_bind _ _ (fun _ => in_phase g c S true (At r (mkT false false (Some n)) o))).
  - apply (phase_instr _ _ g c (fun _ => S) (fun _ => true) (fun _ => At r (mkT false false (Some n)) o) Hu).
    intros s [_ Hs]. refine (tri_post _ _ _ _ _ (known_dev _ g c S S _ _ off (mkT false false (Some n)) o _) s Hs).
    + intros ? s' Hs'. by split; [left|].
    + intros d HS (Hon & Hsv & _). destruct (Hn d) as [(Hh & Ht & Hs') Hle]. split.
      * intros x Hx. rewrite Hh. auto.
      * unfold timer_is. rewrite Ht, Hs'. split_and!; [done..|]. by intros ? [= <-].
  - intros ?. apply (phase_instr _ _ g c (fun _ => S) (fun _ => true) (fun _ => At r (armed n) o) Hu).
    intros s [_ Hs]. refine (tri_post _ _ _ _ _ (known_ctl CNTP_CTL_ENABLE _ _ _ _ _ _ _ _ _) s Hs).
    intros ? s' Hs'. by split; [left|].
Qed.

(** *** The wait *)

Lemma phase_wfi n g c r o (f : Dev -> option Dev) :
  up g ->
  (forall d, configured every d -> timer_is (armed n) d ->
    exists d', f d = Some d' /\ same_state d d' /\ (remaining d' <= pred (remaining d))%nat) ->
  tri (in_phase g c every true (At r (armed n) o)) (instr (wait_with f))
      (fun _ => in_phase g c every true (At r (armed (pred n)) o)).
Proof.
  intros Hu Hf.
  apply (phase_instr _ _ g c (fun _ => every) (fun _ => true) (fun _ => At r (armed (pred n)) o) Hu).
  intros s [_ [Hg Hc HS Hm Hr Ht Ho]].
  destruct (Hf (p_dev s) HS Ht) as (d' & E & (Hh & Hon & Hsv) & Hle).
  eexists tt, _. split; [unfold wait_with; rewrite E; reflexivity|]. split; [by left|].
  destruct Ht as (Ht & Hs & Hn). constructor; try done; cbn [p_dev].
  - intros x Hx. rewrite Hh. auto.
  - unfold timer_is. rewrite Hon, Hsv. split_and!; [done..|]. intros ? [= <-].
    specialize (Hn n eq_refl). simpl in *. lia.
Qed.

Lemma wfi_wakes n d :
  configured every d -> timer_is (armed n) d ->
  exists d', wfi d = Some d' /\ same_state d d' /\ (remaining d' <= pred (remaining d))%nat.
Proof. intros HS (Hon & Hsv & _). apply law_wfi; [|done..]. intros x. by apply HS. Qed.

(** Unmasking with the interrupt due runs the handler. *)
Lemma unmask_due g c r o :
  up g -> r = false ->
  tri (in_phase g c every true (At r (armed 0) o)) (instr (set_mask false))
      (fun _ => in_phase g c every false (At true off (o ++ irq_lines))).
Proof.
  intros Hu -> s [_ Hs]. destruct (known_mask false _ _ _ _ _ _ _ s Hs) as (a1 & s1 & E1 & H1).
  destruct (known_tick _ _ _ _ _ _ _ s1 H1) as (a2 & s2 & E2 & H2). destruct a1, a2.
  destruct (known_taken g c every o s2 Hu) as (s3 & E3 & H3).
  { apply pending_spec. split; [apply (kn_settings _ _ _ _ _ _ _ _ H2)|apply (kn_timer _ _ _ _ _ _ _ _ H2)]. }
  { by left. }
  exists tt, s3. split; [|by split; [right|]].
  unfold instr, arrive, mbind, P_bind. by rewrite E1, E2, E3.
Qed.

(** After a poll that received nothing: the timer runs, or its interrupt was
    taken when the mask was restored, at the latest when it was due. *)
Definition polled (g : gmachine) (c : bool) (n : nat) (o : list Str.str) (received : bool) (s : pstate) : Prop :=
  if received then in_phase g c every false (At true off (o ++ irq_lines)) s
  else match n with
       | O => in_phase g c every false (At true off (o ++ irq_lines)) s
       | S n => in_phase g c every false (Awaiting n o) s
       end.

Lemma phase_load g c n o :
  up g ->
  tri (in_phase g c every true (Awaiting n o)) (instr load_irq_received)
      (fun b => in_phase g c every true (if b then At true off (o ++ irq_lines) else At false (armed n) o)).
Proof.
  intros Hu. apply (phase_instr _ _ g c (fun _ => every) (fun _ => true)
    (fun b : bool => if b then At true off (o ++ irq_lines) else At false (armed n) o) Hu).
  intros s Hs. exists (p_irq_received s), s. split; [done|].
  destruct Hs as [Hs|Hs]; rewrite (kn_received _ _ _ _ _ _ _ _ Hs); by split; [left|].
Qed.

Lemma phase_poll g c n o :
  up g -> tri (in_phase g c every false (Awaiting n o)) poll_irq (polled g c n o).
Proof.
  intros Hu. apply (tri_bind _ _ (fun b s => b = false /\ in_phase g c every false (Awaiting n o) s)).
  { intros s Hs. exists false, s. split; [|done]. unfold get_mask.
    assert (Hm : p_masked s = false) by by destruct Hs as [[]|[]]. by rewrite Hm. }
  intros b s [-> Hs]. revert s Hs.
  eapply tri_bind; [by apply (phase_mask true _ _ _ _ _ Hu); left|intros ?].
  apply (tri_bind _ _ (fun b : bool => in_phase g c every true
    (if b then At true off (o ++ irq_lines) else At false (armed (pred n)) o))).
  - eapply tri_bind; [by apply phase_load|intros b].
    apply (tri_bind _ _ (fun _ => in_phase g c every true
      (if b then At true off (o ++ irq_lines) else At false (armed (pred n)) o))).
    + destruct b; [exact (tri_ret tt (fun _ => in_phase g c every true (At true off (o ++ irq_lines))))|].
      apply phase_wfi; [done|]. intros d. apply wfi_wakes.
    + intros ?. exact (tri_ret b (fun b : bool => in_phase g c every true
        (if b then At true off (o ++ irq_lines) else At false (armed (pred n)) o))).
  - intros b. apply (tri_bind _ _ (fun _ => polled g c n o b)); [|intros ?; exact (tri_ret b (polled g c n o))].
    destruct b; [apply (phase_mask false _ _ _ _ _ Hu); intros ??? [= <- <- <-]; by right|].
    destruct n as [|n]; [by apply unmask_due|].
    apply (tri_pre _ (in_phase g c every true (Awaiting n o))); [intros s [_ Hs]; by left|].
    by apply phase_mask.
Qed.

Lemma phase_received fuel g c o :
  up g -> (0 < fuel)%nat ->
  tri (in_phase g c every false (At true off o)) (wait_for_irq fuel)
      (fun _ => in_phase g c every false (At true off o)).
Proof.
  intros Hu Hf. destruct fuel as [|fuel]; [lia|]. cbn [wait_for_irq].
  set (I mk := in_phase g c every mk (At true off o)).
  assert (Hm : forall b b', tri (I b) (instr (set_mask b')) (fun _ => I b'))
    by (intros b b'; apply (phase_mask b' _ _ _ _ _ Hu); intros ??? [= <- <- <-]; by right).
  apply (tri_bind _ _ (fun b s => b = true /\ I false s)); [|by intros b s [-> Hs]; exists tt, s].
  apply (tri_bind _ _ (fun b s => b = false /\ I false s)).
  { intros s Hs. exists false, s. split; [|done]. unfold get_mask. by rewrite (kn_masked _ _ _ _ _ _ _ _ (proj2 Hs)). }
  intros b s [-> Hs]. revert s Hs. eapply tri_bind; [apply Hm|intros ?].
  apply (tri_bind _ _ (fun b s => b = true /\ I true s)).
  - apply (tri_bind _ _ (fun b s => b = true /\ I true s)); [|by intros b s [-> Hs]; exists true, s].
    apply (tri_bind _ _ (fun b s => b = true /\ I true s)).
    + intros s Hs. exists true, s. split; [|done]. unfold load_irq_received.
      by rewrite (kn_received _ _ _ _ _ _ _ _ (proj2 Hs)).
    + intros b s [-> Hs]. destruct (phase_arrive g c every true (At true off o) Hu s Hs) as (? & s' & E & H).
      exists true, s'. split; [|done]. unfold mbind, P_bind. by rewrite E.
  - intros b s [-> Hs]. destruct (Hm true false s Hs) as (? & s' & E & H).
    exists true, s'. split; [|done]. unfold mbind, P_bind. by rewrite E.
Qed.

Lemma phase_wait g c n o fuel :
  up g -> (n + 2 <= fuel)%nat ->
  tri (in_phase g c every false (Awaiting n o)) (wait_for_irq fuel)
      (fun _ => in_phase g c every false (At true off (o ++ irq_lines))).
Proof.
  intros Hu. revert fuel. induction n as [|n IH]; intros fuel Hf; (destruct fuel as [|fuel]; [lia|]);
    cbn [wait_for_irq]; (eapply tri_bind; [by apply phase_poll|]); intros [|]; try exact (tri_ret tt (fun _ => in_phase g c every false (At true off (o ++ irq_lines)))).
  - apply phase_received; [done|lia].
  - apply IH. lia.
Qed.

(** *** The part the two suspends share *)

Lemma phase_prepare line divisor next n g c S r o :
  up g -> created c S -> runs_out (cntfrq / divisor) n ->
  tri (in_phase g c S false (At r off o)) (prepare line divisor next)
      (fun _ => in_phase g true (with_settings timer_settings S) true
                  (At false (armed n) (o ++ out_lines [line; next]))).
Proof.
  intros Hu Hc Hn. change [line; next] with ([line] ++ [next]). unfold out_lines. rewrite fmap_app, app_assoc.
  eapply tri_bind; [by apply phase_println|intros ?]. cbv zeta.
  eapply tri_bind; [by apply phase_reset|intros ?].
  eapply tri_bind; [apply (phase_mask true _ _ _ _ _ Hu); by left|intros ?].
  eapply tri_bind; [by apply phase_setup|intros ?].
  eapply tri_bind; [by apply phase_timer_set|intros ?]. by apply phase_println.
Qed.

(** ** Lemmas: calls *)

Context {SYL : ArmSysregsLaws} {PTL : PageTableLaws}.
Hypothesis Himg : image_ok.
Hypothesis Hpc : 0 <= pc PP /\ pc PP + 8 <= U64_MAX.

(** The machine between two calls of the core [cpu]. *)
Record settled (cpu : Z) (g : gmachine) : Prop := {
  se_boot : after_boot g;
  se_frame : guest_wf (g_regs g);
  se_cpu : w_sysregs (g_world g) MPIDR_EL1 = cpu;
  se_contexts : has_room (contexts_of (g_world g)) cpu;
  se_stacks : has_room (stacks_of (g_world g)) cpu;
}.

Lemma settled_up cpu g : settled cpu g -> up g.
Proof.
  intros [Hb _ _ _ _]. destruct (after_boot_config Himg _ Hb) as (c & Hc & _ & Hon & Hacc).
  unfold up. rewrite (mapped_direct g c _ Hc Hon), Hacc. done.
Qed.

Lemma call_setup_wf nargs fn a0 a1 a2 r : guest_wf r -> guest_wf (call_setup nargs fn a0 a1 a2 r).
Proof. intros Hr. by repeat apply set_reg_wf; apply zeroed_wf. Qed.

Lemma call_setup_low nargs fn a0 a1 a2 r :
  guest_wf r -> let s := call_setup nargs fn a0 a1 a2 r in
  read_gpr s 0 = Some fn /\ read_gpr s 1 = Some a0 /\ read_gpr s 2 = Some a1 /\ read_gpr s 3 = Some a2.
Proof.
  intros Hr s. pose proof (zeroed_wf (Z.of_nat <$> seq 4 (nargs - 3)) r Hr) as Hz.
  unfold s, call_setup. repeat split;
    rewrite !read_set_reg by (repeat apply set_reg_wf; done || lia);
    repeat first [rewrite bool_decide_eq_true_2 by lia; done | rewrite bool_decide_eq_false_2 by lia].
Qed.

#[local] Opaque call_setup.

(** The frame and the world at the exception of a call. *)
Definition hvc_world (g : gmachine) : World :=
  with_sysregs (g_world g) (set_sysreg ESR_EL2 (0x16 * 2 ^ 26 + 2 ^ 25) (w_sysregs (g_world g))).

Lemma hvc_is_psci_call nargs fn a0 a1 a2 g :
  guest_wf (g_regs g) -> is_psci_id fn = true ->
  let f := next_pc (g_regs (calling (call_setup nargs fn a0 a1 a2) g)) in
  psci_call false f (hvc_world g) fn a0 a1 a2 /\ vr_elr (volatile f) = pc PP + 4.
Proof.
  intros Hg Hid f.
  assert (Helr : vr_elr (volatile f) = pc PP + 4).
  { change ((pc PP + 4) mod 2 ^ 64 = pc PP + 4). apply Z.mod_small. unfold U64_MAX in *. lia. }
  split; [|done]. constructor.
  - apply set_exception_return_wf, set_exception_return_wf, call_setup_wf, Hg.
  - lia.
  - exact (call_esr false).
  - done.
  - unfold f, next_pc. rewrite !read_set_pc. unfold calling. cbn [g_regs]. rewrite !read_set_pc.
    by apply call_setup_low.
Qed.

(** A call whose handler returns. *)
Lemma hvc_returns cpu nargs fn a0 a1 a2 g d r c mk o res s' w' :
  settled cpu g -> result_wf res ->
  let f := next_pc (g_regs (calling (call_setup nargs fn a0 a1 a2) g)) in
  vr_elr (volatile f) = pc PP + 4 ->
  handle_sync_lower f (hvc_world g) = Done s' w' -> completes false f res s' ->
  w_sysregs w' MPIDR_EL1 = cpu -> has_room (contexts_of w') cpu -> has_room (stacks_of w') cpu ->
  exists g', hvc nargs fn a0 a1 a2 (mkP g d r c mk o) =
      POk (default 0 (result_registers res !! 0%nat)) (mkP g' d r c mk o) /\ settled cpu g'.
Proof.
  intros Hs Hwf f Helr Hrun Hco Hcpu Hc Hst.
  set (g0 := calling (call_setup nargs fn a0 a1 a2) g).
  assert (Hstep : gstep is_ram (ACall false) g0 = Runs (mkG s' w' (g_mem g0))).
  { unfold gstep, trap. change (handle_sync_lower (next_pc (g_regs g0)) _)
      with (handle_sync_lower f (hvc_world g)). by rewrite Hrun. }
  assert (Hb0 : after_boot g0) by exact (se_boot _ _ Hs).
  pose proof (after_boot_step is_ram _ g0 _ Himg Hb0 Hstep) as Hb'.
  assert (Hret : vr_elr (volatile s') = pc PP + 4).
  { pose proof (f_equal fst (co_return _ _ _ _ Hco)) as H. cbn [fst] in H.
    change (fst (exception_return s')) with (vr_elr (volatile s')) in H. rewrite H, Helr. lia. }
  exists (mkG s' w' (g_mem g0)). split.
  - unfold hvc. cbn [p_g]. fold g0. rewrite Hstep. cbn [g_regs]. rewrite Hret, Z.eqb_refl.
    f_equal. rewrite (co_gprs _ _ _ _ Hco) by lia. change (Z.to_nat 0) with 0%nat.
    destruct (result_registers res !! 0%nat) eqn:E; [done|]. exfalso. apply lookup_ge_None in E.
    destruct res as [|[[]|]]; simpl in *; lia.
  - constructor; try done. apply (co_wf _ _ _ _ Hco).
Qed.

(** A forwarded call the firmware answers. *)
Lemma hvc_forwarded cpu nargs fn a0 a1 a2 f g d r c mk o regs :
  settled cpu g -> is_psci_id fn = true -> fn mod 2 ^ 32 = fn ->
  function_try_from [fn; a0; a1; a2] = Ok f -> forwarded f = true ->
  smc64 (w_trace (g_world g)) fn ([a0; a1; a2] ++ replicate 14 0) = Some regs ->
  exists g', hvc nargs fn a0 a1 a2 (mkP g d r c mk o) =
      POk (regs !!! 0%nat) (mkP g' d r c mk o) /\ settled cpu g'.
Proof.
  intros Hs Hid Hmod Hd Hf Hsmc.
  destruct (hvc_is_psci_call nargs fn a0 a1 a2 g (se_frame _ _ Hs) Hid) as [Hcall Helr].
  pose proof (psci_forward_completes _ _ _ _ _ _ _ f Hcall Hd Hf) as H. cbv zeta in H.
  rewrite Hmod in H. change (w_trace (hvc_world g)) with (w_trace (g_world g)) in H. rewrite Hsmc in H.
  destruct H as (s' & Hrun & Hco).
  apply (hvc_returns cpu nargs fn a0 a1 a2 g d r c mk o
    (Handled (Ok (Success [regs !!! 0%nat; 0; 0; 0]))) s' _ Hs eq_refl Helr Hrun Hco).
  - simpl. apply (se_cpu _ _ Hs).
  - apply (se_contexts _ _ Hs).
  - apply (se_stacks _ _ Hs).
Qed.

(** CPU_SUSPEND that comes back. *)
Lemma suspend_comes_back p e w r w' :
  world_wf w -> psci_cpu_suspend p e w = Done r w' ->
  w_sysregs w' = w_sysregs w /\ is_Some (stacks_of w' !! w_sysregs w MPIDR_EL1).
Proof.
  intros Hwf. unfold psci_cpu_suspend. rewrite bind_read_sysreg. cbv zeta. unfold mbind, M_bind.
  set (mp := w_sysregs w MPIDR_EL1). fold (suspend_context e).
  pose proof (suspend_insert_spec mp (suspend_context e) w Hwf) as H.
  destruct (with_suspend_contexts _ w) as [i0 w1|msg w1|l w1]; [|done..].
  destruct H as (_ & _ & Hwf1 & _ & _ & Hreg). pose proof (get_secondary_stack_spec mp w1 Hwf1) as H.
  destruct (get_secondary_stack mp w1) as [i w2|msg w2|l w2]; [|done..].
  destruct H as (_ & (Hreg2 & _) & _ & _ & Hst).
  unfold suspend_core_call, mbind, M_bind. simpl. destruct (suspend_core _ _); [|done]. simpl.
  unfold with_suspend_contexts. simpl. destruct (SimpleMap.remove _ mp) as [x m]. intros [= _ <-]. simpl.
  split; [congruence|]. change (stacks_of _) with (stacks_of w2). rewrite Hst, lookup_insert_eq. by eexists.
Qed.

(** A removed entry leaves room. *)
Lemma room_delete w cpu :
  world_wf w -> has_room (contexts_of w) cpu -> has_room (delete cpu (contexts_of w)) cpu.
Proof.
  intros Hwf Hroom. left. pose proof (proj1 (abs_size _ (wwf_contexts _ Hwf))) as Hsize.
  rewrite (wwf_contexts_capacity _ Hwf) in Hsize. change (abs_items _) with (contexts_of w) in Hsize.
  destruct (contexts_of w !! cpu) as [x|] eqn:E.
  - rewrite map_size_delete_Some by by exists x.
    assert (size (contexts_of w) <> 0%nat); [|lia]. apply map_size_non_empty_iff.
    intros He. by rewrite He, lookup_empty in E.
  - rewrite delete_id by done. destruct Hroom as [|[x Hx]]; [done|congruence].
Qed.

Lemma hvc_standby cpu a0 a1 a2 P0 e g d r c mk o res :
  settled cpu g -> function_try_from [PSCI_CPU_SUSPEND_64; a0; a1; a2] = Ok (CpuSuspend P0 e) ->
  suspend_core (w_trace (g_world g)) (u32_from_power_state P0) = Some res ->
  exists g', hvc 17 PSCI_CPU_SUSPEND_64 a0 a1 a2 (mkP g d r c mk o) =
      POk (psci_result_to_u64 res) (mkP g' d r c mk o) /\ settled cpu g'.
Proof.
  intros Hs Hd Hfw. pose proof (qemu_platform_laws Himg) as PLL.
  destruct (hvc_is_psci_call 17 PSCI_CPU_SUSPEND_64 a0 a1 a2 g (se_frame _ _ Hs) eq_refl) as [Hcall Helr].
  assert (Hwf : world_wf (hvc_world g)).
  { destruct (after_boot_config Himg _ (se_boot _ _ Hs)) as (_ & _ & [] & _). by constructor. }
  assert (Hcpu : w_sysregs (hvc_world g) MPIDR_EL1 = cpu)
    by (unfold hvc_world; simpl; rewrite set_sysreg_ne by done; apply (se_cpu _ _ Hs)).
  pose proof (psci_call_outcome _ _ _ _ _ _ _ Hcall) as H. unfold handle_psci in H. rewrite Hd in H.
  unfold mbind, M_bind, mret, M_ret in H.
  pose proof (psci_cpu_suspend_spec P0 e (hvc_world g) Hwf) as Hsp.
  change (w_trace (hvc_world g)) with (w_trace (g_world g)) in Hsp. rewrite Hcpu, Hfw in Hsp.
  destruct (psci_cpu_suspend P0 e (hvc_world g)) as [r' w'|msg w'|l w'] eqn:E.
  - destruct Hsp as (_ & _ & [= <-] & Hctx). destruct H as (s' & Hrun & Hco).
    destruct (suspend_comes_back _ _ _ _ _ Hwf E) as [Hreg Hst]. rewrite Hcpu in Hst.
    apply (hvc_returns cpu 17 PSCI_CPU_SUSPEND_64 a0 a1 a2 g d r c mk o
      (Handled (Ok (response_from_u64 (psci_result_to_u64 res)))) s' w' Hs eq_refl Helr Hrun Hco).
    + by rewrite Hreg.
    + rewrite Hctx. apply room_delete; [exact Hwf|apply (se_contexts _ _ Hs)].
    + by right.
  - destruct Hsp. split; [apply (se_contexts _ _ Hs)|apply (se_stacks _ _ Hs)].
  - by destruct Hsp as (_ & _ & _ & ? & _).
Qed.

(** CPU_SUSPEND that powers the core down, and the wake-up. *)
Lemma hvc_powerdown cpu a0 a1 a2 P0 e g d r c mk o :
  settled cpu g -> function_try_from [PSCI_CPU_SUSPEND_64; a0; a1; a2] = Ok (CpuSuspend P0 e) ->
  suspend_core (w_trace (g_world g)) (u32_from_power_state P0) = None ->
  exists g1, hvc 17 PSCI_CPU_SUSPEND_64 a0 a1 a2 (mkP g d r c mk o) = PStopped (mkP g1 d r c mk o) /\
    rtc ritm_step (g_world g) (g_world g1) /\
    contexts_of (g_world g1) = <[cpu := suspend_context e]> (contexts_of (g_world g)).
Proof.
  intros Hs Hd Hfw. set (g0 := calling (call_setup 17 PSCI_CPU_SUSPEND_64 a0 a1 a2) g).
  assert (Hwf : world_wf (g_world g0))
    by (destruct (after_boot_config Himg _ (se_boot _ _ Hs)) as (_ & _ & H & _); exact H).
  assert (Hcall : suspend_call g0 P0 e).
  { constructor.
    - apply set_exception_return_wf, call_setup_wf, (se_frame _ _ Hs).
    - exact Hpc.
    - exists PSCI_CPU_SUSPEND_64, a0, a1, a2. split; [done|].
      unfold g0, calling. cbn [g_regs]. rewrite !read_set_pc.
      destruct (call_setup_low 17 PSCI_CPU_SUSPEND_64 a0 a1 a2 _ (se_frame _ _ Hs)) as (? & ? & ? & ?).
      by split_and!. }
  assert (Hcpu : w_sysregs (g_world g0) MPIDR_EL1 = cpu) by exact (se_cpu _ _ Hs).
  destruct (suspend_stops is_ram false g0 P0 e Hwf Hcall Hfw) as (w1 & Hstop & Hctx).
  { rewrite Hcpu. apply (se_contexts _ _ Hs). }
  { rewrite Hcpu. apply (se_stacks _ _ Hs). }
  rewrite Hcpu in Hctx. exists (mkG (g_regs g0) w1 (g_mem g0)). split_and!.
  - unfold hvc. cbn [p_g]. fold g0. by rewrite Hstop.
  - pose proof (gstep_history is_ram (ACall false) g0) as Hh. by rewrite Hstop in Hh.
  - exact Hctx.
Qed.

(** What the end of the test needs of the machine. *)
Definition running (g : gmachine) : Prop := after_boot g /\ guest_wf (g_regs g).

Lemma running_up g : running g -> up g.
Proof.
  intros [Hb _]. destruct (after_boot_config Himg _ Hb) as (c & Hc & _ & Hon & Hacc).
  unfold up. rewrite (mapped_direct g c _ Hc Hon), Hacc. done.
Qed.

Lemma entry_frame_wf x0 x1 x2 x3 w : guest_wf (entry_frame x0 x1 x2 x3 w).
Proof. by apply (bool_decide_unpack _). Qed.


(** ** Lemmas: the tests *)

Lemma psci_check_true msg s : psci_check true msg s = POk tt s.
Proof. done. Qed.

Definition standby_lines : list Str.str :=
  out_lines [lit "Testing Standby..."; lit "Calling cpu_suspend (Standby)...";
             lit "Returned from cpu_suspend (Standby)"] ++ irq_lines ++ out_lines [lit "Standby Passed"].
Definition main_lines : list Str.str := out_lines [lit "Starting PSCI OSI Test"; lit "OSI Mode Enabled"].
Definition powerdown_lines : list Str.str :=
  out_lines [lit "Testing PowerDown..."; lit "Suspending (PowerDown)..."].
Definition resumed_lines : list Str.str :=
  irq_lines ++ out_lines [lit "PowerDown Passed"; lit "All tests passed!"].

(** Everything the payload prints. *)
Definition psci_output : list Str.str :=
  main_lines ++ standby_lines ++ powerdown_lines ++ resumed_lines.

(** The firmware: it accepts the OS-initiated mode, comes back from the standby
    state with success, powers the core down for the other state, and turns it
    off; the decoder knows the calls. *)
Record psci_firmware : Prop := {
  fw_mode_decode : function_try_from [PSCI_SET_SUSPEND_MODE; OS_INITIATED; 0; 0] = Ok SetSuspendMode;
  fw_mode : forall t, exists regs,
    smc64 t PSCI_SET_SUSPEND_MODE ([OS_INITIATED; 0; 0] ++ replicate 14 0) = Some regs /\
    psci_is_err PP ((regs !!! 0%nat) mod 2 ^ 32) = false;
  fw_standby : exists P0 e,
    function_try_from [PSCI_CPU_SUSPEND_64; standby_state PP; resume_entry PP; resume_context PP] =
      Ok (CpuSuspend P0 e) /\
    forall t, suspend_core t (u32_from_power_state P0) = Some (Ok tt);
  fw_success : psci_is_err PP (RETURN_CODE_SUCCESS mod 2 ^ 32) = false;
  fw_powerdown : exists P0 e,
    function_try_from [PSCI_CPU_SUSPEND_64; powerdown_state PP; resume_entry PP; resume_context PP] =
      Ok (CpuSuspend P0 e) /\
    entry_point_address e = resume_entry PP /\ entry_context_id e = resume_context PP /\
    forall t, suspend_core t (u32_from_power_state P0) = None;
  fw_off_decode : function_try_from [PSCI_CPU_OFF; 0; 0; 0] = Ok CpuOff;
  fw_off : forall t, smc64 t PSCI_CPU_OFF ([0; 0; 0] ++ replicate 14 0) = None;
}.
Hypothesis Hfw : psci_firmware.

(** Calls change the machine only. *)
Lemma known_call g g' c S mk r t o s (m : P u64) v :
  known g c S mk r t o s ->
  m (mkP g (p_dev s) r c mk o) = POk v (mkP g' (p_dev s) r c mk o) ->
  exists s', m s = POk v s' /\ known g' c S mk r t o s'.
Proof.
  intros [Hg Hc HS Hm Hr Ht Ho] E. destruct s. simpl in *. subst. eexists. split; [exact E|]. by constructor.
Qed.

Definition settled_in (cpu : Z) (c : bool) (S : setting -> bool) (mk : bool) (ph : phase) (s : pstate) : Prop :=
  exists g, settled cpu g /\ in_phase g c S mk ph s.

Lemma tri_settled {A} cpu c S mk ph (m : P A) c' S' mk' ph' :
  (forall g, settled cpu g -> up g ->
    tri (in_phase g c S mk ph) m (fun _ => in_phase g c' S' mk' ph')) ->
  tri (settled_in cpu c S mk ph) m (fun _ => settled_in cpu c' S' mk' ph').
Proof.
  intros H s (g & Hg & Hs). destruct (H g Hg (settled_up _ _ Hg) s Hs) as (a & s' & E & Hs').
  exists a, s'. split; [done|]. by exists g.
Qed.

Lemma set_mode_run cpu c S mk r t o :
  calm mk t ->
  tri (settled_in cpu c S mk (At r t o)) (set_suspend_mode OS_INITIATED)
      (fun ok s => ok = true /\ settled_in cpu c S mk (At r t o) s).
Proof.
  intros Hcm s (g & Hg & [_ Hs]).
  destruct (fw_mode Hfw (w_trace (g_world g))) as (regs & Hsmc & Herr).
  destruct (hvc_forwarded cpu 7 PSCI_SET_SUSPEND_MODE OS_INITIATED 0 0 SetSuspendMode g (p_dev s) r c mk o regs
    Hg eq_refl eq_refl (fw_mode_decode Hfw) eq_refl Hsmc) as (g' & E & Hg').
  destruct (known_call _ _ _ _ _ _ _ _ _ _ _ Hs E) as (s1 & E1 & H1).
  destruct (phase_arrive g' c S mk (At r t o) (settled_up _ _ Hg') s1 (conj Hcm H1)) as ([] & s2 & E2 & H2).
  exists true, s2. split; [|split; [done|by exists g']].
  unfold set_suspend_mode, instr, mbind, P_bind. rewrite E1, E2. unfold mret, P_ret. by rewrite Herr.
Qed.

Lemma standby_run cpu c n o :
  tri (settled_in cpu c every true (At false (armed n) o)) (suspend_core_hvc (standby_state PP))
      (fun ok s => ok = true /\ settled_in cpu c every true (At false (armed (pred n)) o) s).
Proof.
  intros s (g & Hg & [_ Hs]). destruct (fw_standby Hfw) as (P0 & e & Hd & Hcore).
  destruct (hvc_standby cpu _ _ _ P0 e g (p_dev s) false c true o (Ok tt) Hg Hd (Hcore _)) as (g' & E & Hg').
  destruct (known_call _ _ _ _ _ _ _ _ _ _ _ Hs E) as (s1 & E1 & H1).
  destruct (phase_wfi n g' c false o wfi (settled_up _ _ Hg') (wfi_wakes n) s1) as ([] & s2 & E2 & H2);
    [by split; [left|]|].
  exists true, s2. split; [|split; [done|by exists g']].
  unfold suspend_core_hvc, mbind at 1, P_bind at 1. rewrite E1. unfold psci_result_to_u64.
  rewrite (fw_success Hfw). cbn [negb]. unfold mbind at 1, P_bind at 1. by rewrite E2.
Qed.

(** The settings that [init_core] leaves. *)
Definition core_settings : setting -> bool := with_settings [SystemRegisters; CpuGroup1] (fun _ => false).

Lemma test_standby_run cpu n r o fuel :
  runs_out (cntfrq / 100) n -> (n + 2 <= fuel)%nat ->
  tri (settled_in cpu false core_settings false (At r off o)) (test_standby fuel)
      (fun _ => settled_in cpu true every false (At true off (o ++ standby_lines))).
Proof.
  intros Hn Hf. unfold test_standby.
  set (o1 := o ++ out_lines [lit "Testing Standby..."; lit "Calling cpu_suspend (Standby)..."]).
  set (o2 := o1 ++ out_lines [lit "Returned from cpu_suspend (Standby)"]).
  replace (o ++ standby_lines) with ((o2 ++ irq_lines) ++ out_lines [lit "Standby Passed"])
    by (unfold o2, o1, standby_lines, out_lines; simpl; by rewrite <- !app_assoc).
  apply (tri_bind _ _ (fun _ => settled_in cpu true every true (At false (armed n) o1))).
  { apply tri_settled. intros g _ Hu. eapply tri_post; [|by apply (phase_prepare _ _ _ n)].
    intros ? s Hs. eapply phase_weaken; [|exact Hs]. by intros []. }
  intros ?. eapply tri_bind; [apply standby_run|]. intros ok s [-> Hs]. revert s Hs.
  apply (tri_bind _ _ (fun _ => settled_in cpu true every true (At false (armed (pred n)) o1)));
    [intros s Hs; by exists tt, s|intros ?].
  apply (tri_bind _ _ (fun _ => settled_in cpu true every true (At false (armed (pred n)) o2)));
    [apply tri_settled; intros; by apply phase_println|intros ?].
  apply (tri_bind _ _ (fun _ => settled_in cpu true every false (Awaiting (pred n) o2)));
    [apply tri_settled; intros; by apply phase_unmask|intros ?].
  apply (tri_bind _ _ (fun _ => settled_in cpu true every false (At true off (o2 ++ irq_lines))));
    [apply tri_settled; intros; apply phase_wait; [done|lia]|intros ?].
  apply tri_settled. intros. by apply phase_println.
Qed.

Lemma psci_tests_run cpu n mk r fuel :
  runs_out (cntfrq / 100) n -> (n + 2 <= fuel)%nat ->
  tri (settled_in cpu false (fun _ => false) mk (At r off [])) (psci_tests fuel)
      (fun _ => settled_in cpu true every false (At true off (main_lines ++ standby_lines))).
Proof.
  intros Hn Hf. unfold psci_tests. change main_lines with
    (([] ++ out_lines [lit "Starting PSCI OSI Test"]) ++ out_lines [lit "OSI Mode Enabled"]).
  set (o1 := [] ++ _). assert (Hcm : forall b, calm b off) by by right.
  apply (tri_bind _ _ (fun _ => settled_in cpu false (fun _ => false) mk (At r off o1)));
    [apply tri_settled; intros; by apply phase_println|intros ?].
  apply (tri_bind _ _ (fun _ => settled_in cpu false core_settings false (At r off o1))).
  { apply tri_settled. intros g _ Hu. apply phase_init_core; [done|].
    apply (phase_mask false _ _ _ _ _ Hu). by intros ??? [= <- <- <-] _. }
  intros ?. eapply tri_bind; [by apply set_mode_run|]. intros ok s [-> Hs]. revert s Hs.
  apply (tri_bind _ _ (fun _ => settled_in cpu false core_settings false (At r off o1)));
    [intros s Hs; by exists tt, s|intros ?].
  apply (tri_bind _ _ (fun _ => settled_in cpu false core_settings false
    (At r off (o1 ++ out_lines [lit "OSI Mode Enabled"])))); [apply tri_settled; intros; by apply phase_println|].
  intros ?. by apply (test_standby_run cpu n).
Qed.

(** What a power-down leaves. *)
Definition distributor_settings : setting -> bool := with_settings [DistributorGroup1] (fun _ => false).

Lemma wake_run cpu g d o regs :
  settled cpu g -> regs MPIDR_EL1 = cpu -> configured every d -> (exists n, timer_is (armed n) d) ->
  exists s1 s2 d' g2, suspend_core_hvc (powerdown_state PP) (mkP g d false true true o) = PStopped s1 /\
    wake regs s1 = Some s2 /\ running g2 /\ power_cycle d = Some d' /\ s2 = mkP g2 d' false true true o.
Proof.
  intros Hs Hregs HS [n Ht]. pose proof (qemu_platform_laws Himg) as PLL.
  destruct (fw_powerdown Hfw) as (P0 & e & Hd & He & Hx & Hcore).
  destruct (hvc_powerdown cpu _ _ _ P0 e g d false true true o Hs Hd (Hcore _)) as (g1 & E & Hh & Hctx).
  pose proof (se_boot _ _ Hs) as [(br & bn & Hreach) (c0 & Hc0 & _)].
  set (g1' := mkG (g_regs g1) (with_sysregs (g_world g1) regs) (g_mem g1)).
  assert (Hreach1 : rtc ritm_step (boot_world br bn) (g_world g1'))
    by (etrans; [exact Hreach|]; eapply rtc_r; [exact Hh|apply step_guest]).
  assert (Hcfg : is_Some (w_stage2_config (g_world g1'))).
  { destruct (ev_policy _ _ (ritm_steps_evolve _ _ Hh (qemu_reachable_wf _ _ _ Himg Hreach)) c0 Hc0)
      as (c1 & Hc1 & _). by exists c1. }
  destruct (resume_enters is_ram (g_world g1') (suspend_context e) cpu (g_regs g1) (g_mem g1)
    br bn Himg Hreach1 Hcfg Hregs) as (w2 & Hres & Helr & _ & _).
  { change (contexts_of (g_world g1')) with (contexts_of (g_world g1)).
    rewrite Hctx. apply lookup_insert_eq. }
  change (mkG (g_regs g1) (g_world g1') (g_mem g1)) with g1' in Hres.
  change (scd_context_id (suspend_context e)) with (entry_context_id e) in Hres. rewrite Hx in Hres.
  destruct (law_power_cycle d) as (d' & Hpow & _); [by intros x; apply HS|apply Ht|apply Ht|].
  eexists _, _, d', (mkG (entry_frame (resume_context PP) 0 0 0 w2) w2 (g_mem g1)).
  split_and!.
  - unfold suspend_core_hvc, mbind, P_bind. rewrite E. reflexivity.
  - unfold wake. cbn [p_g p_dev p_irq_received p_gic p_out]. fold g1'. rewrite Hres, Hpow. cbn [g_regs].
    change (vr_elr (volatile (entry_frame _ _ _ _ w2))) with (w_sysregs w2 ELR_EL2).
    rewrite Helr. cbn [scd_entry_point scd_context_id suspend_context].
    rewrite He, Z.eqb_refl, bool_decide_eq_true_2 by done. reflexivity.
  - split; [|apply entry_frame_wf]. split.
    + exists br, bn. pose proof (gstep_history is_ram AResume g1') as Hg.
      rewrite Hres in Hg. by etrans.
    + exact (gstep_wake_on is_ram AResume g1' _ eq_refl Hres).
  - done.
  - done.
Qed.

Lemma test_powerdown_run cpu n o regs s :
  runs_out (cntfrq / 10) n -> regs MPIDR_EL1 = cpu ->
  settled_in cpu true every false (At true off o) s ->
  exists s1 s2 g2, test_powerdown s = PStopped s1 /\ wake regs s1 = Some s2 /\ running g2 /\
    in_phase g2 true distributor_settings true (At false (armed n) (o ++ powerdown_lines)) s2.
Proof.
  intros Hn Hregs (g & Hg & Hs). pose proof (settled_up _ _ Hg) as Hu.
  destruct (phase_prepare (lit "Testing PowerDown...") 10 (lit "Suspending (PowerDown)...") n g true every
    true o Hu (fun _ => eq_refl) Hn s Hs) as ([] & s0 & E0 & [_ Hs0]).
  destruct Hs0 as [Hg0 Hc0 HS0 Hm0 Hr0 Ht0 Ho0].
  assert (HS : configured every (p_dev s0)) by (intros x _; by apply HS0; destruct x).
  destruct s0 as [g0 d0 r0 c0 m0 o0]. cbn [p_g p_gic p_dev p_masked p_irq_received p_out] in *. subst.
  destruct (wake_run (regs MPIDR_EL1) g d0 (o ++ powerdown_lines) regs Hg eq_refl HS) as
    (s1 & s2 & d' & g2 & E1 & Ew & Hrun & Hpow & ->); [by exists n|].
  exists s1, (mkP g2 d' false true true (o ++ powerdown_lines)), g2. split_and!; [|done..|].
  - unfold test_powerdown, mbind, P_bind. rewrite E0. fold powerdown_lines. by rewrite E1.
  - split; [by left|]. destruct Ht0 as (Hon & Hsv & Hb).
    destruct (law_power_cycle d0) as (d'' & Hpow' & Hd & Hon' & Hsv' & Hle); [by intros x; apply HS|done..|].
    rewrite Hpow in Hpow'. injection Hpow' as <-. constructor; try done; cbn [p_dev].
    + intros []; try done; vm_compute; done.
    + split_and!; [done..|]. intros k Hk. specialize (Hb k Hk). lia.
Qed.

Lemma power_off_run g d r c mk o :
  running g -> psci_power_off (mkP g d r c mk o) = PsciPoweredOff o.
Proof.
  intros [Hb Hf]. destruct (hvc_is_psci_call 7 PSCI_CPU_OFF 0 0 0 g Hf eq_refl) as [Hcall Helr].
  pose proof (psci_forward_completes _ _ _ _ _ _ _ CpuOff Hcall (fw_off_decode Hfw) eq_refl) as H.
  cbv zeta in H. change (PSCI_CPU_OFF mod 2 ^ 32) with PSCI_CPU_OFF in H. rewrite (fw_off Hfw) in H.
  unfold psci_power_off, hvc. cbn [p_g].
  set (g0 := calling (call_setup 7 PSCI_CPU_OFF 0 0 0) g) in *.
  unfold gstep, trap. change (with_sysregs (g_world g0) _) with (hvc_world g). by rewrite H.
Qed.

Lemma powerdown_resume_run g n o fuel :
  up g -> (n + 2 <= fuel)%nat ->
  tri (in_phase g true distributor_settings true (At false (armed n) o)) (powerdown_resume fuel)
      (fun _ => in_phase g true every false (At true off (o ++ resumed_lines))).
Proof.
  intros Hu Hf. unfold powerdown_resume.
  replace (o ++ resumed_lines) with (((o ++ irq_lines) ++ out_lines [lit "PowerDown Passed"]) ++
    out_lines [lit "All tests passed!"])
    by (unfold resumed_lines, out_lines; simpl; by rewrite <- !app_assoc).
  eapply tri_bind; [apply phase_init_core; [done|by apply phase_unmask]|intros ?].
  eapply tri_bind; [by apply phase_setup|intros ?].
  eapply tri_bind; [by apply (phase_mask false _ _ _ _ _ Hu)|intros ?].
  apply (tri_bind _ _ (fun _ => in_phase g true every false (At true off (o ++ irq_lines)))).
  - eapply tri_pre; [|by apply phase_wait]. intros s Hs. eapply phase_weaken; [|exact Hs]. by intros [].
  - intros ?. eapply tri_bind; [by apply phase_println|intros ?]. by apply phase_println.
Qed.

Lemma psci_main_run cpu g d r mk regs :
  settled cpu g -> timer_enabled d = false -> serving d = false -> regs MPIDR_EL1 = cpu ->
  exists n, forall fuel, (n <= fuel)%nat ->
    psci_main fuel regs (mkP g d r false mk []) = PsciPoweredOff psci_output.
Proof.
  intros Hg Ht Hsv Hregs. destruct (runs_out_ex (cntfrq / 100)) as [n1 Hn1].
  destruct (runs_out_ex (cntfrq / 10)) as [n2 Hn2]. exists (max (n1 + 2) (n2 + 2)). intros fuel Hf.
  destruct (psci_tests_run cpu n1 mk r fuel Hn1 ltac:(lia) (mkP g d r false mk [])) as ([] & s1 & E1 & H1).
  { exists g. split; [done|]. split; [by right|]. by constructor. }
  destruct (test_powerdown_run cpu n2 _ regs s1 Hn2 Hregs H1) as (s2 & s3 & g3 & E2 & Ew & Hr3 & H3).
  destruct (powerdown_resume_run g3 n2 _ fuel (running_up _ Hr3) ltac:(lia) s3 H3) as ([] & s4 & E4 & [_ H4]).
  unfold psci_main. rewrite E1. cbn [finish]. rewrite E2, Ew, E4. cbn [finish].
  destruct H4 as [Hg4 _ _ _ _ _ Ho4]. destruct s4 as [g4 d4 r4 c4 m4 o4]. cbn [p_g p_out] in *. subst.
  rewrite power_off_run by done. unfold psci_output. by rewrite <- !app_assoc.
Qed.
End PsciTest.
Arguments mkP {_ _ _ _ _} _ _ _ _ _ _.
Arguments POk {_ _ _ _ _ A} _ _.
Arguments PsciPoweredOff _.


(** ** Properties *)

(** C23: the loop of [wait_for_irq] terminates: with the timer running and its interrupt
    routed, whenever the interrupt arrives (between any two instructions of the
    loop, at the latest after [remaining d] wake-ups), the loop ends within
    [remaining d + 2] iterations.  By then the handler has run exactly once,
    stopped the timer and ended the interrupt, and the flag is set; no wait for
    an interrupt that already came, and no wait for the UART's lock.  Nothing is
    assumed of a [wfi] with the timer off: the lost wake-up between the load of
    the flag and the [wfi] is excluded by the mask of [exception_free] alone. *)
Theorem wait_for_irq_terminates {PT : PageTable} {SA : SmcccArch} {IMG : QemuImage} {S2F : Stage2Flags}
    {DV : Devices} {DL : DeviceLaws} (PP : PsciPayload) g d c o fuel :
  mapped g UART_BASE = true -> (forall x, has x d = true) -> timer_enabled d = true ->
  serving d = false -> (remaining d + 2 <= fuel)%nat ->
  exists d', timer_enabled d' = false /\ serving d' = false /\
    wait_for_irq PP fuel (mkP g d false c false o) = POk tt (mkP g d' true c false (o ++ irq_lines PP)).
Proof.
  intros Hu HS Hon Hsv Hf.
  destruct (phase_wait PP g c (remaining d) o fuel Hu Hf (mkP g d false c false o)) as ([] & s & E & [_ H]).
  { left. constructor; try done; cbn [p_dev].
    - intros x _. apply HS.
    - split_and!; [done..|]. by intros ? [= <-]. }
  destruct H as [Hg Hc _ Hm Hr (Ht & Hs & _) Ho]. destruct s. simpl in *. subst. eexists. by split_and!.
Qed.


(** ** Witnesses *)

(** A timer that runs down by itself; a core that waits for it with anything
    missing waits for ever. *)
Record example_dev : Type := mkD {
  ed_has : setting -> bool;
  ed_on : bool;
  ed_serving : bool;
  ed_remaining : nat;
}.

Definition ed_wakes (d : example_dev) : bool :=
  forallb (ed_has d) settings && ed_on d && negb (ed_serving d).
Definition ed_tick (d : example_dev) : example_dev :=
  mkD (ed_has d) (ed_on d) (ed_serving d) (if ed_on d then pred (ed_remaining d) else ed_remaining d).

#[export] Instance example_devices : Devices := {|
  Dev := example_dev;
  has x d := ed_has d x;
  timer_enabled := ed_on;
  remaining := ed_remaining;
  serving := ed_serving;
  gic_do c d := (true, mkD (fun x => gic_effect c x (ed_has d x)) (ed_on d) (ed_serving d) (ed_remaining d));
  get_and_acknowledge_interrupt d :=
    if ed_wakes d && (ed_remaining d =? 0)%nat
    then (Some INTERRUPT_ID, mkD (ed_has d) (ed_on d) true (ed_remaining d)) else (None, d);
  end_interrupt _ d := mkD (ed_has d) (ed_on d) false (ed_remaining d);
  write_cntp_tval_el0 t d := mkD (ed_has d) (ed_on d) (ed_serving d) 40;
  write_cntp_ctl_el0 v d := mkD (ed_has d) (Z.testbit v 0) (ed_serving d) (ed_remaining d);
  cntfrq := 62500000;
  tick := ed_tick;
  wfi d := if ed_wakes d then Some (ed_tick d) else None;
  power_cycle d :=
    if ed_wakes d then Some (mkD (fun x => bool_decide (x = DistributorGroup1)) true false (ed_remaining d))
    else None |}.

Lemma ed_wakes_spec d :
  (forall x, ed_has d x = true) -> ed_on d = true -> ed_serving d = false -> ed_wakes d = true.
Proof. intros H Hon Hs. unfold ed_wakes. simpl. by rewrite !H, Hon, Hs. Qed.

#[export] Instance example_device_laws : DeviceLaws.
Proof.
  constructor; simpl.
  - by intros.
  - intros d Hp. apply pending_spec in Hp as [Hh (Hon & Hs & Hn)]. specialize (Hn 0%nat eq_refl). simpl in *.
    rewrite ed_wakes_spec by (done || (intros; by apply Hh)). assert (E : ed_remaining d = 0%nat) by lia.
    rewrite E. simpl. eexists. split; [reflexivity|]. by split_and!.
  - by intros.
  - intros t. exists 40%nat. intros d. split; [done|]. simpl. lia.
  - by intros.
  - intros d. split; [done|]. simpl. destruct (ed_on d); lia.
  - intros d Hh Hon Hs. rewrite ed_wakes_spec by done. eexists. split; [reflexivity|]. split; [done|].
    unfold ed_tick. simpl. by rewrite Hon.
  - intros d Hh Hon Hs. rewrite ed_wakes_spec by done. eexists. split; [reflexivity|]. by split_and!.
Qed.

Section PsciWitnesses.
Import QemuExample ArmArch ExampleFirmware.

(** A firmware whose standby state is 1; it answers SET_SUSPEND_MODE with 0. *)
#[local] Instance osi_firmware : Firmware := {|
  PsciCallError := unit; i64_from_psci_call_error _ := -1;
  smc64 _ fn _ := if fn =? PSCI_SET_SUSPEND_MODE then Some (replicate 18 0) else None;
  start_core _ _ := Err tt;
  suspend_core _ p := if p =? 1 then Some (Ok tt) else None |}.

(** The payload at the address of qemu_bl33.conf. *)
Definition example_payload : PsciPayload := {|
  pc := 0x6040_1000; resume_entry := 0x6040_2000; resume_context := 0x6050_0000;
  standby_state := 1; powerdown_state := 0x4000_1002;
  int_id_debug id := fmt_dec id; psci_panic_info msg := msg; psci_is_err v := negb (v =? 0) |}.

Lemma example_psci_firmware : psci_firmware (DEC := example_decoder) example_payload.
Proof.
  constructor.
  - reflexivity.
  - intros t. by eexists.
  - exists (1 : @PowerState example_psci), ((0x6040_2000, 0x6050_0000) : @EntryPoint example_psci).
    split; [reflexivity|]. by intros t.
  - reflexivity.
  - exists (0x4000_1002 : @PowerState example_psci), ((0x6040_2000, 0x6050_0000) : @EntryPoint example_psci).
    split; [reflexivity|]. by split_and!.
  - reflexivity.
  - by intros t.
Qed.

(** Everything routed, and three wake-ups to go. *)
Definition running_timer : @Dev example_devices := mkD (fun _ => true) true false 3.
Definition unused_timer : @Dev example_devices := mkD (fun _ => false) false false 0.

Lemma wait_for_irq_terminates_witness :
  exists g d', mapped g UART_BASE = true /\
    wait_for_irq example_payload 5 (mkP g running_timer false true false []) =
    POk tt (mkP g d' true true false (irq_lines example_payload)).
Proof.
  destruct (example_booted example_guest (fun _ => 0)) as (g & Hb & _ & _).
  destruct (after_boot_config example_image_ok g Hb) as (c & Hc & _ & Hon & Hacc).
  assert (Hu : mapped g UART_BASE = true)
    by (rewrite (mapped_direct g c _ Hc Hon), Hacc; vm_compute; done).
  destruct (wait_for_irq_terminates example_payload g running_timer true [] 5 Hu
    (fun _ => eq_refl) eq_refl eq_refl ltac:(simpl; lia)) as (d' & _ & _ & E).
  exists g, d'. split; [exact Hu|exact E].
Defined.

End PsciWitnesses.

