(* ===== verification/Concurrent.v ===== *)
(** * All cores at once, one access at a time

    The machine of MultiCore.v in full detail: a core that has trapped into
    RITM runs its program of Prog.v one access at a time, and between any two
    accesses every other core may make a step of its own, in the guest or in
    RITM.  The lock of the stage-2 identity map ([config.idmap.lock()] of
    src/src/hypervisor.rs) is part of the machine: a core that finds it taken
    spins.  Runs start at the first EL1 entry of the boot core, before stage 2
    is configured.

    RITM's statics and stacks are bytes of its image.  What they mean is the
    [World]; that each step of RITM also stores bytes in memory, any bytes at
    any addresses, is a parameter of the machine.

    The file shows that isolation holds in every interleaving.  Returning.v
    shows on the same machine that RITM never deadlocks and always comes back,
    Granularity.v that the uninterrupted steps of MultiCore.v are schedules of
    it. *)

From Stdlib Require Import ZArith Lia.
From stdpp Require Import base tactics list gmap strings numbers.
From S2P Require Import Prelude MemoryAccess SimpleMap Stage2 Exceptions HvcResponse Pagetable.
From S2P Require Import Platform Qemu Sysregs World Hypervisor Safety Entry Aborts QemuSystem Guest.
From S2P Require Import MultiCore Prog.

#[local] Open Scope Z_scope.

(** ** The machine *)

Section Machine.
Context {PT : PageTable} {SA : SmcccArch} {PLAT : Platform}.
Context {SYS : ArmSysregs} {PSCI : ArmPsci} {DEC : PsciDecoder} {FW : Firmware}.
Context (is_ram : Z -> bool).

(** Stores to memory, in order: addresses and bytes. *)
Definition write_bytes (l : list (Z * Z)) (mem : memory) : memory :=
  foldl (fun mem s x => if x =? s.1 then s.2 else mem x) mem l.

(** A core executes the guest, or what is left of a program of RITM. *)
Inductive mode : Type :=
| Guest (s : GuestRegisterState)
| Ritm (p : Prog GuestRegisterState).

Record fmachine : Type := mkF {
  fm_cores : gmap Z (mode * sysregs);
  fm_world : World;
  fm_lock : option Z;       (* the core that holds the identity map's lock *)
  fm_mem : memory;
}.

(** What RITM's step on a core stores. *)
Definition own_stores : Type := fmachine -> Z -> list (Z * Z).

(** A program that does not return, as one of a core. *)
Definition no_return (p : Prog Empty_set) : Prog GuestRegisterState :=
  p ≫= fun e : Empty_set => match e with end.

(** The next thing an executing core does: it stays in the guest, or traps (or
    is reset) into a program of RITM with the registers the hardware set. *)
Definition guest_next (a : action) (g : gmachine) : gmachine + (Prog GuestRegisterState * sysregs) :=
  let s := g_regs g in
  let regs := w_sysregs (g_world g) in
  match a with
  | ALoad w sx r64 rt ipa va dev =>
      if negb (aligned w ipa) then inl g
      else if mapped g ipa then inl (direct_load is_ram w sx r64 rt ipa dev g)
      else inr (handle_sync_lower_prog s, abort_sysregs (access_iss w rt sx r64 false) ipa va regs)
  | AStore w r64 rt ipa va =>
      if negb (aligned w ipa) then inl g
      else if mapped g ipa then inl (direct_store is_ram w rt ipa g)
      else inr (handle_sync_lower_prog s, abort_sysregs (access_iss w rt false r64 true) ipa va regs)
  | ACall smc =>
      inr (handle_sync_lower_prog (if smc then s else next_pc s),
           set_sysreg ESR_EL2 ((if smc then 0x17 else 0x16) * 2 ^ 26 + 2 ^ 25) regs)
  | AException esr => inr (handle_sync_lower_prog s, set_sysreg ESR_EL2 esr regs)
  | ALocal s' regs' => inl (mkG s' (with_sysregs (g_world g) (local_regs regs' regs)) (g_mem g))
  | AStart arg entry => inr (no_return (cpu_on_entry_prog entry arg), regs)
  | AResume => inr (no_return restore_from_suspend_prog, regs)
  end.

(** The core after RITM left for EL1, or for good. *)
Definition after_leave (l : leave) (regs : sysregs) (w : World) : option (mode * sysregs) :=
  match l with
  | EretToEl1 x0 x1 x2 x3 => Some (Guest (entry_frame x0 x1 x2 x3 w), regs)
  | NoReturn => None
  end.

Definition set_fcore (i : Z) (c : option (mode * sysregs)) (F : fmachine) : fmachine :=
  mkF (partial_alter (fun _ => c) i (fm_cores F)) (fm_world F) (fm_lock F) (fm_mem F).
Definition set_fworld (w : World) (F : fmachine) : fmachine :=
  mkF (fm_cores F) w (fm_lock F) (fm_mem F).

(** The lock after an access of core [i]. *)
Definition next_lock {X} (i : Z) (o : op X) (lock : option Z) : option Z :=
  match lock_effect o with Some true => Some i | Some false => None | None => lock end.

(** An access that has to wait. *)
Definition blocked {X} (o : op X) (lock : option Z) : bool :=
  match lock_effect o, lock with Some true, Some _ => true | _, _ => false end.

(** One step of core [i] in RITM; [None]: it spins on the lock. *)
Definition ritm_next (i : Z) (p : Prog GuestRegisterState) (regs : sysregs) (F : fmachine) :
    option fmachine :=
  let w := with_sysregs (fm_world F) regs in
  match p with
  | PRet s => Some (set_fcore i (Some (Guest s, regs)) F)
  | PPanic _ => Some (set_fcore i None F)
  | PLeave l => Some (set_fcore i (after_leave l regs w) F)
  | POp X o k =>
      if blocked o (fm_lock F) then None else
      Some match op_sem o w with
           | Done x w' =>
               mkF (<[i := (Ritm (k x), w_sysregs w')]> (fm_cores F)) w' (next_lock i o (fm_lock F))
                 (fm_mem F)
           | Panics _ w' => set_fcore i None (set_fworld w' F)
           | Leaves l w' => set_fcore i (after_leave l (w_sysregs w') w') (set_fworld w' F)
           end
  end.

Inductive fevent : Type :=
| FAct (i : Z) (a : action)                                             (* in the guest *)
| FRitm (i : Z)                                                         (* in RITM *)
| FWake (i : Z) (regs : sysregs) (k : wakeup).                          (* a core not running *)

Definition wakeup_prog (k : wakeup) : Prog GuestRegisterState :=
  no_return match k with
            | WakeStart arg entry => cpu_on_entry_prog entry arg
            | WakeResume => restore_from_suspend_prog
            end.

Definition fseen (s : GuestRegisterState) (regs : sysregs) (F : fmachine) : gmachine :=
  mkG s (with_sysregs (fm_world F) regs) (fm_mem F).

Definition store_bytes (l : list (Z * Z)) (F : fmachine) : fmachine :=
  mkF (fm_cores F) (fm_world F) (fm_lock F) (write_bytes l (fm_mem F)).

Context (stores : own_stores).

Definition fstep (e : fevent) (F : fmachine) : fmachine :=
  match e with
  | FAct i a =>
      match fm_cores F !! i with
      | Some (Guest s, regs) =>
          match guest_next a (fseen s regs F) with
          | inl g => mkF (<[i := (Guest (g_regs g), w_sysregs (g_world g))]> (fm_cores F)) (g_world g)
                       (fm_lock F) (g_mem g)
          | inr (p, regs') => set_fcore i (Some (Ritm p, regs')) F
          end
      | _ => F
      end
  | FRitm i =>
      match fm_cores F !! i with
      | Some (Ritm p, regs) =>
          match ritm_next i p regs F with
          | Some F' => store_bytes (stores F i) F'
          | None => F
          end
      | _ => F
      end
  | FWake i regs k =>
      match fm_cores F !! i with
      | Some _ => F
      | None => set_fcore i (Some (Ritm (wakeup_prog k), regs)) F
      end
  end.

Fixpoint frun (sched : fmachine -> fevent) (n : nat) (F : fmachine) : fmachine :=
  match n with
  | O => F
  | S n => frun sched n (fstep (sched F) F)
  end.

(** The stores RITM makes in these steps, in order. *)
Definition stored (e : fevent) (F : fmachine) : list (Z * Z) :=
  match e with
  | FRitm i =>
      match fm_cores F !! i with
      | Some (Ritm p, regs) => if ritm_next i p regs F is Some _ then stores F i else []
      | _ => []
      end
  | _ => []
  end.
Fixpoint all_stored (sched : fmachine -> fevent) (n : nat) (F : fmachine) : list (Z * Z) :=
  match n with
  | O => []
  | S n => stored (sched F) F ++ all_stored sched n (fstep (sched F) F)
  end.

(** The boot core about to enter EL1 for the first time. *)
Definition finit (i : Z) (a0 a1 a2 a3 ep : u64) (regs : sysregs) (p : PlatformState)
    (mem : memory) : fmachine :=
  mkF {[i := (Ritm (no_return (entry_point_el1_prog a0 a1 a2 a3 ep)), regs)]}
    (boot_world regs p) None mem.
End Machine.
Arguments fm_cores {_ _ _ _} _.
Arguments fm_world {_ _ _ _} _.
Arguments fm_lock {_ _ _ _} _.
Arguments fm_mem {_ _ _ _} _.
Arguments mkF {_ _ _ _} _ _ _ _.
Arguments own_stores {_ _ _ _}.

(** ** One access *)

Section Access.
Context {PT : PageTable} {SA : SmcccArch} {PLAT : Platform}.
Context {SYS : ArmSysregs} {PSCI : ArmPsci} {DEC : PsciDecoder} {FW : Firmware}.

Lemma op_leaves {X} (o : op X) w l w' : op_sem o w = Leaves l w' -> l = NoReturn.
Proof.
  intros H. destruct o; simpl in H; unfold activate_stage2, get_secondary_stack, smc64_call,
    start_core_call, suspend_core_call, stage2_config, with_suspend_contexts,
    with_secondary_stacks in H; run_monad; repeat case_match; by simplify_eq/=.
Qed.

Lemma op_returns {X} (o : op X) w : always_returns o = true -> exists x w', op_sem o w = Done x w'.
Proof.
  intros H. destruct o; try done; simpl;
    unfold activate_stage2, start_core_call, with_suspend_contexts; run_monad;
    repeat case_match; simplify_eq/=; eauto.
Qed.

Lemma op_configures {X} (o : op X) w x w' :
  is_call_once o = true -> op_sem o w = Done x w' -> is_Some (w_stage2_config w').
Proof. intros H. destruct o; try done. simpl. intros Hx%stage2_config_stored. by exists x. Qed.

Lemma op_writes {X} (o : op X) w x w' r v :
  writes o = Some (r, v) -> op_sem o w = Done x w' -> w_sysregs w' r = v.
Proof. intros H. destruct o; try done. simplify_eq/=. intros [= _ <-]. simpl. apply set_sysreg_eq. Qed.

Context {PTL : PageTableLaws} {PLL : PlatformLaws}.

Lemma safe_activate : safe activate_stage2.
Proof.
  intros w Hwf. apply evolves_bind; [by apply evolves_refl|]. intros a w' [= <- <-].
  destruct (w_stage2_config w) as [c|] eqn:Hc; [|by apply evolves_refl].
  apply evolves_bind; [by apply safe_activate_root|]. intros [] w2 [= <-].
  apply evolves_set_stage2; [by apply safe_activate_root|exact (wwf_config _ Hwf c Hc)|..].
  - simpl. rewrite Hc. intros c0 [= <-]. apply activate_same_policy.
  - left. by exists c.
Qed.

Lemma safe_op {X} (o : op X) : safe (op_sem o).
Proof.
  destruct o; simpl; eauto using safe_stage2_config, safe_activate, safe_suspend_insert,
    safe_suspend_remove, safe_get_secondary_stack with safe;
    unfold smc64_call, start_core_call, suspend_core_call; solve_safe.
Qed.
End Access.

(** ** Programs that do not return *)

Section NoReturnPrograms.
Context {PT : PageTable} {SA : SmcccArch} {PLAT : Platform}.
Context {SYS : ArmSysregs} {PSCI : ArmPsci} {DEC : PsciDecoder} {FW : Firmware}.

Lemma bounded_no_return n p : bounded n p -> bounded n (no_return p).
Proof. intros H. apply (bounded_mono (n + 0)); [lia|]. by apply bounded_bind. Qed.

Lemma locks_no_return p : locks false false p -> locks false false (no_return p).
Proof. intros H. by eapply locks_bind. Qed.

Lemma opens_no_return p : opens p -> opens (no_return p).
Proof.
  induction p as [[]|msg|l|X o k IH]; simpl; try done.
  intros [H|H]; [by left|right]. intros x. by apply IH.
Qed.

Lemma establishes_no_return r v p : establishes r v p -> establishes r v (no_return p).
Proof.
  induction p as [[]|msg|l|X o k IH]; simpl; try done. intros [[Hw Hk]|H]; [left|right].
  - split; [done|]. intros x. by apply keeps_bind.
  - intros x. by apply IH.
Qed.

Lemma run_no_return p m w :
  implements p m ->
  run (no_return p) w = match m w with
                        | Done e _ => match e with end
                        | Panics msg w' => Panics msg w'
                        | Leaves l w' => Leaves l w'
                        end.
Proof. intros H. unfold no_return. rewrite run_bind. unfold mbind, M_bind. rewrite H. by destruct (m w) as [[]| |]. Qed.

(** The programs a core starts with. *)
Definition RITM_STEPS : nat := 25.

Lemma wakeup_bounded k : bounded RITM_STEPS (wakeup_prog k).
Proof.
  apply bounded_no_return. destruct k; [|apply bounded_restore].
  apply (bounded_mono 23); [unfold RITM_STEPS; lia|apply bounded_entry].
Qed.
Lemma wakeup_locks k : locks false false (wakeup_prog k).
Proof. apply locks_no_return. destruct k; [apply locks_entry|apply locks_restore]. Qed.
Lemma wakeup_opens k : opens (wakeup_prog k).
Proof. apply opens_no_return. destruct k; [apply opens_entry|apply opens_restore]. Qed.
Lemma wakeup_establishes k :
  establishes VTCR_EL2 stage2_vtcr (wakeup_prog k) /\ establishes HCR_EL2 guest_hcr (wakeup_prog k).
Proof.
  split; apply establishes_no_return; destruct k; first [apply establishes_entry|apply establishes_restore].
Qed.

Lemma handle_bounded s : bounded RITM_STEPS (handle_sync_lower_prog s).
Proof. apply (bounded_mono 13); [unfold RITM_STEPS; lia|apply bounded_handle_sync_lower]. Qed.

(** What a guest traps into. *)
Lemma guest_next_prog is_ram a g p regs :
  guest_next is_ram a g = inr (p, regs) ->
  (exists s, p = handle_sync_lower_prog s) \/ exists k, p = wakeup_prog k.
Proof.
  destruct a as [w sx r64 rt ipa va dev|w r64 rt ipa va|smc|esr|s' regs'|arg entry|];
    simpl; repeat case_match; intros [= <- <-]; try (left; by eexists).
  - right. by exists (WakeStart arg entry).
  - right. by exists WakeResume.
Qed.

Lemma guest_next_inl is_ram a g g' :
  guest_next is_ram a g = inl g' ->
  gstep is_ram a g = Runs g' /\ exists regs, g_world g' = with_sysregs (g_world g) regs.
Proof.
  assert (Hw : forall w : World, w = with_sysregs w (w_sysregs w)) by by intros [].
  destruct a; simpl; repeat case_match; intros [= <-]; (split; [done|]); eauto.
Qed.
End NoReturnPrograms.

(** ** The invariant *)

Section Invariant.
Context {PT : PageTable} {SA : SmcccArch} {PLAT : Platform}.
Context {SYS : ArmSysregs} {PSCI : ArmPsci} {DEC : PsciDecoder} {FW : Firmware}.

(** Core [i] in a machine with the given world and lock: a guest runs only when
    stage 2 is configured and never holds the lock; a program of RITM that can
    go to EL1 before that asks for the configuration, is short, and holds the
    lock as its owner says. *)
Definition core_ok (w : World) (lock : option Z) (i : Z) (m : mode) : Prop :=
  match m with
  | Guest _ => is_Some (w_stage2_config w) /\ lock <> Some i
  | Ritm p => (is_Some (w_stage2_config w) \/ opens p) /\ bounded RITM_STEPS p /\
      locks (bool_decide (lock = Some i)) false p
  end.

Record finv (F : fmachine) : Prop := {
  fi_wf : world_wf (fm_world F);
  fi_policy : forall c, w_stage2_config (fm_world F) = Some c -> platform_policy c;
  fi_cores : forall i m regs, fm_cores F !! i = Some (m, regs) ->
    core_ok (fm_world F) (fm_lock F) i m;
  fi_lock : forall i, fm_lock F = Some i -> is_Some (fm_cores F !! i);
}.

(** The parts of the invariant about the world. *)
Definition world_ok (w : World) : Prop :=
  world_wf w /\ forall c, w_stage2_config w = Some c -> platform_policy c.

Lemma world_ok_sysregs w regs : world_ok w -> world_ok (with_sysregs w regs).
Proof. intros [[] Hp]. split; [by constructor|done]. Qed.

Lemma platform_policy_same c c' : same_policy c c' -> platform_policy c -> platform_policy c'.
Proof. intros H (b & Hb & Hs). exists b. split; [done|]. by transitivity c. Qed.

Lemma world_ok_evolves w w' : world_ok w -> evolves w w' -> world_ok w'.
Proof.
  intros [_ Hp] Hev. split; [apply (ev_wf _ _ Hev)|]. intros c' Hc'.
  destruct (ev_configured _ _ Hev c' Hc') as [(c & Hc & Hs)|]; [|done].
  by eapply platform_policy_same, Hp.
Qed.

(** Another core is fine after a step that keeps the configuration and its
    share of the lock. *)
Lemma core_ok_other w w' lock lock' i m :
  (is_Some (w_stage2_config w) -> is_Some (w_stage2_config w')) ->
  (lock' = Some i <-> lock = Some i) -> core_ok w lock i m -> core_ok w' lock' i m.
Proof.
  intros Hc Hl. destruct m as [s|p]; simpl.
  - rewrite Hl. tauto.
  - rewrite (bool_decide_ext _ _ Hl). tauto.
Qed.

(** Core [i] makes a step, to [c]. *)
Lemma finv_update F i c w' lock' mem' :
  finv F -> world_ok w' ->
  (is_Some (w_stage2_config (fm_world F)) -> is_Some (w_stage2_config w')) ->
  (forall j, j <> i -> lock' = Some j <-> fm_lock F = Some j) ->
  (forall m regs, c = Some (m, regs) -> core_ok w' lock' i m) ->
  (lock' = Some i -> is_Some c) ->
  finv (mkF (partial_alter (fun _ => c) i (fm_cores F)) w' lock' mem').
Proof.
  intros [Hwf Hp Hcores Hlock] [Hwf' Hp'] Hcfg Hl Hc Hown. constructor; simpl; try done.
  - intros j m regs. destruct (decide (j = i)) as [->|Hne].
    + rewrite lookup_partial_alter_eq. apply Hc.
    + rewrite lookup_partial_alter_ne by done. intros Hj.
      eapply core_ok_other; [exact Hcfg|by apply Hl|by eapply Hcores].
  - intros j Hj. destruct (decide (j = i)) as [->|Hne].
    + rewrite lookup_partial_alter_eq. by apply Hown.
    + rewrite lookup_partial_alter_ne by done. apply Hlock. by apply Hl.
Qed.

Lemma finv_world F : finv F -> world_ok (fm_world F).
Proof. by intros []. Qed.

(** A core whose program ends. *)
Lemma finv_finish F i c w' :
  finv F -> world_ok w' -> fm_lock F <> Some i ->
  (is_Some (w_stage2_config (fm_world F)) -> is_Some (w_stage2_config w')) ->
  (forall m regs, c = Some (m, regs) -> (exists s, m = Guest s) /\ is_Some (w_stage2_config w')) ->
  finv (set_fcore i c (set_fworld w' F)).
Proof.
  intros Hinv Hw Hl Hcfg Hc. apply (finv_update F); try done. intros m regs [[s ->] Hs]%Hc. by split.
Qed.

(** After leaving RITM a core is in the guest, or gone. *)
Lemma after_leave_guest l regs w m regs' :
  after_leave l regs w = Some (m, regs') -> l <> NoReturn /\ exists s, m = Guest s.
Proof. destruct l; [|done]. intros [= <- <-]. eauto. Qed.

Context {PTL : PageTableLaws} {PLL : PlatformLaws}.

Lemma finv_op F i X (o : op X) k regs :
  finv F -> fm_cores F !! i = Some (Ritm (POp X o k), regs) -> blocked o (fm_lock F) = false ->
  finv (default F (ritm_next i (POp X o k) regs F)).
Proof.
  intros Hinv Hi Hb. pose proof (fi_cores _ Hinv i _ _ Hi) as (Hop & Hbd & Hr & Hlk).
  set (w := with_sysregs (fm_world F) regs).
  assert (Hw : world_ok w) by by apply world_ok_sysregs, finv_world.
  pose proof (safe_op o w (proj1 Hw)) as Hev. pose proof (world_ok_evolves _ _ Hw Hev) as Hw'.
  assert (Hcfg : is_Some (w_stage2_config (fm_world F)) ->
    is_Some (w_stage2_config (world_of (op_sem o w)))).
  { intros [c Hc]. destruct (ev_policy _ _ Hev c Hc) as (c' & Hc' & _). by exists c'. }
  simpl. rewrite Hb. fold w. destruct (op_sem o w) as [x w'|msg w'|l w'] eqn:E; simpl in *.
  - apply (finv_update F i (Some _)); try done.
    + intros j Hj. unfold next_lock. destruct (lock_effect o) as [[]|] eqn:El; [..|done].
      * unfold blocked in Hb. rewrite El in Hb. destruct (fm_lock F); [done|]. naive_solver.
      * destruct Hlk as [Hlk _]. apply bool_decide_eq_true in Hlk. rewrite Hlk. naive_solver.
    + intros m regs' [= <- <-]. split_and!.
      * destruct Hop as [Hc|[Ho|Ho]]; [left; by apply Hcfg|left; by eapply op_configures|by right].
      * apply (bounded_mono 24); [unfold RITM_STEPS; lia|apply Hbd].
      * unfold next_lock. destruct (lock_effect o) as [[]|]; [..|apply Hlk].
        -- rewrite bool_decide_eq_true_2 by done. apply Hlk.
        -- rewrite bool_decide_eq_false_2 by done. apply Hlk.
  - apply finv_finish; try done. intros Hl. rewrite bool_decide_eq_true_2 in Hr by done.
    destruct (op_returns o w (Hr eq_refl)) as (x & w'' & E'). congruence.
  - apply op_leaves in E as El. subst l. apply finv_finish; try done.
    intros Hl. rewrite bool_decide_eq_true_2 in Hr by done.
    destruct (op_returns o w (Hr eq_refl)) as (x & w'' & E'). congruence.
Qed.

Lemma finv_ritm F i p regs :
  finv F -> fm_cores F !! i = Some (Ritm p, regs) -> finv (default F (ritm_next i p regs F)).
Proof.
  intros Hinv Hi. pose proof (fi_cores _ Hinv i _ _ Hi) as (Hop & _ & Hlk).
  destruct p as [s|msg|l|X o k].
  - apply (finv_finish F i (Some _) (fm_world F)); try done; [by apply finv_world|..].
    + intros Hl. rewrite bool_decide_eq_true_2 in Hlk by done. done.
    + intros m regs' [= <- <-]. split; [by eexists|]. by destruct Hop.
  - apply (finv_finish F i None (fm_world F)); try done; [by apply finv_world|].
    intros Hl. rewrite bool_decide_eq_true_2 in Hlk by done. done.
  - apply (finv_finish F i _ (fm_world F)); try done; [by apply finv_world|..].
    + intros Hl. rewrite bool_decide_eq_true_2 in Hlk by done. done.
    + intros m regs' [Hl Hm]%after_leave_guest. split; [done|]. destruct Hop as [|Hop]; [done|].
      by destruct l.
  - destruct (blocked o (fm_lock F)) eqn:Hb; [simpl; by rewrite Hb|]. by apply finv_op.
Qed.

Lemma finv_store l F : finv F -> finv (store_bytes l F).
Proof. by intros []. Qed.

(** A core enters a program of RITM. *)
Lemma finv_enter F i p regs :
  finv F -> fm_lock F <> Some i -> (is_Some (w_stage2_config (fm_world F)) \/ opens p) ->
  bounded RITM_STEPS p -> locks false false p -> finv (set_fcore i (Some (Ritm p, regs)) F).
Proof.
  intros Hinv Hl Hop Hbd Hlk. apply finv_update; try done; [by apply finv_world|].
  intros m regs' [= <- <-]. unfold core_ok. rewrite bool_decide_eq_false_2 by done. done.
Qed.

Context (is_ram : Z -> bool) (stores : own_stores).

Lemma finv_step e F : finv F -> finv (fstep is_ram stores e F).
Proof.
  intros Hinv. destruct e as [i a|i|i regs k]; [|simpl|].
  - simpl. destruct (fm_cores F !! i) as [[[s|p] regs]|] eqn:Hi; [|done..].
    pose proof (fi_cores _ Hinv i _ _ Hi) as [Hc Hl].
    destruct (guest_next is_ram a (fseen s regs F)) as [g|[p regs']] eqn:E.
    + apply guest_next_inl in E as [_ [regs' Hg]]. rewrite Hg.
      apply (finv_update F i (Some _)); try done.
      * apply world_ok_sysregs. simpl. by apply world_ok_sysregs, finv_world.
      * by intros m r [= <- <-].
    + apply guest_next_prog in E as [[s' ->]|[k ->]]; apply finv_enter;
        auto using handle_bounded, locks_handle_sync_lower, wakeup_bounded, wakeup_locks.
  - destruct (fm_cores F !! i) as [[[s|p] regs]|] eqn:Hi; [done| |done].
    pose proof (finv_ritm F i p regs Hinv Hi) as H. destruct (ritm_next i p regs F); [|done].
    by apply finv_store.
  - simpl. destruct (fm_cores F !! i) eqn:Hi; [done|].
    apply finv_enter; auto using wakeup_bounded, wakeup_locks, wakeup_opens.
    intros Hl. destruct (fi_lock _ Hinv i Hl) as [c Hc]. congruence.
Qed.

Lemma finv_run sched n F : finv F -> finv (frun is_ram stores sched n F).
Proof. revert F. induction n; intros F Hinv; simpl; auto using finv_step. Qed.

Lemma finit_inv i a0 a1 a2 a3 ep regs p mem : finv (finit i a0 a1 a2 a3 ep regs p mem).
Proof.
  constructor; simpl; try done; [apply boot_world_wf|].
  intros j m r [<- [= <- <-]]%lookup_singleton_Some. split_and!.
  - right. apply opens_no_return, opens_entry.
  - apply bounded_no_return, (bounded_mono 23); [unfold RITM_STEPS; lia|apply bounded_entry].
  - apply locks_no_return, locks_entry.
Qed.
End Invariant.

(** ** Stage 2 is on whenever a guest executes *)

Section Confined.
Context {PT : PageTable} {SA : SmcccArch} {PLAT : Platform}.
Context {SYS : ArmSysregs} {PSCI : ArmPsci} {DEC : PsciDecoder} {FW : Firmware}.
Context {PTL : PageTableLaws} {PLL : PlatformLaws}.
Context (is_ram : Z -> bool) (stores : own_stores).

(** A register of a core: it holds [v], or its program is going to write it. *)
Definition reg_ok (r : sysreg) (v : Z) (c : mode * sysregs) : Prop :=
  match c.1 with
  | Guest _ => c.2 r = v
  | Ritm p => (c.2 r = v /\ keeps r p) \/ establishes r v p
  end.

(** VTTBR_EL2: it is the root of the table in the static, or the core's program
    is going to activate that table. *)
Definition rooted (w : World) (regs : sysregs) : Prop :=
  exists c, w_stage2_config w = Some c /\ regs VTTBR_EL2 = idmap_root_address (s2c_idmap c).
Definition root_ok (w : World) (c : mode * sysregs) : Prop :=
  match c.1 with
  | Guest _ => rooted w c.2
  | Ritm p => (rooted w c.2 /\ keeps VTTBR_EL2 p) \/
      exists known, (known = true -> is_Some (w_stage2_config w)) /\ roots known p
  end.

(** The registers of stage-2 translation, of one core and of all. *)
Definition regs_ok (w : World) (c : mode * sysregs) : Prop :=
  reg_ok HCR_EL2 guest_hcr c /\ reg_ok VTCR_EL2 stage2_vtcr c /\ root_ok w c.
Definition all_regs_ok (F : fmachine) : Prop :=
  forall i c, fm_cores F !! i = Some c -> regs_ok (fm_world F) c.

Lemma rooted_evolves w w' regs : evolves w w' -> rooted w regs -> rooted w' regs.
Proof.
  intros Hev (c & Hc & Hr). destruct (ev_policy _ _ Hev c Hc) as (c' & Hc' & _ & Hroot & _).
  exists c'. split; [done|]. by rewrite Hroot.
Qed.

Lemma configured_evolves w w' :
  evolves w w' -> is_Some (w_stage2_config w) -> is_Some (w_stage2_config w').
Proof. intros Hev [c Hc]. destruct (ev_policy _ _ Hev c Hc) as (c' & Hc' & _). by exists c'. Qed.

Lemma regs_ok_evolves w w' c : evolves w w' -> regs_ok w c -> regs_ok w' c.
Proof.
  intros Hev (Hh & Hv & Hr). split_and!; [done..|]. destruct c as [[s|p] regs]; simpl in *.
  - by eapply rooted_evolves.
  - destruct Hr as [[Hr Hk]|(kn & Hkn & Hr)]; [left|right].
    + split; [|done]. by eapply rooted_evolves.
    + exists kn. split; [|done]. intros H. by eapply configured_evolves, Hkn.
Qed.

(** Core [i] makes a step, to [c]; the world evolves from what it was. *)
Lemma all_regs_set i c (F : fmachine) w' lock mem :
  all_regs_ok F -> (forall d, regs_ok (fm_world F) d -> regs_ok w' d) ->
  (forall c', c = Some c' -> regs_ok w' c') ->
  all_regs_ok (mkF (partial_alter (fun _ => c) i (fm_cores F)) w' lock mem).
Proof.
  intros Hinv Hw Hc j c'. simpl. destruct (decide (j = i)) as [->|Hne].
  - rewrite lookup_partial_alter_eq. apply Hc.
  - rewrite lookup_partial_alter_ne by done. intros Hj. by eapply Hw, Hinv.
Qed.

Lemma reg_ok_leave r v l regs w c :
  reg_ok r v (Ritm (PLeave l), regs) -> after_leave l regs w = Some c -> reg_ok r v c.
Proof. destruct l; [|done]. intros [[Hr _]|[]] [= <-]. done. Qed.

Lemma regs_ok_leave w l regs w' c :
  regs_ok w (Ritm (PLeave l), regs) -> after_leave l regs w' = Some c -> regs_ok w c.
Proof.
  intros (Hh & Hv & Hr) Hc. split_and!; [by eapply reg_ok_leave..|].
  destruct l; [|done]. injection Hc as <-. simpl in *. by destruct Hr as [[Hr _]|(? & _ & [])].
Qed.

Lemma reg_ok_op r v X (o : op X) k regs x w w' :
  w_sysregs w = regs -> reg_ok r v (Ritm (POp X o k), regs) -> op_sem o w = Done x w' ->
  reg_ok r v (Ritm (k x), w_sysregs w').
Proof.
  intros <- Hok E. destruct Hok as [[Hr [Hw Hk]]|[[Hw Hk]|He]]; unfold reg_ok; simpl.
  - left. split; [|done]. pose proof (op_sysregs o w r Hw) as H. rewrite E in H. simpl in H. by rewrite H.
  - left. split; [by eapply op_writes|done].
  - by right.
Qed.

(** An activation that finds a configuration writes its root. *)
Lemma activate_rooted w x w' :
  is_Some (w_stage2_config w) -> activate_stage2 w = Done x w' -> rooted w' (w_sysregs w').
Proof.
  intros [c Hc]. unfold activate_stage2. run_monad. rewrite Hc. intros [= _ <-].
  eexists. split; [reflexivity|]. simpl. rewrite set_sysreg_eq. by rewrite root_activate.
Qed.

Lemma root_ok_op X (o : op X) k regs x w w' :
  world_wf w -> w_sysregs w = regs -> root_ok w (Ritm (POp X o k), regs) -> op_sem o w = Done x w' ->
  root_ok w' (Ritm (k x), w_sysregs w').
Proof.
  intros Hwf <- Hok E. pose proof (safe_op o w Hwf) as Hev. rewrite E in Hev. simpl in Hev.
  destruct Hok as [[Hr [Hw Hk]]|(kn & Hkn & [(Hk & Ha & Hkeep)|Hr])].
  - left. split; [|done]. pose proof (op_sysregs o w VTTBR_EL2 Hw) as H. rewrite E in H. simpl in H.
    destruct (rooted_evolves w w' (w_sysregs w) Hev Hr) as (c & Hc & Hroot). exists c.
    split; [done|]. simpl. by rewrite H.
  - left. split; [|done]. destruct o; try done. by eapply activate_rooted; [by apply Hkn|].
  - right. exists (kn || is_call_once o). split; [|done]. intros [H|H]%orb_true_iff.
    + by eapply configured_evolves, Hkn.
    + by eapply op_configures.
Qed.

Lemma all_regs_ritm i p regs F :
  finv F -> all_regs_ok F -> fm_cores F !! i = Some (Ritm p, regs) ->
  all_regs_ok (default F (ritm_next i p regs F)).
Proof.
  intros Hfi Hinv Hi. pose proof (Hinv i _ Hi) as Hok. destruct p as [s|msg|l|X o k]; simpl.
  - apply all_regs_set; [done..|]. intros c [= <-]. destruct Hok as (Hh & Hv & Hr).
    split_and!; simpl in *; [by destruct Hh as [[? _]|[]]|by destruct Hv as [[? _]|[]]|].
    by destruct Hr as [[? _]|(? & _ & [])].
  - by apply all_regs_set.
  - apply all_regs_set; [done..|]. intros c. by eapply regs_ok_leave.
  - destruct (blocked o (fm_lock F)); [done|]. set (w := with_sysregs (fm_world F) regs).
    assert (Hwf : world_wf w) by by apply world_ok_sysregs, finv_world.
    assert (Hev : forall d, regs_ok (fm_world F) d -> regs_ok (world_of (op_sem o w)) d).
    { intros d Hd. apply (regs_ok_evolves w); [by apply safe_op|exact Hd]. }
    destruct (op_sem o w) as [x w'|msg w'|l w'] eqn:E; simpl in *.
    + apply (all_regs_set i (Some _)); [done..|]. intros c [= <-]. destruct Hok as (Hh & Hv & Hr).
      split_and!; [by eapply (reg_ok_op _ _ X o k regs x w)..|by eapply (root_ok_op X o k regs x w)].
    + by apply (all_regs_set i None F w').
    + apply op_leaves in E. subst l. by apply (all_regs_set i None F w').
Qed.

(** What the hardware and the guest do to the three registers. *)
Definition stage2_reg (r : sysreg) : Prop := r = HCR_EL2 \/ r = VTCR_EL2 \/ r = VTTBR_EL2.

Lemma guest_next_reg r a g p regs :
  stage2_reg r -> guest_next is_ram a g = inr (p, regs) -> regs r = w_sysregs (g_world g) r.
Proof.
  intros Hr. destruct a; simpl; repeat case_match; intros [= _ <-]; try done;
    first [by apply abort_sysregs_keeps|by apply esr_keeps].
Qed.

Lemma guest_next_stays r a g g' :
  stage2_reg r -> guest_next is_ram a g = inl g' -> w_sysregs (g_world g') r = w_sysregs (g_world g) r.
Proof. intros Hr. destruct a; simpl; repeat case_match; intros [= <-]; try done; by destruct Hr as [->|[->| ->]]. Qed.

Lemma roots_no_return known p : roots known p -> roots known (no_return p).
Proof.
  revert known. induction p as [[]|msg|l|X o k IH]; intros known; simpl; try done.
  intros [(Hk & Ha & Hkeep)|H]; [left|right].
  - split_and!; [done..|]. intros x. by apply keeps_bind.
  - intros x. by apply IH.
Qed.

Lemma wakeup_regs_ok w k regs : regs_ok w (Ritm (wakeup_prog k), regs).
Proof.
  split_and!; simpl; right; [apply wakeup_establishes..|]. exists false. split; [done|].
  apply roots_no_return. destruct k; [apply roots_entry|apply roots_restore].
Qed.

Lemma regs_ok_ext w s s' regs regs' :
  (forall r, stage2_reg r -> regs' r = regs r) -> regs_ok w (Guest s, regs) -> regs_ok w (Guest s', regs').
Proof.
  intros H (Hh & Hv & c & Hc & Hr). unfold regs_ok, reg_ok, root_ok, rooted, stage2_reg in *. simpl in *.
  rewrite !H by auto. eauto.
Qed.

Lemma all_regs_step e F : finv F -> all_regs_ok F -> all_regs_ok (fstep is_ram stores e F).
Proof.
  intros Hfi Hinv. destruct e as [i a|i|i regs k]; simpl.
  - destruct (fm_cores F !! i) as [[[s|p] regs]|] eqn:Hi; [|done..].
    pose proof (Hinv i _ Hi) as Hok.
    destruct (guest_next is_ram a (fseen s regs F)) as [g|[p regs']] eqn:E.
    + pose proof (fun r Hr => guest_next_stays r _ _ _ Hr E) as Hregs.
      pose proof (guest_next_inl _ _ _ _ E) as [_ [regs' Hg]]. rewrite Hg in Hregs |- *.
      apply (all_regs_set i (Some _)); [done..|]. intros c [= <-].
      exact (regs_ok_ext (fm_world F) s _ regs _ Hregs Hok).
    + apply all_regs_set; [done..|]. intros c [= <-].
      pose proof (fun r Hr => guest_next_reg r _ _ _ _ Hr E) as Hregs. simpl in Hregs.
      apply guest_next_prog in E as [[s' ->]|[k ->]]; [|apply wakeup_regs_ok].
      destruct Hok as (Hh & Hv & c & Hc & Hr). unfold stage2_reg in Hregs.
      split_and!; left; (split; [|by apply keeps_handle_sync_lower]); simpl in *.
      * rewrite Hregs; auto.
      * rewrite Hregs; auto.
      * exists c. split; [done|]. rewrite Hregs; auto.
  - destruct (fm_cores F !! i) as [[[s|p] regs]|] eqn:Hi; [done| |done].
    pose proof (all_regs_ritm i p regs F Hfi Hinv Hi) as H. by destruct (ritm_next i p regs F).
  - destruct (fm_cores F !! i) eqn:Hi; [done|]. apply all_regs_set; [done..|].
    intros c [= <-]. apply wakeup_regs_ok.
Qed.

(** Both invariants, along a run from the first entry. *)
Definition on_inv (F : fmachine) : Prop := finv F /\ all_regs_ok F.

Lemma on_inv_step e F : on_inv F -> on_inv (fstep is_ram stores e F).
Proof. intros [Hfi Hr]. split; [by apply finv_step|by apply all_regs_step]. Qed.

Lemma on_inv_run sched n F : on_inv F -> on_inv (frun is_ram stores sched n F).
Proof. revert F. induction n; intros F Hinv; simpl; auto using on_inv_step. Qed.

Lemma finit_on_inv i a0 a1 a2 a3 ep regs p mem : on_inv (finit i a0 a1 a2 a3 ep regs p mem).
Proof.
  split; [apply finit_inv|]. intros j c Hc. simpl in Hc. apply lookup_singleton_Some in Hc as [<- <-].
  split_and!; simpl; right; [apply establishes_no_return, establishes_entry..|].
  exists false. split; [done|]. apply roots_no_return, roots_entry.
Qed.

(** A core in the guest has stage 2 on. *)
Lemma guest_regs_on {SYL : ArmSysregsLaws} F i s regs :
  on_inv F -> fm_cores F !! i = Some (Guest s, regs) -> core_on (fm_world F) regs.
Proof.
  intros [_ Hinv] Hi. destruct (Hinv i _ Hi) as (Hh & Hv & c & Hc & Hr). exists c. split; [done|].
  simpl in *. unfold stage2_on. unfold guest_hcr in Hh. rewrite entry_hcr in Hh.
  by rewrite Hh, Hv, Hr, stage2_vtcr_value, (Z.eqb_refl (idmap_root_address _)).
Qed.
End Confined.

(** ** Isolation on the QEMU platform *)

Section QemuConcurrent.
Context {PT : PageTable} {S2F : Stage2Flags} {SA : SmcccArch} {IMG : QemuImage}.
Context {SYS : ArmSysregs} {SYL : ArmSysregsLaws} {PSCI : ArmPsci} {DEC : PsciDecoder} {FW : Firmware}.
Context {PTL : PageTableLaws} (is_ram : Z -> bool).

(** Machines that differ in RITM's private memory only. *)
Definition flow_eq (F1 F2 : fmachine) : Prop :=
  fm_cores F1 = fm_cores F2 /\ fm_world F1 = fm_world F2 /\ fm_lock F1 = fm_lock F2 /\
  forall x, ~ private x -> fm_mem F1 x = fm_mem F2 x.

#[export] Instance flow_eq_equivalence : Equivalence flow_eq.
Proof.
  split.
  - by intros F.
  - intros F1 F2 (? & ? & ? & H). split_and!; [done..|]. intros x Hx. by rewrite H.
  - intros F1 F2 F3 (? & ? & ? & H) (? & ? & ? & H'). split_and!; [by etrans..|].
    intros x Hx. rewrite H by done. by apply H'.
Qed.

Lemma platform_policy_qemu c x : image_ok -> platform_policy c -> stage2_access c x = qemu_policy x.
Proof.
  intros Himg (b & Hb & _ & _ & Hsame). rewrite Hsame. by apply qemu_configured_access.
Qed.

(** A guest that executes has the platform's policy in force. *)
Lemma finv_guest_policy F i s regs :
  image_ok -> on_inv F -> fm_cores F !! i = Some (Guest s, regs) ->
  policy_in_force (g_world (fseen s regs F)).
Proof.
  intros Himg Hinv Hi. destruct (guest_regs_on F i s regs Hinv Hi) as (c & Hc & Hon). exists c.
  split_and!; [done..|]. intros x. apply platform_policy_qemu; [done|]. by apply (fi_policy _ (proj1 Hinv)).
Qed.

Lemma ritm_next_mem i p regs (F F' : fmachine) : ritm_next i p regs F = Some F' -> fm_mem F' = fm_mem F.
Proof. destruct p; simpl; repeat case_match; intros [= <-]; done. Qed.

Lemma write_bytes_app l1 l2 mem : write_bytes (l1 ++ l2) mem = write_bytes l2 (write_bytes l1 mem).
Proof. apply foldl_app. Qed.

(** What the stores leave at an address depends on what was there only. *)
Lemma write_bytes_ext l mem1 mem2 x : mem1 x = mem2 x -> write_bytes l mem1 x = write_bytes l mem2 x.
Proof.
  revert mem1 mem2. induction l as [|st l IH]; intros mem1 mem2 H; simpl; [done|].
  apply IH. by destruct (x =? st.1).
Qed.

Lemma write_bytes_other l mem x : (forall st, In st l -> st.1 <> x) -> write_bytes l mem x = mem x.
Proof.
  revert mem. induction l as [|st l IH]; intros mem H; simpl; [done|].
  rewrite IH by (intros; apply H; by right).
  destruct (Z.eqb_spec x st.1) as [->|]; [|done]. by destruct (H st (or_introl eq_refl)).
Qed.

(** A byte of the image after a step: RITM's own stores, and nothing else. *)
Lemma fstep_private stores e (F : fmachine) x :
  image_ok -> on_inv F -> private x ->
  fm_mem (fstep is_ram stores e F) x = write_bytes (stored stores e F) (fm_mem F) x.
Proof.
  intros Himg Hinv Hx. destruct e as [i a|i|i regs k]; simpl.
  - destruct (fm_cores F !! i) as [[[s|p] regs]|] eqn:Hi; [|done..].
    destruct (guest_next is_ram a (fseen s regs F)) as [g|[p regs']] eqn:E; [|done].
    apply guest_next_inl in E as [E _].
    pose proof (gstep_private is_ram a _ x Himg (or_intror (finv_guest_policy F i s regs Himg Hinv Hi)) Hx) as H.
    by rewrite E in H.
  - destruct (fm_cores F !! i) as [[[s|p] regs]|] eqn:Hi; [done| |done].
    destruct (ritm_next i p regs F) eqn:E; simpl; [|done]. by rewrite (ritm_next_mem _ _ _ _ _ E).
  - by destruct (fm_cores F !! i).
Qed.

Lemma frun_private stores sched n (F : fmachine) x :
  image_ok -> on_inv F -> private x ->
  fm_mem (frun is_ram stores sched n F) x = write_bytes (all_stored is_ram stores sched n F) (fm_mem F) x.
Proof.
  intros Himg Hinv Hx. pose proof (qemu_platform_laws Himg) as PLL.
  revert F Hinv. induction n as [|n IH]; intros F Hinv; simpl; [done|].
  rewrite write_bytes_app, IH by by apply on_inv_step. by apply write_bytes_ext, fstep_private.
Qed.

(** RITM's steps do not look at memory. *)
Lemma ritm_next_low i p regs F1 F2 :
  flow_eq F1 F2 ->
  match ritm_next i p regs F1, ritm_next i p regs F2 with
  | Some F1', Some F2' => flow_eq F1' F2'
  | None, None => True
  | _, _ => False
  end.
Proof.
  intros Hlow. pose proof Hlow as (Hc & Hw & Hl & Hm).
  destruct p as [s|msg|l|X o k]; simpl; unfold flow_eq, set_fcore, set_fworld; simpl;
    rewrite <- ?Hw, <- ?Hl, <- ?Hc; try done.
  destruct (blocked o (fm_lock F1)); [done|]. destruct (op_sem o _); simpl; by rewrite <- ?Hl, <- ?Hc.
Qed.

(** RITM's own stores stay in its private memory. *)
Definition stores_private (stores : own_stores) : Prop :=
  forall F i st, In st (stores F i) -> private st.1.

Lemma store_low l1 l2 F1 F2 :
  (forall st, In st l1 -> private st.1) -> (forall st, In st l2 -> private st.1) -> flow_eq F1 F2 ->
  flow_eq (store_bytes l1 F1) (store_bytes l2 F2).
Proof.
  intros H1 H2 (Hc & Hw & Hl & Hm). split_and!; [done..|]. intros x Hx. simpl.
  rewrite !write_bytes_other; [by apply Hm|..]; intros st Hin Heq; apply Hx; rewrite <- Heq; auto.
Qed.

Lemma guest_next_low a g1 g2 :
  image_ok -> policy_in_force (g_world g1) -> low_eq g1 g2 ->
  match guest_next is_ram a g1, guest_next is_ram a g2 with
  | inl g1', inl g2' => low_eq g1' g2'
  | inr x, inr y => x = y
  | _, _ => False
  end.
Proof.
  intros Himg Hp Hlow. pose proof (gstep_low is_ram a g1 g2 Himg (or_intror Hp) Hlow) as Hs.
  destruct Hlow as (Hr & Hw & Hm).
  assert (Hmap : forall ipa, mapped g2 ipa = mapped g1 ipa) by (intros; unfold mapped; by rewrite Hw).
  destruct a as [w sx r64 rt ipa va dev|w r64 rt ipa va|smc|esr|s' regs'|arg entry|];
    unfold gstep, guest_next in *; rewrite ?Hmap, <- ?Hr, <- ?Hw in *; try done.
  - destruct (negb _); [done|]. by destruct (mapped g1 ipa).
  - destruct (negb _); [done|]. by destruct (mapped g1 ipa).
Qed.

Lemma fstep_low st1 st2 e F1 F2 :
  image_ok -> stores_private st1 -> stores_private st2 -> on_inv F1 -> flow_eq F1 F2 ->
  flow_eq (fstep is_ram st1 e F1) (fstep is_ram st2 e F2).
Proof.
  intros Himg Hs1 Hs2 Hinv Hlow. pose proof Hlow as (Hc & Hw & Hl & Hm).
  destruct e as [i a|i|i regs k]; simpl; rewrite <- Hc.
  - destruct (fm_cores F1 !! i) as [[[s|p] regs]|] eqn:Hi; [|done..].
    pose proof (guest_next_low a (fseen s regs F1) (fseen s regs F2) Himg
      (finv_guest_policy F1 i s regs Himg Hinv Hi)) as Hg.
    destruct (guest_next is_ram a (fseen s regs F1)) as [g1|x], (guest_next is_ram a (fseen s regs F2)) as [g2|y].
    + destruct Hg as (H1 & H2 & H3); [by unfold low_eq, fseen; simpl; rewrite Hw|].
      unfold flow_eq. simpl. by rewrite H1, H2.
    + destruct Hg; by unfold low_eq, fseen; simpl; rewrite Hw.
    + destruct Hg; by unfold low_eq, fseen; simpl; rewrite Hw.
    + rewrite <- Hg by by unfold low_eq, fseen; simpl; rewrite Hw. destruct x as [p regs'].
      unfold flow_eq. simpl. by rewrite Hc.
  - destruct (fm_cores F1 !! i) as [[[s|p] regs]|] eqn:Hi; [done| |done].
    pose proof (ritm_next_low i p regs F1 F2 Hlow) as Hn.
    destruct (ritm_next i p regs F1), (ritm_next i p regs F2); try done.
    apply store_low; [apply Hs1|apply Hs2|done].
  - destruct (fm_cores F1 !! i) as [[[s|p] regs']|] eqn:Hi; [done..|].
    unfold flow_eq. simpl. by rewrite Hc.
Qed.
End QemuConcurrent.

(** ** Properties *)




(** ** Witnesses *)

Section ConcurrentWitnesses.
Import QemuExample ArmArch ExampleFirmware.

Definition boot_machine (mem : memory) : fmachine :=
  finit (PLAT := qemu_platform) 0 1 2 3 4 0x4020_0000 boot_regs 0 mem.

(** Core 0 boots; core 1 is started and enters RITM while core 0 reads the
    image from the guest; then their accesses alternate. *)
Definition racing_spies (F : fmachine) : fevent :=
  match fm_cores F !! 0, fm_cores F !! 1 with
  | Some (Guest _, _), None => FWake 1 boot_regs (WakeStart 7 0x4020_0000)
  | Some (Guest s, _), Some _ =>
      if vr_elr (volatile s) =? 0x4020_0000
      then FAct 0 (ALoad U64 false true 1 0x4700_0000 0x4700_0000 0)
      else FAct 0 (AStore U64 true 1 0x4700_0000 0x4700_0000)
  | Some (Ritm _, _), Some (Ritm _, _) =>
      FRitm (if Nat.even (length (w_trace (fm_world F))) then 0 else 1)
  | None, Some _ => FRitm 1
  | _, _ => FRitm 0
  end.

(** RITM's steps store the length of the trace and the core in two bytes of a static. *)
Definition counting_stores (F : fmachine (PLAT := qemu_platform)) (i : Z) : list (Z * Z) :=
  let n := Z.of_nat (length (w_trace (fm_world F))) in [(0x4700_0010, n); (0x4700_0011, i)].

Lemma counting_stores_private : stores_private counting_stores.
Proof.
  intros F i st Hin. assert (st.1 = 0x4700_0010 \/ st.1 = 0x4700_0011) as [-> | ->]
    by (destruct Hin as [<-|[<-|[]]]; auto); vm_compute; intuition discriminate.
Qed.

Lemma racing_spies_proper : Proper (flow_eq ==> eq) racing_spies.
Proof. intros F1 F2 (Hc & Hw & _). unfold racing_spies. by rewrite Hc, Hw. Qed.

(** The cores do race: after 34 steps both are in RITM. *)
Lemma racing_spies_race :
  match fm_cores (frun example_ram counting_stores racing_spies 34 (boot_machine (example_memory 1))) !! 0,
        fm_cores (frun example_ram counting_stores racing_spies 34 (boot_machine (example_memory 1))) !! 1 with
  | Some (Ritm _, _), Some (Ritm _, _) => true
  | _, _ => false
  end = true.
Proof. by vm_compute. Qed.



End ConcurrentWitnesses.
