(* ===== verification/Returning.v ===== *)
(** * RITM comes back

    The cores of the machine of Concurrent.v that are in RITM: together they
    make a bounded number of accesses before all of them are back in the guest
    (or off), in every order, and the lock of the stage-2 table never stops all
    of them. *)

From Stdlib Require Import ZArith Lia.
From stdpp Require Import base tactics list gmap strings numbers.
From S2P Require Import Prelude MemoryAccess SimpleMap Stage2 Exceptions HvcResponse Pagetable.
From S2P Require Import Platform Qemu Sysregs World Hypervisor Safety Entry Aborts QemuSystem Guest.
From S2P Require Import MultiCore Prog Concurrent.

#[local] Open Scope Z_scope.

(** ** Steps of RITM and their bound *)

Section Termination.
Context {PT : PageTable} {SA : SmcccArch} {PLAT : Platform}.
Context {SYS : ArmSysregs} {PSCI : ArmPsci} {DEC : PsciDecoder} {FW : Firmware}.

(** [n] steps of cores in RITM, none of them spinning. *)
Inductive ritm_steps : nat -> fmachine -> fmachine -> Prop :=
| ritm_steps_O F : ritm_steps 0 F F
| ritm_steps_S n i p regs F F1 F2 :
    fm_cores F !! i = Some (Ritm p, regs) -> ritm_next i p regs F = Some F1 ->
    ritm_steps n F1 F2 -> ritm_steps (S n) F F2.

Definition in_ritm (m : mode) : bool := match m with Ritm _ => true | Guest _ => false end.
Definition ritm_cores (F : fmachine) : gmap Z (mode * sysregs) :=
  filter (fun ic => in_ritm ic.2.1 = true) (fm_cores F).

(** A bound for every core in RITM, and the steps they allow together. *)
Definition bounds (b : gmap Z nat) (F : fmachine) : Prop :=
  forall i p regs, fm_cores F !! i = Some (Ritm p, regs) -> exists n, b !! i = Some n /\ bounded n p.
Definition total (b : gmap Z nat) : nat := map_fold (fun _ n acc => (S n + acc)%nat) 0%nat b.

Lemma total_delete b i n : b !! i = Some n -> total b = (S n + total (delete i b))%nat.
Proof.
  intros H. unfold total. rewrite <- (insert_delete_id b i n H) at 1.
  rewrite map_fold_insert_L; [done|lia|apply lookup_delete_eq].
Qed.

Lemma total_insert b i n m : b !! i = Some n -> total (<[i := m]> b) = (S m + total (delete i b))%nat.
Proof.
  intros H. rewrite (total_delete _ i m) by apply lookup_insert_eq. by rewrite delete_insert_eq.
Qed.

(** A step of RITM lowers the total. *)
Lemma bounds_other b b' i F c w lock mem :
  bounds b F -> (forall j, j <> i -> b' !! j = b !! j) ->
  (forall p regs, c = Some (Ritm p, regs) -> exists n, b' !! i = Some n /\ bounded n p) ->
  bounds b' (mkF (partial_alter (fun _ => c) i (fm_cores F)) w lock mem).
Proof.
  intros Hb Hne Hc j p regs. simpl. destruct (decide (j = i)) as [->|Hji].
  - rewrite lookup_partial_alter_eq. apply Hc.
  - rewrite lookup_partial_alter_ne by done. rewrite Hne by done. apply Hb.
Qed.

Lemma ritm_next_bounds b i p regs F F' :
  bounds b F -> fm_cores F !! i = Some (Ritm p, regs) -> ritm_next i p regs F = Some F' ->
  exists b', bounds b' F' /\ (total b' < total b)%nat.
Proof.
  intros Hb Hi Hn. destruct (Hb i p regs Hi) as (n & Hbi & Hp).
  assert (Hgone : forall c w lock mem, (forall p regs, c <> Some (Ritm p, regs)) ->
    exists b', bounds b' (mkF (partial_alter (fun _ => c) i (fm_cores F)) w lock mem) /\
      (total b' < total b)%nat).
  { intros c w lock mem Hc. exists (delete i b). rewrite (total_delete b i n Hbi). split; [|lia].
    apply (bounds_other b); [done|by intros; apply lookup_delete_ne|].
    intros p' regs' ->. by destruct (Hc p' regs'). }
  assert (Hl : forall l regs w p' regs', after_leave l regs w <> Some (Ritm p', regs')) by by intros [].
  destruct p as [s|msg|l|X o k]; simpl in Hn.
  1-3: injection Hn as <-; by apply Hgone.
  destruct (blocked o (fm_lock F)); [done|]. injection Hn as <-.
  destruct (op_sem o _) as [x w'|msg w'|l w']; [|by apply Hgone..].
  destruct n as [|n]; [destruct Hp|]. exists (<[i := n]> b).
  rewrite (total_insert b i (S n) n Hbi), (total_delete b i (S n) Hbi). split; [|lia].
  apply (bounds_other b _ i F (Some _)); [done|by intros; apply lookup_insert_ne|].
  intros p' regs' [= <- <-]. exists n. by rewrite lookup_insert_eq.
Qed.

Lemma ritm_steps_bound n F F' b : ritm_steps n F F' -> bounds b F -> (n <= total b)%nat.
Proof.
  intros Hs. revert b. induction Hs as [F|n i p regs F F1 F2 Hi Hn _ IH]; intros b Hb; [lia|].
  destruct (ritm_next_bounds b i p regs F F1 Hb Hi Hn) as (b' & Hb' & Hlt).
  specialize (IH b' Hb'). lia.
Qed.

Lemma total_const {A} (m : gmap Z A) k : total ((fun _ => k) <$> m) = (S k * size m)%nat.
Proof.
  induction m as [|i x m Hi IH] using map_ind; [by rewrite fmap_empty, map_size_empty, Nat.mul_0_r|].
  rewrite fmap_insert, map_size_insert_None by done. unfold total in *.
  rewrite map_fold_insert_L; [rewrite IH; lia|lia|by rewrite lookup_fmap, Hi].
Qed.

(** A core in RITM can always make a step: itself, or the owner of the lock. *)
Lemma ritm_progress F i p regs :
  finv F -> fm_cores F !! i = Some (Ritm p, regs) ->
  exists j q regs' F', fm_cores F !! j = Some (Ritm q, regs') /\ ritm_next j q regs' F = Some F'.
Proof.
  intros Hinv Hi. destruct (ritm_next i p regs F) as [F'|] eqn:E; [by exists i, p, regs, F'|].
  destruct p as [s|msg|l|X o k]; try done. simpl in E. destruct (blocked o (fm_lock F)) eqn:Hb; [|done].
  unfold blocked in Hb. destruct (lock_effect o) as [[]|]; try done.
  destruct (fm_lock F) as [j|] eqn:Hl; [|done]. destruct (fi_lock _ Hinv j Hl) as [[m regs'] Hj].
  pose proof (fi_cores _ Hinv j _ _ Hj) as Hok. rewrite Hl in Hok.
  destruct m as [s|q]; [by destruct Hok|]. destruct Hok as (_ & _ & Hlk).
  rewrite bool_decide_eq_true_2 in Hlk by done.
  destruct q as [s|msg|l|Y o' k']; try done. exists j, (POp Y o' k'), regs'. simpl.
  destruct Hlk as [_ Hlk]. unfold blocked. rewrite Hl.
  destruct (lock_effect o') as [[]|]; [by destruct Hlk|by eexists..].
Qed.

Context {PTL : PageTableLaws} {PLL : PlatformLaws}.

Lemma ritm_steps_inv n F F' : ritm_steps n F F' -> finv F -> finv F'.
Proof.
  induction 1 as [F|n i p regs F F1 F2 Hi Hn _ IH]; [done|]. intros Hinv. apply IH.
  pose proof (finv_ritm F i p regs Hinv Hi) as H. by rewrite Hn in H.
Qed.

Lemma finv_bounds F : finv F -> bounds ((fun _ => RITM_STEPS) <$> ritm_cores F) F.
Proof.
  intros Hinv i p regs Hi. exists RITM_STEPS. split.
  - rewrite lookup_fmap. unfold ritm_cores. by rewrite (map_lookup_filter_Some_2 _ _ _ _ Hi).
  - apply (fi_cores _ Hinv i _ _ Hi).
Qed.
End Termination.

(** Scheduled long enough, every core leaves RITM. *)
Section Finishing.
Context {PT : PageTable} {SA : SmcccArch} {PLAT : Platform}.
Context {SYS : ArmSysregs} {PSCI : ArmPsci} {DEC : PsciDecoder} {FW : Firmware}.
Context {PTL : PageTableLaws} {PLL : PlatformLaws}.

Lemma in_ritm_cores F i c : ritm_cores F !! i = Some c -> exists p regs, fm_cores F !! i = Some (Ritm p, regs).
Proof.
  intros [Hi Hm]%map_lookup_filter_Some. destruct c as [[s|p] regs]; [done|]. by exists p, regs.
Qed.

Lemma ritm_finishes b F :
  finv F -> bounds b F -> exists n F', ritm_steps n F F' /\ ritm_cores F' = ∅.
Proof.
  remember (total b) as t eqn:Ht. revert b F Ht.
  induction t as [t IH] using lt_wf_ind. intros b F -> Hinv Hb.
  destruct (map_choose_or_empty (ritm_cores F)) as [(i & c & Hi)|He].
  - apply in_ritm_cores in Hi as (p & regs & Hi).
    destruct (ritm_progress F i p regs Hinv Hi) as (j & q & regs' & F' & Hj & Hq).
    destruct (ritm_next_bounds b j q regs' F F' Hb Hj Hq) as (b' & Hb' & Hlt).
    assert (Hs : ritm_steps 1 F F') by (eapply ritm_steps_S; [done..|apply ritm_steps_O]).
    destruct (IH (total b') Hlt b' F' eq_refl (ritm_steps_inv _ _ _ Hs Hinv) Hb') as (n & F'' & Hn & He).
    exists (S n), F''. split; [|done]. by eapply ritm_steps_S.
  - exists 0%nat, F. split; [apply ritm_steps_O|done].
Qed.
End Finishing.

(** ** Properties *)

(** C7: RITM always comes back: at any point of any interleaving, the cores
    that are in RITM leave it after finitely many accesses.  Together they make
    at most 26 steps each before all of them are back in the guest or off,
    whatever the order (a core that waits for the lock of the stage-2 table
    makes no step); as long as one of them is in RITM, one of them can make a
    step, so there is no deadlock. *)
Theorem ritm_terminates {PT : PageTable} {SA : SmcccArch} {PLAT : Platform}
    {SYS : ArmSysregs} {PSCI : ArmPsci} {DEC : PsciDecoder} {FW : Firmware}
    {PTL : PageTableLaws} {PLL : PlatformLaws}
    is_ram (stores : own_stores) (sched : fmachine -> fevent) (k : nat) i a0 a1 a2 a3 ep regs p mem :
  let F := frun is_ram stores sched k (finit i a0 a1 a2 a3 ep regs p mem) in
  (exists n F', ritm_steps n F F' /\ ritm_cores F' = ∅) /\
  forall n F', ritm_steps n F F' ->
    (n <= 26 * size (ritm_cores F))%nat /\
    (ritm_cores F' = ∅ \/ exists F'', ritm_steps 1 F' F'').
Proof.
  intros F. pose proof (finv_run is_ram stores sched k _ (finit_inv i a0 a1 a2 a3 ep regs p mem)) as Hinv.
  fold F in Hinv. pose proof (finv_bounds F Hinv) as Hb. split; [by eapply ritm_finishes|].
  intros n F' Hs. split.
  - pose proof (ritm_steps_bound n F F' _ Hs Hb) as Hn. by rewrite total_const in Hn.
  - destruct (map_choose_or_empty (ritm_cores F')) as [(j & c & Hj)|He]; [right|by left].
    apply in_ritm_cores in Hj as (q & regs' & Hj).
    destruct (ritm_progress F' j q regs' (ritm_steps_inv _ _ _ Hs Hinv) Hj) as (j' & q' & r' & F'' & H1 & H2).
    exists F''. eapply ritm_steps_S; [exact H1|exact H2|apply ritm_steps_O].
Qed.

(** ** Witness *)

Section ReturningWitness.
Import QemuExample ArmArch ExampleFirmware.

Lemma ritm_terminates_witness :
  exists n F', ritm_steps n (frun example_ram counting_stores racing_spies 34 (boot_machine (example_memory 1))) F' /\
    ritm_cores F' = ∅.
Proof.
  apply (ritm_terminates (PLL := qemu_platform_laws example_image_ok) example_ram counting_stores
    racing_spies 34 0 1 2 3 4 0x4020_0000 boot_regs 0 (example_memory 1)).
Defined.
End ReturningWitness.
