(* ===== verification/Granularity.v ===== *)
(** * Uninterrupted handlers as schedules of accesses

    The machine of MultiCore.v runs a handler of src/src/hypervisor.rs without
    interruption; the machine of Concurrent.v one access at a time.  Each step
    of the first is a schedule of the second. *)

From Stdlib Require Import ZArith Lia.
From stdpp Require Import base tactics list gmap strings numbers.
From S2P Require Import Prelude MemoryAccess SimpleMap Stage2 Exceptions HvcResponse Pagetable.
From S2P Require Import Platform Qemu Sysregs World Hypervisor Safety Entry Aborts QemuSystem Guest.
From S2P Require Import MultiCore Prog Concurrent Returning.

#[local] Open Scope Z_scope.

Section Coarse.
Context {PT : PageTable} {SA : SmcccArch} {PLAT : Platform}.
Context {SYS : ArmSysregs} {PSCI : ArmPsci} {DEC : PsciDecoder} {FW : Firmware}.
Context (is_ram : Z -> bool).

(** A program without [eret_to_el1]. *)
Fixpoint no_eret {A} (p : Prog A) : Prop :=
  match p with
  | PLeave l => l = NoReturn
  | POp X o k => forall x, no_eret (k x)
  | _ => True
  end.

Lemma no_eret_bind {A B} (p : Prog A) (f : A -> Prog B) :
  no_eret p -> (forall a, no_eret (f a)) -> no_eret (p ≫= f).
Proof.
  induction p as [a|msg|l|X o k IH]; intros Hp Hf; simpl in *; try done. intros x. by apply IH.
Qed.
Lemma no_eret_ret {A} (a : A) : no_eret (mret a).
Proof. done. Qed.
Lemma no_eret_lift {A} (o : outcome A) : no_eret (plift o).
Proof. by destruct o. Qed.
Lemma no_eret_access {X} (o : op X) : no_eret (access o).
Proof. done. Qed.
Lemma no_eret_panic {A} msg : no_eret (A := A) (PPanic msg).
Proof. done. Qed.
Hint Resolve no_eret_ret no_eret_lift no_eret_access no_eret_panic : walk.

Lemma handle_no_eret s : no_eret (handle_sync_lower_prog s).
Proof.
  unfold handle_sync_lower_prog, try_memory_access_handler_prog, emulate_read_prog,
    emulate_write_prog, inject_data_abort_prog, handle_call_prog, try_handle_psci_prog,
    handle_psci_prog, psci_cpu_on_prog, psci_cpu_suspend_prog. walk_with @no_eret_bind.
Qed.

Lemma run_no_eret {A} (p : Prog A) w l w' : no_eret p -> run p w = Leaves l w' -> l = NoReturn.
Proof.
  revert w. induction p as [a|msg|l0|X o k IH]; intros w Hp; simpl; try done.
  - by intros [= <- _].
  - destruct (op_sem o w) eqn:E; [apply IH, Hp|done|]. intros [= <- _]. by eapply op_leaves.
Qed.

(** The core after an uninterrupted run. *)
Definition run_core (r : run_result GuestRegisterState) : option (mode * sysregs) :=
  match r with
  | Done s w => Some (Guest s, w_sysregs w)
  | Panics _ _ => None
  | Leaves l w => after_leave l (w_sysregs w) w
  end.

Lemma with_sysregs_id (w : World) : with_sysregs w (w_sysregs w) = w.
Proof. by destruct w. Qed.

(** One core in RITM, scheduled alone, makes the uninterrupted run.  Its
    registers need not be loaded if it starts with an access. *)
Definition is_access (p : Prog GuestRegisterState) : bool :=
  match p with POp _ _ _ => true | _ => false end.

Lemma run_alone p i regs F :
  let w := with_sysregs (fm_world F) regs in
  fm_cores F !! i = Some (Ritm p, regs) -> (is_access p = true \/ fm_world F = w) ->
  (fm_lock F = None \/ fm_lock F = Some i) -> locks (bool_decide (fm_lock F = Some i)) false p ->
  exists n, ritm_steps n F
    (mkF (partial_alter (fun _ => run_core (run p w)) i (fm_cores F)) (world_of (run p w)) None (fm_mem F)).
Proof.
  revert regs F. induction p as [s|msg|l|X o k IH]; intros regs F w Hi Hw Hl Hlk.
  1-3: exists 1%nat; destruct Hw as [|Hw]; [done|]; assert (Hn : fm_lock F = None)
    by (destruct Hl as [|Hl]; [done|]; by rewrite bool_decide_eq_true_2 in Hlk);
    eapply ritm_steps_S; [exact Hi|reflexivity|]; simpl; rewrite <- Hn; fold w; rewrite <- Hw;
    replace regs with (w_sysregs (fm_world F)) by (by rewrite Hw); apply ritm_steps_O.
  destruct Hlk as [Hret Hlk]. clear Hw.
  assert (Hb : blocked o (fm_lock F) = false).
  { unfold blocked. destruct (lock_effect o) as [[]|]; [|done..].
    destruct Hl as [Hl|Hl]; rewrite Hl; [done|].
    destruct Hlk as [Hlk _]. by rewrite bool_decide_eq_true_2 in Hlk. }
  assert (Hstop : (forall x w', op_sem o w <> Done x w') -> fm_lock F = None).
  { intros Hno. destruct Hl as [|Hl]; [done|]. rewrite bool_decide_eq_true_2 in Hret by done.
    destruct (op_returns o w (Hret eq_refl)) as (x & w' & E). by destruct (Hno x w'). }
  simpl run. destruct (op_sem o w) as [x w'|msg w'|l w'] eqn:E.
  - set (F1 := mkF (<[i := (Ritm (k x), w_sysregs w')]> (fm_cores F)) w' (next_lock i o (fm_lock F)) (fm_mem F)).
    destruct (IH x (w_sysregs w') F1) as [n Hn].
    + simpl. by rewrite lookup_insert_eq.
    + right. simpl. by rewrite with_sysregs_id.
    + simpl. unfold next_lock. destruct (lock_effect o) as [[]|]; auto.
    + simpl. unfold next_lock. destruct (lock_effect o) as [[]|]; [..|done].
      * rewrite bool_decide_eq_true_2 by done. apply Hlk.
      * rewrite bool_decide_eq_false_2 by done. apply Hlk.
    + exists (S n). eapply ritm_steps_S; [exact Hi|simpl; rewrite Hb; fold w; rewrite E; reflexivity|].
      unfold F1 in Hn. simpl in Hn. by rewrite with_sysregs_id, partial_alter_insert_eq in Hn.
  - exists 1%nat. eapply ritm_steps_S; [exact Hi|simpl; rewrite Hb; fold w; rewrite E; reflexivity|].
    simpl. unfold set_fcore, set_fworld. simpl. rewrite Hstop by done. apply ritm_steps_O.
  - exists 1%nat. eapply ritm_steps_S; [exact Hi|simpl; rewrite Hb; fold w; rewrite E; reflexivity|].
    simpl. unfold set_fcore, set_fworld. simpl. rewrite Hstop by done. apply ritm_steps_O.
Qed.

(** The machine of MultiCore.v as one of this file: no core is in RITM. *)
Definition fine_of (M : mmachine) : fmachine :=
  mkF ((fun c => (Guest c.1, c.2)) <$> mm_cores M) (mm_world M) None (mm_mem M).

(** What a run of RITM is for the guest. *)
Definition run_gresult (r : run_result GuestRegisterState) (mem : memory) : gresult :=
  match r with
  | Done s w => Runs (mkG s w mem)
  | Panics _ w => Stops w mem
  | Leaves (EretToEl1 x0 x1 x2 x3) w => Runs (mkG (entry_frame x0 x1 x2 x3 w) w mem)
  | Leaves NoReturn w => Stops w mem
  end.

Lemma trap_run s regs g :
  trap s regs g = run_gresult (run (handle_sync_lower_prog s) (with_sysregs (g_world g) regs)) (g_mem g).
Proof.
  unfold trap. rewrite <- (handle_sync_lower_implements s).
  destruct (run _ _) as [| |l w] eqn:E; [done..|].
  apply run_no_eret in E; [by subst|apply handle_no_eret].
Qed.

Lemma enter_run p m g :
  implements p m ->
  enter (m (g_world g)) (g_mem g) =
  run_gresult (run (no_return p) (with_sysregs (g_world g) (w_sysregs (g_world g)))) (g_mem g).
Proof.
  intros H. rewrite (run_no_return p m _ H), with_sysregs_id. by destruct (m (g_world g)) as [[]| |[] ?].
Qed.

Lemma gstep_run a g :
  gstep is_ram a g = match guest_next is_ram a g with
                     | inl g' => Runs g'
                     | inr (p, regs) => run_gresult (run p (with_sysregs (g_world g) regs)) (g_mem g)
                     end.
Proof.
  destruct a as [w sx r64 rt ipa va dev|w r64 rt ipa va|smc|esr|s' regs'|arg entry|]; unfold gstep, guest_next.
  - destruct (negb _); [done|]. destruct (mapped g ipa); [done|]. apply trap_run.
  - destruct (negb _); [done|]. destruct (mapped g ipa); [done|]. apply trap_run.
  - apply trap_run.
  - apply trap_run.
  - done.
  - apply enter_run, entry_point_el1_implements.
  - apply enter_run, restore_from_suspend_implements.
Qed.

(** [put_back] of MultiCore.v, seen from here. *)
Lemma fine_of_put_back i r mem M :
  fine_of (put_back i (run_gresult r mem) M) =
  mkF (partial_alter (fun _ => run_core r) i (fm_cores (fine_of M))) (world_of r) None mem.
Proof.
  destruct r as [s w|msg w|[x0 x1 x2 x3|] w]; simpl; unfold fine_of; simpl;
    by rewrite ?fmap_insert, ?fmap_delete.
Qed.

(** One access, scheduled; what RITM stores in its image is left out. *)
Definition no_stores : own_stores := fun _ _ => [].
Definition fsteps : fmachine -> fmachine -> Prop :=
  rtc (fun F F' => exists e, F' = fstep is_ram no_stores e F).

Lemma ritm_steps_fsteps n F F' : ritm_steps n F F' -> fsteps F F'.
Proof.
  induction 1 as [F|n i p regs F F1 F2 Hi Hn _ IH]; [apply rtc_refl|].
  eapply rtc_l; [|exact IH]. exists (FRitm i). simpl. rewrite Hi, Hn. by destruct F1.
Qed.

(** A core of [M] enters RITM and is scheduled alone until it is back. *)
Lemma fine_of_program i p regs M :
  locks false false p -> is_access p = true ->
  fsteps (set_fcore i (Some (Ritm p, regs)) (fine_of M))
    (fine_of (put_back i (run_gresult (run p (with_sysregs (mm_world M) regs)) (mm_mem M)) M)).
Proof.
  intros Hlk Hp. rewrite fine_of_put_back.
  destruct (run_alone p i regs (set_fcore i (Some (Ritm p, regs)) (fine_of M))) as [n Hn].
  - simpl. by rewrite lookup_partial_alter_eq.
  - by left.
  - by left.
  - done.
  - apply (ritm_steps_fsteps n). simpl in Hn. by rewrite partial_alter_partial_alter_eq in Hn.
Qed.

Lemma guest_next_program a g p regs :
  guest_next is_ram a g = inr (p, regs) -> locks false false p /\ is_access p = true.
Proof.
  intros [[s ->]|[k ->]]%guest_next_prog.
  - split; [apply locks_handle_sync_lower|done].
  - split; [apply wakeup_locks|by destruct k].
Qed.

Lemma mstep_fsteps e M : fsteps (fine_of M) (fine_of (mstep is_ram e M)).
Proof.
  destruct e as [i a|i s regs k]; simpl; destruct (mm_cores M !! i) as [[s0 regs0]|] eqn:Hi;
    try apply rtc_refl.
  - assert (Hf : fm_cores (fine_of M) !! i = Some (Guest s0, regs0)) by (simpl; by rewrite lookup_fmap, Hi).
    eapply rtc_l; [by exists (FAct i a)|]. simpl. simpl in Hf. rewrite Hf.
    rewrite gstep_run. change (fseen s0 regs0 (fine_of M)) with (seen_by (s0, regs0) M).
    destruct (guest_next is_ram a (seen_by (s0, regs0) M)) as [g|[p regs']] eqn:E.
    + unfold fine_of. simpl. rewrite fmap_insert. apply rtc_refl.
    + apply guest_next_program in E as [Hlk Hp]. by apply (fine_of_program i p regs' M).
  - eapply rtc_l; [by exists (FWake i regs k)|]. simpl. rewrite lookup_fmap, Hi. simpl.
    rewrite gstep_run. destruct k as [arg entry|].
    + exact (fine_of_program i (wakeup_prog (WakeStart arg entry)) regs M (wakeup_locks _) eq_refl).
    + exact (fine_of_program i (wakeup_prog WakeResume) regs M (wakeup_locks _) eq_refl).
Qed.
End Coarse.

(** ** Properties *)

(** The machine of uninterrupted handlers is a part of this one: each of its
    steps, with the whole of [handle_sync_lower], [entry_point_el1] or
    [restore_from_suspend] in it, is a schedule of single accesses from the
    same state to the same state. *)
Theorem handlers_are_schedules {PT : PageTable} {SA : SmcccArch} {PLAT : Platform}
    {SYS : ArmSysregs} {PSCI : ArmPsci} {DEC : PsciDecoder} {FW : Firmware} is_ram e M :
  fsteps is_ram (fine_of M) (fine_of (mstep is_ram e M)).
Proof. apply mstep_fsteps. Qed.
