(* ===== verification/Availability.v ===== *)
(** * When a guest exception stops RITM

    A panic powers the machine off (Console.v).  This file lists the causes:
    it gives, for every synchronous exception of the guest, the exact condition
    under which [handle_sync_lower] (src/src/hypervisor.rs) panics. *)

From Stdlib Require Import ZArith Lia.
From stdpp Require Import base tactics list gmap strings numbers.
From S2P Require Import Prelude MemoryAccess SimpleMap Stage2 Exceptions HvcResponse Pagetable.
From S2P Require Import Platform Qemu Sysregs World Hypervisor Safety Entry Calls Aborts QemuSystem.

#[local] Open Scope Z_scope.

Section Availability.
Context {PT : PageTable} {SA : SmcccArch} {PLAT : Platform}.
Context {SYS : ArmSysregs} {PSCI : ArmPsci} {DEC : PsciDecoder} {FW : Firmware}.
Implicit Types (s : GuestRegisterState) (w : World).

(** How an HVC or SMC call ends: back in the guest, in the firmware, or with
    one of the two maps full. *)
Inductive call_end : Type := Returns | NeverReturns | Exhausted.

#[local] Instance has_room_dec {V} (m : gmap Z V) (mpidr : Z) : Decision (has_room m mpidr).
Proof. unfold has_room. apply _. Defined.

Definition answered {A} (o : option A) : call_end :=
  match o with Some _ => Returns | None => NeverReturns end.

Definition psci_end (fn a0 a1 a2 : u64) w : call_end :=
  match function_try_from [fn; a0; a1; a2] with
  | Err _ => Returns
  | Ok (CpuOn m _) =>
      if decide (has_room (stacks_of w) (u64_from_mpidr m)) then Returns else Exhausted
  | Ok (CpuSuspend p _) =>
      if decide (has_room (contexts_of w) (w_sysregs w MPIDR_EL1) /\
                 has_room (stacks_of w) (w_sysregs w MPIDR_EL1))
      then answered (suspend_core (w_trace w) (u32_from_power_state p)) else Exhausted
  | Ok _ => answered (smc64 (w_trace w) (fn mod 2 ^ 32) ([a0; a1; a2] ++ replicate 14 0))
  end.

Definition call_ends s w : call_end :=
  match read_gpr s 0, read_gpr s 1, read_gpr s 2, read_gpr s 3 with
  | Some fn, Some a0, Some a1, Some a2 => if is_psci_id fn then psci_end fn a0 a1 a2 w else Returns
  | _, _, _, _ => Returns
  end.

(** ** Lemmas *)

(** The result of a run, as far as it is a panic or not. *)
Definition end_of {A} (r : run_result A) : call_end :=
  match r with Done _ _ => Returns | Panics _ _ => Exhausted | Leaves _ _ => NeverReturns end.

Lemma handle_psci_end fn a0 a1 a2 w :
  world_wf w -> end_of (handle_psci fn a0 a1 a2 w) = psci_end fn a0 a1 a2 w.
Proof.
  intros Hwf. unfold psci_end. destruct (function_try_from _) as [f|e] eqn:Hd.
  2: by unfold handle_psci; rewrite Hd.
  destruct (forwarded f) eqn:Hf.
  { rewrite (handle_psci_forward _ f) by done.
    destruct f; try done; by destruct (smc64 _ _ _). }
  destruct f as [ | | | | | | | | | | | | | | | | | | | | m e|p e]; try done; unfold handle_psci; rewrite Hd.
  - pose proof (psci_cpu_on_spec m e w Hwf) as H. unfold mbind, M_bind.
    destruct (psci_cpu_on m e w); simpl; case_decide; tauto.
  - pose proof (psci_cpu_suspend_spec p e w Hwf) as H. unfold mbind, M_bind.
    destruct (psci_cpu_suspend p e w); simpl; case_decide; try tauto.
    + by destruct H as (_ & _ & -> & _).
    + by destruct H as (_ & _ & _ & -> & _).
Qed.

Lemma low_registers s :
  exists fn a0 a1 a2, read_gpr s 0 = Some fn /\ read_gpr s 1 = Some a0 /\
    read_gpr s 2 = Some a1 /\ read_gpr s 3 = Some a2.
Proof. by eexists _, _, _, _. Qed.

Lemma modify_elr r s : guest_wf s -> result_wf r ->
  vr_elr (volatile (modify_register_state r s)) = vr_elr (volatile s).
Proof. intros Hs Hr. by destruct (modify_register_state_spec r s Hs Hr) as (_ & [= ?] & _). Qed.

Context {PLL : PlatformLaws}.

Lemma handle_call_end s w :
  guest_wf s -> world_wf w ->
  end_of (handle_call s w) = call_ends s w /\
  forall s' w', handle_call s w = Done s' w' -> vr_elr (volatile s') = vr_elr (volatile s).
Proof.
  intros Hs Hw. destruct (low_registers s) as (fn & a0 & a1 & a2 & H0 & H1 & H2 & H3).
  unfold call_ends. rewrite H0, H1, H2, H3. destruct (is_psci_id fn) eqn:Hid.
  - rewrite (handle_call_psci s w fn a0 a1 a2), <- handle_psci_end by done.
    destruct (handle_psci fn a0 a1 a2 w) as [[v|e]| |]; (split; [done|]); intros s' w' [=]; subst.
    + by apply (modify_elr (Handled (Ok (response_from_u64 v)))).
    + by apply (modify_elr (Handled (Err (arch_error_from_i32 (i32_from_psci_error e))))).
  - destruct (call_operands s fn a0 a1 a2 Hs H0 H1 H2 H3) as [E _].
    unfold handle_call. rewrite E, Hid. split; [done|]. intros s' w' [= <- <-].
    apply modify_elr; [done|]. apply handle_hvc_wf.
Qed.

Lemma advance_pc_panics s : (exists msg, advance_pc s AARCH64_INSTRUCTION_LENGTH = Panic msg) <->
  U64_MAX < vr_elr (volatile s) + 4.
Proof.
  unfold advance_pc, add64, AARCH64_INSTRUCTION_LENGTH.
  destruct (Z.leb_spec (vr_elr (volatile s) + 4) U64_MAX); simpl; split; intros H'.
  - by destruct H'.
  - lia.
  - done.
  - by eexists.
Qed.

(** The handler panics. *)
Definition panics {A} (r : run_result A) : Prop := exists msg w', r = Panics msg w'.

Lemma panics_lift {A} (o : outcome A) w : panics (lift o w) <-> exists msg, o = Panic msg.
Proof.
  unfold panics, lift. destruct o; split; try (by intros (? & ?)); try (by intros (? & ? & ?)).
  - by intros _; eexists.
  - by intros _; eexists _, _.
Qed.

Lemma call_panics smc s w :
  guest_wf s -> world_wf w -> esr_ec (w_sysregs w ESR_EL2) = call_class smc ->
  panics (handle_sync_lower s w) <->
  call_ends s w = Exhausted \/
  smc = true /\ call_ends s w = Returns /\ U64_MAX < vr_elr (volatile s) + 4.
Proof.
  intros Hs Hw Hec. rewrite (handle_sync_lower_call smc) by done.
  destruct (handle_call_end s w Hs Hw) as [<- Helr].
  destruct (handle_call s w) as [s' w'|msg w'|l w']; simpl.
  - rewrite <- (Helr s' w' eq_refl). destruct smc.
    + rewrite panics_lift, advance_pc_panics. naive_solver.
    + split; [by intros (? & ? & ?)|]. naive_solver.
  - split; [by left|]. by eexists _, _.
  - split; [by intros (? & ? & ?)|]. naive_solver.
Qed.

Context {SYL : ArmSysregsLaws}.

Lemma abort_panics s w c :
  guest_wf s -> world_wf w -> w_stage2_config w = Some c -> unmapped c s w ->
  esr_ec (w_sysregs w ESR_EL2) = EC_DATA_ABORT_LOWER_EL ->
  panics (handle_sync_lower s w) <->
  match fst (abort_effect c s w) with
  | Faults => w_sysregs w VBAR_EL1 = 0 \/ U64_MAX < w_sysregs w VBAR_EL1 + 0x200
  | _ => U64_MAX < vr_elr (volatile s) + 4
  end.
Proof.
  intros Hs Hw Hc Hun Hec. pose proof (handle_data_abort s w c Hs Hw Hc Hun Hec) as H.
  unfold panics. destruct (handle_sync_lower s w) as [s' w'|msg w'|l w']; [|..|done].
  - split; [by intros (? & ? & ?)|]. intros Hcause. destruct H as [_ H].
    destruct (fst (abort_effect c s w)).
    + destruct (in_vector _ _ _ _ H). lia.
    + destruct H as [H _]. pose proof (re_next _ _ _ H). lia.
    + destruct H as [H _]. pose proof (re_next _ _ _ H). lia.
  - split; [|by eexists _, _]. intros _. by destruct H as [_ H].
Qed.

Lemma unknown_panics s w v :
  exception_class_from (esr_ec (w_sysregs w ESR_EL2)) = Unknown v -> panics (handle_sync_lower s w).
Proof.
  intros Hec. unfold handle_sync_lower. rewrite bind_read_sysreg, Hec. by eexists _, _.
Qed.

Lemma class_inv v :
  match exception_class_from v with
  | HvcTrappedInAArch64 => v = call_class false
  | SmcTrappedInAArch64 => v = call_class true
  | DataAbortLowerEL => v = EC_DATA_ABORT_LOWER_EL
  | Unknown v' => v' = v
  end.
Proof.
  unfold exception_class_from.
  destruct (Z.eqb_spec v 0x16); [done|]. destruct (Z.eqb_spec v 0x17); [done|].
  by destruct (Z.eqb_spec v EC_DATA_ABORT_LOWER_EL).
Qed.
End Availability.

(** ** Properties *)

(** C21: the complete list of what makes RITM panic in a guest exception.  An
    HVC call: only CPU_ON or CPU_SUSPEND with the stack map or the context map
    full.  An SMC call: the same, or a call that returns to the last
    instruction of the address space.  A data abort: an access that is not
    emulated while the guest has no usable vector table, or an emulated access
    by the last instruction of the address space.  Every other exception class:
    always. *)
Theorem handler_panics_iff {PT : PageTable} {SA : SmcccArch} {PLAT : Platform} {SYS : ArmSysregs}
    {SYL : ArmSysregsLaws} {PSCI : ArmPsci} {DEC : PsciDecoder} {FW : Firmware} {PLL : PlatformLaws}
    s w c :
  guest_wf s -> world_wf w -> w_stage2_config w = Some c -> unmapped c s w ->
  panics (handle_sync_lower s w) <->
  match exception_class_from (esr_ec (w_sysregs w ESR_EL2)) with
  | HvcTrappedInAArch64 => call_ends s w = Exhausted
  | SmcTrappedInAArch64 => call_ends s w = Exhausted \/
      call_ends s w = Returns /\ U64_MAX < vr_elr (volatile s) + 4
  | DataAbortLowerEL =>
      match fst (abort_effect c s w) with
      | Faults => w_sysregs w VBAR_EL1 = 0 \/ U64_MAX < w_sysregs w VBAR_EL1 + 0x200
      | _ => U64_MAX < vr_elr (volatile s) + 4
      end
  | Unknown _ => True
  end.
Proof.
  intros Hs Hw Hc Hun. pose proof (class_inv (esr_ec (w_sysregs w ESR_EL2))) as Hec.
  destruct (exception_class_from _) eqn:E.
  - rewrite (call_panics false) by done. naive_solver.
  - rewrite (call_panics true) by done. naive_solver.
  - by apply abort_panics.
  - split; [done|]. intros _. by eapply unknown_panics.
Qed.

(** ** Witness *)

Section Witness.
Import QemuExample ArmArch ExampleFirmware.

#[local] Instance availability_platform_laws : PlatformLaws := qemu_platform_laws example_image_ok.

(** An HVC of the booted guest that asks for the PSCI version. *)
Lemma handler_panics_iff_witness :
  exists w, rtc ritm_step booted w /\ is_Some (w_stage2_config w) /\
    ~ panics (handle_sync_lower (call_guest 0x8400_0000) w).
Proof.
  destruct (fault_world 0) as (w0 & c & Hreach & Hc & _).
  set (w := with_sysregs w0 (w_sysregs (call_world false))).
  assert (Hw : rtc ritm_step booted w) by (eapply rtc_r; [exact Hreach|apply step_guest]).
  exists w. split_and!; [exact Hw|by exists c|].
  assert (Hun : unmapped c (call_guest 0x8400_0000) w) by (intros d Hd; by vm_compute in Hd).
  pose proof (handler_panics_iff (call_guest 0x8400_0000) w c (call_guest_wf _)
    (reachable_wf _ _ _ Hw) Hc Hun) as H.
  assert (E : exception_class_from (esr_ec (w_sysregs w ESR_EL2)) = HvcTrappedInAArch64) by reflexivity.
  assert (Hend : call_ends (call_guest 0x8400_0000) w = Returns) by reflexivity.
  rewrite E, Hend in H. by rewrite H.
Defined.
End Witness.
