(* ===== verification/Types.v ===== *)
(** * Machine types

    The model writes every machine word as an unbounded [Z].  This file shows
    that this loses nothing: a typing judgement for runs of the hypervisor's
    monad, in the manner of a type-soundness proof, by which every register of
    the guest, every system register, every saved suspend context and every
    argument of a firmware call stays a value of its Rust type
    (src/src/exceptions.rs, src/src/hypervisor.rs). *)

From Stdlib Require Import ZArith Lia.
From stdpp Require Import base tactics list gmap strings numbers.
From S2P Require Import Prelude MemoryAccess SimpleMap Stage2 Exceptions HvcResponse Pagetable.
From S2P Require Import Platform Qemu Sysregs World Hypervisor Safety Entry.

#[local] Open Scope Z_scope.

(** ** Bit operations stay in range *)

Lemma in_range_land n x : 0 <= n -> in_range n x <-> Z.land x (Z.ones n) = x.
Proof.
  intros Hn. rewrite Z.land_ones by done. unfold in_range. split.
  - intros. by apply Z.mod_small.
  - intros <-. by apply mod_pow2_range.
Qed.

Lemma in_range_mod n x : 0 <= n -> in_range n (x mod 2 ^ n).
Proof. apply mod_pow2_range. Qed.

Lemma in_range_le m n x : 0 <= m <= n -> in_range m x -> in_range n x.
Proof.
  intros Hmn [? ?]. split; [done|]. pose proof (Z.pow_le_mono_r 2 m n). lia.
Qed.

Lemma in_range_lor n a b : 0 <= n -> in_range n a -> in_range n b -> in_range n (Z.lor a b).
Proof.
  intros Hn. rewrite !in_range_land by done. intros Ha Hb.
  by rewrite Z.land_lor_distr_l, Ha, Hb.
Qed.

Lemma in_range_ldiff n a b : 0 <= n -> in_range n a -> in_range n (Z.ldiff a b).
Proof.
  intros Hn. rewrite !in_range_land by done. intros Ha. rewrite <- Ha at 2.
  rewrite !Z.ldiff_land. rewrite <- !Z.land_assoc. f_equal. apply Z.land_comm.
Qed.

Lemma in_range_set_field n p w x v :
  0 <= p -> 0 <= w -> p + w <= n -> in_range n x -> in_range n (set_field p w x v).
Proof.
  intros Hp Hw Hn Hx. unfold set_field. apply in_range_lor; [lia|by apply in_range_ldiff; [lia|]|].
  rewrite Z.land_ones, Z.shiftl_mul_pow2 by lia. pose proof (mod_pow2_range v w Hw).
  apply (in_range_le (p + w)); [lia|]. unfold in_range. rewrite Z.pow_add_r by lia. nia.
Qed.

Create HintDb typed.
#[export] Hint Resolve in_range_lor in_range_ldiff : typed.
#[export] Hint Extern 1 (0 <= _) => lia : typed.

Lemma Forall_four {A} (P : A -> Prop) a b c d :
  Forall P [a; b; c; d] <-> P a /\ P b /\ P c /\ P d.
Proof. rewrite !list.Forall_cons, list.Forall_nil. tauto. Qed.

(** ** The types of the state *)

Definition guest_typed (s : GuestRegisterState) : Prop :=
  guest_wf s /\ Forall is_u64 (vr_registers (volatile s)) /\
  Forall is_u64 (nvr_registers (nonvolatile s)) /\ is_u64 (vr_fp (volatile s)) /\
  is_u64 (vr_sp (volatile s)) /\ is_u64 (vr_elr (volatile s)) /\ is_u64 (vr_spsr (volatile s)).

#[export] Instance guest_typed_dec s : Decision (guest_typed s).
Proof. unfold guest_typed. apply _. Defined.

Definition context_typed (c : SuspendCoreData) : Prop :=
  is_u64 (scd_entry_point c) /\ is_u64 (scd_context_id c).

Definition slot_typed (x : option (Item u64 SuspendCoreData)) : Prop :=
  match x with Some it => context_typed (item_value it) | None => True end.

(** The arguments of what RITM does to the outside. *)
Definition event_typed (e : event) : Prop :=
  match e with
  | EvMsr _ v => is_u64 v
  | EvActivateStage2 root => is_u64 root
  | EvTlbiVmalls12e1 | EvDsb | EvIsb => True
  | EvSmc function_id args => is_u32 function_id /\ length args = 17%nat /\ Forall is_u64 args
  | EvStartCore mpidr _ entry arg => is_u64 mpidr /\ is_u64 entry /\ is_u64 arg
  | EvSuspendCore power_state _ => is_u32 power_state
  end.

Definition result_typed `{SmcccArch} (r : HvcResult) : Prop := Forall is_u64 (result_registers r).

Section Typed.
Context {PT : PageTable} {SA : SmcccArch} {PLAT : Platform}.
Context {SYS : ArmSysregs} {SYL : ArmSysregsLaws}.

Record world_typed (w : World) : Prop := {
  wt_sysregs : forall r, is_u64 (w_sysregs w r);
  wt_contexts : Forall slot_typed (items (w_suspend_contexts w));
  wt_trace : Forall event_typed (w_trace w);
}.

Definition leave_typed (l : leave) : Prop :=
  match l with
  | EretToEl1 x0 x1 x2 x3 => Forall is_u64 [x0; x1; x2; x3]
  | NoReturn => True
  end.

(** How a run ended, typed. *)
Definition result_ok {A} (P : A -> Prop) (r : run_result A) : Prop :=
  match r with
  | Done a w => P a /\ world_typed w
  | Panics _ w => world_typed w
  | Leaves l w => leave_typed l /\ world_typed w
  end.

(** Runs of [m] from typed worlds end in typed worlds, with results in [P]. *)
Definition typed {A} (P : A -> Prop) (m : M A) : Prop :=
  forall w, world_typed w -> result_ok P (m w).

(** ** The typing rules *)

Lemma typed_bind {A B} (P : A -> Prop) (Q : B -> Prop) (m : M A) (k : A -> M B) :
  typed P m -> (forall a, P a -> typed Q (k a)) -> typed Q (m ≫= k).
Proof.
  intros Hm Hk w Hw. specialize (Hm w Hw). unfold mbind, M_bind.
  destruct (m w) as [a w'|msg w'|l w']; simpl in *; [|done..]. destruct Hm. by apply Hk.
Qed.

Lemma typed_weaken {A} (P Q : A -> Prop) (m : M A) :
  (forall a, P a -> Q a) -> typed P m -> typed Q m.
Proof.
  intros Hpq Hm w Hw. specialize (Hm w Hw). destruct (m w); simpl in *; naive_solver.
Qed.

Lemma typed_ret {A} (P : A -> Prop) a : P a -> typed P (mret a).
Proof. by intros Ha w Hw. Qed.

Lemma typed_panic {A} (P : A -> Prop) msg : typed P (panic msg).
Proof. by intros w Hw. Qed.

Lemma typed_leave {A} (P : A -> Prop) l : leave_typed l -> typed P (leave_with l).
Proof. by intros Hl w Hw. Qed.

Lemma typed_lift {A} (P : A -> Prop) (o : outcome A) :
  (forall a, o = Ret a -> P a) -> typed P (lift o).
Proof. intros Ho w Hw. destruct o; simpl; [|done]. split; [by apply Ho|done]. Qed.

Lemma typed_read_sysreg r : typed is_u64 (read_sysreg r).
Proof. intros w Hw. split; [apply Hw|done]. Qed.

Lemma typed_emit e : event_typed e -> typed (fun _ => True) (emit e).
Proof.
  intros He w []. split; [done|]. constructor; try done. simpl. apply Forall_app. split; [done|by constructor].
Qed.

Lemma typed_write_sysreg r v : is_u64 v -> typed (fun _ => True) (write_sysreg r v).
Proof.
  intros Hv w []. split; [done|]. constructor; simpl; [|done|apply Forall_app; split; [done|by constructor]].
  intros r'. unfold set_sysreg. by case_bool_decide.
Qed.

Lemma typed_activate_root root : is_u64 root -> typed (fun _ => True) (activate_root root).
Proof.
  intros Hr w []. split; [done|]. constructor; simpl; [|done|apply Forall_app; split; [done|by constructor]].
  intros r'. unfold set_sysreg. by case_bool_decide.
Qed.

Lemma typed_get_trace : typed (fun _ => True) get_trace.
Proof. by intros w Hw. Qed.

Lemma typed_get_stage2 : typed (fun _ => True) get_stage2.
Proof. by intros w Hw. Qed.

Lemma typed_set_stage2 c : typed (fun _ => True) (set_stage2 c).
Proof. intros w []. split; [done|]. by constructor. Qed.

Lemma typed_with_platform {A} (f : PlatformState -> A * PlatformState) :
  typed (fun _ => True) (with_platform f).
Proof. intros w []. unfold with_platform. destruct (f _). split; [done|]. by constructor. Qed.

Lemma typed_with_secondary_stacks {A} f :
  typed (fun _ => True) (with_secondary_stacks (A := A) f).
Proof.
  intros w Hw. unfold with_secondary_stacks. destruct (f _) as [[a m]|]; [|done].
  destruct Hw. split; [done|]. by constructor.
Qed.

Lemma typed_suspend_insert mpidr c :
  context_typed c ->
  typed (fun _ => True) (with_suspend_contexts (fun m => SimpleMap.insert m mpidr c)).
Proof.
  intros Hc w Hw. unfold with_suspend_contexts, SimpleMap.insert, SimpleMap.remove.
  destruct Hw as [Hs Hm Ht].
  repeat case_match; simpl in *; simplify_eq; try done; (split; [done|]); constructor; simpl; try done;
    repeat apply Forall_insert; try done.
Qed.

Lemma typed_suspend_remove mpidr :
  typed (fun o => forall c, o = Some c -> context_typed c)
    (with_suspend_contexts (fun m => Ret (SimpleMap.remove m mpidr))).
Proof.
  intros w [Hs Hm Ht]. unfold with_suspend_contexts, SimpleMap.remove.
  destruct (find_slot _ _) as [i|]; simpl; (split; [|by constructor; try done; apply Forall_insert]); [|done].
  intros c. unfold slot_value. destruct (items _ !! i) as [[it|]|] eqn:E; [|done..].
  intros [= <-]. apply (Forall_lookup_1 _ _ _ _ Hm E).
Qed.
End Typed.

#[export] Hint Resolve typed_ret typed_panic typed_leave typed_read_sysreg typed_emit
  typed_write_sysreg typed_get_trace typed_get_stage2 typed_set_stage2 typed_with_platform
  typed_with_secondary_stacks typed_suspend_insert typed_suspend_remove : typed.

#[export] Hint Extern 1 (event_typed _) => exact I : typed.

(** ** The external functions keep to their signatures *)

(** Decoded PSCI arguments, firmware answers, the root of a page table and the
    platform's HVC results have the types the crates declare, for arguments
    that do. *)
Class ExternTypes {PT : PageTable} {SA : SmcccArch} {PLAT : Platform} {PSCI : ArmPsci}
    {DEC : PsciDecoder} {FW : Firmware} : Prop := {
  law_cpu_on_types : forall regs m e, Forall is_u64 regs -> function_try_from regs = Ok (CpuOn m e) ->
    is_u64 (u64_from_mpidr m) /\ is_u64 (entry_point_address e) /\ is_u64 (entry_context_id e);
  law_cpu_suspend_types : forall regs p e, Forall is_u64 regs ->
    function_try_from regs = Ok (CpuSuspend p e) ->
    is_u32 (u32_from_power_state p) /\ is_u64 (entry_point_address e) /\ is_u64 (entry_context_id e);
  law_smc64_types : forall t f args regs, is_u32 f -> Forall is_u64 args ->
    smc64 t f args = Some regs -> Forall is_u64 regs;
  law_root_type : forall t, is_u64 (idmap_root_address t);
  law_handle_hvc_types : forall f args, is_u64 f -> Forall is_u64 args -> result_typed (handle_hvc f args);
}.

(** ** The functions are typed *)

Section Functions.
Context {PT : PageTable} {SA : SmcccArch} {PLAT : Platform}.
Context {SYS : ArmSysregs} {SYL : ArmSysregsLaws} {PSCI : ArmPsci} {DEC : PsciDecoder} {FW : Firmware}.
Context {PLL : PlatformLaws} {EXT : ExternTypes}.

Lemma total_lookup_typed (l : list u64) i : Forall is_u64 l -> is_u64 (l !!! i).
Proof.
  intros Hl. rewrite list_lookup_total_alt. destruct (l !! i) as [x|] eqn:E; simpl.
  - by apply (Forall_lookup_1 _ _ _ _ Hl E).
  - by apply (bool_decide_unpack _).
Qed.

Lemma read_gpr_typed s i v : guest_typed s -> read_gpr s i = Some v -> is_u64 v.
Proof.
  intros (_ & H1 & H2 & H3 & H4 & _). unfold read_gpr.
  repeat (case_match; [intros [= <-]; try done; by apply total_lookup_typed|]).
  destruct (i =? 31); [|done]. by intros [= <-].
Qed.

Lemma write_gpr_typed s i v : guest_typed s -> is_u64 v -> guest_typed (snd (write_gpr s i v)).
Proof.
  intros (Hw & H1 & H2 & H3 & H4 & H5 & H6) Hv. split; [by apply write_gpr_wf|].
  unfold write_gpr. repeat case_match; simpl; split_and!; try done; by apply Forall_insert.
Qed.

Lemma advance_pc_typed s n s' : 0 <= n -> guest_typed s -> advance_pc s n = Ret s' -> guest_typed s'.
Proof.
  intros Hn (Hw & H1 & H2 & H3 & H4 & H5 & H6). unfold advance_pc.
  rewrite bindO_Ret. intros (e & (He & ->)%add64_Ret & [= <-]). split_and!; try done.
  unfold in_range, U64_MAX in *. simpl. lia.
Qed.

Lemma set_exception_return_typed s e p :
  guest_typed s -> is_u64 e -> is_u64 p -> guest_typed (set_exception_return s e p).
Proof. intros (Hw & H1 & H2 & H3 & H4 & H5 & H6) He Hp. by split_and!. Qed.

Lemma extend_read_result_typed v w sse sf : is_u64 (extend_read_result v w sse sf).
Proof.
  unfold extend_read_result, cast_unsigned.
  assert (Hm : forall x, is_u64 (Z.land x (mask w))).
  { intros x. rewrite land_mask. pose proof (bits_range w).
    apply (in_range_le (bits w)); [lia|]. apply in_range_mod. lia. }
  assert (H32 : forall x, is_u64 (Z.land x U32_MAX)).
  { intros x. rewrite land_u32_max. apply (in_range_le 32); [lia|]. by apply in_range_mod. }
  repeat case_match; [by apply in_range_mod|auto..].
Qed.

Lemma write_response_typed results s i :
  guest_typed s -> Forall is_u64 results -> guest_typed (write_response_from s i results).
Proof.
  intros Hs Hr. revert s i Hs. induction Hr as [|v results Hv _ IH]; intros s i Hs; [done|].
  simpl. by apply IH, write_gpr_typed.
Qed.

Lemma modify_register_state_typed r s :
  guest_typed s -> result_typed r -> guest_typed (modify_register_state r s).
Proof. intros Hs Hr. rewrite modify_register_state_alt. by apply write_response_typed. Qed.

Lemma error_to_u64_typed e : is_u64 (error_to_u64 e).
Proof. by apply in_range_mod. Qed.

#[local] Hint Resolve write_gpr_typed set_exception_return_typed extend_read_result_typed
  modify_register_state_typed total_lookup_typed error_to_u64_typed : typed.

(** Binds whose intermediate value carries no information, or a 64-bit one. *)
Lemma typed_bind_any {A B} (Q : B -> Prop) (m : M A) (k : A -> M B) :
  typed (fun _ => True) m -> (forall a, typed Q (k a)) -> typed Q (m ≫= k).
Proof. intros Hm Hk. eapply typed_bind; [done|]. eauto. Qed.

Lemma typed_bind_read {B} (Q : B -> Prop) r (k : Z -> M B) :
  (forall v, is_u64 v -> typed Q (k v)) -> typed Q (read_sysreg r ≫= k).
Proof. intros Hk. eapply typed_bind; [apply typed_read_sysreg|done]. Qed.

Lemma typed_stage2_config : typed (fun _ => True) stage2_config.
Proof.
  unfold stage2_config. apply typed_bind_any; [apply typed_get_stage2|]. intros [c|]; [by apply typed_ret|].
  apply typed_bind_any; [by apply typed_lift|]. intros [b r].
  apply typed_bind_any; [by apply typed_lift|]. intros [].
  apply typed_bind_any; [apply typed_set_stage2|]. intros []. by apply typed_ret.
Qed.

(** A chain of register writes and events, each typed. *)
Ltac typed_chain :=
  repeat first
    [ apply typed_bind_read; intros ? ?
    | apply typed_bind_any; [solve [eauto with typed]|intros ?] ].

Lemma typed_setup_stage2 : typed (fun _ => True) setup_stage2.
Proof.
  unfold setup_stage2, tlbi_vmalls12e1, dsb, isb.
  apply typed_bind_any; [apply typed_stage2_config|]. intros c.
  apply typed_bind_any; [apply typed_activate_root, law_root_type|]. intros [].
  apply typed_bind_any; [apply typed_set_stage2|]. intros [].
  apply typed_bind_any; [apply typed_write_sysreg; rewrite stage2_vtcr_value; by apply (bool_decide_unpack _)|].
  intros []. typed_chain. by apply typed_emit.
Qed.

(** The flags are single bits of 64-bit registers. *)
Lemma pow2_typed n : 0 <= n < 64 -> is_u64 (2 ^ n).
Proof. intros. split; [lia|]. apply Z.pow_lt_mono_r; lia. Qed.

Lemma spsr_set_m_typed x m : is_u64 x -> is_u64 (spsr_set_m_3_0 x m).
Proof. intros. rewrite law_spsr_m. by apply in_range_set_field. Qed.

Lemma typed_entry_point_el1 a0 a1 a2 a3 ep :
  Forall is_u64 [a0; a1; a2; a3] -> is_u64 ep ->
  typed (fun _ : Empty_set => False) (entry_point_el1 a0 a1 a2 a3 ep).
Proof.
  intros Ha Hep. unfold entry_point_el1, flag_or, flag_sub. rewrite law_elr.
  destruct law_hcr as (-> & -> & -> & ->), law_daif as (-> & -> & -> & ->),
    law_cnthctl as (-> & ->), law_icc_sre as (-> & -> & -> & ->),
    law_sctlr1 as (-> & -> & -> & -> & -> & ->).
  assert (H0 : is_u64 0) by by apply (bool_decide_unpack _).
  pose proof spsr_set_m_typed. pose proof pow2_typed.
  apply typed_bind_any; [apply typed_setup_stage2|]. intros [].
  repeat first
    [ apply typed_bind_read; intros ? ?
    | apply typed_bind_any; [apply typed_write_sysreg;
        repeat first [done | apply in_range_lor | apply in_range_ldiff | apply pow2_typed; lia
                     | apply spsr_set_m_typed | lia]|intros []] ].
  by apply typed_leave.
Qed.

(** *** Data aborts *)

Lemma typed_advance_guest_pc s : guest_typed s -> typed guest_typed (lift (advance_guest_pc s)).
Proof. intros Hs. apply typed_lift. intros s' H. by apply (advance_pc_typed s 4). Qed.

Lemma typed_emulate_read s d m :
  guest_typed s -> typed (fun r => guest_typed r.1) (emulate_read s d m).
Proof.
  intros Hs. unfold emulate_read. destruct (mah_read _); [|by apply typed_ret].
  apply typed_bind_any; [apply typed_with_platform|]. intros [v|]; [|by apply typed_ret].
  unfold write_saved_guest_register.
  pose proof (write_gpr_typed s (dma_register_index d) _ Hs
    (extend_read_result_typed v (dma_width d) (dma_sign_extend d) (dma_register_width_64 d))) as Hw.
  destruct (write_gpr s _ _) as [[] s']; simpl in *; [|by apply typed_ret].
  eapply typed_bind; [by apply typed_advance_guest_pc|]. intros s2 H2. by apply typed_ret.
Qed.

Lemma typed_emulate_write s d v m :
  guest_typed s -> typed (fun r => guest_typed r.1) (emulate_write s d v m).
Proof.
  intros Hs. unfold emulate_write. destruct (mah_write _); [|by apply typed_ret].
  apply typed_bind_any; [apply typed_with_platform|]. intros []; [|by apply typed_ret].
  eapply typed_bind; [by apply typed_advance_guest_pc|]. intros s2 H2. by apply typed_ret.
Qed.

Lemma typed_try_memory_access_handler s :
  guest_typed s -> typed (fun r => guest_typed r.1) (try_memory_access_handler s).
Proof.
  intros Hs. unfold try_memory_access_handler. do 3 (apply typed_bind_read; intros ? _).
  apply typed_bind_any; [by apply typed_lift|]. intros [d|]; [|by apply typed_ret].
  apply typed_bind_any; [apply typed_stage2_config|]. intros c.
  apply typed_bind_any; [by apply typed_lift|]. intros [m|]; [|by apply typed_ret].
  destruct (dma_kind d); [by apply typed_emulate_read|by apply typed_emulate_write].
Qed.

Lemma typed_inject_data_abort s : guest_typed s -> typed guest_typed (inject_data_abort s).
Proof.
  intros Hs. unfold inject_data_abort. do 2 (apply typed_bind_read; intros ? ?).
  apply typed_bind_read. intros vbar Hv. destruct (vbar =? 0); [apply typed_panic|].
  eapply (typed_bind is_u64).
  { apply typed_lift. intros h [Hh ->]%add64_Ret. unfold in_range, U64_MAX in *. lia. }
  intros h Hh. pose proof Hs as (_ & _ & _ & _ & _ & He & Hp). cbn [exception_return].
  do 2 (apply typed_bind_any; [by apply typed_write_sysreg|]; intros []).
  apply typed_bind_any; [apply typed_write_sysreg; by rewrite law_far_va|]. intros [].
  apply typed_bind_any; [apply typed_write_sysreg|].
  { unfold injected_esr. case_match; [|done]. rewrite law_esr_set_ec. by apply in_range_set_field. }
  intros []. apply typed_ret, set_exception_return_typed; [done..|].
  unfold injected_spsr, flag_or. destruct law_daif as (-> & -> & -> & ->).
  repeat first [apply in_range_lor; [lia| |apply pow2_typed; lia]].
  apply spsr_set_m_typed. by apply (bool_decide_unpack _).
Qed.

(** *** Calls *)

Lemma psci_result_typed r : is_u64 (psci_result_to_u64 r).
Proof.
  destruct r; [|by apply in_range_mod]. apply (in_range_le 32); [lia|]. by apply in_range_mod.
Qed.

Lemma forwarded_args_typed a0 a1 a2 :
  is_u64 a0 -> is_u64 a1 -> is_u64 a2 ->
  length (forwarded_args a0 a1 a2) = 17%nat /\ Forall is_u64 (forwarded_args a0 a1 a2).
Proof.
  intros. split; [done|]. unfold forwarded_args. repeat (apply Forall_insert; [|done]).
  apply Forall_replicate. by apply (bool_decide_unpack _).
Qed.

Lemma typed_smc64_call f args :
  is_u32 f -> length args = 17%nat -> Forall is_u64 args -> typed (Forall is_u64) (smc64_call f args).
Proof.
  intros Hf Hl Ha. unfold smc64_call. apply typed_bind_any; [apply typed_get_trace|]. intros t.
  apply typed_bind_any; [by apply typed_emit|]. intros [].
  destruct (smc64 t f args) as [regs|] eqn:E; [|by apply typed_leave].
  apply typed_ret. by eapply law_smc64_types.
Qed.

Lemma typed_psci_cpu_on m e :
  is_u64 (u64_from_mpidr m) -> is_u64 (entry_point_address e) -> is_u64 (entry_context_id e) ->
  typed (fun _ => True) (psci_cpu_on m e).
Proof.
  intros. unfold psci_cpu_on, start_core_call, get_secondary_stack.
  apply typed_bind_any; [apply typed_with_secondary_stacks|]. intros st.
  apply typed_bind_any; [apply typed_get_trace|]. intros t.
  apply typed_bind_any; [by apply typed_emit|]. intros []. by apply typed_ret.
Qed.

Lemma typed_psci_cpu_suspend p e :
  is_u32 (u32_from_power_state p) -> is_u64 (entry_point_address e) -> is_u64 (entry_context_id e) ->
  typed (fun _ => True) (psci_cpu_suspend p e).
Proof.
  intros. unfold psci_cpu_suspend, suspend_core_call, get_secondary_stack.
  apply typed_bind_read. intros mpidr _.
  apply typed_bind_any; [by apply typed_suspend_insert|]. intros _.
  apply typed_bind_any; [apply typed_with_secondary_stacks|]. intros st.
  apply typed_bind_any.
  - apply typed_bind_any; [apply typed_get_trace|]. intros t.
    apply typed_bind_any; [by apply typed_emit|]. intros [].
    destruct (suspend_core t _); [by apply typed_ret|by apply typed_leave].
  - intros r. eapply typed_bind; [apply typed_suspend_remove|]. intros o _. by apply typed_ret.
Qed.

Lemma typed_restore_from_suspend : typed (fun _ : Empty_set => False) restore_from_suspend.
Proof.
  unfold restore_from_suspend. apply typed_bind_read. intros mpidr _.
  eapply typed_bind; [apply typed_suspend_remove|]. intros o Ho.
  eapply (typed_bind context_typed).
  { apply typed_lift. intros c. destruct o as [c'|]; [|done]. intros [= <-]. by apply Ho. }
  intros c [Hc1 Hc2]. assert (is_u64 0) by by apply (bool_decide_unpack _).
  apply typed_entry_point_el1; [by apply Forall_four|done].
Qed.

Lemma typed_handle_psci f a0 a1 a2 :
  Forall is_u64 [f; a0; a1; a2] ->
  typed (fun r => forall v, r = Ok v -> is_u64 v) (handle_psci f a0 a1 a2).
Proof.
  intros Ha. pose proof Ha as (Hf & H0 & H1 & H2)%Forall_four.
  destruct (forwarded_args_typed _ _ _ H0 H1 H2) as [Hl Hall].
  assert (Hfwd : typed (fun r : result PsciError u64 => forall v, r = Ok v -> is_u64 v)
    (regs ← smc64_call (f mod 2 ^ 32) (forwarded_args a0 a1 a2); mret (Ok (regs !!! 0%nat)))).
  { eapply typed_bind; [by apply typed_smc64_call; [apply in_range_mod|..]|]. intros regs Hr.
    apply typed_ret. intros v [= <-]. by apply total_lookup_typed. }
  unfold handle_psci. destruct (function_try_from _) as [fn|e] eqn:E; [|by apply typed_ret].
  destruct fn; try exact Hfwd.
  - apply law_cpu_on_types in E as (? & ? & ?); [|done].
    apply typed_bind_any; [by apply typed_psci_cpu_on|]. intros r. apply typed_ret.
    intros v [= <-]. apply psci_result_typed.
  - apply law_cpu_suspend_types in E as (? & ? & ?); [|done].
    apply typed_bind_any; [by apply typed_psci_cpu_suspend|]. intros r. apply typed_ret.
    intros v [= <-]. apply psci_result_typed.
Qed.

Lemma typed_try_handle_psci f a0 a1 a2 :
  Forall is_u64 [f; a0; a1; a2] ->
  typed (fun r => result_typed (Handled r)) (try_handle_psci f a0 a1 a2).
Proof.
  intros Ha. unfold try_handle_psci. eapply typed_bind; [by apply typed_handle_psci|].
  intros r Hr. apply typed_ret. assert (is_u64 0) by by apply (bool_decide_unpack _).
  destruct r; unfold result_typed; simpl; [apply Forall_four; auto|].
  rewrite Forall_singleton. apply error_to_u64_typed.
Qed.

Lemma typed_handle_call s : guest_typed s -> typed guest_typed (handle_call s).
Proof.
  intros Hs. pose proof Hs as (_ & Hr & _). unfold handle_call, volatile_gprs.
  assert (Ha : Forall is_u64 (take 17 (drop 1 (vr_registers (volatile s)))))
    by by apply Forall_take, Forall_drop.
  eapply (typed_bind result_typed).
  - destruct (is_psci_id _).
    + eapply typed_bind; [apply typed_try_handle_psci; apply Forall_four; auto using total_lookup_typed|].
      intros r Hres. by apply typed_ret.
    + apply typed_ret, law_handle_hvc_types; [by apply total_lookup_typed|done].
  - intros r Hres. by apply typed_ret, modify_register_state_typed.
Qed.

Lemma typed_handle_sync_lower s : guest_typed s -> typed guest_typed (handle_sync_lower s).
Proof.
  intros Hs. unfold handle_sync_lower. apply typed_bind_read. intros esr _.
  eapply (typed_bind guest_typed).
  - destruct (exception_class_from _); [by apply typed_handle_call..| |apply typed_panic].
    eapply typed_bind; [by apply typed_try_memory_access_handler|]. intros [s1 [[]|[]]] H1.
    + by apply typed_ret.
    + by apply typed_inject_data_abort.
  - intros s1 H1. case_bool_decide; [|by apply typed_ret].
    apply typed_lift. intros s2 H2. by apply (advance_pc_typed s1 4).
Qed.
End Functions.

(** ** Histories *)

Section TypedHistories.
Context {PT : PageTable} {SA : SmcccArch} {PLAT : Platform}.
Context {SYS : ArmSysregs} {SYL : ArmSysregsLaws} {PSCI : ArmPsci} {DEC : PsciDecoder} {FW : Firmware}.

(** [ritm_step] with values of the machine types from the guest and the firmware. *)
Inductive typed_step : World -> World -> Prop :=
| typed_guest w regs : (forall r, is_u64 (regs r)) -> typed_step w (with_sysregs w regs)
| typed_exception w s : guest_typed s -> typed_step w (world_of (handle_sync_lower s w))
| typed_entry w a0 a1 a2 a3 ep : Forall is_u64 [a0; a1; a2; a3] -> is_u64 ep ->
    typed_step w (world_of (entry_point_el1 a0 a1 a2 a3 ep w))
| typed_resume w : typed_step w (world_of (restore_from_suspend w)).

Context {EXT : ExternTypes}.

Lemma result_ok_world {A} (P : A -> Prop) r : result_ok P r -> world_typed (world_of r).
Proof. destruct r; simpl; tauto. Qed.

Lemma typed_step_typed w w' : typed_step w w' -> world_typed w -> world_typed w'.
Proof.
  intros [w0 regs Hr|w0 s Hs|w0 a0 a1 a2 a3 ep Ha He|w0] Hw.
  - destruct Hw. by constructor.
  - by eapply result_ok_world, typed_handle_sync_lower.
  - by eapply result_ok_world, typed_entry_point_el1.
  - by eapply result_ok_world, typed_restore_from_suspend.
Qed.

Lemma boot_world_typed regs p : (forall r, is_u64 (regs r)) -> world_typed (boot_world regs p).
Proof. intros Hr. constructor; simpl; [done| |done]. by apply Forall_replicate. Qed.
End TypedHistories.

(** The custom HVC of the QEMU platform answers with 64-bit values. *)
Lemma qemu_handle_hvc_typed {SA : SmcccArch} f args : result_typed (qemu_handle_hvc f args).
Proof.
  unfold qemu_handle_hvc, result_typed. case_match; simpl.
  - by apply (bool_decide_unpack _).
  - apply list.Forall_singleton, error_to_u64_typed.
Qed.

(** ** Property *)

(** C11: the machine types are preserved: over any history after boot in
    which the guest and the firmware supply values of the machine types, every
    system register and every saved suspend context is a 64-bit value and every
    SMC, core start and suspend request RITM ever issued had arguments of their
    declared widths; and an exception of a guest with 64-bit registers ends
    with 64-bit registers again, in every one of its branches. *)
Theorem machine_types_preserved {PT : PageTable} {SA : SmcccArch} {PLAT : Platform}
    {SYS : ArmSysregs} {SYL : ArmSysregsLaws} {PSCI : ArmPsci} {DEC : PsciDecoder} {FW : Firmware}
    {EXT : ExternTypes} regs p w s :
  (forall r, is_u64 (regs r)) -> rtc typed_step (boot_world regs p) w -> guest_typed s ->
  world_typed w /\ result_ok guest_typed (handle_sync_lower s w).
Proof.
  intros Hr Hsteps Hs. assert (Hw : world_typed w).
  { eapply (rtc_ind_r (fun w => world_typed w)); [by apply boot_world_typed| |done].
    intros w1 w2 _ Hstep. by eapply typed_step_typed. }
  split; [done|]. by apply typed_handle_sync_lower.
Qed.

Section TypesWitness.
Import QemuExample ArmArch ExampleFirmware.

#[local] Instance example_types : ExternTypes.
Proof.
  constructor.
  - intros regs m e Hr. simpl. unfold decode. repeat (case_match; try done); intros [= <- <-];
      simplify_eq; apply Forall_four in Hr; tauto.
  - intros regs m e Hr. simpl. unfold decode. repeat (case_match; try done); intros [= <- <-];
      simplify_eq; apply Forall_four in Hr; (split; [rewrite land_u32_max; by apply in_range_mod|]; tauto).
  - intros t f args regs Hf Ha. simpl. case_bool_decide; [done|]. intros [= <-].
    constructor; [by apply (in_range_le 32)|]. by apply (bool_decide_unpack _).
  - intros t. by apply (bool_decide_unpack _).
  - intros f args _ _. apply qemu_handle_hvc_typed.
Qed.

(** An HVC from a guest, before anything else happened. *)
Definition hvc_regs : sysregs := fun _ => 0x5800_0000.

Lemma machine_types_preserved_witness :
  exists s w, handle_sync_lower example_guest (boot_world (PLAT := qemu_platform) hvc_regs 0) = Done s w /\
    read_gpr s 0 = Some 0xffff_ffff_ffff_ffff /\ guest_typed s /\ world_typed w.
Proof.
  destruct (machine_types_preserved (PLAT := qemu_platform) hvc_regs 0
    (boot_world (PLAT := qemu_platform) hvc_regs 0) example_guest) as [_ H].
  - intros r. by apply (bool_decide_unpack _).
  - apply rtc_refl.
  - by apply (bool_decide_unpack _); vm_compute.
  - assert (Hx : match handle_sync_lower example_guest (boot_world (PLAT := qemu_platform) hvc_regs 0) with
                 | Done s _ => read_gpr s 0 | _ => None end = Some 0xffff_ffff_ffff_ffff)
      by (vm_compute; reflexivity).
    destruct (handle_sync_lower _ _) as [s w|msg w|l w]; [|discriminate Hx..].
    exists s, w. split_and!; [reflexivity|exact Hx|apply H..].
Defined.
End TypesWitness.
