(* ===== verification/Smp.v ===== *)
(** * Several cores: suspend and resume

    CPU_SUSPEND, CPU_ON and the resume path of src/src/hypervisor.rs run on
    all cores at once; the maps they share are behind spin locks.  Here each
    locked operation is one step of a machine, so that the steps of different
    cores interleave in every order.  The file shows that a resuming core
    always finds the context its own CPU_SUSPEND saved, and that the runs of
    Hypervisor.v are uninterrupted sequences of these steps. *)

From Stdlib Require Import ZArith Lia.
From stdpp Require Import base tactics list gmap strings numbers.
From S2P Require Import Prelude SimpleMap Stage2 Exceptions HvcResponse Pagetable Platform Qemu.
From S2P Require Import Sysregs World Hypervisor Safety Entry Calls.

#[local] Open Scope Z_scope.

(** Where a core is. *)
Inductive core_state : Type :=
| Off
| InGuest
| Saved (c : SuspendCoreData)       (* context inserted, stack not yet looked up *)
| InFirmware (c : SuspendCoreData)  (* inside [suspend_core] *)
| Asleep (c : SuspendCoreData)      (* powered down *)
| Refused.                          (* the firmware came back, context not yet removed *)

#[export] Instance SuspendCoreData_eq_dec : EqDecision SuspendCoreData.
Proof. solve_decision. Defined.
#[export] Instance core_state_eq_dec : EqDecision core_state.
Proof. solve_decision. Defined.

(** The shared maps, the cores by MPIDR_EL1, and the contexts resumed so far. *)
Record machine : Type := mkMachine {
  contexts : SimpleMap Z SuspendCoreData;
  stacks : SimpleMap Z unit;
  core : gmap Z core_state;
  resumed_with : list (Z * SuspendCoreData);
}.

Definition set_core (m : Z) (st : core_state) (s : machine) : machine :=
  {| contexts := contexts s; stacks := stacks s; core := <[m := st]> (core s);
     resumed_with := resumed_with s |}.
Definition set_contexts (x : SimpleMap Z SuspendCoreData) (s : machine) : machine :=
  {| contexts := x; stacks := stacks s; core := core s; resumed_with := resumed_with s |}.
Definition set_stacks (x : SimpleMap Z unit) (s : machine) : machine :=
  {| contexts := contexts s; stacks := x; core := core s; resumed_with := resumed_with s |}.
Definition log_resume (m : Z) (c : SuspendCoreData) (s : machine) : machine :=
  {| contexts := contexts s; stacks := stacks s; core := core s;
     resumed_with := resumed_with s ++ [(m, c)] |}.

(** [get_secondary_stack] as one locked operation. *)
Definition take_stack (m : Z) (x : SimpleMap Z unit) : outcome (nat * SimpleMap Z unit) :=
  match get_mut x m with
  | Some i => Ret (i, x)
  | None => SimpleMap.insert x m tt
  end.

Inductive smp_step : machine -> machine -> Prop :=
| smp_save s m c i x :
    core s !! m = Some InGuest -> SimpleMap.insert (contexts s) m c = Ret (i, x) ->
    smp_step s (set_core m (Saved c) (set_contexts x s))
| smp_stack s m c i x :
    core s !! m = Some (Saved c) -> take_stack m (stacks s) = Ret (i, x) ->
    smp_step s (set_core m (InFirmware c) (set_stacks x s))
| smp_power_down s m c :
    core s !! m = Some (InFirmware c) -> smp_step s (set_core m (Asleep c) s)
| smp_refuse s m c :
    core s !! m = Some (InFirmware c) -> smp_step s (set_core m Refused s)
| smp_return s m :
    core s !! m = Some Refused ->
    smp_step s (set_core m InGuest (set_contexts (snd (SimpleMap.remove (contexts s) m)) s))
| smp_resume s m c0 c x :
    core s !! m = Some (Asleep c0) -> SimpleMap.remove (contexts s) m = (Some c, x) ->
    smp_step s (set_core m InGuest (log_resume m c (set_contexts x s)))
| smp_cpu_on s m target i x :
    core s !! m = Some InGuest -> take_stack target (stacks s) = Ret (i, x) ->
    smp_step s (set_stacks x s)
| smp_start s m : core s !! m = Some Off -> smp_step s (set_core m InGuest s)
| smp_cpu_off s m : core s !! m = Some InGuest -> smp_step s (set_core m Off s).

(** The steps that end in a panic. *)
Inductive smp_panic : machine -> string -> Prop :=
| panic_save s m c msg :
    core s !! m = Some InGuest -> SimpleMap.insert (contexts s) m c = Panic msg -> smp_panic s msg
| panic_resume s m c x :
    core s !! m = Some (Asleep c) -> SimpleMap.remove (contexts s) m = (None, x) ->
    smp_panic s "context not found for resuming CPU"
| panic_stack s m target msg :
    (core s !! m = Some InGuest \/ exists c, core s !! m = Some (Saved c)) ->
    take_stack target (stacks s) = Panic msg -> smp_panic s msg.

(** The boot state: one core in the guest, the others off. *)
Definition smp_init (cap : nat) (cores : gset Z) (boot : Z) : machine :=
  {| contexts := SimpleMap.new cap; stacks := SimpleMap.new cap;
     core := <[boot := InGuest]> (gset_to_gmap Off cores); resumed_with := [] |}.

(** ** The invariant *)

(** The context a core's state says is in the map. *)
Definition saved_context (st : core_state) : option SuspendCoreData :=
  match st with Saved c | InFirmware c | Asleep c => Some c | _ => None end.

(** Whether a core's state allows an entry in the map. *)
Definition may_hold (st : core_state) : bool :=
  match st with Off | InGuest => false | _ => true end.

Record smp_inv (cap : nat) (cores : gset Z) (s : machine) : Prop := {
  si_wf : wf (contexts s);
  si_cap : length (items (contexts s)) = cap;
  si_cores : dom (core s) = cores;
  si_saved : forall m st c, core s !! m = Some st -> saved_context st = Some c ->
    abs (contexts s) !! m = Some c;
  si_only : forall m c, abs (contexts s) !! m = Some c ->
    exists st, core s !! m = Some st /\ may_hold st = true;
}.

Lemma smp_init_inv cap cores boot : boot ∈ cores -> smp_inv cap cores (smp_init cap cores boot).
Proof.
  intros Hb. constructor; simpl.
  - apply new_wf.
  - apply length_replicate.
  - rewrite dom_insert_L, dom_gset_to_gmap. set_solver.
  - intros m st c [[<- <-]|[_ Hm]]%lookup_insert_Some; [done|].
    apply lookup_gset_to_gmap_Some in Hm as [_ <-]. done.
  - intros m c. by rewrite abs_new, lookup_empty.
Qed.

(** Moving one core between states with the same map. *)
Lemma smp_inv_set_core cap cores s m st st' :
  smp_inv cap cores s -> core s !! m = Some st -> saved_context st' = saved_context st \/
    saved_context st' = None ->
  (may_hold st = true -> may_hold st' = true) ->
  smp_inv cap cores (set_core m st' s).
Proof.
  intros [Hwf Hcap Hdom Hsaved Honly] Hm Hsc Hmh. constructor; simpl; try done.
  - rewrite dom_insert_L. apply elem_of_dom_2 in Hm. set_solver.
  - intros m' st0 c [[<- <-]|[_ Hm']]%lookup_insert_Some; [|by eauto].
    intros Hc. apply (Hsaved m st); [done|]. destruct Hsc; congruence.
  - intros m' c Hc. destruct (Honly m' c Hc) as (st0 & H0 & H1).
    destruct (decide (m = m')) as [->|Hne].
    + exists st'. rewrite lookup_insert_eq. split; [done|]. naive_solver.
    + exists st0. by rewrite lookup_insert_ne.
Qed.

(** Removing a core's own entry. *)
Lemma smp_inv_remove cap cores s m st :
  smp_inv cap cores s -> core s !! m = Some st ->
  smp_inv cap cores
    (set_core m InGuest (set_contexts (snd (SimpleMap.remove (contexts s) m)) s)).
Proof.
  intros [Hwf Hcap Hdom Hsaved Honly] Hm.
  destruct (remove_abs (contexts s) m Hwf) as [_ Habs]. constructor; simpl.
  - auto with simple_map.
  - by rewrite remove_length.
  - rewrite dom_insert_L. apply elem_of_dom_2 in Hm. set_solver.
  - intros m' st0 c [[<- <-]|[Hne Hm']]%lookup_insert_Some; [done|]. intros Hc.
    rewrite Habs, lookup_delete_ne by done. eauto.
  - intros m' c. rewrite Habs. intros [Hne Hc]%lookup_delete_Some.
    destruct (Honly m' c Hc) as (st0 & H0 & H1). exists st0. by rewrite lookup_insert_ne.
Qed.

Lemma smp_inv_save cap cores s m c i x :
  smp_inv cap cores s -> core s !! m = Some InGuest ->
  SimpleMap.insert (contexts s) m c = Ret (i, x) ->
  smp_inv cap cores (set_core m (Saved c) (set_contexts x s)).
Proof.
  intros [Hwf Hcap Hdom Hsaved Honly] Hm Hins.
  pose proof (insert_abs (contexts s) m c Hwf) as Habs. rewrite Hins in Habs.
  destruct Habs as (Habs & _). constructor; simpl.
  - by eapply insert_wf.
  - by rewrite (insert_length _ _ _ _ _ Hins).
  - rewrite dom_insert_L. apply elem_of_dom_2 in Hm. set_solver.
  - intros m' st0 c' [[<- <-]|[Hne Hm']]%lookup_insert_Some Hc; rewrite Habs.
    + rewrite lookup_insert_eq. naive_solver.
    + rewrite lookup_insert_ne by done. eauto.
  - intros m' c'. rewrite Habs. intros [[<- <-]|[Hne Hc]]%lookup_insert_Some.
    + exists (Saved c). by rewrite lookup_insert_eq.
    + destruct (Honly m' c' Hc) as (st0 & H0 & H1). exists st0. by rewrite lookup_insert_ne.
Qed.

Lemma smp_step_inv cap cores s s' : smp_step s s' -> smp_inv cap cores s -> smp_inv cap cores s'.
Proof.
  intros Hs Hinv. destruct Hs as [| | | | |s m c0 c x Hm Hr| | |].
  - by eapply smp_inv_save.
  - eapply (smp_inv_set_core _ _ (set_stacks _ _)); [|done|by left|done].
    destruct Hinv. by constructor.
  - eapply smp_inv_set_core; [done|done|by left|done].
  - eapply smp_inv_set_core; [done|done|by right|done].
  - by eapply smp_inv_remove.
  - pose proof (smp_inv_remove cap cores s m _ Hinv Hm) as H1. rewrite Hr in H1.
    destruct H1. by constructor.
  - destruct Hinv. by constructor.
  - eapply smp_inv_set_core; [done|done|by left|done].
  - eapply smp_inv_set_core; [done|done|by left|done].
Qed.

Lemma smp_steps_inv cap cores s s' :
  rtc smp_step s s' -> smp_inv cap cores s -> smp_inv cap cores s'.
Proof. induction 1; eauto using smp_step_inv. Qed.

(** Under the invariant a sleeping core finds its context. *)
Lemma smp_resume_finds cap cores s m c :
  smp_inv cap cores s -> core s !! m = Some (Asleep c) ->
  fst (SimpleMap.remove (contexts s) m) = Some c.
Proof.
  intros Hinv Hm. destruct (remove_abs (contexts s) m (si_wf _ _ _ Hinv)) as [-> _].
  by apply (si_saved _ _ _ Hinv m (Asleep c)).
Qed.

(** With no more cores than slots, a core in the guest finds room. *)
Lemma smp_save_room cap cores s m c :
  smp_inv cap cores s -> (size cores <= cap)%nat -> core s !! m = Some InGuest ->
  exists i x, SimpleMap.insert (contexts s) m c = Ret (i, x).
Proof.
  intros [Hwf Hcap Hdom _ Honly] Hle Hm.
  pose proof (insert_abs (contexts s) m c Hwf) as Hins.
  destruct (SimpleMap.insert _ _ _) as [[i x]|msg]; [by eauto|].
  destruct Hins as [Hfull _]. exfalso.
  assert (Hsub : dom (abs (contexts s)) ⊆ cores ∖ {[m]}).
  { intros k Hk. apply elem_of_dom in Hk as [c' Hc']. destruct (Honly k c' Hc') as (st & Hst & Hh).
    apply elem_of_difference. split; [rewrite <- Hdom; by eapply elem_of_dom_2|].
    intros ->%elem_of_singleton. rewrite Hm in Hst. by injection Hst as <-. }
  assert (Hin : m ∈ cores) by (rewrite <- Hdom; by eapply elem_of_dom_2).
  apply subseteq_size in Hsub. rewrite size_dom, Hfull, Hcap in Hsub.
  rewrite size_difference in Hsub by set_solver. rewrite size_singleton in Hsub.
  assert (size cores <> 0%nat); [|lia]. apply size_non_empty_iff. set_solver.
Qed.

(** ** The runs of Hypervisor.v are sequences of these steps *)

Section Simulation.
Context {PT : PageTable} {SA : SmcccArch} {PLAT : Platform}.
Context {SYS : ArmSysregs} {PSCI : ArmPsci} {DEC : PsciDecoder} {FW : Firmware}.

Definition machine_of (w : World) (cores : gmap Z core_state)
    (log : list (Z * SuspendCoreData)) : machine :=
  {| contexts := w_suspend_contexts w; stacks := w_secondary_stacks w; core := cores;
     resumed_with := log |}.

(** How a run of CPU_SUSPEND ends, as steps of the machine. *)
Definition suspend_simulated (e : EntryPoint) (w : World) (cores : gmap Z core_state)
    (log : list (Z * SuspendCoreData)) (r : run_result (result PsciCallError unit)) : Prop :=
  let m := w_sysregs w MPIDR_EL1 in
  match r with
  | Done _ w' => rtc smp_step (machine_of w cores log)
      (machine_of w' (<[m := InGuest]> cores) log)
  | Leaves _ w' => rtc smp_step (machine_of w cores log)
      (machine_of w' (<[m := Asleep (suspend_context e)]> cores) log)
  | Panics msg _ => exists s, rtc smp_step (machine_of w cores log) s /\ smp_panic s msg
  end.

Lemma suspend_is_steps p e w cores log :
  cores !! w_sysregs w MPIDR_EL1 = Some InGuest ->
  suspend_simulated e w cores log (psci_cpu_suspend p e w).
Proof.
  set (m := w_sysregs w MPIDR_EL1). intros Hm.
  unfold psci_cpu_suspend. rewrite bind_read_sysreg. cbv zeta. fold m. fold (suspend_context e).
  unfold mbind, M_bind, with_suspend_contexts at 1, suspend_simulated. fold m.
  destruct (SimpleMap.insert (w_suspend_contexts w) m (suspend_context e)) as [[i x]|msg] eqn:E1.
  2: { eexists. split; [apply rtc_refl|]. by eapply panic_save. }
  pose proof (smp_save (machine_of w cores log) m _ i x Hm E1) as S1.
  change (get_secondary_stack m) with (with_secondary_stacks (take_stack m)).
  unfold with_secondary_stacks. cbn [w_secondary_stacks].
  destruct (take_stack m (w_secondary_stacks w)) as [[j y]|msg] eqn:E2.
  2: { eexists. split; [by apply rtc_once|]. eapply (panic_stack _ m m); [|exact E2].
       right. eexists. apply lookup_insert_eq. }
  set (c := suspend_context e) in *. set (s0 := machine_of w cores log) in *.
  set (s1 := set_core m (Saved c) (set_contexts x s0)) in *.
  set (s2 := set_core m (InFirmware c) (set_stacks y s1)).
  assert (S2 : smp_step s1 s2) by (eapply smp_stack; [apply lookup_insert_eq|exact E2]).
  assert (S02 : rtc smp_step s0 s2) by (eapply rtc_l; [exact S1|by apply rtc_once]).
  unfold suspend_core_call, mbind, M_bind. cbn [get_trace emit w_trace].
  destruct (suspend_core _ _) as [r|].
  - unfold with_suspend_contexts. cbn -[machine_of s0 s1 s2 set_core].
    destruct (SimpleMap.remove x m) as [o z] eqn:E4. cbn -[machine_of s0 s1 s2].
    etrans; [exact S02|].
    eapply rtc_l; [apply (smp_refuse s2 m c), lookup_insert_eq|].
    eapply rtc_l; [apply (smp_return _ m), lookup_insert_eq|].
    unfold set_core, set_contexts, set_stacks. simpl. rewrite E4, !insert_insert_eq. apply rtc_refl.
  - cbn -[machine_of s0 s1 s2]. etrans; [exact S02|].
    eapply rtc_l; [apply (smp_power_down s2 m c), lookup_insert_eq|].
    unfold set_core, set_contexts, set_stacks. simpl. rewrite !insert_insert_eq. apply rtc_refl.
Qed.

(** EL1 entry leaves the maps alone. *)
Lemma entry_keeps_maps a0 a1 a2 a3 ep w :
  let w' := world_of (entry_point_el1 a0 a1 a2 a3 ep w) in
  w_suspend_contexts w' = w_suspend_contexts w /\ w_secondary_stacks w' = w_secondary_stacks w.
Proof.
  destruct (stage2_config w) as [c w0|msg w0|l w0] eqn:Hc; cbv zeta; unfold entry_point_el1.
  - rewrite (bind_Done _ _ _ _ _ (setup_stage2_Done w c w0 Hc)).
    by repeat first [rewrite bind_write_sysreg | rewrite bind_read_sysreg].
  - pose proof (stage2_config_world w) as [Hw|[c H]]; rewrite Hc in *; [|done]. simpl in Hw.
    subst w0. unfold setup_stage2, mbind, M_bind. by rewrite Hc.
  - pose proof (stage2_config_world w) as [Hw|[c H]]; rewrite Hc in *; [|done]. simpl in Hw.
    subst w0. unfold setup_stage2, mbind, M_bind. by rewrite Hc.
Qed.

(** A run of the resume path is one step: the removal of the core's context
    (the EL1 entry that follows uses no shared map), or the panic of a core
    that has none. *)
Lemma resume_is_step w cores log c0 :
  cores !! w_sysregs w MPIDR_EL1 = Some (Asleep c0) ->
  let m := w_sysregs w MPIDR_EL1 in
  match fst (SimpleMap.remove (w_suspend_contexts w) m) with
  | Some c => smp_step (machine_of w cores log)
      (machine_of (world_of (restore_from_suspend w)) (<[m := InGuest]> cores) (log ++ [(m, c)]))
  | None => exists w', restore_from_suspend w = Panics "context not found for resuming CPU" w' /\
      smp_panic (machine_of w cores log) "context not found for resuming CPU"
  end.
Proof.
  intros Hm m. fold m in Hm. unfold restore_from_suspend. rewrite bind_read_sysreg. fold m.
  unfold mbind, M_bind, with_suspend_contexts.
  destruct (SimpleMap.remove (w_suspend_contexts w) m) as [[c|] x] eqn:E; simpl.
  - pose proof (entry_keeps_maps (scd_context_id c) 0 0 0 (scd_entry_point c)
      {| w_sysregs := w_sysregs w; w_stage2_config := w_stage2_config w; w_platform := w_platform w;
         w_suspend_contexts := x; w_secondary_stacks := w_secondary_stacks w;
         w_trace := w_trace w |}) as [H1 H2].
    unfold machine_of at 2. simpl in H1, H2. rewrite H1, H2.
    exact (smp_resume (machine_of w cores log) m c0 c x Hm E).
  - eexists. split; [done|]. by eapply panic_resume.
Qed.

(** A run of CPU_ON is one step: the stack of the target is taken. *)
Lemma cpu_on_is_step target e w cores log :
  cores !! w_sysregs w MPIDR_EL1 = Some InGuest ->
  match psci_cpu_on target e w with
  | Done _ w' => smp_step (machine_of w cores log) (machine_of w' cores log)
  | Panics msg _ => smp_panic (machine_of w cores log) msg
  | Leaves _ _ => False
  end.
Proof.
  intros Hm. unfold psci_cpu_on, mbind, M_bind. cbv zeta.
  change (get_secondary_stack (u64_from_mpidr target))
    with (with_secondary_stacks (take_stack (u64_from_mpidr target))).
  unfold with_secondary_stacks.
  destruct (take_stack _ _) as [[i x]|msg] eqn:E; [|by eapply panic_stack; [left|]].
  exact (smp_cpu_on (machine_of w cores log) _ _ i x Hm E).
Qed.
End Simulation.

(** ** Properties *)

(** C9: suspend and resume are safe on any number of cores up to the capacity,
    in every interleaving of their locked operations and whatever the guest
    does: a powered-down core always finds, and resumes with, the context its
    own CPU_SUSPEND saved, and saving a context never exceeds the capacity;
    the only panic that remains is the exhaustion of secondary stacks. *)
Theorem smp_suspend_safe cap (cores : gset Z) boot s :
  boot ∈ cores -> (size cores <= cap)%nat -> rtc smp_step (smp_init cap cores boot) s ->
  (forall m c, core s !! m = Some (Asleep c) -> fst (SimpleMap.remove (contexts s) m) = Some c) /\
  (forall m c, core s !! m = Some InGuest ->
    exists i x, SimpleMap.insert (contexts s) m c = Ret (i, x)) /\
  (forall msg, smp_panic s msg -> exists target, take_stack target (stacks s) = Panic msg).
Proof.
  intros Hboot Hcap Hreach.
  pose proof (smp_steps_inv _ _ _ _ Hreach (smp_init_inv cap cores boot Hboot)) as Hinv.
  split_and!.
  - intros m c. by apply (smp_resume_finds cap cores).
  - intros m c. by apply (smp_save_room cap cores).
  - intros msg Hp. destruct Hp as [s m c msg Hm Hp|s m c x Hm Hp|s m target msg _ Hp]; [..|by eauto].
    + destruct (smp_save_room cap cores s m c Hinv Hcap Hm) as (i & x & Hr). congruence.
    + pose proof (smp_resume_finds cap cores s m c Hinv Hm) as Hr. by rewrite Hp in Hr.
Qed.

(** C22: the machine is a refinement target of the code: a run of
    [psci_cpu_suspend] is a sequence of machine steps that ends with the core
    back in the guest, asleep with the context of this call, or in one of the
    machine's panics; a run of [restore_from_suspend] is the resume step, or
    the machine's panic when the context is missing; a run of [psci_cpu_on] is
    the step that takes the target's stack, or the panic of a full map. *)
Theorem suspend_resume_simulated {PT : PageTable} {SA : SmcccArch} {PLAT : Platform}
    {SYS : ArmSysregs} {PSCI : ArmPsci} {DEC : PsciDecoder} {FW : Firmware} p target e w cores log :
  let m := w_sysregs w MPIDR_EL1 in
  (cores !! m = Some InGuest -> suspend_simulated e w cores log (psci_cpu_suspend p e w)) /\
  (forall c0, cores !! m = Some (Asleep c0) ->
    match fst (SimpleMap.remove (w_suspend_contexts w) m) with
    | Some c => smp_step (machine_of w cores log)
        (machine_of (world_of (restore_from_suspend w)) (<[m := InGuest]> cores) (log ++ [(m, c)]))
    | None => exists w', restore_from_suspend w = Panics "context not found for resuming CPU" w' /\
        smp_panic (machine_of w cores log) "context not found for resuming CPU"
    end) /\
  (cores !! m = Some InGuest ->
    match psci_cpu_on target e w with
    | Done _ w' => smp_step (machine_of w cores log) (machine_of w' cores log)
    | Panics msg _ => smp_panic (machine_of w cores log) msg
    | Leaves _ _ => False
    end).
Proof.
  intros m. split_and!; [apply suspend_is_steps| |apply cpu_on_is_step].
  intros c0. apply resume_is_step.
Qed.

(** ** Witnesses *)

Definition example_context : SuspendCoreData := mkSuspendCoreData 0x4020_0000 7.

(** Core 1 of two powered down. *)
Lemma example_asleep :
  exists s, rtc smp_step (smp_init 8 {[1; 2]} 1) s /\ core s !! 1 = Some (Asleep example_context).
Proof.
  eexists. split.
  - eapply rtc_l; [eapply (smp_save _ 1 example_context); reflexivity|].
    eapply rtc_l; [eapply (smp_stack _ 1 example_context); reflexivity|].
    eapply rtc_l; [eapply (smp_power_down _ 1 example_context); reflexivity|]. apply rtc_refl.
  - reflexivity.
Qed.

Lemma smp_suspend_safe_witness :
  exists s, core s !! 1 = Some (Asleep example_context) /\
    fst (SimpleMap.remove (contexts s) 1) = Some example_context.
Proof.
  destruct example_asleep as (s & Hreach & Hc). exists s. split; [done|].
  apply (smp_suspend_safe 8 {[1; 2]} 1 s); [set_solver|by vm_compute; lia|done..].
Defined.

Section SmpWitness.
Import QemuExample ArmArch ExampleFirmware.

Lemma suspend_resume_simulated_witness :
  suspend_simulated (PSCI := example_psci) (FW := example_firmware) ((102, 103) : EntryPoint) (call_world true) {[0 := InGuest]} []
    (psci_cpu_suspend (1 : PowerState) ((102, 103) : EntryPoint) (call_world true)).
Proof. apply (suspend_resume_simulated (PSCI := example_psci) _ (101 : @Mpidr example_psci)). reflexivity. Defined.
End SmpWitness.
