(* ===== verification/Progress.v ===== *)
(** * Progress on several cores

    A guest that names only existing cores in CPU_ON is never stopped by RITM:
    no lock-protected operation panics, and a core that is somewhere inside
    CPU_SUSPEND, asleep or on its way back gets back to the guest in at most
    three steps of its own, in every run of all cores that does not ignore it
    for ever.  The machine is that of Smp.v. *)

From Stdlib Require Import ZArith Lia.
From stdpp Require Import base tactics list gmap strings numbers.
From S2P Require Import Prelude SimpleMap Stage2 Exceptions HvcResponse Pagetable Platform Qemu.
From S2P Require Import Sysregs World Hypervisor Safety Entry Calls Smp.

#[local] Open Scope Z_scope.

(** A step after which the stack map knows existing cores only. *)
Definition valid_step (cores : gset Z) (s s' : machine) : Prop :=
  smp_step s s' /\ dom (abs (stacks s')) ⊆ cores.

Record stacks_inv (cap : nat) (cores : gset Z) (s : machine) : Prop := {
  st_wf : wf (stacks s);
  st_cap : length (items (stacks s)) = cap;
  st_dom : dom (abs (stacks s)) ⊆ cores;
}.

Lemma take_stack_inv cap m (x x' : SimpleMap Z unit) i :
  take_stack m x = Ret (i, x') -> wf x -> length (items x) = cap ->
  wf x' /\ length (items x') = cap /\ abs x' = <[m := tt]> (abs x).
Proof.
  unfold take_stack. intros Ht Hwf Hlen. destruct (get_mut x m) as [j|] eqn:E.
  - injection Ht as <- <-. split_and!; [done..|]. apply find_key_Some in E as [[] E].
    symmetry. apply insert_id. apply abs_lookup; eauto.
  - pose proof (insert_abs x m tt Hwf) as Ha. rewrite Ht in Ha. split_and!.
    + by eapply insert_wf.
    + by rewrite (insert_length _ _ _ _ _ Ht).
    + by destruct Ha.
Qed.

(** Room for every existing core. *)
Lemma take_stack_room cap cores s m :
  stacks_inv cap cores s -> (size cores <= cap)%nat -> m ∈ cores ->
  exists i x, take_stack m (stacks s) = Ret (i, x).
Proof.
  intros [Hwf Hcap Hdom] Hle Hm. unfold take_stack.
  destruct (get_mut (stacks s) m); [by eauto|].
  pose proof (insert_abs (stacks s) m tt Hwf) as Ha.
  destruct (SimpleMap.insert _ _ _) as [[i x]|msg]; [by eauto|]. destruct Ha as [Hfull Hn]. exfalso.
  assert (Hsub : dom (abs (stacks s)) ⊆ cores ∖ {[m]}).
  { intros k Hk. apply elem_of_difference. split; [by apply Hdom|].
    intros ->%elem_of_singleton. by apply not_elem_of_dom in Hn. }
  apply subseteq_size in Hsub. rewrite size_dom, Hfull, Hcap in Hsub.
  rewrite size_difference, size_singleton in Hsub by set_solver.
  assert (size cores <> 0%nat); [|lia]. apply size_non_empty_iff. set_solver.
Qed.

Lemma stacks_inv_same cap cores s s' :
  stacks s' = stacks s -> stacks_inv cap cores s -> stacks_inv cap cores s'.
Proof. intros E []. constructor; by rewrite E. Qed.

Lemma valid_step_stacks cap cores s s' :
  valid_step cores s s' -> stacks_inv cap cores s -> stacks_inv cap cores s'.
Proof.
  intros [Hs Hd] Hinv. destruct Hs as [| | | | | |s m target i x Hm Ht| |];
    try by apply (stacks_inv_same cap cores s).
  all: match goal with Ht : take_stack _ _ = _ |- _ =>
    destruct (take_stack_inv cap _ _ _ _ Ht (st_wf _ _ _ Hinv) (st_cap _ _ _ Hinv)) as (? & ? & ?) end;
    by constructor.
Qed.

Lemma valid_steps_inv cap cores s s' :
  rtc (valid_step cores) s s' -> smp_inv cap cores s -> stacks_inv cap cores s ->
  smp_inv cap cores s' /\ stacks_inv cap cores s'.
Proof.
  induction 1 as [|s s1 s' H1 _ IH]; intros Hi Hs; [done|]. apply IH.
  - destruct H1. by eapply smp_step_inv.
  - by eapply valid_step_stacks.
Qed.

Lemma valid_reachable cap cores boot s :
  boot ∈ cores -> rtc (valid_step cores) (smp_init cap cores boot) s ->
  smp_inv cap cores s /\ stacks_inv cap cores s.
Proof.
  intros Hb Hr. eapply valid_steps_inv; [done|by apply smp_init_inv|].
  constructor; simpl; [apply new_wf|apply length_replicate|]. rewrite abs_new. set_solver.
Qed.

(** ** Ranks

    How many more steps of its own a core takes at most before it is back in the
    guest. *)

Definition rank (st : core_state) : nat :=
  match st with
  | Off | InGuest => 0
  | Saved _ => 3
  | InFirmware _ => 2
  | Asleep _ | Refused => 1
  end.

(** Inside CPU_SUSPEND, asleep or on the way back. *)
Definition on_way (st : core_state) : Prop := st <> Off /\ st <> InGuest.

(** A step of one core leaves the state of the others; its own steps on the way
    lower the rank and end in the guest. *)
Lemma step_rank s s' m st :
  smp_step s s' -> core s !! m = Some st ->
  exists st', core s' !! m = Some st' /\
    (on_way st -> st' = st \/ st' <> Off /\ (rank st' < rank st)%nat).
Proof.
  intros Hs Hm. unfold on_way.
  destruct Hs as [s m' ? ? ? Hc|s m' ? ? ? Hc|s m' ? Hc|s m' ? Hc|s m' Hc|s m' ? ? ? Hc|s m' ? ? ? Hc
    |s m' Hc|s m' Hc]; cbn [core set_core set_contexts set_stacks log_resume]; try by eauto.
  all: destruct (decide (m' = m)) as [->|Hne];
    [rewrite lookup_insert_eq; eexists; split; [done|]; rewrite Hm in Hc; injection Hc as ->;
     intros [??]; simpl; first [done|by right; split; [done|lia]]
    |rewrite lookup_insert_ne by done; eauto].
Qed.

Lemma asleep_step s s' m c :
  smp_step s s' -> fst (SimpleMap.remove (contexts s) m) = Some c -> core s !! m = Some (Asleep c) -> core s' !! m <> core s !! m ->
  core s' !! m = Some InGuest /\ resumed_with s' = resumed_with s ++ [(m, c)].
Proof.
  intros Hs Hf Hm Hne.
  destruct Hs as [s m' ? ? ? Hc|s m' ? ? ? Hc|s m' ? Hc|s m' ? Hc|s m' Hc|s m' c0 c1 x Hc Hr|s m' ? ? ? Hc
    |s m' Hc|s m' Hc]; cbn [core set_core set_contexts set_stacks log_resume resumed_with] in *; try done.
  all: destruct (decide (m' = m)) as [->|Hd]; [|by rewrite lookup_insert_ne in Hne];
    rewrite Hm in Hc; try done.
  rewrite lookup_insert_eq. split; [done|]. rewrite Hr in Hf. by injection Hf as ->.
Qed.

(** A core on its way can always take its next step. *)
Lemma on_way_enabled cap cores s m st :
  smp_inv cap cores s -> stacks_inv cap cores s -> (size cores <= cap)%nat ->
  core s !! m = Some st -> on_way st ->
  exists s', valid_step cores s s' /\ core s' !! m <> core s !! m.
Proof.
  intros Hi Hst Hle Hm [Ho Hg].
  assert (Hmove : forall s' st', core s' = <[m := st']> (core s) -> st' <> st -> core s' !! m <> core s !! m)
    by (intros s' st' -> Hd; rewrite lookup_insert_eq, Hm; congruence).
  destruct st as [| |c|c|c|]; try done.
  - assert (Hin : m ∈ cores) by (rewrite <- (si_cores _ _ _ Hi); by eapply elem_of_dom_2).
    destruct (take_stack_room cap cores s m Hst Hle Hin) as (i & x & Ht).
    destruct (take_stack_inv cap _ _ _ _ Ht (st_wf _ _ _ Hst) (st_cap _ _ _ Hst)) as (_ & _ & Ha).
    eexists. split; [split; [by eapply smp_stack|]|by eapply Hmove].
    simpl. rewrite Ha, dom_insert. pose proof (st_dom _ _ _ Hst). set_solver.
  - eexists. split; [split; [by eapply smp_refuse|apply (st_dom _ _ _ Hst)]|by eapply Hmove].
  - pose proof (smp_resume_finds cap cores s m c Hi Hm) as Hf.
    destruct (SimpleMap.remove (contexts s) m) as [o x] eqn:E. simpl in Hf. subst o.
    eexists. split; [split; [by eapply smp_resume|apply (st_dom _ _ _ Hst)]|by eapply Hmove].
  - eexists. split; [split; [by apply smp_return|apply (st_dom _ _ _ Hst)]|by eapply Hmove].
Qed.

(** ** Runs *)

(** An infinite run of all cores, in any order. *)
Definition run_of (cores : gset Z) (r : nat -> machine) : Prop :=
  forall i, valid_step cores (r i) (r (S i)).

(** Core [m] is not ignored for ever while it is on its way. *)
Definition fair (m : Z) (r : nat -> machine) : Prop :=
  forall i st, core (r i) !! m = Some st -> on_way st ->
    exists j, (i <= j)%nat /\ core (r (S j)) !! m <> core (r j) !! m.

(** The steps core [m] takes between [i] and [i + n]. *)
Fixpoint own_steps (m : Z) (r : nat -> machine) (i n : nat) : nat :=
  match n with
  | O => 0
  | S n => ((if decide (core (r (S i)) !! m = core (r i) !! m) then 0 else 1) + own_steps m r (S i) n)%nat
  end.

(** A fair core comes back, in no more steps of its own than its rank. *)
Lemma fair_returns cores r m : run_of cores r -> fair m r ->
  forall n i st, (rank st <= n)%nat -> core (r i) !! m = Some st -> st <> Off ->
  exists k, core (r (i + k)%nat) !! m = Some InGuest /\ (own_steps m r i k <= rank st)%nat.
Proof.
  intros Hrun Hfair. induction n as [|n IH]; intros i st Hn Hm Hoff.
  { exists 0%nat. rewrite Nat.add_0_r. destruct st; simpl in Hn; try lia; [done|]. split; [done|simpl; lia]. }
  destruct (decide (st = InGuest)) as [->|Hg].
  { exists 0%nat. rewrite Nat.add_0_r. split; [done|simpl; lia]. }
  destruct (Hfair i st Hm (conj Hoff Hg)) as (j & Hij & Hj).
  assert (Hd : exists d, j = (i + d)%nat) by (exists (j - i)%nat; lia). destruct Hd as [d ->].
  clear Hij. revert i Hm Hj. induction d as [|d IHd]; intros i Hm Hj;
    destruct (step_rank _ _ m st (proj1 (Hrun i)) Hm) as (st' & Hm' & Hr);
    destruct (Hr (conj Hoff Hg)) as [->|[Hoff' Hlt]].
  - rewrite Nat.add_0_r in Hj. congruence.
  - destruct (IH (S i) st' ltac:(lia) Hm' Hoff') as (k & Hk & Hle). exists (S k).
    rewrite Nat.add_succ_r. split; [done|]. cbn [own_steps]. destruct (decide _); lia.
  - destruct (IHd (S i) Hm') as (k & Hk & Hle); [by rewrite Nat.add_succ_r in Hj|]. exists (S k).
    rewrite Nat.add_succ_r. split; [done|]. cbn [own_steps]. rewrite decide_True by congruence. done.
  - destruct (IH (S i) st' ltac:(lia) Hm' Hoff') as (k & Hk & Hle). exists (S k).
    rewrite Nat.add_succ_r. split; [done|]. cbn [own_steps]. destruct (decide _); lia.
Qed.

(** ** Property *)

(** C15: progress, in every interleaving.  With no more cores than [MAX_CORES]
    and a guest that starts existing cores only, in every reachable state: no
    locked operation panics, except for a CPU_ON of a core that does not exist;
    a core that is inside CPU_SUSPEND, asleep or on its way back always has a
    next step, which no step of the other cores takes away or changes; every
    such step of a sleeping core resumes it with the context it saved; and in
    every infinite run of all the cores that does not ignore the core for ever,
    it gets back to the guest after at most three steps of its own. *)
Theorem smp_valid_guest_progress cap (cores : gset Z) boot s :
  boot ∈ cores -> (size cores <= cap)%nat -> rtc (valid_step cores) (smp_init cap cores boot) s ->
  (forall msg, smp_panic s msg ->
     exists target, target ∉ cores /\ take_stack target (stacks s) = Panic msg) /\
  (forall m st, core s !! m = Some st -> on_way st ->
     (exists s', valid_step cores s s' /\ core s' !! m <> core s !! m) /\
     (forall s' c, st = Asleep c -> valid_step cores s s' -> core s' !! m <> core s !! m ->
        core s' !! m = Some InGuest /\ resumed_with s' = resumed_with s ++ [(m, c)])) /\
  (forall r m st, r 0%nat = s -> run_of cores r -> fair m r -> core s !! m = Some st -> st <> Off ->
     exists k, core (r k) !! m = Some InGuest /\ (own_steps m r 0 k <= 3)%nat).
Proof.
  intros Hb Hle Hr. destruct (valid_reachable cap cores boot s Hb Hr) as [Hi Hst]. split_and!.
  - intros msg Hpanic. destruct Hpanic as [s0 m c msg Hm Hp|s0 m c x Hm Hp|s0 m target msg _ Hp].
    + destruct (smp_save_room cap cores s0 m c Hi Hle Hm) as (i & x & Hx). congruence.
    + pose proof (smp_resume_finds cap cores s0 m c Hi Hm) as Hf. by rewrite Hp in Hf.
    + exists target. split; [|done]. intros Hin.
      destruct (take_stack_room cap cores s0 target Hst Hle Hin) as (i & x & Hx). congruence.
  - intros m st Hm Hw. split; [by eapply on_way_enabled|].
    intros s' c -> [Hs _] Hne. apply asleep_step; try done. by apply (smp_resume_finds cap cores).
  - intros r m st <- Hrun Hfair Hm Hoff.
    destruct (fair_returns cores r m Hrun Hfair _ 0%nat st (le_n _) Hm Hoff) as (k & Hk & Hle3).
    exists k. split; [done|]. destruct st; simpl in Hle3; lia.
Qed.

(** ** Witness *)

(** Core 1 of two asleep; it resumes, and then calls CPU_ON for itself for
    ever. *)
Definition asleep_one : machine :=
  {| contexts := match SimpleMap.insert (SimpleMap.new 8) 1 example_context with
                 | Ret (_, x) => x | Panic _ => SimpleMap.new 8 end;
     stacks := match SimpleMap.insert (SimpleMap.new 8) 1 tt with
               | Ret (_, x) => x | Panic _ => SimpleMap.new 8 end;
     core := {[1 := Asleep example_context; 2 := Off]}; resumed_with := [] |}.
Definition awake_one : machine :=
  {| contexts := snd (SimpleMap.remove (contexts asleep_one) 1); stacks := stacks asleep_one;
     core := <[1 := InGuest]> (core asleep_one); resumed_with := [(1, example_context)] |}.
Definition example_run (i : nat) : machine :=
  match i with O => asleep_one | S _ => awake_one end.

Lemma example_dom : dom (abs (stacks asleep_one)) ⊆ {[1; 2]}.
Proof. by apply (bool_decide_unpack _); vm_compute. Qed.

Lemma asleep_one_reachable : rtc (valid_step {[1; 2]}) (smp_init 8 {[1; 2]} 1) asleep_one.
Proof.
  assert (Hd : dom (abs (SimpleMap.new 8 : SimpleMap Z unit)) ⊆ ({[1; 2]} : gset Z))
    by (by apply (bool_decide_unpack _); vm_compute).
  eapply rtc_l; [split; [eapply (smp_save _ 1 example_context); reflexivity|exact Hd]|].
  eapply rtc_l; [split; [eapply (smp_stack _ 1 example_context); reflexivity|exact example_dom]|].
  eapply rtc_l; [split; [eapply (smp_power_down _ 1 example_context); reflexivity|exact example_dom]|].
  match goal with |- rtc _ ?s _ => assert (s = asleep_one) as ->; [|apply rtc_refl] end.
  reflexivity.
Qed.

Lemma example_run_of : run_of {[1; 2]} example_run.
Proof.
  intros [|i]; (split; [|exact example_dom]); simpl.
  - exact (smp_resume asleep_one 1 example_context example_context _ eq_refl eq_refl).
  - exact (smp_cpu_on awake_one 1 1 0 (stacks awake_one) eq_refl eq_refl).
Qed.

Lemma example_fair : fair 1 example_run.
Proof.
  intros [|i] st Hm [Ho Hg].
  - exists 0%nat. split; [lia|done].
  - change (Some InGuest = Some st) in Hm. by injection Hm as <-.
Qed.

Lemma smp_valid_guest_progress_witness :
  exists k, core (example_run k) !! 1 = Some InGuest /\ (own_steps 1 example_run 0 k <= 3)%nat.
Proof.
  destruct (smp_valid_guest_progress 8 {[1; 2]} 1 asleep_one ltac:(set_solver) ltac:(by vm_compute; lia)
    asleep_one_reachable) as (_ & _ & H).
  exact (H example_run 1 _ eq_refl example_run_of example_fair eq_refl ltac:(done)).
Defined.
