(* ===== verification/Asm.v ===== *)
(** * The assembly

    The naked functions of the repository, instruction by instruction, on a
    small AArch64 state: [sync_lower] (src/src/exceptions.rs), [eret_to_el1]
    (src/src/hypervisor.rs), [disable_mmu_and_caches] (src/src/arch.rs) and
    [run_payload_el2] (src/src/main.rs).

    A Rust function called with [bl] is a function on states; what the
    assembly relies on is the procedure call standard, class [Aapcs64]. *)

From Stdlib Require Import ZArith Lia.
From stdpp Require Import base tactics list gmap strings numbers.
From S2P Require Import Prelude Exceptions HvcResponse Stage2 Platform Sysregs World Hypervisor.

#[local] Open Scope Z_scope.

(** ** The machine *)

(** General registers x0-x30, vector registers, SP, memory by the address of
    each doubleword, SCTLR_EL2, and the maintenance operations done so far. *)
Inductive maintenance : Type := TlbiAlle2is | DsbSy | Isb | IcIallu | WriteSctlrEl2.

Record astate : Type := mkAstate {
  ax : gmap nat Z;
  av : gmap nat Z;
  asp : Z;
  amem : gmap Z Z;
  asctlr : Z;
  amaint : list maintenance;
}.

Definition x (st : astate) (r : nat) : Z := default 0 (ax st !! r).
Definition v (st : astate) (r : nat) : Z := default 0 (av st !! r).
Definition load (st : astate) (a : Z) : Z := default 0 (amem st !! a).

Definition set_x (r : nat) (z : Z) (st : astate) : astate :=
  mkAstate (<[r := z]> (ax st)) (av st) (asp st) (amem st) (asctlr st) (amaint st).
Definition set_v (r : nat) (z : Z) (st : astate) : astate :=
  mkAstate (ax st) (<[r := z]> (av st)) (asp st) (amem st) (asctlr st) (amaint st).
Definition set_sp (z : Z) (st : astate) : astate :=
  mkAstate (ax st) (av st) z (amem st) (asctlr st) (amaint st).
Definition store (a z : Z) (st : astate) : astate :=
  mkAstate (ax st) (av st) (asp st) (<[a := z]> (amem st)) (asctlr st) (amaint st).
Definition maintain (m : maintenance) (st : astate) : astate :=
  mkAstate (ax st) (av st) (asp st) (amem st) (asctlr st) (amaint st ++ [m]).
Definition set_sctlr (z : Z) (st : astate) : astate :=
  mkAstate (ax st) (av st) (asp st) (amem st) z (amaint st ++ [WriteSctlrEl2]).

(** The instructions used; offsets are from SP. *)
Inductive instr : Type :=
| MovImm (rd : nat) (imm : Z)
| MovReg (rd rn : nat)
| MovFromSp (rd : nat)
| MoviZero (vd : nat)
| SubSp (imm : Z)
| AddSp (imm : Z)
| Stp (r1 r2 : nat) (off : Z)
| Str (r : nat) (off : Z)
| Ldp (r1 r2 : nat) (off : Z)
| Ldr (r : nat) (off : Z)
| Bl (link : Z) (callee : astate -> astate)
| MsrSctlrEl2 (r : nat)
| Maintain (m : maintenance)
| Ret_
| Br (r : nat)
| Eret.

(** How a naked function ends. *)
Inductive ending : Type :=
| Returned (address : Z)
| Branched (address : Z)
| ExceptionReturn
| FellThrough.

Definition step (i : instr) (st : astate) : astate :=
  match i with
  | MovImm rd imm => set_x rd imm st
  | MovReg rd rn => set_x rd (x st rn) st
  | MovFromSp rd => set_x rd (asp st) st
  | MoviZero vd => set_v vd 0 st
  | SubSp imm => set_sp (asp st - imm) st
  | AddSp imm => set_sp (asp st + imm) st
  | Stp r1 r2 off => store (asp st + off + 8) (x st r2) (store (asp st + off) (x st r1) st)
  | Str r off => store (asp st + off) (x st r) st
  | Ldp r1 r2 off => set_x r2 (load st (asp st + off + 8)) (set_x r1 (load st (asp st + off)) st)
  | Ldr r off => set_x r (load st (asp st + off)) st
  | Bl link callee => callee (set_x 30 link st)
  | MsrSctlrEl2 r => set_sctlr (x st r) st
  | Maintain m => maintain m st
  | Ret_ | Br _ | Eret => st
  end.

Fixpoint exec (prog : list instr) (st : astate) : astate * ending :=
  match prog with
  | [] => (st, FellThrough)
  | Ret_ :: _ => (st, Returned (x st 30))
  | Br r :: _ => (st, Branched (x st r))
  | Eret :: _ => (st, ExceptionReturn)
  | i :: prog => exec prog (step i st)
  end.

(** The promises of a called Rust function that the assembly uses: x19-x29 and
    SP are preserved, and so is memory at and above SP, but for the words in
    [owned], which the function is given by pointer. *)
Class Aapcs64 (owned : astate -> Z -> bool) (f : astate -> astate) : Prop := {
  callee_saved : forall st r, (19 <= r <= 29)%nat -> x (f st) r = x st r;
  callee_sp : forall st, asp (f st) = asp st;
  callee_mem : forall st a, asp st <= a -> owned st a = false -> load (f st) a = load st a;
  callee_maint : forall st, asctlr (f st) = asctlr st /\ amaint (f st) = amaint st;
}.

(** A function that is given no memory. *)
Definition owns_nothing (st : astate) (a : Z) : bool := false.
(** A function that is given the ten words at x1. *)
Definition owns_frame (st : astate) (a : Z) : bool := (x st 1 <=? a) && (a <? x st 1 + 8 * 10).

(** ** The code *)

(** [Exceptions::sync_lower]. *)
Definition sync_lower (link : Z) (handler : astate -> astate) : list instr :=
  [SubSp (8 * 12);
   Stp 19 20 (8 * 0); Stp 21 22 (8 * 2); Stp 23 24 (8 * 4); Stp 25 26 (8 * 6); Stp 27 28 (8 * 8);
   Str 30 (8 * 10);
   MovFromSp 1;
   Bl link handler;
   Ldr 30 (8 * 10);
   Ldp 19 20 (8 * 0); Ldp 21 22 (8 * 2); Ldp 23 24 (8 * 4); Ldp 25 26 (8 * 6); Ldp 27 28 (8 * 8);
   AddSp (8 * 12);
   Ret_].

(** [eret_to_el1]. *)
Definition eret_to_el1 : list instr :=
  [MovImm 4 0; MovImm 5 0; MovImm 6 0; MovImm 7 0; MovImm 8 0; MovImm 9 0; MovImm 10 0;
   MovImm 11 0; MovImm 12 0; MovImm 13 0; MovImm 14 0; MovImm 15 0; MovImm 16 0; MovImm 17 0;
   MovImm 18 0; MovImm 19 0; MovImm 20 0; MovImm 21 0; MovImm 22 0; MovImm 23 0; MovImm 24 0;
   MovImm 25 0; MovImm 26 0; MovImm 27 0; MovImm 28 0; MovImm 29 0; MovImm 30 0;
   MoviZero 0; MoviZero 1; MoviZero 2; MoviZero 3; MoviZero 4; MoviZero 5; MoviZero 6;
   MoviZero 7; MoviZero 8; MoviZero 9; MoviZero 10; MoviZero 11; MoviZero 12; MoviZero 13;
   MoviZero 14; MoviZero 15; MoviZero 16; MoviZero 17; MoviZero 18; MoviZero 19; MoviZero 20;
   MoviZero 21; MoviZero 22; MoviZero 23; MoviZero 24; MoviZero 25; MoviZero 26; MoviZero 27;
   MoviZero 28; MoviZero 29; MoviZero 30; MoviZero 31;
   Eret].

(** [arch::disable_mmu_and_caches]; [impl] is [disable_mmu_and_caches_impl]. *)
Definition disable_mmu_and_caches (link : Z) (impl : astate -> astate) : list instr :=
  [MovReg 27 29; MovReg 28 30;
   Bl link impl;
   Maintain TlbiAlle2is; Maintain DsbSy;
   MsrSctlrEl2 0;
   Maintain Isb;
   MovReg 29 27; MovReg 30 28;
   Maintain IcIallu;
   Maintain Isb;
   Ret_].

(** [disable_mmu_and_caches_impl]: the value it computes from SCTLR_EL2. *)
Definition disable_mmu_and_caches_impl {SYS : ArmSysregs} (sctlr : Z) : Z :=
  let sctlr := flag_sub sctlr SCTLR2_M in
  let sctlr := flag_sub sctlr SCTLR2_C in
  flag_sub sctlr SCTLR2_I.

(** [run_payload_el2]. *)
Definition run_payload_el2 (link link' : Z) (impl : astate -> astate) : list instr :=
  [MovReg 19 0; MovReg 20 1; MovReg 21 2; MovReg 22 3; MovReg 23 4;
   Bl link (fun st => fst (exec (disable_mmu_and_caches link' impl) st));
   MovReg 0 20; MovReg 1 21; MovReg 2 22; MovReg 3 23;
   Br 19].

(** [sync_lower_with_nonvolatile], on the two frames: the pointer it is given
    is null or the saved x19-x28. *)
Definition sync_lower_with_nonvolatile {PT : PageTable} {SA : SmcccArch} {PLAT : Platform}
    {SYS : ArmSysregs} {PSCI : ArmPsci} {DEC : PsciDecoder} {FW : Firmware}
    (volatile : VolatileRegisters) (nonvolatile : option NonVolatileRegisters) :
    M GuestRegisterState :=
  nonvolatile ← lift (expect_some nonvolatile "non-volatile register frame should not be null");
  handle_sync_lower (guest_new volatile nonvolatile).

(** ** Lemmas *)

Lemma x_set_eq r z st : x (set_x r z st) r = z.
Proof. unfold x. simpl. by rewrite lookup_insert_eq. Qed.

Lemma x_set_ne r r' z st : r' <> r -> x (set_x r z st) r' = x st r'.
Proof. intros. unfold x. simpl. by rewrite lookup_insert_ne. Qed.

Lemma load_store_eq a z st : load (store a z st) a = z.
Proof. unfold load. simpl. by rewrite lookup_insert_eq. Qed.

Lemma load_store_ne a a' z st : a' <> a -> load (store a z st) a' = load st a'.
Proof. intros. unfold load. simpl. by rewrite lookup_insert_ne. Qed.

(** Updates of one part do not touch the others. *)
Lemma x_store a z st r : x (store a z st) r = x st r.
Proof. done. Qed.
Lemma x_sp z st r : x (set_sp z st) r = x st r.
Proof. done. Qed.
Lemma x_maintain m st r : x (maintain m st) r = x st r.
Proof. done. Qed.
Lemma x_sctlr z st r : x (set_sctlr z st) r = x st r.
Proof. done. Qed.
Lemma load_x r z st a : load (set_x r z st) a = load st a.
Proof. done. Qed.
Lemma load_sp z st a : load (set_sp z st) a = load st a.
Proof. done. Qed.

(** What one instruction does to a register, SP or a word, without unfolding the
    state it runs in. *)
Lemma x_step_stp r1 r2 off st r : x (step (Stp r1 r2 off) st) r = x st r.
Proof. done. Qed.
Lemma x_step_str r0 off st r : x (step (Str r0 off) st) r = x st r.
Proof. done. Qed.
Lemma x_step_sub imm st r : x (step (SubSp imm) st) r = x st r.
Proof. done. Qed.
Lemma x_step_add imm st r : x (step (AddSp imm) st) r = x st r.
Proof. done. Qed.
Lemma x_step_maintain m st r : x (step (Maintain m) st) r = x st r.
Proof. done. Qed.
Lemma x_step_msr r0 st r : x (step (MsrSctlrEl2 r0) st) r = x st r.
Proof. done. Qed.
Lemma x_step_ldp_1 r1 r2 off st : r1 <> r2 ->
  x (step (Ldp r1 r2 off) st) r1 = load st (asp st + off).
Proof. intros. simpl. rewrite x_set_ne by done. apply x_set_eq. Qed.
Lemma x_step_ldp_2 r1 r2 off st : x (step (Ldp r1 r2 off) st) r2 = load st (asp st + off + 8).
Proof. apply x_set_eq. Qed.
Lemma x_step_ldp_ne r1 r2 off st r : r <> r1 -> r <> r2 -> x (step (Ldp r1 r2 off) st) r = x st r.
Proof. intros. simpl. by rewrite !x_set_ne. Qed.
Lemma x_step_ldr_eq r off st : x (step (Ldr r off) st) r = load st (asp st + off).
Proof. apply x_set_eq. Qed.
Lemma x_step_ldr_ne r0 off st r : r <> r0 -> x (step (Ldr r0 off) st) r = x st r.
Proof. intros. by apply x_set_ne. Qed.
Lemma x_step_movreg_eq rd rn st : x (step (MovReg rd rn) st) rd = x st rn.
Proof. apply x_set_eq. Qed.
Lemma x_step_movreg_ne rd rn st r : r <> rd -> x (step (MovReg rd rn) st) r = x st r.
Proof. intros. by apply x_set_ne. Qed.
Lemma x_step_movsp_eq rd st : x (step (MovFromSp rd) st) rd = asp st.
Proof. apply x_set_eq. Qed.
Lemma x_step_movsp_ne rd st r : r <> rd -> x (step (MovFromSp rd) st) r = x st r.
Proof. intros. by apply x_set_ne. Qed.

Definition sp_change (i : instr) : Z :=
  match i with SubSp imm => - imm | AddSp imm => imm | _ => 0 end.
Definition calls (i : instr) : bool := match i with Bl _ _ => true | _ => false end.
Lemma asp_step i st : calls i = false -> asp (step i st) = asp st + sp_change i.
Proof. destruct i; simpl; try done; lia. Qed.
Lemma asp_set_x r z st : asp (set_x r z st) = asp st.
Proof. done. Qed.

Lemma load_step_stp_1 r1 r2 off st a : a = asp st + off -> load (step (Stp r1 r2 off) st) a = x st r1.
Proof. intros ->. simpl. rewrite load_store_ne by lia. apply load_store_eq. Qed.
Lemma load_step_stp_2 r1 r2 off st a :
  a = asp st + off + 8 -> load (step (Stp r1 r2 off) st) a = x st r2.
Proof. intros ->. apply load_store_eq. Qed.
Lemma load_step_stp_ne r1 r2 off st a :
  a <> asp st + off -> a <> asp st + off + 8 -> load (step (Stp r1 r2 off) st) a = load st a.
Proof. intros. simpl. by rewrite !load_store_ne. Qed.
Lemma load_step_str_eq r0 off st a : a = asp st + off -> load (step (Str r0 off) st) a = x st r0.
Proof. intros ->. apply load_store_eq. Qed.
Lemma load_step_str_ne r0 off st a :
  a <> asp st + off -> load (step (Str r0 off) st) a = load st a.
Proof. intros. by apply load_store_ne. Qed.
Lemma load_step_other i st a :
  match i with Stp _ _ _ | Str _ _ | Bl _ _ => False | _ => True end ->
  load (step i st) a = load st a.
Proof. by destruct i. Qed.

Create HintDb asm.
#[export] Hint Rewrite x_set_eq x_step_stp x_step_str x_step_sub x_step_add x_step_maintain
  x_step_msr load_x asp_set_x x_step_ldp_2 x_step_ldr_eq x_step_movreg_eq x_step_movsp_eq : asm.

(** Side conditions: addresses by their offset from the initial SP. *)
Ltac asm_side := rewrite ?asp_step by done; cbn [sp_change]; lia.

(** Evaluates registers and words of a state reached by instructions. *)
Ltac asm_simpl :=
  repeat first
    [ progress autorewrite with asm
    | rewrite x_set_ne by lia
    | rewrite x_step_ldp_1 by lia | rewrite x_step_ldp_ne by lia
    | rewrite x_step_ldr_ne by lia | rewrite x_step_movreg_ne by lia
    | rewrite x_step_movsp_ne by lia
    | rewrite load_step_other by exact I
    | rewrite load_step_stp_ne by asm_side | rewrite load_step_stp_1 by asm_side
    | rewrite load_step_stp_2 by asm_side
    | rewrite load_step_str_ne by asm_side | rewrite load_step_str_eq by asm_side
    | rewrite asp_step by done
    | progress cbn [sp_change] ].

(** A run of register clears. *)
Lemma exec_clear_x rs prog st :
  exists st', exec (((fun r => MovImm r 0) <$> rs) ++ prog) st = exec prog st' /\
    (forall r, x st' r = if bool_decide (r ∈ rs) then 0 else x st r) /\
    (forall r, v st' r = v st r) /\ asp st' = asp st /\ amem st' = amem st.
Proof.
  revert st. induction rs as [|r0 rs IH]; intros st.
  - exists st. split_and!; [done| |done..]. intros r. by rewrite bool_decide_eq_false_2 by set_solver.
  - destruct (IH (set_x r0 0 st)) as (st' & Hrun & Hx & Hv & Hsp & Hm). exists st'.
    split_and!; [done| |done..]. intros r. rewrite Hx.
    destruct (decide (r ∈ rs)).
    + by rewrite !bool_decide_eq_true_2 by set_solver.
    + rewrite (bool_decide_eq_false_2 (r ∈ rs)) by done. destruct (decide (r = r0)) as [->|Hne].
      * by rewrite bool_decide_eq_true_2, x_set_eq by set_solver.
      * by rewrite bool_decide_eq_false_2, x_set_ne by set_solver.
Qed.

Lemma exec_clear_v rs prog st :
  exists st', exec ((MoviZero <$> rs) ++ prog) st = exec prog st' /\
    (forall r, x st' r = x st r) /\
    (forall r, v st' r = if bool_decide (r ∈ rs) then 0 else v st r) /\
    asp st' = asp st /\ amem st' = amem st.
Proof.
  revert st. induction rs as [|r0 rs IH]; intros st.
  - exists st. split_and!; [done..| |done|done]. intros r. by rewrite bool_decide_eq_false_2 by set_solver.
  - destruct (IH (set_v r0 0 st)) as (st' & Hrun & Hx & Hv & Hsp & Hm). exists st'.
    split_and!; [done..| |done|done]. intros r. rewrite Hv. unfold v at 1. simpl.
    destruct (decide (r ∈ rs)).
    + by rewrite !bool_decide_eq_true_2 by set_solver.
    + rewrite (bool_decide_eq_false_2 (r ∈ rs)) by done. destruct (decide (r = r0)) as [->|Hne].
      * rewrite bool_decide_eq_true_2 by set_solver. by rewrite lookup_insert_eq.
      * rewrite bool_decide_eq_false_2 by set_solver. by rewrite lookup_insert_ne.
Qed.

Lemma eret_to_el1_shape :
  eret_to_el1 = ((fun r => MovImm r 0) <$> seq 4 27) ++ (MoviZero <$> seq 0 32) ++ [Eret].
Proof. reflexivity. Qed.

(** SCTLR_EL2 with M, C and I cleared. *)
Lemma disable_impl_testbit {SYS : ArmSysregs} {SYL : ArmSysregsLaws} z i :
  0 <= i -> Z.testbit (disable_mmu_and_caches_impl z) i =
    Z.testbit z i && negb (bool_decide (i = 0 \/ i = 2 \/ i = 12)).
Proof.
  intros Hi. unfold disable_mmu_and_caches_impl, flag_sub.
  destruct law_sctlr2 as (-> & -> & ->). rewrite !Z.ldiff_spec, !Z.pow2_bits_eqb by lia.
  destruct (Z.testbit z i); [|done]. cbn [andb].
  destruct (Z.eqb_spec 0 i), (Z.eqb_spec 2 i), (Z.eqb_spec 12 i); cbn [andb negb];
    first [by rewrite bool_decide_eq_true_2 by lia | by rewrite bool_decide_eq_false_2 by lia].
Qed.

Lemma asctlr_step i st :
  match i with MsrSctlrEl2 _ | Bl _ _ => False | _ => True end -> asctlr (step i st) = asctlr st.
Proof. by destruct i. Qed.
Lemma amaint_step i st :
  match i with MsrSctlrEl2 _ | Bl _ _ | Maintain _ => False | _ => True end ->
  amaint (step i st) = amaint st.
Proof. by destruct i. Qed.

(** The state after the implementation of [disable_mmu_and_caches] returned. *)
Definition after_impl (link : Z) (impl : astate -> astate) (st : astate) : astate :=
  impl (set_x 30 link (step (MovReg 28 30) (step (MovReg 27 29) st))).

(** What [disable_mmu_and_caches] does, given a conforming implementation. *)
Lemma disable_mmu_and_caches_spec link impl st {HA : Aapcs64 owns_nothing impl} :
  let '(st', e) := exec (disable_mmu_and_caches link impl) st in
  e = Returned (x st 30) /\ asctlr st' = x (after_impl link impl st) 0 /\
  amaint st' = amaint st ++ [TlbiAlle2is; DsbSy; WriteSctlrEl2; Isb; IcIallu; Isb] /\
  x st' 29 = x st 29 /\ asp st' = asp st /\
  forall r, (19 <= r <= 26)%nat -> x st' r = x st r.
Proof.
  set (st2 := after_impl link impl st).
  assert (Hrun : exec (disable_mmu_and_caches link impl) st =
    exec [Maintain TlbiAlle2is; Maintain DsbSy; MsrSctlrEl2 0; Maintain Isb; MovReg 29 27;
          MovReg 30 28; Maintain IcIallu; Maintain Isb; Ret_] st2) by reflexivity.
  rewrite Hrun. cbn [exec].
  assert (H27 : x st2 27 = x st 29).
  { unfold st2, after_impl. rewrite callee_saved by lia. by asm_simpl. }
  assert (H28 : x st2 28 = x st 30).
  { unfold st2, after_impl. rewrite callee_saved by lia. by asm_simpl. }
  split_and!.
  - f_equal. by asm_simpl.
  - done.
  - simpl. unfold st2, after_impl.
    destruct (callee_maint (set_x 30 link (step (MovReg 28 30) (step (MovReg 27 29) st)))) as [_ ->].
    simpl. by rewrite <- !app_assoc.
  - by asm_simpl.
  - asm_simpl. unfold st2, after_impl. rewrite callee_sp. asm_simpl. lia.
  - intros r Hr. asm_simpl. unfold st2, after_impl. rewrite callee_saved by lia. by asm_simpl.
Qed.

(** ** Properties *)

(** C31: no hypervisor data reaches the guest in a register: [eret_to_el1]
    returns to EL1 with x0-x3 as passed, x4-x30 and v0-v31 zero, and memory and
    SP untouched. *)
Theorem eret_to_el1_no_leak st :
  let '(st', e) := exec eret_to_el1 st in
  e = ExceptionReturn /\
  (forall r, (r < 4)%nat -> x st' r = x st r) /\
  (forall r, (4 <= r <= 30)%nat -> x st' r = 0) /\
  (forall r, (r <= 31)%nat -> v st' r = 0) /\
  asp st' = asp st /\ amem st' = amem st.
Proof.
  rewrite eret_to_el1_shape.
  destruct (exec_clear_x (seq 4 27) ((MoviZero <$> seq 0 32) ++ [Eret]) st)
    as (st1 & -> & Hx1 & Hv1 & Hs1 & Hm1).
  destruct (exec_clear_v (seq 0 32) [Eret] st1) as (st2 & -> & Hx2 & Hv2 & Hs2 & Hm2).
  simpl. split_and!; [done|..].
  - intros r Hr. rewrite Hx2, Hx1, bool_decide_eq_false_2; [done|]. rewrite elem_of_seq. lia.
  - intros r Hr. rewrite Hx2, Hx1, bool_decide_eq_true_2; [done|]. rewrite elem_of_seq. lia.
  - intros r Hr. rewrite Hv2, bool_decide_eq_true_2; [done|]. rewrite elem_of_seq. lia.
  - by rewrite Hs2.
  - by rewrite Hm2.
Qed.

(** The state in which [sync_lower] calls its handler. *)
Definition handler_entry (link : Z) (st : astate) : astate :=
  set_x 30 link (fst (exec (take 8 (sync_lower link id)) st)).


Lemma handler_entry_spec link st :
  let st1 := handler_entry link st in
  x st1 0 = x st 0 /\ x st1 1 = asp st - 96 /\ asp st1 = asp st - 96 /\ x st1 29 = x st 29 /\
  load st1 (asp st - 16) = x st 30 /\
  (forall i, (i < 10)%nat -> load st1 (asp st - 96 + 8 * Z.of_nat i) = x st (19 + i)) /\
  (forall a, asp st <= a -> load st1 a = load st a).
Proof.
  unfold handler_entry. cbn [take sync_lower exec fst]. cbv zeta. split_and!.
  - by asm_simpl.
  - asm_simpl. lia.
  - asm_simpl. lia.
  - by asm_simpl.
  - by asm_simpl.
  - intros i Hi. do 10 (destruct i as [|i]; [by asm_simpl|]). lia.
  - intros a Ha. by asm_simpl.
Qed.

(** The instructions behind the call. *)
Definition sync_lower_epilogue : list instr :=
  [Ldr 30 (8 * 10);
   Ldp 19 20 (8 * 0); Ldp 21 22 (8 * 2); Ldp 23 24 (8 * 4); Ldp 25 26 (8 * 6); Ldp 27 28 (8 * 8);
   AddSp (8 * 12);
   Ret_].

Lemma sync_lower_epilogue_spec st :
  let '(st', e) := exec sync_lower_epilogue st in
  e = Returned (load st (asp st + 80)) /\ asp st' = asp st + 96 /\ x st' 29 = x st 29 /\
  forall i, (i < 10)%nat -> x st' (19 + i) = load st (asp st + 8 * Z.of_nat i).
Proof.
  cbn [sync_lower_epilogue exec]. split_and!.
  - by asm_simpl.
  - asm_simpl. lia.
  - by asm_simpl.
  - intros i Hi. do 10 (destruct i as [|i]; [asm_simpl; f_equal; lia|]). lia.
Qed.

Lemma sync_lower_split link h st :
  exec (sync_lower link h) st = exec sync_lower_epilogue (h (handler_entry link st)).
Proof. reflexivity. Qed.

(** C30: the [sync_lower] wrapper gives its handler exactly the guest's x19-x28:
    the handler is entered with the volatile frame's pointer in x0 and, in x1,
    a pointer to ten words below the interrupted SP that hold x19-x28; when it
    returns, x19-x28 are what it left in those words, so its updates reach the
    guest, SP and x29 are restored, control goes back to the caller's return
    address, and the caller's memory was not written by the wrapper. *)
Theorem sync_lower_frame link h st {HA : Aapcs64 owns_frame h} :
  let st1 := handler_entry link st in
  let '(st', e) := exec (sync_lower link h) st in
  x st1 0 = x st 0 /\ x st1 1 = asp st - 96 /\ asp st1 = asp st - 96 /\
  (forall i, (i < 10)%nat -> load st1 (x st1 1 + 8 * Z.of_nat i) = x st (19 + i)) /\
  (forall a, asp st <= a -> load st1 a = load st a) /\
  e = Returned (x st 30) /\ asp st' = asp st /\ x st' 29 = x st 29 /\
  (forall i, (i < 10)%nat -> x st' (19 + i) = load (h st1) (x st1 1 + 8 * Z.of_nat i)).
Proof.
  intros st1. rewrite sync_lower_split. fold st1.
  pose proof (handler_entry_spec link st) as Hen. cbv zeta in Hen. fold st1 in Hen.
  destruct Hen as (H0 & H1 & Hsp & H29 & H30 & Hf & Hm).
  pose proof (sync_lower_epilogue_spec (h st1)) as He.
  destruct (exec sync_lower_epilogue (h st1)) as [st' e]. destruct He as (-> & Hsp' & H29' & Hx').
  rewrite callee_sp, Hsp in Hsp', Hx' |- *. rewrite H1. split_and!; try done; [|lia|by rewrite H29', callee_saved by lia].
  f_equal. rewrite <- H30. replace (asp st - 96 + 80) with (asp st - 16) by lia.
  apply callee_mem; [rewrite Hsp; lia|]. unfold owns_frame. rewrite H1.
  apply andb_false_iff. right. apply Z.ltb_ge. lia.
Qed.

(** A handler for the witness: it writes 42 to the first word of the frame. *)
Definition example_handler (st : astate) : astate := store (x st 1) 42 st.
#[export] Instance example_handler_aapcs : Aapcs64 owns_frame example_handler.
Proof.
  constructor; try done. intros st a _ Ho. apply load_store_ne. intros ->.
  unfold owns_frame in Ho. rewrite Z.leb_refl in Ho. apply Z.ltb_ge in Ho. lia.
Qed.
Definition example_astate : astate :=
  mkAstate (list_to_map ((fun r => (r, 100 + Z.of_nat r)) <$> seq 0 31)) ∅ 0x4700_8000 ∅ 0x30d0_1005 [].

Lemma sync_lower_frame_witness :
  let '(st', e) := exec (sync_lower 0 example_handler) example_astate in
  e = Returned 130 /\ x st' 19 = 42 /\ x st' 20 = 120.
Proof.
  pose proof (sync_lower_frame 0 example_handler example_astate) as H. cbv zeta in H.
  destruct (exec _ _) as [st' e]. destruct H as (_ & _ & _ & _ & _ & -> & _ & _ & Hx).
  split; [done|]. pose proof (Hx 0%nat ltac:(lia)) as H0. pose proof (Hx 1%nat ltac:(lia)) as H1.
  simpl plus in H0, H1. rewrite H0, H1. by vm_compute.
Defined.

(** Booting the payload at EL2: [run_payload_el2] turns the MMU and both
    caches off and nothing else in SCTLR_EL2, after a TLB invalidation and
    barrier and before instruction synchronisation and I-cache invalidation,
    and then branches to the entry point with the four arguments in x0-x3; it
    relies only on the call standard and on the value its Rust callee
    computes. *)
Theorem run_payload_el2_exact {SYS : ArmSysregs} {SYL : ArmSysregsLaws} link link' impl st
    {HA : Aapcs64 owns_nothing impl} :
  (forall st0, x (impl st0) 0 = disable_mmu_and_caches_impl (asctlr st0)) ->
  let '(st', e) := exec (run_payload_el2 link link' impl) st in
  e = Branched (x st 0) /\ x st' 0 = x st 1 /\ x st' 1 = x st 2 /\ x st' 2 = x st 3 /\
  x st' 3 = x st 4 /\ asp st' = asp st /\
  (forall i, 0 <= i -> Z.testbit (asctlr st') i =
    Z.testbit (asctlr st) i && negb (bool_decide (i = 0 \/ i = 2 \/ i = 12))) /\
  amaint st' = amaint st ++ [TlbiAlle2is; DsbSy; WriteSctlrEl2; Isb; IcIallu; Isb].
Proof.
  intros Himpl.
  set (st1 := set_x 30 link (step (MovReg 23 4) (step (MovReg 22 3) (step (MovReg 21 2)
    (step (MovReg 20 1) (step (MovReg 19 0) st)))))).
  pose proof (disable_mmu_and_caches_spec link' impl st1) as H.
  assert (Hrun : exec (run_payload_el2 link link' impl) st =
    exec [MovReg 0 20; MovReg 1 21; MovReg 2 22; MovReg 3 23; Br 19]
      (fst (exec (disable_mmu_and_caches link' impl) st1))) by reflexivity.
  rewrite Hrun. destruct (exec (disable_mmu_and_caches link' impl) st1) as [st2 e2]. cbn [fst exec].
  destruct H as (_ & Hsc & Hmt & _ & Hsp & Hx).
  split_and!.
  - f_equal. asm_simpl. rewrite Hx by lia. unfold st1. by asm_simpl.
  - asm_simpl. rewrite Hx by lia. unfold st1. by asm_simpl.
  - asm_simpl. rewrite Hx by lia. unfold st1. by asm_simpl.
  - asm_simpl. rewrite Hx by lia. unfold st1. by asm_simpl.
  - asm_simpl. rewrite Hx by lia. unfold st1. by asm_simpl.
  - asm_simpl. rewrite Hsp. unfold st1. asm_simpl. lia.
  - intros i Hi. rewrite !asctlr_step, Hsc by done. unfold after_impl. rewrite Himpl.
    by apply disable_impl_testbit.
  - rewrite !amaint_step, Hmt by done. done.
Qed.

Section PayloadWitness.
Import ArmArch.

Definition example_impl (st : astate) : astate := set_x 0 (disable_mmu_and_caches_impl (asctlr st)) st.
#[local] Instance example_impl_aapcs : Aapcs64 owns_nothing example_impl.
Proof. constructor; try done. intros st r Hr. apply x_set_ne. lia. Qed.

Lemma run_payload_el2_exact_witness :
  let '(st', e) := exec (run_payload_el2 0 0 example_impl) example_astate in
  e = Branched 100 /\ x st' 0 = 101 /\ x st' 3 = 104 /\ Z.testbit (asctlr st') 0 = false.
Proof.
  pose proof (run_payload_el2_exact 0 0 example_impl example_astate
    ltac:(intros; apply x_set_eq)) as H.
  destruct (exec _ _) as [st' e]. destruct H as (-> & -> & _ & _ & -> & _ & Hb & _).
  split_and!; [done..|]. by rewrite Hb.
Defined.
End PayloadWitness.
