(* ===== verification/HvcDebug.v ===== *)
(** * Printing call results

    [impl Debug for HvcResponse] of src/src/hvc_response.rs, over std's
    [debug_tuple], and the proof that what is printed determines the registers. *)

From Stdlib Require Import ZArith Lia.
From stdpp Require Import base tactics list strings numbers.
From S2P Require Import Prelude Str Exceptions HvcResponse.

#[local] Open Scope Z_scope.

Definition COMMA : Z := 44.
Definition SPACE : Z := 32.

(** ** [core::fmt::DebugTuple] *)

(** One field: separated by a comma and a blank, or with the alternate flag on
    a line of its own, indented and closed by a comma. *)
Fixpoint debug_fields (alternate : bool) (first : bool) (fields : list str) : str :=
  match fields with
  | [] => []
  | field :: fields =>
      (if alternate
       then (if first then lit "(" ++ [LF] else []) ++ lit "    " ++ field ++ [COMMA; LF]
       else (if first then lit "(" else [COMMA; SPACE]) ++ field)
      ++ debug_fields alternate false fields
  end.

(** [f.debug_tuple(name)], the fields, [finish()]: nothing is closed when there
    were no fields. *)
Definition debug_tuple (alternate : bool) (name : str) (fields : list str) : str :=
  name ++ debug_fields alternate true fields
  ++ match fields with [] => [] | _ => lit ")" end.

Section Debug.
Context {SA : SmcccArch}.

Definition response_regs (self : HvcResponse) : list u64 :=
  match self with
  | Success regs => regs
  | SuccessLarge regs => regs
  end.

(** [fmt]: the field is formatted as [0x{reg:x}] whatever the flags of [f]. *)
Definition fmt (alternate : bool) (self : HvcResponse) : str :=
  let regs := response_regs self in
  debug_tuple alternate (lit "HvcResponse") ((fun reg => lit "0x" ++ digits 16 reg) <$> regs).
End Debug.

(** ** The text determines the registers *)

(** The characters that end a field. *)
Definition ends_field (c : Z) : Prop := c = COMMA \/ c = 41.
Definition plain (field : str) : Prop := Forall (fun c => ~ ends_field c) field.

Lemma app_stop_inj (P : Z -> Prop) a b x y s t :
  Forall (fun c => ~ P c) a -> Forall (fun c => ~ P c) b -> P x -> P y ->
  a ++ x :: s = b ++ y :: t -> a = b /\ x = y /\ s = t.
Proof.
  intros Ha. revert b. induction Ha as [|c a Hc _ IH]; intros b Hb Hx Hy.
  - destruct Hb as [|d b Hd _]; simpl; [by intros [= -> ->]|]. by intros [= -> _].
  - destruct Hb as [|d b Hd Hb]; simpl; [by intros [= -> _]|].
    intros [= -> H]. by destruct (IH b Hb Hx Hy H) as (-> & -> & ->).
Qed.

(** What follows a field starts with one of them. *)
Lemma debug_rest fields :
  exists x s, debug_fields false false fields ++ lit ")" = x :: s /\ ends_field x.
Proof. destruct fields; simpl; eexists _, _; (split; [reflexivity|]); [by right|by left]. Qed.

Lemma debug_fields_inj alternate l1 l2 :
  Forall plain l1 -> Forall plain l2 ->
  debug_fields alternate false l1 ++ lit ")" = debug_fields alternate false l2 ++ lit ")" -> l1 = l2.
Proof.
  intros H1. revert l2. induction H1 as [|f1 l1 Hf1 _ IH]; intros l2 H2.
  { destruct H2 as [|f2 l2 _ _]; [done|]. by destruct alternate. }
  destruct H2 as [|f2 l2 Hf2 H2]; [by destruct alternate|].
  destruct alternate; simpl; rewrite <- ?app_assoc; intros [= H].
  - destruct (app_stop_inj ends_field f1 f2 COMMA COMMA _ _ Hf1 Hf2 (or_introl eq_refl)
      (or_introl eq_refl) H) as (-> & _ & [= H']). f_equal. by apply IH.
  - destruct (debug_rest l1) as (x & s & E1 & Hx), (debug_rest l2) as (y & t & E2 & Hy).
    simpl in E1, E2. rewrite E1, E2 in H.
    destruct (app_stop_inj ends_field f1 f2 x y s t Hf1 Hf2 Hx Hy H) as (-> & -> & ->).
    f_equal. apply IH; [done|]. simpl. by rewrite E1, E2.
Qed.

Lemma debug_tuple_inj alternate name l1 l2 :
  Forall plain l1 -> Forall plain l2 ->
  debug_tuple alternate name l1 = debug_tuple alternate name l2 -> l1 = l2.
Proof.
  intros H1 H2 H%app_inv_head. destruct H1 as [|f1 l1 Hf1 H1].
  { destruct H2; [done|]. by destruct alternate. }
  destruct H2 as [|f2 l2 Hf2 H2]; [by destruct alternate|].
  apply (debug_fields_inj alternate); [by constructor..|].
  destruct alternate; simpl in *; by injection H as ->.
Qed.

Lemma hex_field_plain n : is_u64 n -> plain (lit "0x" ++ digits 16 n).
Proof.
  intros [Hn _]. unfold plain, ends_field, COMMA. apply Forall_app. split; [by apply (bool_decide_unpack _); vm_compute|].
  apply list.Forall_forall. intros c Hc. apply digits_chars in Hc; lia.
Qed.

Lemma digits_inj a b : is_u64 a -> is_u64 b -> digits 16 a = digits 16 b -> a = b.
Proof.
  intros Ha Hb H. pose proof (parse_digits_render 16 a ltac:(lia) Ha) as E. rewrite H in E.
  rewrite (parse_digits_render 16 b ltac:(lia) Hb) in E. by injection E.
Qed.

(** The debug text is faithful: in both the plain and the alternate form, two
    responses that print alike hold the same registers. *)
Theorem hvc_debug_faithful {SA : SmcccArch} alternate r1 r2 :
  Forall is_u64 (response_regs r1) -> Forall is_u64 (response_regs r2) ->
  fmt alternate r1 = fmt alternate r2 -> response_regs r1 = response_regs r2.
Proof.
  unfold fmt. generalize (response_regs r1) as l1, (response_regs r2) as l2. intros l1 l2 H1 H2 H.
  assert (Hp : forall l, Forall is_u64 l -> Forall plain ((fun reg => lit "0x" ++ digits 16 reg) <$> l))
    by (intros l Hl; apply list.Forall_fmap; eapply List.Forall_impl; [|exact Hl];
        intros n Hn; by apply hex_field_plain).
  apply debug_tuple_inj in H; [|by apply Hp..]. clear Hp. revert l2 H2 H.
  induction H1 as [|a l1 Ha _ IH]; intros l2 H2; destruct H2 as [|b l2 Hb Hl]; try done.
  cbn [fmap list_fmap]. intros [= Hd Hr]. f_equal; [by apply digits_inj|by apply IH].
Qed.

(** The text of an HVC answer. *)
Lemma fmt_example {SA : SmcccArch} :
  fmt false (response_from_u64 0x1234) = lit "HvcResponse(0x1234, 0x0, 0x0, 0x0)".
Proof. by vm_compute. Qed.
