(* ===== verification/PlatformConfig.v ===== *)
(** * Platform configuration files

    Model of src/build_support/platform_config.rs: the parser of
    platforms/<name>.conf.  [platform_config] reads the file and turns an error
    into a panic of the build script; the file's contents are its argument
    here. *)

From Stdlib Require Import ZArith Lia.
From stdpp Require Import base tactics list gmap strings numbers.
From S2P Require Import Prelude Str.

#[local] Open Scope Z_scope.

(** The three errors, and their text. *)
Inductive config_error : Type := ExpectedKeyValue | EmptyKey | InvalidInteger.

Definition error_text (e : config_error) : str :=
  match e with
  | ExpectedKeyValue => lit "expected key=value"
  | EmptyKey => lit "empty key"
  | InvalidInteger => lit "invalid integer value"
  end.
Definition error_message (line_number : nat) (e : config_error) : str :=
  lit "line " ++ fmt_dec (Z.of_nat (line_number + 1)) ++ lit ": " ++ error_text e.

Definition parse_int (value : str) : option u64 :=
  let value := remove_char UNDERSCORE value in
  match strip_prefix (lit "0x") value with
  | Some hex => from_str_radix 16 hex
  | None => from_str_radix 10 value
  end.

(** The body of the loop: [None] for a line to skip. *)
Definition config_line (line : str) : result config_error (option (str * u64)) :=
  let line := trim (split_first HASH line) in
  match line with
  | [] => Ok None
  | _ =>
      match split_once EQUALS line with
      | None => Err ExpectedKeyValue
      | Some (key, value) =>
          let key := trim key in
          match key with
          | [] => Err EmptyKey
          | _ =>
              match parse_int (trim value) with
              | None => Err InvalidInteger
              | Some value => Ok (Some (key, value))
              end
          end
      end
  end.

(** [for (line_number, line) in source.lines().enumerate()]. *)
Fixpoint parse_lines (line_number : nat) (config : gmap (list Z) Z) (ls : list str) :
    result str (gmap (list Z) Z) :=
  match ls with
  | [] => Ok config
  | line :: ls =>
      match config_line line with
      | Err e => Err (error_message line_number e)
      | Ok None => parse_lines (S line_number) config ls
      | Ok (Some (key, value)) => parse_lines (S line_number) (<[key := value]> config) ls
      end
  end.

Definition parse_platform_config (source : str) : result str (gmap (list Z) Z) :=
  parse_lines 0 ∅ (lines source).

Definition platform_config (source : result str str) : outcome (gmap (list Z) Z) :=
  match source with
  | Err e => Panic "Failed to read"
  | Ok source =>
      match parse_platform_config source with
      | Ok config => Ret config
      | Err e => Panic "Failed to parse"
      end
  end.

(** ** Lemmas *)

(** The entries of the lines, in order. *)
Definition line_entry (line : str) : option (str * u64) :=
  match config_line line with Ok o => o | Err _ => None end.

Lemma parse_lines_spec n config ls :
  match parse_lines n config ls with
  | Ok m => (forall i line, ls !! i = Some line -> exists o, config_line line = Ok o) /\
      m = list_to_map (reverse (omap line_entry ls)) ∪ config
  | Err msg => exists i line e, ls !! i = Some line /\ config_line line = Err e /\
      msg = error_message (n + i) e /\
      forall j l, (j < i)%nat -> ls !! j = Some l -> exists o, config_line l = Ok o
  end.
Proof.
  revert n config. induction ls as [|line ls IH]; intros n config; simpl.
  { split; [done|]. by rewrite map_empty_union. }
  destruct (config_line line) as [o|e] eqn:E.
  2: { exists 0%nat, line, e. split_and!; [done..|by rewrite Nat.add_0_r|lia]. }
  assert (Hgo : forall config', match parse_lines (S n) config' ls with
    | Ok m => (forall i line', (line :: ls) !! i = Some line' -> exists o, config_line line' = Ok o) /\
        m = list_to_map (reverse (omap line_entry ls)) ∪ config'
    | Err msg => exists i line' e, (line :: ls) !! i = Some line' /\ config_line line' = Err e /\
        msg = error_message (n + i) e /\
        forall j l, (j < i)%nat -> (line :: ls) !! j = Some l -> exists o, config_line l = Ok o
    end).
  { intros config'. specialize (IH (S n) config'). destruct (parse_lines (S n) config' ls) as [m|msg].
    - destruct IH as [H1 H2]. split; [|done]. intros [|i] l Hl; [naive_solver|by apply (H1 i)].
    - destruct IH as (i & l & e & H1 & H2 & H3 & H4). exists (S i), l, e.
      split_and!; [done..|by rewrite H3; f_equal; lia|].
      intros [|j] l' Hj Hl'; [naive_solver|]. apply (H4 j); [lia|done]. }
  destruct o as [[k w]|].
  - specialize (Hgo (<[k := w]> config)). destruct (parse_lines _ _ _) as [m|msg]; [|done].
    destruct Hgo as [H1 ->]. split; [done|]. change (line_entry line) with
      (match config_line line with Ok o => o | Err _ => None end). rewrite E.
    rewrite reverse_cons, list_to_map_app, <- map_union_assoc. f_equal. simpl.
    by rewrite insert_empty, <- insert_union_singleton_l.
  - specialize (Hgo config). destruct (parse_lines _ _ _) as [m|msg]; [|done].
    destruct Hgo as [H1 ->]. split; [done|]. change (line_entry line) with
      (match config_line line with Ok o => o | Err _ => None end). by rewrite E.
Qed.

Lemma parse_int_range s n : parse_int s = Some n -> is_u64 n.
Proof.
  unfold parse_int. case_match; apply from_str_radix_range; lia.
Qed.

Lemma remove_char_id c s : c ∉ s -> remove_char c s = s.
Proof.
  intros Hc. unfold remove_char. induction s as [|d s IH]; [done|].
  rewrite filter_cons_True, IH by set_solver. done.
Qed.

Lemma parse_int_hex s n :
  is_u64 n -> remove_char UNDERSCORE s = fmt_hex n -> parse_int s = Some n.
Proof.
  intros Hn Hs. unfold parse_int. rewrite Hs. unfold fmt_hex. simpl.
  apply from_str_radix_render; [lia|done].
Qed.

Lemma parse_int_dec s n :
  is_u64 n -> remove_char UNDERSCORE s = fmt_dec n -> parse_int s = Some n.
Proof.
  intros Hn Hs. unfold parse_int. rewrite Hs.
  assert (Hp : strip_prefix (lit "0x") (fmt_dec n) = None).
  { destruct (fmt_dec n) as [|a [|b s']] eqn:E; [by destruct (digits_ne 10 n)|..]; cbn [lit strip_prefix].
    - by destruct (_ =? a).
    - assert (Hb : b ∈ fmt_dec n) by (rewrite E; right; left).
      apply (digits_chars 64 10 n) in Hb; [|lia|apply Hn].
      destruct (_ =? a); [|done]. rewrite (proj2 (Z.eqb_neq _ b)); [done|]. intros <-.
      by destruct Hb as [[_ H]|[_ H]]; apply H. }
  rewrite Hp. apply from_str_radix_render; [lia|done].
Qed.

(** ** Rendering a configuration *)

Definition render_entry (e : str * u64) : str := e.1 ++ [EQUALS] ++ fmt_hex e.2 ++ [LF].
Definition render (es : list (str * u64)) : str := concat (render_entry <$> es).

(** A key the format can express: not empty, no separator in it, no white
    space at its ends. *)
Definition key_ok (k : str) : Prop :=
  k <> [] /\ EQUALS ∉ k /\ HASH ∉ k /\ LF ∉ k /\
  (forall c, hd_error k = Some c -> is_whitespace c = false) /\
  (forall c, list.last k = Some c -> is_whitespace c = false).

Lemma trim_start_id s :
  (forall c, hd_error s = Some c -> is_whitespace c = false) -> trim_start s = s.
Proof. destruct s as [|c s]; [done|]. intros H. simpl. by rewrite (H c). Qed.

Lemma trim_id s :
  (forall c, hd_error s = Some c -> is_whitespace c = false) ->
  (forall c, list.last s = Some c -> is_whitespace c = false) -> trim s = s.
Proof.
  intros Hh Hl. unfold trim, trim_end. rewrite (trim_start_id s) by done.
  rewrite trim_start_id; [by rewrite reverse_involutive|]. intros c Hc. apply Hl.
  by rewrite <- head_reverse.
Qed.

Lemma split_once_first c a b : c ∉ a -> split_once c (a ++ c :: b) = Some (a, b).
Proof.
  intros Ha. induction a as [|d a IH]; simpl.
  - by rewrite Z.eqb_refl.
  - rewrite (proj2 (Z.eqb_neq d c)) by set_solver. by rewrite IH by set_solver.
Qed.

Lemma split_once_none c s : c ∉ s -> split_once c s = None.
Proof.
  intros Hs. induction s as [|d s IH]; simpl; [done|].
  rewrite (proj2 (Z.eqb_neq d c)) by set_solver. by rewrite IH by set_solver.
Qed.

Lemma lines_from_line cur l s :
  LF ∉ l -> lines_from cur (l ++ LF :: s) = strip_cr (reverse cur ++ l) :: lines_from [] s.
Proof.
  revert cur. induction l as [|c l IH]; intros cur Hl; simpl.
  - by rewrite app_nil_r.
  - rewrite (proj2 (Z.eqb_neq c LF)) by set_solver. rewrite IH by set_solver.
    by rewrite reverse_cons, <- app_assoc.
Qed.

(** The characters of a rendered number: digits, a to f, and x. *)
Lemma fmt_hex_chars n c : 0 <= n -> c ∈ fmt_hex n -> 48 <= c <= 57 \/ 97 <= c <= 102 \/ c = 120.
Proof.
  intros Hn Hc. unfold fmt_hex in Hc. apply elem_of_app in Hc as [Hc|Hc].
  - apply list_elem_of_In in Hc. vm_compute in Hc. lia.
  - apply (digits_chars 64 16 n) in Hc; lia.
Qed.

Lemma digit_char_plain c :
  48 <= c <= 57 \/ 97 <= c <= 102 \/ c = 120 ->
  is_whitespace c = false /\ c <> LF /\ c <> CR /\ c <> HASH /\ c <> EQUALS /\ c <> UNDERSCORE.
Proof.
  intros Hc. unfold LF, CR, HASH, EQUALS, UNDERSCORE. split; [|lia].
  unfold is_whitespace.
  repeat match goal with
  | |- context [?a <=? ?b] => destruct (Z.leb_spec a b); try lia
  | |- context [?a =? ?b] => destruct (Z.eqb_spec a b); try lia
  end; done.
Qed.

Lemma fmt_hex_plain n c : 0 <= n -> c ∈ fmt_hex n ->
  is_whitespace c = false /\ c <> LF /\ c <> CR /\ c <> HASH /\ c <> EQUALS /\ c <> UNDERSCORE.
Proof. intros Hn Hc. by apply digit_char_plain, (fmt_hex_chars n). Qed.

Lemma head_elem_of {A} (l : list A) a : hd_error l = Some a -> a ∈ l.
Proof. destruct l; simpl; [done|]. intros [= ->]. left. Qed.

Lemma fmt_hex_trim n : 0 <= n -> trim (fmt_hex n) = fmt_hex n.
Proof.
  intros Hn. apply trim_id; intros c Hc; apply (fmt_hex_plain n c Hn).
  - by apply head_elem_of.
  - by apply last_Some_elem_of.
Qed.

(** One rendered line is parsed back. *)
Lemma config_line_render k n :
  key_ok k -> is_u64 n -> config_line (k ++ [EQUALS] ++ fmt_hex n) = Ok (Some (k, n)).
Proof.
  intros (Hne & Heq & Hha & Hlf & Hh & Hl) Hn. unfold config_line.
  assert (Hn0 : 0 <= n) by apply Hn.
  assert (Hfirst : split_first HASH (k ++ [EQUALS] ++ fmt_hex n) = k ++ [EQUALS] ++ fmt_hex n).
  { unfold split_first. rewrite split_once_none; [done|]. rewrite !elem_of_app, list_elem_of_singleton.
    intros [?|[?|Hc]]; [done..|]. by apply (fmt_hex_plain n _ Hn0) in Hc as (_ & _ & _ & ? & _). }
  rewrite Hfirst, trim_id.
  - assert (Hso : split_once EQUALS (k ++ [EQUALS] ++ fmt_hex n) = Some (k, fmt_hex n))
      by by apply split_once_first.
    destruct k as [|c k]; [done|]. cbn [app] in Hso |- *. rewrite Hso.
    rewrite (trim_id (c :: k)), fmt_hex_trim by done.
    rewrite (parse_int_hex _ n Hn); [done|]. apply remove_char_id. intros Hc.
    by apply (fmt_hex_plain n _ Hn0) in Hc as (_ & _ & _ & _ & _ & ?).
  - destruct k as [|c k]; [done|]. exact Hh.
  - intros c. rewrite !app_assoc, last_app.
    destruct (list.last (fmt_hex n)) as [c'|] eqn:E.
    + intros [= <-]. by apply (fmt_hex_plain n c' Hn0), last_Some_elem_of.
    + apply last_None in E. unfold fmt_hex in E. by simpl in E.
Qed.

Lemma strip_cr_id s c : list.last s = Some c -> c <> CR -> strip_cr s = s.
Proof.
  intros Hl Hc. unfold strip_cr. rewrite <- head_reverse in Hl.
  destruct (reverse s) as [|d r]; [done|]. simpl in Hl. injection Hl as ->.
  by rewrite (proj2 (Z.eqb_neq c CR)).
Qed.

Lemma render_lines es :
  Forall (fun e => key_ok e.1 /\ is_u64 e.2) es ->
  lines (render es) = (fun e => e.1 ++ [EQUALS] ++ fmt_hex e.2) <$> es.
Proof.
  unfold lines, render. induction 1 as [|[k n] es [Hk Hn] _ IH]; [done|]. simpl in Hk, Hn.
  assert (Hn0 : 0 <= n) by apply Hn.
  rewrite fmap_cons. cbn [concat]. unfold render_entry at 1. cbn [fst snd].
  replace ((k ++ [EQUALS] ++ fmt_hex n ++ [LF]) ++ concat (render_entry <$> es))
    with ((k ++ [EQUALS] ++ fmt_hex n) ++ LF :: concat (render_entry <$> es))
    by (by rewrite <- !app_assoc).
  rewrite lines_from_line.
  - rewrite IH. rewrite fmap_cons. f_equal. cbn [fst snd]. rewrite reverse_nil, app_nil_l.
    destruct (list.last (fmt_hex n)) as [c|] eqn:E.
    + apply (strip_cr_id _ c); [by rewrite !app_assoc, last_app, E|].
      by apply (fmt_hex_plain n c Hn0), last_Some_elem_of.
    + apply last_None in E. unfold fmt_hex in E. by simpl in E.
  - destruct Hk as (_ & _ & _ & Hlf & _). rewrite !elem_of_app, list_elem_of_singleton.
    intros [?|[?|Hc]]; [done..|]. by apply (fmt_hex_plain n _ Hn0) in Hc as (_ & ? & _).
Qed.

Lemma omap_render es :
  Forall (fun e => key_ok e.1 /\ is_u64 e.2) es ->
  omap line_entry ((fun e => e.1 ++ [EQUALS] ++ fmt_hex e.2) <$> es) = es.
Proof.
  induction 1 as [|[k n] es [Hk Hn] _ IH]; [done|]. rewrite fmap_cons. cbn [fst snd] in *.
  cbn -[line_entry fmt_hex app]. unfold line_entry at 1.
  rewrite config_line_render by done. by f_equal.
Qed.

(** ** The format

    A grammar of the configuration files, independent of the parser. *)

Definition blank (s : str) : Prop := forall c, c ∈ s -> is_whitespace c = true.

(** [s] is [core] with white space around it. *)
Definition padded (s core : str) : Prop :=
  (forall c, hd_error core = Some c -> is_whitespace c = false) /\
  (forall c, list.last core = Some c -> is_whitespace c = false) /\
  exists l r, s = l ++ core ++ r /\ blank l /\ blank r.

(** A line without its comment, which starts at the first hash. *)
Definition uncommented (line body : str) : Prop :=
  HASH ∉ body /\ (line = body \/ exists comment, line = body ++ HASH :: comment).

(** 0-9, a-z and A-Z, as far as the radix goes. *)
Definition digit (radix c d : Z) : Prop :=
  0 <= d < radix /\
  (d < 10 /\ c = 48 + d \/ 10 <= d < 36 /\ (c = 97 + (d - 10) \/ c = 65 + (d - 10))).

Inductive numeral (radix : Z) : str -> Z -> Prop :=
| numeral_one c d : digit radix c d -> numeral radix [c] d
| numeral_more s n c d : numeral radix s n -> digit radix c d ->
    numeral radix (s ++ [c]) (n * radix + d).

Inductive without_underscores : str -> str -> Prop :=
| without_nil : without_underscores [] []
| without_skip s t : without_underscores s t -> without_underscores (UNDERSCORE :: s) t
| without_keep c s t : c <> UNDERSCORE -> without_underscores s t -> without_underscores (c :: s) (c :: t).

(** Decimal, or hexadecimal after 0x; a plus sign may precede the digits and
    underscores may stand anywhere. *)
Definition integer_text (s : str) (n : Z) : Prop :=
  n < 2 ^ 64 /\ exists t, without_underscores s t /\
  exists radix sign digits, t = (if radix =? 16 then lit "0x" else []) ++ sign ++ digits /\
    (radix = 10 \/ radix = 16) /\ (sign = [] \/ sign = lit "+") /\ numeral radix digits n.

(** What a line means: nothing, an entry, or what is wrong with it. *)
Inductive line_means (line : str) : result str (option (str * u64)) -> Prop :=
| means_nothing body :
    uncommented line body -> blank body -> line_means line (Ok None)
| means_entry k v key text n :
    uncommented line (k ++ lit "=" ++ v) -> EQUALS ∉ k ->
    padded k key -> key <> [] -> padded v text -> integer_text text n ->
    line_means line (Ok (Some (key, n)))
| means_no_equals body :
    uncommented line body -> ~ blank body -> EQUALS ∉ body ->
    line_means line (Err (lit "expected key=value"))
| means_no_key k v :
    uncommented line (k ++ lit "=" ++ v) -> blank k -> line_means line (Err (lit "empty key"))
| means_no_integer k v text :
    uncommented line (k ++ lit "=" ++ v) -> EQUALS ∉ k -> ~ blank k ->
    padded v text -> (forall n, ~ integer_text text n) ->
    line_means line (Err (lit "invalid integer value")).

(** *** Comments and white space *)

Lemma split_once_Some c s a b : split_once c s = Some (a, b) <-> s = a ++ c :: b /\ c ∉ a.
Proof.
  split; [|intros [-> Ha]; by apply split_once_first].
  revert a b. induction s as [|d s IH]; intros a b; simpl; [done|].
  destruct (Z.eqb_spec d c) as [->|Hne].
  - intros [= <- <-]. split; [done|]. by apply not_elem_of_nil.
  - destruct (split_once c s) as [[a' b']|]; [|done]. intros [= <- <-].
    destruct (IH a' b' eq_refl) as [-> Ha]. split; [done|]. set_solver.
Qed.

Lemma split_once_None c s : split_once c s = None <-> c ∉ s.
Proof.
  split; [|apply split_once_none]. induction s as [|d s IH]; simpl; [set_solver|].
  destruct (Z.eqb_spec d c); [done|]. destruct (split_once c s) as [[]|]; [done|]. set_solver.
Qed.

Lemma uncommented_split line body : uncommented line body <-> split_first HASH line = body.
Proof.
  unfold uncommented, split_first. split.
  - intros [Hn [->|[t ->]]]; [by rewrite split_once_none|by rewrite split_once_first].
  - destruct (split_once HASH line) as [[a b]|] eqn:E; intros <-.
    + apply split_once_Some in E as [-> ?]. split; [done|]. right. by exists b.
    + apply split_once_None in E. split; [done|by left].
Qed.

Lemma trim_start_blank l s : blank l -> trim_start (l ++ s) = trim_start s.
Proof.
  intros Hl. induction l as [|c l IH]; [done|]. cbn [app trim_start]. rewrite (Hl c) by left.
  apply IH. intros d Hd. apply Hl. by right.
Qed.

Lemma trim_start_split s : exists l, s = l ++ trim_start s /\ blank l /\
  forall c, hd_error (trim_start s) = Some c -> is_whitespace c = false.
Proof.
  induction s as [|c s (l & Hs & Hl & Hh)].
  - exists []. split_and!; [done|intros c Hc; by apply elem_of_nil in Hc|done].
  - simpl. destruct (is_whitespace c) eqn:E.
    + exists (c :: l). split; [by cbn; f_equal|]. split; [|done].
      intros d [->|Hd]%elem_of_cons; [done|by apply Hl].
    + exists []. split; [done|]. split; [intros d Hd; by apply elem_of_nil in Hd|].
      by intros d [= <-].
Qed.

Lemma blank_reverse s : blank (reverse s) <-> blank s.
Proof. unfold blank. by setoid_rewrite elem_of_reverse. Qed.

Lemma trim_padded s : padded s (trim s).
Proof.
  unfold padded, trim, trim_end.
  destruct (trim_start_split s) as (l & Hs & Hl & Hh).
  destruct (trim_start_split (reverse (trim_start s))) as (r & Hr & Hb & Hlast).
  set (core := trim_start (reverse (trim_start s))) in *.
  assert (Hts : trim_start s = reverse core ++ reverse r).
  { by rewrite <- (reverse_involutive (trim_start s)), Hr, reverse_app. }
  split_and!.
  - intros c Hc. apply Hh. rewrite Hts. by destruct (reverse core).
  - intros c Hc. apply Hlast. rewrite <- (reverse_involutive core), head_reverse. done.
  - exists l, (reverse r). rewrite <- Hts, blank_reverse. done.
Qed.

Lemma trim_end_blank s r : blank r -> trim_end (s ++ r) = trim_end s.
Proof. intros Hr. unfold trim_end. by rewrite reverse_app, trim_start_blank by by apply blank_reverse. Qed.

Lemma padded_trim s core : padded s core -> trim s = core.
Proof.
  intros (Hh & Hl & l & r & -> & Hbl & Hbr). unfold trim. rewrite trim_start_blank by done.
  destruct core as [|c core].
  - cbn [app]. pose proof (trim_start_blank r [] Hbr) as Hr. rewrite app_nil_r in Hr. by rewrite Hr.
  - rewrite (trim_start_id ((c :: core) ++ r)) by exact Hh. rewrite trim_end_blank by done.
    unfold trim_end. rewrite trim_start_id; [by rewrite reverse_involutive|].
    intros d Hd. apply Hl. by rewrite <- head_reverse.
Qed.

Lemma padded_iff s core : padded s core <-> trim s = core.
Proof. split; [apply padded_trim|intros <-; apply trim_padded]. Qed.

Lemma blank_iff s : blank s <-> trim s = [].
Proof.
  rewrite <- padded_iff. split.
  - intros Hb. split_and!; [done..|]. exists s, []. split_and!; [by rewrite !app_nil_r|done|].
    intros c Hc. by apply elem_of_nil in Hc.
  - intros (_ & _ & l & r & -> & Hl & Hr) c Hc. set_solver.
Qed.

(** The equals sign is not white space: trimming the line trims the outer side
    of its two parts. *)
Lemma trim_start_equals k v : trim_start (k ++ EQUALS :: v) = trim_start k ++ EQUALS :: v.
Proof. induction k as [|c k IH]; [done|]. simpl. by destruct (is_whitespace c). Qed.

Lemma trim_equals k v : trim (k ++ EQUALS :: v) = trim_start k ++ EQUALS :: trim_end v.
Proof.
  unfold trim. rewrite trim_start_equals. unfold trim_end.
  rewrite reverse_app, reverse_cons, <- app_assoc. cbn [app].
  rewrite trim_start_equals, reverse_app, reverse_cons, reverse_involutive, <- app_assoc. done.
Qed.

Lemma trim_trim_start k : trim (trim_start k) = trim k.
Proof.
  unfold trim. f_equal. destruct (trim_start_split k) as (_ & _ & _ & Hh). by apply trim_start_id.
Qed.

Lemma trim_trim_end v : trim (trim_end v) = trim v.
Proof.
  destruct (trim_start_split (reverse v)) as (r & Hr & Hb & _).
  assert (Hv : v = trim_end v ++ reverse r).
  { unfold trim_end. rewrite <- reverse_app, <- Hr. by rewrite reverse_involutive. }
  destruct (trim_padded (trim_end v)) as (Hh & Hl & l & r' & He & Hbl & Hbr).
  symmetry. apply padded_trim. split_and!; [done..|]. exists l, (r' ++ reverse r).
  split_and!; [by rewrite Hv at 1; rewrite He at 1; rewrite <- !app_assoc|done|].
  intros c [Hc|Hc]%elem_of_app; [by apply Hbr|]. by apply Hb, elem_of_reverse.
Qed.

Lemma trim_start_subset c s : c ∈ trim_start s -> c ∈ s.
Proof. destruct (trim_start_split s) as (l & Hs & _ & _). rewrite Hs at 2. set_solver. Qed.

Lemma trim_subset c s : c ∈ trim s -> c ∈ s.
Proof. destruct (trim_padded s) as (_ & _ & l & r & Hs & _ & _). rewrite Hs at 2. set_solver. Qed.

(** *** Integers *)

Lemma digit_iff radix c d : 2 <= radix <= 16 -> digit radix c d <-> to_digit radix c = Some d.
Proof.
  intros Hr. unfold digit, to_digit.
  destruct (Z.leb_spec 48 c), (Z.leb_spec c 57), (Z.leb_spec 97 c), (Z.leb_spec c 122),
    (Z.leb_spec 65 c), (Z.leb_spec c 90); cbn [andb]; try lia;
    match goal with |- context [?a <? radix] => destruct (Z.ltb_spec a radix) | _ => idtac end;
    (split; [intros ?; first [lia|f_equal; lia]|intros [= <-]; lia]) || (split; [lia|done]).
Qed.

Lemma parse_digits_step radix acc s c :
  parse_digits radix acc (s ++ [c]) =
    match parse_digits radix acc s with Some n => parse_digits radix n [c] | None => None end.
Proof.
  revert acc. induction s as [|a s IH]; intros acc; [done|]. simpl.
  destruct (to_digit radix a); [|done].
  destruct (acc * radix <=? U64_MAX); [|done]. destruct (acc * radix + z <=? U64_MAX); [|done]. apply IH.
Qed.

Lemma numeral_nonneg radix s n : 2 <= radix -> numeral radix s n -> 0 <= n /\ s <> [].
Proof.
  intros Hr. induction 1 as [c d Hd|s n c d _ IH Hd].
  - split; [apply Hd|done].
  - destruct Hd as [Hd _]. split; [nia|by destruct s].
Qed.

Lemma numeral_iff radix s n : 2 <= radix <= 16 ->
  numeral radix s n /\ n <= U64_MAX <-> s <> [] /\ parse_digits radix 0 s = Some n.
Proof.
  intros Hr. split.
  - intros [Hn Hmax]. split; [by destruct (numeral_nonneg radix s n ltac:(lia) Hn)|].
    induction Hn as [c d Hd|s n c d Hn IH Hd].
    + cbn [parse_digits]. rewrite (proj1 (digit_iff radix c d Hr) Hd), Z.mul_0_l, Z.add_0_l.
      by rewrite (proj2 (Z.leb_le 0 _)), (proj2 (Z.leb_le d _)) by done.
    + destruct (numeral_nonneg radix s n ltac:(lia) Hn) as [H0 _].
      assert (0 <= d) by (destruct Hd; lia).
      rewrite parse_digits_step, IH by nia. cbn [parse_digits].
      rewrite (proj1 (digit_iff radix c d Hr) Hd).
      by rewrite !(proj2 (Z.leb_le _ _)) by lia.
  - intros [Hne Hp]. revert n Hp. induction s as [|c s IH] using rev_ind; intros n; [done|].
    rewrite parse_digits_step. destruct (parse_digits radix 0 s) as [m|] eqn:E; [|done].
    cbn [parse_digits]. destruct (to_digit radix c) as [d|] eqn:Hd; [|done].
    destruct (m * radix <=? U64_MAX); [|done]. destruct (Z.leb_spec (m * radix + d) U64_MAX); [|done].
    intros [= <-]. apply digit_iff in Hd; [|done]. split; [|done].
    destruct s as [|a s].
    + injection E as <-. rewrite Z.mul_0_l, Z.add_0_l. by constructor.
    + constructor; [|done]. by apply IH.
Qed.

Lemma from_str_radix_iff radix s n : 2 <= radix <= 16 ->
  from_str_radix radix s = Some n <->
  exists sign digits, s = sign ++ digits /\ (sign = [] \/ sign = lit "+") /\
    numeral radix digits n /\ n <= U64_MAX.
Proof.
  intros Hr. setoid_rewrite (numeral_iff radix _ n Hr).
  assert (Hhead : forall c t, c = PLUS \/ c = MINUS -> parse_digits radix 0 (c :: t) <> Some n)
    by by intros c t [->| ->].
  split.
  - intros H. destruct s as [|c [|d s]]; [done|..]; unfold from_str_radix in H.
    + destruct (_ || _); [done|]. exists [], [c]. split_and!; [done|by left|done|done].
    + destruct (Z.eqb_spec c PLUS) as [->|].
      * exists [PLUS], (d :: s). split_and!; [done|by right|done|done].
      * exists [], (c :: d :: s). split_and!; [done|by left|done|done].
  - intros (sign & ds & -> & [->| ->] & Hne & Hp).
    + destruct ds as [|c ds]; [done|]. cbn [app].
      assert (c <> PLUS /\ c <> MINUS) as [H1 H2].
      { split; intros ->; [by apply (Hhead PLUS ds); [left|]|by apply (Hhead MINUS ds); [right|]]. }
      unfold from_str_radix. rewrite (proj2 (Z.eqb_neq c PLUS) H1), (proj2 (Z.eqb_neq c MINUS) H2).
      by destruct ds.
    + change (lit "+" ++ ds) with (PLUS :: ds). unfold from_str_radix.
      rewrite Z.eqb_refl. by destruct ds.
Qed.

Lemma without_underscores_iff s t : without_underscores s t <-> remove_char UNDERSCORE s = t.
Proof.
  unfold remove_char. split.
  - induction 1 as [|s t _ IH|c s t Hc _ IH]; [done|..].
    + by rewrite filter_cons_False by (intros H; by apply H).
    + by rewrite filter_cons_True, IH.
  - intros <-. induction s as [|c s IH]; [constructor|].
    destruct (decide (c = UNDERSCORE)) as [->|Hc].
    + rewrite filter_cons_False by (intros H; by apply H). by constructor.
    + rewrite filter_cons_True by done. by constructor.
Qed.

Lemma parse_int_iff s n : parse_int s = Some n <-> integer_text s n.
Proof.
  unfold parse_int, integer_text. setoid_rewrite without_underscores_iff.
  assert (Hdec : forall t, from_str_radix 10 (lit "0x" ++ t) = None) by by intros [|? ?].
  assert (Hmax : n <= U64_MAX <-> n < 2 ^ 64) by (unfold U64_MAX; lia).
  split.
  - destruct (strip_prefix _ _) as [hex|] eqn:E.
    + apply strip_prefix_Some in E. intros (sign & ds & -> & Hs & Hn & Hm)%from_str_radix_iff; [|lia].
      split; [by apply Hmax|]. exists (remove_char UNDERSCORE s). split; [done|].
      exists 16, sign, ds. split_and!; auto.
    + intros (sign & ds & Hs & Hg & Hn & Hm)%from_str_radix_iff; [|lia].
      split; [by apply Hmax|]. exists (remove_char UNDERSCORE s). split; [done|].
      exists 10, sign, ds. split_and!; auto.
  - intros (Hm & t & <- & radix & sign & ds & Ht & [->| ->] & Hs & Hn); rewrite Ht; cbn [Z.eqb Pos.eqb app].
    + assert (Hv : from_str_radix 10 (sign ++ ds) = Some n).
      { apply from_str_radix_iff; [lia|]. exists sign, ds. split_and!; [done..|by apply Hmax]. }
      destruct (strip_prefix (lit "0x") (sign ++ ds)) as [hex|] eqn:E; [|done].
      apply strip_prefix_Some in E. by rewrite E, Hdec in Hv.
    + rewrite (proj2 (strip_prefix_Some _ _ _) eq_refl). apply from_str_radix_iff; [lia|].
      exists sign, ds. split_and!; [done..|by apply Hmax].
Qed.

(** *** Lines *)

Definition described (r : result config_error (option (str * u64))) : result str (option (str * u64)) :=
  match r with Ok o => Ok o | Err e => Err (error_text e) end.

(** The body of a line with an equals sign, by the parser. *)
Lemma config_line_equals line k v :
  uncommented line (k ++ EQUALS :: v) -> EQUALS ∉ k ->
  config_line line =
    if decide (trim k = []) then Err EmptyKey
    else match parse_int (trim v) with
         | None => Err InvalidInteger
         | Some n => Ok (Some (trim k, n))
         end.
Proof.
  intros Hu%uncommented_split Hk. unfold config_line. rewrite Hu, trim_equals.
  assert (Hs : split_once EQUALS (trim_start k ++ EQUALS :: trim_end v) = Some (trim_start k, trim_end v)).
  { apply split_once_first. by intros Hc%trim_start_subset. }
  destruct (trim_start k ++ EQUALS :: trim_end v) as [|c s] eqn:E; [by destruct (trim_start k)|].
  rewrite Hs, trim_trim_start, trim_trim_end. by destruct (trim k).
Qed.

Lemma config_line_no_equals line body :
  uncommented line body -> EQUALS ∉ body ->
  config_line line = if decide (trim body = []) then Ok None else Err ExpectedKeyValue.
Proof.
  intros Hu%uncommented_split Hb. unfold config_line. rewrite Hu.
  destruct (trim body) as [|c s] eqn:E; [done|].
  rewrite split_once_none; [done|]. rewrite <- E. by intros Hc%trim_subset.
Qed.

Lemma blank_no_equals s : blank s -> EQUALS ∉ s.
Proof. intros Hb Hc. by specialize (Hb _ Hc). Qed.

(** The parser's reading of a line is its meaning. *)
Lemma line_means_config_line line o : line_means line o <-> o = described (config_line line).
Proof.
  split.
  - intros Hm. destruct Hm as [body Hu Hb|k v key text n Hu Hk Hkey Hne Hv Hn
      |body Hu Hb He|k v Hu Hb|k v text Hu Hk Hb Hv Hn].
    + rewrite (config_line_no_equals _ body) by (done || by apply blank_no_equals).
      by rewrite decide_True by by apply blank_iff.
    + rewrite (config_line_equals _ k v) by done. apply padded_trim in Hkey, Hv. subst.
      rewrite decide_False by done. by rewrite (proj2 (parse_int_iff _ _) Hn).
    + rewrite (config_line_no_equals _ body) by done. by rewrite decide_False by by rewrite <- blank_iff.
    + rewrite (config_line_equals _ k v) by (done || by apply blank_no_equals).
      by rewrite decide_True by by apply blank_iff.
    + rewrite (config_line_equals _ k v) by done. apply padded_trim in Hv. subst.
      rewrite decide_False by by rewrite <- blank_iff.
      destruct (parse_int (trim v)) as [n|] eqn:E; [|done]. by apply parse_int_iff, Hn in E.
  - intros ->. pose proof (proj2 (uncommented_split line _) eq_refl) as Hu.
    destruct (split_once EQUALS (split_first HASH line)) as [[k v]|] eqn:E.
    + apply split_once_Some in E as [E Hk]. rewrite E in Hu.
      rewrite (config_line_equals _ k v) by done.
      destruct (decide (trim k = [])) as [Hb%blank_iff|Hb]; [by apply (means_no_key _ k v)|].
      destruct (parse_int (trim v)) as [n|] eqn:En.
      * apply (means_entry _ k v _ (trim v)); try done; try apply trim_padded. by apply parse_int_iff.
      * apply (means_no_integer _ k v (trim v)); try done; [by rewrite blank_iff|apply trim_padded|].
        intros n Hn%parse_int_iff. congruence.
    + apply split_once_None in E. rewrite (config_line_no_equals _ _ Hu E).
      destruct (decide _) as [Hb%blank_iff|Hb]; [by eapply means_nothing|].
      apply (means_no_equals _ _ Hu); [by rewrite blank_iff|done].
Qed.

(** The map of a list of entries: the last one of a key wins. *)
Lemma entries_lookup (ls : list str) k v :
  (list_to_map (reverse (omap line_entry ls)) : gmap (list Z) Z) !! k = Some v <->
  exists i, (line_entry <$> ls) !! i = Some (Some (k, v)) /\
    forall j w, (i < j)%nat -> (line_entry <$> ls) !! j <> Some (Some (k, w)).
Proof.
  induction ls as [|l ls IH] using rev_ind.
  { simpl. rewrite lookup_empty. split; [done|]. by intros (i & Hi & _). }
  rewrite fmap_app, omap_app, reverse_app. set (es := line_entry <$> ls) in *.
  assert (Hold : line_entry l = None \/ (exists k' w, line_entry l = Some (k', w) /\ k' <> k) ->
    (exists i, es !! i = Some (Some (k, v)) /\ forall j w, (i < j)%nat -> es !! j <> Some (Some (k, w))) <->
    exists i, (es ++ [line_entry l]) !! i = Some (Some (k, v)) /\
      forall j w, (i < j)%nat -> (es ++ [line_entry l]) !! j <> Some (Some (k, w))).
  { intros Hl. assert (Hx : forall j w, (es ++ [line_entry l]) !! j = Some (Some (k, w)) <->
      es !! j = Some (Some (k, w))).
    { intros j w. rewrite lookup_app_Some. split; [|by left].
      intros [?|[_ [_ Hj]%list_lookup_singleton_Some]]; [done|]. naive_solver. }
    by setoid_rewrite Hx. }
  cbn [fmap list_fmap omap list_omap]. destruct (line_entry l) as [[k' w]|] eqn:E.
  - change (reverse [(k', w)]) with [(k', w)]. cbn [app list_to_map foldr fst snd].
    destruct (decide (k' = k)) as [->|Hk].
    + rewrite lookup_insert_eq. split.
      * intros [= ->]. exists (length es). split; [by rewrite list_lookup_middle|].
        intros j w' Hj. rewrite lookup_ge_None_2; [done|]. rewrite length_app. simpl. lia.
      * intros (i & Hi & Hlast). destruct (decide (i < length es)%nat) as [Hlt|Hge].
        -- by destruct (Hlast (length es) w Hlt); rewrite list_lookup_middle.
        -- apply lookup_app_Some in Hi as [Hi%lookup_lt_Some|[_ [_ Hi]%list_lookup_singleton_Some]]; [lia|].
           by injection Hi as ->.
    + rewrite lookup_insert_ne by done. rewrite IH. apply Hold. right. by exists k', w.
  - change (reverse []) with (@nil (list Z * Z)). cbn [app]. rewrite IH. apply Hold. by left.
Qed.

Lemma entries_means (ls : list str) entries :
  Forall2 (fun line e => line_means line (Ok e)) ls entries -> entries = line_entry <$> ls.
Proof.
  induction 1 as [|line e ls entries He _ IH]; [done|]. rewrite fmap_cons, IH. f_equal.
  apply line_means_config_line in He. unfold line_entry.
  destruct (config_line line); by simplify_eq/=.
Qed.

(** The values of a configuration are 64-bit. *)
Lemma parse_platform_config_range source m k n :
  parse_platform_config source = Ok m -> m !! k = Some n -> is_u64 n.
Proof.
  intros Hp Hk. pose proof (parse_lines_spec 0 ∅ (lines source)) as H.
  fold (parse_platform_config source) in H. rewrite Hp in H. destruct H as [_ ->].
  rewrite map_union_empty in Hk.
  apply entries_lookup in Hk as (i & (line & Hl & _)%list_lookup_fmap_Some & _).
  unfold line_entry, config_line in Hl. repeat case_match; simplify_eq; by eapply parse_int_range.
Qed.

(** ** Properties *)

(** C33: the parser is exact for the format: it returns a map precisely when
    every line means nothing or an entry, and then a key has the value of its
    last entry; it reports an error precisely for the first line that means
    neither, by its number from 1 and with the text for what is wrong with it
    (no equals sign, no key, or a value that is not a 64-bit integer). *)
Theorem parse_platform_config_exact source r :
  parse_platform_config source = r <->
  match r with
  | Ok m => exists entries, Forall2 (fun line e => line_means line (Ok e)) (lines source) entries /\
      forall k v, m !! k = Some v <->
        exists i, entries !! i = Some (Some (k, v)) /\
          forall j w, (i < j)%nat -> entries !! j <> Some (Some (k, w))
  | Err msg => exists i line text, lines source !! i = Some line /\ line_means line (Err text) /\
      msg = lit "line " ++ fmt_dec (Z.of_nat i + 1) ++ lit ": " ++ text /\
      forall j l, (j < i)%nat -> lines source !! j = Some l -> exists e, line_means l (Ok e)
  end.
Proof.
  pose proof (parse_lines_spec 0 ∅ (lines source)) as H. fold (parse_platform_config source) in H.
  split.
  - intros <-. destruct (parse_platform_config source) as [m|msg].
    + destruct H as [H ->]. exists (line_entry <$> lines source). split.
      * apply Forall2_fmap_r, Forall_Forall2_diag, Forall_lookup_2. intros i line Hl.
        apply line_means_config_line. unfold line_entry.
        by destruct (H i line Hl) as [o ->].
      * intros k v. by rewrite map_union_empty, entries_lookup.
    + destruct H as (i & line & e & Hl & He & -> & Hj). exists i, line, (error_text e).
      split_and!; [done|by apply line_means_config_line; rewrite He| |].
      * unfold error_message. by rewrite Nat.add_0_l, Nat2Z.inj_add.
      * intros j l Hlt Hjl. destruct (Hj j l Hlt Hjl) as [o Ho]. exists o.
        apply line_means_config_line. by rewrite Ho.
  - destruct (parse_platform_config source) as [m|msg], r as [m'|msg'].
    + intros (entries & Hf & Hm'). f_equal. apply map_eq. intros k. apply option_eq. intros v.
      destruct H as [_ ->]. by rewrite map_union_empty, entries_lookup, Hm', (entries_means _ _ Hf).
    + intros (i & line & text & Hl & Hw & _). destruct H as [H _].
      apply line_means_config_line in Hw. destruct (H i line Hl) as [o Ho]. by rewrite Ho in Hw.
    + intros (entries & Hf & _). destruct H as (i & line & e & Hl & He & _).
      destruct (Forall2_lookup_l _ _ _ _ _ Hf Hl) as (o & _ & Ho).
      apply line_means_config_line in Ho. by rewrite He in Ho.
    + intros (i & line & text & Hl & Hw & -> & Hi). f_equal.
      destruct H as (i' & line' & e & Hl' & He & -> & Hi'). apply line_means_config_line in Hw.
      assert (i = i') as ->.
      { destruct (Nat.lt_total i i') as [Hlt|[->|Hlt]]; [|done|].
        - destruct (Hi' i line Hlt Hl) as [o Ho]. by rewrite Ho in Hw.
        - destruct (Hi i' line' Hlt Hl') as [o Ho]. apply line_means_config_line in Ho.
          by rewrite He in Ho. }
      rewrite Hl in Hl'. injection Hl' as <-. rewrite He in Hw. injection Hw as ->.
      unfold error_message. by rewrite Nat.add_0_l, Nat2Z.inj_add.
Qed.

(** Integers survive the format: a 64-bit value written in decimal or with
    the 0x prefix, with underscores inserted anywhere, is read back as itself,
    and whatever is read fits in 64 bits. *)
Theorem parse_int_roundtrip s n :
  (is_u64 n -> remove_char UNDERSCORE s = fmt_hex n \/ remove_char UNDERSCORE s = fmt_dec n ->
   parse_int s = Some n) /\
  (parse_int s = Some n -> is_u64 n).
Proof.
  split; [|apply parse_int_range]. intros Hn [Hs|Hs]; [by apply parse_int_hex|by apply parse_int_dec].
Qed.

(** C34: configurations survive the format: writing entries as key=0x... lines
    and parsing the text gives back exactly those entries, the last one of a
    repeated key winning. *)
Theorem config_roundtrip es :
  Forall (fun e => key_ok e.1 /\ is_u64 e.2) es ->
  parse_platform_config (render es) = Ok (list_to_map (reverse es)).
Proof.
  intros Hes. unfold parse_platform_config. rewrite render_lines by done.
  pose proof (parse_lines_spec 0 ∅ ((fun e => e.1 ++ [EQUALS] ++ fmt_hex e.2) <$> es)) as H.
  destruct (parse_lines _ _ _) as [m|msg].
  - destruct H as [_ ->]. by rewrite omap_render, map_union_empty.
  - destruct H as (i & line & e & Hl & He & _). apply list_lookup_fmap_Some in Hl as ([k n] & -> & Hi).
    pose proof (Forall_lookup_1 _ _ _ _ Hes Hi) as [Hk Hn].
    pose proof (config_line_render k n Hk Hn) as Hok. cbn [fst snd] in He. congruence.
Qed.

Lemma config_roundtrip_witness :
  parse_platform_config (lit "a=0x1" ++ [LF] ++ lit "b=0xff" ++ [LF] ++ lit "a=0x2" ++ [LF]) =
  Ok (list_to_map [(lit "a", 2); (lit "b", 255); (lit "a", 1)]).
Proof.
  apply (config_roundtrip [(lit "a", 1); (lit "b", 255); (lit "a", 2)]).
  assert (Hk : forall c, 97 <= c <= 98 -> key_ok [c]).
  { intros c Hc. unfold key_ok, EQUALS, HASH, LF. rewrite !list_elem_of_singleton.
    assert (is_whitespace c = false) by (unfold is_whitespace; assert (c = 97 \/ c = 98) as [-> | ->] by lia; done).
    split_and!; try done; try lia; by intros ? [= <-]. }
  repeat apply List.Forall_cons; try apply List.Forall_nil;
    (split; [apply Hk; vm_compute; intuition discriminate|by apply (bool_decide_unpack _); vm_compute]).
Defined.

Lemma parse_int_roundtrip_witness : parse_int (lit "0x4700_0000") = Some 0x4700_0000.
Proof. apply parse_int_roundtrip; [by apply (bool_decide_unpack _); vm_compute|by left; vm_compute]. Defined.
