(* ===== verification/BuildScript.v ===== *)
(** * The build script

    Model of src/build.rs: platform discovery, the configuration values, the
    payload checks, the generated linker script and Rust sources, and the
    directives printed for cargo.  The environment variables and the file system
    are the record [BuildEnv]; a [PathBuf] is its text, with components separated
    by slashes.  The script runs in a monad that keeps what was printed and
    written, also when a later step panics. *)

From Stdlib Require Import ZArith Lia.
From stdpp Require Import base tactics list sorting gmap strings numbers.
From S2P Require Import Prelude Str PlatformConfig Stage2 Qemu.

#[local] Open Scope Z_scope.
#[local] Open Scope rust_scope.

Definition QUOTE : Z := 34.
Definition TAB : Z := 9.
Definition SLASH : Z := 47.
Definition DOT : Z := 46.

Definition BUILD_SUPPORT_PLATFORM_CONFIG : str := lit "build_support/platform_config.rs".
Definition PLATFORM_CONFIG_DIR : str := lit "platforms".
Definition PLATFORM_DIR : str := lit "src/platform".
Definition RITM_IMAGE_ADDRESS_KEY : str := lit "ritm_image_address".
Definition PAYLOAD_ADDRESS_KEY : str := lit "payload_address".
Definition PAYLOAD_SIZE_LIMIT : u64 := 64 * 1024 * 1024.
Definition PAYLOAD_SECTION_ALIGNMENT : u64 := 4.

(** ** Paths (std) *)

(** [Path::join]: an absolute path replaces the first one; a separator is added
    where the first path has none. *)
Definition is_absolute (b : str) : bool :=
  match b with c :: _ => c =? SLASH | [] => false end.
Definition needs_separator (a : str) : bool :=
  match reverse a with d :: _ => negb (d =? SLASH) | [] => false end.
Definition join (a b : str) : str :=
  if is_absolute b then b else a ++ (if needs_separator a then [SLASH] else []) ++ b.

(** The file name split at its last dot: stem and extension. *)
Definition split_name (name : str) : str * option str :=
  match split_once DOT (reverse name) with
  | Some (ext, stem) => match stem with [] => (name, None) | _ => (reverse stem, Some (reverse ext)) end
  | None => (name, None)
  end.

(** [String]'s order: by code points. *)
Fixpoint str_le (a b : str) : bool :=
  match a, b with
  | [], _ => true
  | _ :: _, [] => false
  | c :: a, d :: b => (c <? d) || (c =? d) && str_le a b
  end.
Definition str_order (a b : str) : Prop := str_le a b = true.
#[export] Instance str_order_dec a b : Decision (str_order a b).
Proof. unfold str_order. apply _. Defined.

(** ** Environment *)

Record BuildEnv : Type := mkBuildEnv {
  CARGO_CFG_PLATFORM : option str;
  OUT_DIR : option str;
  CARGO_MANIFEST_DIR : option str;
  RITM_PAYLOAD : option str;
  read_dir : str -> option (list (option str));   (* names; None: unreadable or not UTF-8 *)
  read_to_string : str -> result str str;
  canonicalize : str -> option str;
  metadata_len : str -> option u64;
  path_exists : str -> bool;
  writable : str -> bool;
}.

(** What the script does: a line on its standard output, a file written. *)
Inductive build_action : Type :=
| Println (line : str)
| WriteFile (path contents : str).

#[export] Instance build_action_eq_dec : EqDecision build_action.
Proof. solve_decision. Defined.

(** A run appends actions to the log and returns or panics. *)
Definition B (A : Type) : Type := list build_action -> outcome A * list build_action.
#[export] Instance B_ret : MRet B := fun A a t => (Ret a, t).
#[export] Instance B_bind : MBind B := fun A C k m t =>
  match m t with
  | (Ret a, t) => k a t
  | (Panic msg, t) => (Panic msg, t)
  end.
Definition liftB {A} (o : outcome A) : B A := fun t => (o, t).
Definition println (line : str) : B unit := fun t => (Ret tt, t ++ [Println line]).

Record PayloadConfig : Type := mkPayloadConfig {
  payload_address : u64; payload_path : str; payload_size : u64 }.

(** ** The functions *)

(** The filter of [discover_platforms]. *)
Definition platform_of_entry (entry : option str) : option str :=
  match entry with
  | None => None
  | Some name =>
      match split_name name with
      | (stem, Some ext) => if bool_decide (ext = lit "conf") then Some stem else None
      | (_, None) => None
      end
  end.

Definition discover_platforms (env : BuildEnv) : outcome (list str) :=
  let! entries := expect_some (read_dir env PLATFORM_CONFIG_DIR) "Failed to read platforms" in
  Ret (merge_sort str_order (omap platform_of_entry entries)).

Definition platform_config_file (platform : str) : str :=
  join PLATFORM_CONFIG_DIR (platform ++ lit ".conf").

Definition config_value (config : gmap (list Z) Z) (key : str) : outcome u64 :=
  expect_some (config !! key) "Could not find key".

Definition payload_config (env : BuildEnv) (address : u64) : B (option PayloadConfig) :=
  _ ← println (lit "cargo:rerun-if-env-changed=RITM_PAYLOAD");
  match RITM_PAYLOAD env with
  | None | Some [] => mret None
  | Some payload_path =>
      _ ← println (lit "cargo:rerun-if-changed=" ++ payload_path);
      payload_canonical ← liftB (expect_some (canonicalize env payload_path)
                                  "Failed to canonicalize payload path");
      size ← liftB (expect_some (metadata_len env payload_canonical)
                     "Failed to read metadata for payload");
      size_aligned ← liftB (next_multiple_of size PAYLOAD_SECTION_ALIGNMENT);
      if size_aligned <=? PAYLOAD_SIZE_LIMIT then
        mret (Some {| payload_address := address; payload_path := payload_canonical;
                      payload_size := size |})
      else liftB (Panic "Payload is too large")
  end.

Definition linker_script (image_address : u64) (payload : option PayloadConfig) : str :=
  let payload_memory :=
    match payload with
    | Some payload =>
        [TAB] ++ lit "payload (rwx) : ORIGIN = " ++ fmt_hex (payload_address payload)
        ++ lit ", LENGTH = " ++ fmt_dec (PAYLOAD_SIZE_LIMIT / 1024 / 1024) ++ lit "M" ++ [LF]
    | None => []
    end in
  let payload_sections :=
    match payload with
    | Some _ =>
        [LF] ++ lit "SECTIONS {" ++ [LF]
        ++ [TAB] ++ lit ".payload :" ++ [LF]
        ++ [TAB] ++ lit "{" ++ [LF]
        ++ [TAB; TAB] ++ lit "KEEP(*(.payload));" ++ [LF]
        ++ [TAB; TAB] ++ lit ". = ALIGN(4);" ++ [LF]
        ++ [TAB] ++ lit "} > payload" ++ [LF]
        ++ lit "} INSERT AFTER .text;" ++ [LF]
    | None => []
    end in
  lit "RITM_IMAGE_ADDRESS = " ++ fmt_hex image_address ++ lit ";" ++ [LF; LF]
  ++ lit "MEMORY" ++ [LF] ++ lit "{" ++ [LF]
  ++ [TAB] ++ lit "image : ORIGIN = RITM_IMAGE_ADDRESS, LENGTH = 4M" ++ [LF]
  ++ payload_memory ++ lit "}" ++ [LF] ++ payload_sections.

Definition platform_source_path (env : BuildEnv) (manifest_dir platform : str) : outcome str :=
  let platform_dir := join manifest_dir PLATFORM_DIR in
  let direct_path := join platform_dir (platform ++ lit ".rs") in
  if path_exists env direct_path then Ret direct_path
  else if bool_decide (platform = lit "qemu_bl33") then Ret (join platform_dir (lit "qemu.rs"))
  else Panic "Platform config has no matching source file".

Definition quoted (s : str) : str := [QUOTE] ++ s ++ [QUOTE].

(** The [write!] of one platform's module declaration. *)
Definition platform_module_entry (platform path : str) : str :=
  [LF] ++ lit "#[cfg(platform = " ++ quoted platform ++ lit ")]" ++ [LF]
  ++ lit "#[path = " ++ quoted path ++ lit "]" ++ [LF]
  ++ lit "mod " ++ platform ++ lit ";" ++ [LF; LF]
  ++ lit "#[cfg(platform = " ++ quoted platform ++ lit ")]" ++ [LF]
  ++ lit "pub use " ++ platform ++ lit "::PlatformImpl;" ++ [LF].

Fixpoint platform_module_entries (env : BuildEnv) (manifest_dir output : str)
    (platforms : list str) : outcome str :=
  match platforms with
  | [] => Ret output
  | platform :: platforms =>
      let! path := platform_source_path env manifest_dir platform in
      platform_module_entries env manifest_dir (output ++ platform_module_entry platform path) platforms
  end.

Definition platform_module_source (env : BuildEnv) (platforms : list str)
    (image_address payload_address : u64) : outcome str :=
  let! manifest_dir := expect_some (CARGO_MANIFEST_DIR env) "CARGO_MANIFEST_DIR is expected" in
  platform_module_entries env manifest_dir
    (lit "#[allow(clippy::unreadable_literal)]" ++ [LF]
     ++ lit "pub const RITM_IMAGE_ADDRESS: usize = " ++ fmt_hex image_address ++ lit ";" ++ [LF]
     ++ lit "#[allow(clippy::unreadable_literal)]" ++ [LF]
     ++ lit "pub const PAYLOAD_ADDRESS: u64 = " ++ fmt_hex payload_address ++ lit ";" ++ [LF])
    platforms.

Definition payload_source_code (payload : option PayloadConfig) : str :=
  match payload with
  | Some payload =>
      [LF] ++ lit "#[used]" ++ [LF]
      ++ lit "#[unsafe(link_section = " ++ quoted (lit ".payload") ++ lit ")]" ++ [LF]
      ++ lit "static EMBEDDED_PAYLOAD: [u8; " ++ fmt_dec (payload_size payload)
      ++ lit "] = *include_bytes!(" ++ quoted (payload_path payload) ++ lit ");" ++ [LF]
  | None => []
  end.

(** [fs::write(..).unwrap_or_else(|e| panic!(..))]. *)
Definition write_file (env : BuildEnv) (path contents : str) : B unit := fun t =>
  if writable env path then (Ret tt, t ++ [WriteFile path contents])
  else (Panic "Failed to write", t).

(** [platforms.join(..)] with a separator. *)
Fixpoint str_join (sep : str) (l : list str) : str :=
  match l with
  | [] => []
  | [s] => s
  | s :: l => s ++ sep ++ str_join sep l
  end.

(** The directive that declares the values of [cfg(platform)]. *)
Definition check_cfg (platforms : list str) : str :=
  lit "cargo::rustc-check-cfg=cfg(platform, values("
  ++ quoted (str_join (quoted (lit ", ")) platforms) ++ lit "))".

Definition main (env : BuildEnv) : B unit :=
  platforms ← liftB (discover_platforms env);
  _ ← println (check_cfg platforms);
  _ ← println (lit "cargo:rerun-if-changed=" ++ BUILD_SUPPORT_PLATFORM_CONFIG);
  _ ← println (lit "cargo:rerun-if-changed=" ++ PLATFORM_DIR);
  _ ← println (lit "cargo:rerun-if-changed=" ++ PLATFORM_CONFIG_DIR);
  platform ← liftB (expect_some (CARGO_CFG_PLATFORM env) "Missing platform name");
  if negb (existsb (fun known => bool_decide (known = platform)) platforms)
  then liftB (Panic "Unexpected platform name") else
  let config_file := platform_config_file platform in
  _ ← println (lit "cargo:rerun-if-changed=" ++ config_file);
  config ← liftB (platform_config (read_to_string env config_file));
  image_address ← liftB (config_value config RITM_IMAGE_ADDRESS_KEY);
  payload_address ← liftB (config_value config PAYLOAD_ADDRESS_KEY);
  payload ← payload_config env payload_address;
  out_dir ← liftB (expect_some (OUT_DIR env) "OUT_DIR is expected to be set");
  let platform_linker_script := join out_dir (lit "platform.ld") in
  let platform_module := join out_dir (lit "platform.rs") in
  let payload_source := join out_dir (lit "payload.rs") in
  _ ← write_file env platform_linker_script (linker_script image_address payload);
  source ← liftB (platform_module_source env platforms image_address payload_address);
  _ ← write_file env platform_module source;
  _ ← write_file env payload_source (payload_source_code payload);
  _ ← println (lit "cargo:rustc-link-arg=-Timage.ld");
  println (lit "cargo:rustc-link-arg=-T" ++ platform_linker_script).

(** ** Lemmas *)

Lemma str_le_total a b : str_le a b = true \/ str_le b a = true.
Proof.
  revert b. induction a as [|c a IH]; intros [|d b]; simpl; auto.
  destruct (Z.ltb_spec c d), (Z.ltb_spec d c), (Z.eqb_spec c d), (Z.eqb_spec d c); simpl; auto; lia.
Qed.

#[export] Instance str_order_total : Total str_order.
Proof. intros a b. apply str_le_total. Qed.

#[export] Instance str_order_trans : Transitive str_order.
Proof.
  intros a. unfold str_order. induction a as [|c a IH]; intros [|d b] [|e f]; simpl; try done.
  rewrite !orb_true_iff, !andb_true_iff, !Z.ltb_lt, !Z.eqb_eq.
  intros [?|[-> ?]] [?|[-> ?]]; [left; lia|left; lia|left; lia|right; eauto].
Qed.

(** The stem of a configuration file. *)
Lemma split_name_conf name p :
  split_name name = (p, Some (lit "conf")) <-> name = p ++ lit ".conf" /\ p <> [].
Proof.
  assert (Hdot : lit ".conf" = DOT :: lit "conf") by reflexivity.
  assert (Hnd : DOT ∉ reverse (lit "conf")) by (apply (bool_decide_unpack _); by vm_compute).
  unfold split_name. split.
  - destruct (split_once DOT (reverse name)) as [[ext stem]|] eqn:E; [|done].
    apply split_once_Some in E as [E Hn]. destruct stem as [|c stem]; [done|].
    intros [= <- Hext]. split; [|by intros H; apply (f_equal reverse) in H; rewrite reverse_involutive in H].
    rewrite <- (reverse_involutive name), E, reverse_app, Hext, reverse_cons, <- app_assoc. done.
  - intros [-> Hp]. rewrite Hdot, reverse_app, reverse_cons.
    replace ((reverse (lit "conf") ++ [DOT]) ++ reverse p)
      with (reverse (lit "conf") ++ DOT :: reverse p) by (by rewrite <- app_assoc).
    rewrite split_once_first by done.
    destruct (reverse p) as [|c r] eqn:E.
    + apply (f_equal reverse) in E. rewrite reverse_involutive in E. done.
    + rewrite <- E, !reverse_involutive. done.
Qed.

Lemma platform_of_entry_Some entry p :
  platform_of_entry entry = Some p <-> entry = Some (p ++ lit ".conf") /\ p <> [].
Proof.
  destruct entry as [name|]; simpl; [|naive_solver].
  pose proof (split_name_conf name p) as Hs.
  destruct (split_name name) as [stem [ext|]] eqn:E.
  - case_bool_decide as Hd.
    + subst. split; [intros [= ->]; naive_solver|]. intros [[= ->] Hp].
      assert (Heq : (stem, Some (lit "conf")) = (p, Some (lit "conf"))) by (apply Hs; done).
      by injection Heq as ->.
    + split; [done|]. intros [[= ->] Hp]. assert (Heq : (stem, Some ext) = (p, Some (lit "conf")))
        by (apply Hs; done). by injection Heq.
  - split; [done|]. intros [[= ->] Hp]. assert (Heq : (stem, None) = (p, Some (lit "conf")))
      by (apply Hs; done). done.
Qed.

(** *** Runs of the script *)

Lemma B_bind_Ret {A C} (m : B A) (k : A -> B C) t c t' :
  (m ≫= k) t = (Ret c, t') <-> exists a t1, m t = (Ret a, t1) /\ k a t1 = (Ret c, t').
Proof. unfold mbind, B_bind. destruct (m t) as [[a|msg] t1]; naive_solver. Qed.

Lemma liftB_Ret {A} (o : outcome A) t a t' : liftB o t = (Ret a, t') <-> o = Ret a /\ t' = t.
Proof. unfold liftB. naive_solver. Qed.

Lemma liftB_bind_Ret {A C} (o : outcome A) (k : A -> B C) t c t' :
  (liftB o ≫= k) t = (Ret c, t') <-> exists a, o = Ret a /\ k a t = (Ret c, t').
Proof. unfold mbind, B_bind, liftB. destruct o; naive_solver. Qed.

Lemma println_bind {C} line (k : unit -> B C) t : (println line ≫= k) t = k tt (t ++ [Println line]).
Proof. done. Qed.

Lemma write_file_bind_Ret {C} env path contents (k : unit -> B C) t c t' :
  (write_file env path contents ≫= k) t = (Ret c, t') <->
  writable env path = true /\ k tt (t ++ [WriteFile path contents]) = (Ret c, t').
Proof. unfold mbind, B_bind, write_file. destruct (writable env path); naive_solver. Qed.

Lemma next_multiple_of_4 n m :
  is_u64 n -> next_multiple_of n PAYLOAD_SECTION_ALIGNMENT = Ret m /\ m <= PAYLOAD_SIZE_LIMIT <->
  m = (n + 3) / 4 * 4 /\ m <= PAYLOAD_SIZE_LIMIT.
Proof.
  unfold next_multiple_of, PAYLOAD_SECTION_ALIGNMENT, PAYLOAD_SIZE_LIMIT, in_range. intros Hn.
  change (4 =? 0) with false. cbv iota.
  destruct (Z.eqb_spec (n mod 4) 0).
  - assert ((n + 3) / 4 * 4 = n) as -> by (Z.div_mod_to_equations; lia). naive_solver.
  - rewrite add64_Ret. assert ((n + 3) / 4 * 4 = n + (4 - n mod 4)) as -> by (Z.div_mod_to_equations; lia).
    unfold U64_MAX. split; [naive_solver|]. intros [-> ?]. split_and!; lia.
Qed.

(** What the payload checks accept: no payload, or a readable file that fits
    the region after rounding to the section alignment. *)
Definition payload_accepted (env : BuildEnv) (address : u64) (payload : option PayloadConfig) : Prop :=
  match RITM_PAYLOAD env with
  | None | Some [] => payload = None
  | Some path => exists canonical size,
      canonicalize env path = Some canonical /\ metadata_len env canonical = Some size /\
      (size + 3) / 4 * 4 <= PAYLOAD_SIZE_LIMIT /\
      payload = Some (mkPayloadConfig address canonical size)
  end.

Definition payload_log (env : BuildEnv) : list build_action :=
  Println (lit "cargo:rerun-if-env-changed=RITM_PAYLOAD") ::
  match RITM_PAYLOAD env with
  | None | Some [] => []
  | Some path => [Println (lit "cargo:rerun-if-changed=" ++ path)]
  end.

(** File lengths are 64-bit. *)
Definition lengths_typed (env : BuildEnv) : Prop :=
  forall path n, metadata_len env path = Some n -> is_u64 n.

Lemma payload_config_Ret env address t payload t' :
  lengths_typed env ->
  payload_config env address t = (Ret payload, t') <->
  payload_accepted env address payload /\ t' = t ++ payload_log env.
Proof.
  intros Hl. unfold payload_config, payload_accepted, payload_log. rewrite println_bind.
  destruct (RITM_PAYLOAD env) as [[|a path]|]; [unfold mret, B_ret; naive_solver| |unfold mret, B_ret; naive_solver].
  rewrite println_bind, liftB_bind_Ret, <- app_assoc. cbn [app].
  setoid_rewrite expect_some_Ret. setoid_rewrite liftB_bind_Ret. setoid_rewrite expect_some_Ret.
  setoid_rewrite liftB_bind_Ret. split.
  - intros (canon & Hc & size & Hs & al & Hal & H).
    destruct (Z.leb_spec al PAYLOAD_SIZE_LIMIT); [|done]. injection H as <- <-.
    destruct (proj1 (next_multiple_of_4 size al (Hl _ _ Hs)) (conj Hal H0)) as [-> ?].
    split; [|done]. by exists canon, size.
  - intros [(canon & size & Hc & Hs & Hle & ->) ->]. exists canon. split; [done|].
    exists size. split; [done|].
    destruct (proj2 (next_multiple_of_4 size _ (Hl _ _ Hs)) (conj eq_refl Hle)) as [Hal _].
    eexists. split; [exact Hal|]. by rewrite (proj2 (Z.leb_le _ _) Hle).
Qed.

Lemma platform_config_Ret source config :
  platform_config source = Ret config <->
  exists text, source = Ok text /\ parse_platform_config text = Ok config.
Proof.
  unfold platform_config. split.
  - destruct source as [text|]; [|done]. destruct (parse_platform_config text) as [c|] eqn:E; [|done].
    intros [= ->]. by exists text.
  - by intros (text & -> & ->).
Qed.

(** Everything a successful build prints and writes, in order. *)
Definition build_log (env : BuildEnv) (platforms : list str) (platform out : str) (ia : u64)
    (payload : option PayloadConfig) (module : str) : list build_action :=
  [ Println (check_cfg platforms);
    Println (lit "cargo:rerun-if-changed=build_support/platform_config.rs");
    Println (lit "cargo:rerun-if-changed=src/platform");
    Println (lit "cargo:rerun-if-changed=platforms");
    Println (lit "cargo:rerun-if-changed=" ++ platform_config_file platform) ]
  ++ payload_log env ++
  [ WriteFile (join out (lit "platform.ld")) (linker_script ia payload);
    WriteFile (join out (lit "platform.rs")) module;
    WriteFile (join out (lit "payload.rs")) (payload_source_code payload);
    Println (lit "cargo:rustc-link-arg=-Timage.ld");
    Println (lit "cargo:rustc-link-arg=-T" ++ join out (lit "platform.ld")) ].

(** The inputs from which the build succeeds. *)
Definition buildable (env : BuildEnv) (platforms : list str) (platform out : str) (ia pa : u64)
    (payload : option PayloadConfig) (module : str) : Prop :=
  discover_platforms env = Ret platforms /\
  CARGO_CFG_PLATFORM env = Some platform /\ platform ∈ platforms /\
  (exists source config, read_to_string env (platform_config_file platform) = Ok source /\
    parse_platform_config source = Ok config /\
    config !! RITM_IMAGE_ADDRESS_KEY = Some ia /\ config !! PAYLOAD_ADDRESS_KEY = Some pa) /\
  payload_accepted env pa payload /\ OUT_DIR env = Some out /\
  platform_module_source env platforms ia pa = Ret module /\
  Forall (fun name => writable env (join out (lit name)) = true) ["platform.ld"; "platform.rs"; "payload.rs"]%string.

Lemma build_main_Ret env t :
  lengths_typed env ->
  main env [] = (Ret tt, t) <->
  exists platforms platform out ia pa payload module,
    buildable env platforms platform out ia pa payload module /\
    t = build_log env platforms platform out ia payload module.
Proof.
  intros Hlen. unfold main, buildable, config_value. split.
  - intros (platforms & Hp & H)%liftB_bind_Ret. rewrite !println_bind in H.
    apply liftB_bind_Ret in H as (platform & Hpl%expect_some_Ret & H).
    destruct (existsb _ platforms) eqn:Hex; [|done]. cbn [negb] in H. cbv zeta in H.
    rewrite println_bind in H.
    apply liftB_bind_Ret in H as (config & (source & Hs & Hc)%platform_config_Ret & H).
    apply liftB_bind_Ret in H as (ia & Hia%expect_some_Ret & H).
    apply liftB_bind_Ret in H as (pa & Hpa%expect_some_Ret & H).
    apply B_bind_Ret in H as (payload & t1 & [Hpay ->]%payload_config_Ret & H); [|done].
    apply liftB_bind_Ret in H as (out & Hout%expect_some_Ret & H).
    apply write_file_bind_Ret in H as (Hw1 & H). apply liftB_bind_Ret in H as (module & Hm & H).
    apply write_file_bind_Ret in H as (Hw2 & H). apply write_file_bind_Ret in H as (Hw3 & H).
    rewrite println_bind in H. injection H as <-.
    apply existsb_true in Hex as (k & Hk & ->%bool_decide_eq_true).
    exists platforms, platform, out, ia, pa, payload, module.
    split; [split_and!; try done; [by eauto 6|by repeat constructor]|].
    unfold build_log. rewrite <- !app_assoc. reflexivity.
  - intros (platforms & platform & out & ia & pa & payload & module &
      (Hp & Hpl & Hin & (source & config & Hs & Hc & Hia & Hpa) & Hpay & Hout & Hm & Hw) & ->).
    rewrite !list.Forall_cons in Hw. destruct Hw as (Hw1 & Hw2 & Hw3 & _).
    apply liftB_bind_Ret. exists platforms. split; [done|]. rewrite !println_bind.
    apply liftB_bind_Ret. exists platform. split; [by rewrite Hpl|].
    assert (existsb (fun known => bool_decide (known = platform)) platforms = true) as ->
      by (apply existsb_true; exists platform; by rewrite bool_decide_eq_true_2).
    cbn [negb]. cbv zeta. rewrite println_bind.
    apply liftB_bind_Ret. exists config. split; [apply platform_config_Ret; eauto|].
    apply liftB_bind_Ret. exists ia. split; [by rewrite Hia|].
    apply liftB_bind_Ret. exists pa. split; [by rewrite Hpa|].
    apply B_bind_Ret. eexists payload, _. split; [by apply payload_config_Ret|].
    apply liftB_bind_Ret. exists out. split; [by rewrite Hout|].
    apply write_file_bind_Ret. split; [done|]. apply liftB_bind_Ret. exists module. split; [done|].
    apply write_file_bind_Ret. split; [done|]. apply write_file_bind_Ret. split; [done|].
    rewrite println_bind. unfold println, build_log. rewrite <- !app_assoc. reflexivity.
Qed.

(** ** Reading the generated files

    Readers of the texts that the linker and the compiler are given, independent
    of the functions that write them. *)

(** What follows the first occurrence of [key]. *)
Fixpoint after (key s : str) : option str :=
  match strip_prefix key s with
  | Some r => Some r
  | None => match s with [] => None | _ :: s => after key s end
  end.

(** The value of the longest run of digits at the start of a text. *)
Fixpoint leading_number (radix acc : Z) (s : str) : Z :=
  match s with
  | c :: s => match to_digit radix c with
              | Some d => leading_number radix (acc * radix + d) s
              | None => acc
              end
  | [] => acc
  end.

(** The number written after [key]: hexadecimal after 0x, else decimal. *)
Definition number_after (key : string) (s : str) : option Z :=
  match after (lit key) s with
  | None => None
  | Some r =>
      match strip_prefix (lit "0x") r with
      | Some h => Some (leading_number 16 0 h)
      | None => Some (leading_number 10 0 r)
      end
  end.

(** [piece] stands somewhere in the text. *)
Definition contains (s piece : str) : Prop := exists a b, s = a ++ piece ++ b.

(** What a file holds after the run. *)
Fixpoint written (path : str) (t : list build_action) : option str :=
  match t with
  | [] => None
  | action :: t =>
      match written path t, action with
      | Some s, _ => Some s
      | None, WriteFile p s => if decide (p = path) then Some s else None
      | None, Println _ => None
      end
  end.

Lemma after_skip key a s c :
  hd_error key = Some c -> c ∉ a -> after key (a ++ s) = after key s.
Proof.
  intros Hk Ha. induction a as [|d a IH]; [done|].
  destruct key as [|e key]; [done|]. injection Hk as ->. cbn [app after strip_prefix].
  rewrite (proj2 (Z.eqb_neq c d)) by set_solver. apply IH. set_solver.
Qed.

Lemma leading_number_parse radix acc s c r n :
  parse_digits radix acc s = Some n -> to_digit radix c = None ->
  leading_number radix acc (s ++ c :: r) = n.
Proof.
  intros Hp Hc. revert acc Hp. induction s as [|d s IH]; intros acc; cbn [app parse_digits leading_number].
  - intros [= ->]. by rewrite Hc.
  - destruct (to_digit radix d); [|done]. destruct (acc * radix <=? U64_MAX); [|done].
    destruct (acc * radix + z <=? U64_MAX); [|done]. apply IH.
Qed.

Lemma number_after_hex key s n c r :
  after (lit key) s = Some (fmt_hex n ++ c :: r) -> is_u64 n -> to_digit 16 c = None ->
  number_after key s = Some n.
Proof.
  intros Ha Hn Hc. unfold number_after. rewrite Ha. unfold fmt_hex. rewrite <- app_assoc.
  rewrite (proj2 (strip_prefix_Some _ _ _) eq_refl). f_equal.
  apply leading_number_parse; [apply parse_digits_render; [lia|done]|done].
Qed.

Lemma number_after_dec key s n c r :
  after (lit key) s = Some (fmt_dec n ++ c :: r) -> is_u64 n -> to_digit 10 c = None -> c <> 120 ->
  number_after key s = Some n.
Proof.
  intros Ha Hn Hc Hx. unfold number_after. rewrite Ha.
  destruct (strip_prefix (lit "0x") (fmt_dec n ++ c :: r)) as [h|] eqn:E.
  - apply strip_prefix_Some in E. exfalso.
    assert (Hd : forall d, d ∈ fmt_dec n -> 48 <= d <= 57 \/ 97 <= d <= 102)
      by (intros d Hd; apply (digits_chars 64 10 n); [lia|apply Hn|done]).
    destruct (fmt_dec n) as [|a [|b l]] eqn:El; [by destruct (digits_ne 10 n)|..];
      change (lit "0x" ++ h) with (48 :: 120 :: h) in E.
    + by injection E as _ -> _.
    + injection E as _ -> _. specialize (Hd 120 ltac:(right; left)). lia.
  - f_equal. apply leading_number_parse; [apply parse_digits_render; [lia|done]|done].
Qed.

Lemma fmt_hex_no n c : is_u64 n -> c = 112 \/ c = 80 \/ c = 79 -> c ∉ fmt_hex n.
Proof. intros Hn Hc Hin. apply (fmt_hex_chars n c) in Hin; [lia|apply Hn]. Qed.

(** *** The linker script *)

Lemma linker_script_image ia payload : is_u64 ia ->
  number_after "RITM_IMAGE_ADDRESS = " (linker_script ia payload) = Some ia.
Proof.
  intros Hi. eapply (number_after_hex _ _ ia 59); [|done|done].
  unfold linker_script. cbv -[fmt_hex]. reflexivity.
Qed.

Lemma linker_script_image_region ia payload :
  contains (linker_script ia payload) (lit "image : ORIGIN = RITM_IMAGE_ADDRESS, LENGTH = 4M" ++ [LF]).
Proof.
  unfold contains, linker_script.
  exists (lit "RITM_IMAGE_ADDRESS = " ++ fmt_hex ia ++ lit ";" ++ [LF; LF] ++ lit "MEMORY" ++ [LF]
          ++ lit "{" ++ [LF] ++ [TAB]).
  eexists. rewrite <- !app_assoc. reflexivity.
Qed.

Lemma linker_script_payload ia payload : is_u64 ia ->
  (forall p, payload = Some p -> is_u64 (payload_address p)) ->
  number_after "payload (rwx) : ORIGIN = " (linker_script ia payload) = payload_address <$> payload.
Proof.
  intros Hi Hp.
  assert (Hskip : forall s, after (lit "payload (rwx) : ORIGIN = ")
      (lit "RITM_IMAGE_ADDRESS = " ++ fmt_hex ia ++ s) = after (lit "payload (rwx) : ORIGIN = ") s).
  { intros s. rewrite app_assoc. apply (after_skip _ _ _ 112); [done|].
    assert (Hc : 112 ∉ lit "RITM_IMAGE_ADDRESS = ") by (apply (bool_decide_unpack _); by vm_compute).
    intros [Hin|Hin]%elem_of_app; [done|].
    by apply (fmt_hex_no ia) in Hin; [|done|left]. }
  destruct payload as [p|]; cbn [fmap option_fmap option_map].
  - eapply (number_after_hex _ _ _ 44); [|by apply Hp|done].
    unfold linker_script. rewrite Hskip. cbv zeta iota beta. rewrite <- !app_assoc.
    cbv -[fmt_hex]. reflexivity.
  - unfold number_after, linker_script. rewrite Hskip. reflexivity.
Qed.

Lemma linker_script_payload_region ia p :
  contains (linker_script ia (Some p)) (lit ", LENGTH = 64M" ++ [LF] ++ lit "}").
Proof.
  unfold contains, linker_script.
  exists (lit "RITM_IMAGE_ADDRESS = " ++ fmt_hex ia ++ lit ";" ++ [LF; LF] ++ lit "MEMORY" ++ [LF]
    ++ lit "{" ++ [LF] ++ [TAB] ++ lit "image : ORIGIN = RITM_IMAGE_ADDRESS, LENGTH = 4M" ++ [LF]
    ++ [TAB] ++ lit "payload (rwx) : ORIGIN = " ++ fmt_hex (payload_address p)).
  eexists. rewrite <- !app_assoc. reflexivity.
Qed.

(** *** The platform module *)

(** The source file of a platform: its own, or qemu.rs for qemu_bl33. *)
Definition source_of (env : BuildEnv) (dir platform path : str) : Prop :=
  let own := join (join dir (lit "src/platform")) (platform ++ lit ".rs") in
  path_exists env own = true /\ path = own \/
  path_exists env own = false /\ platform = lit "qemu_bl33" /\
  path = join (join dir (lit "src/platform")) (lit "qemu.rs").

(** The declaration the compiler needs of a platform's module. *)
Definition declares_module (text platform path : str) : Prop :=
  contains text (lit "#[cfg(platform = " ++ quoted platform ++ lit ")]" ++ [LF]
    ++ lit "#[path = " ++ quoted path ++ lit "]" ++ [LF] ++ lit "mod " ++ platform ++ lit ";") /\
  contains text (lit "#[cfg(platform = " ++ quoted platform ++ lit ")]" ++ [LF]
    ++ lit "pub use " ++ platform ++ lit "::PlatformImpl;").

Lemma platform_source_path_Ret env dir platform path :
  platform_source_path env dir platform = Ret path <-> source_of env dir platform path.
Proof.
  unfold platform_source_path, source_of, PLATFORM_DIR.
  destruct (path_exists _ _); [naive_solver|]. case_bool_decide; naive_solver.
Qed.

Lemma contains_app_l s t piece : contains s piece -> contains (s ++ t) piece.
Proof. intros (a & b & ->). exists a, (b ++ t). by rewrite <- !app_assoc. Qed.

Lemma entry_declares s platform path t :
  declares_module (s ++ platform_module_entry platform path ++ t) platform path.
Proof.
  unfold declares_module, contains, platform_module_entry. split.
  - exists (s ++ [LF]). eexists. rewrite <- !app_assoc. reflexivity.
  - exists (s ++ [LF] ++ lit "#[cfg(platform = " ++ quoted platform ++ lit ")]" ++ [LF]
      ++ lit "#[path = " ++ quoted path ++ lit "]" ++ [LF] ++ lit "mod " ++ platform ++ lit ";" ++ [LF; LF]).
    eexists. rewrite <- !app_assoc. reflexivity.
Qed.

Lemma platform_module_entries_Ret env dir output platforms :
  (forall p, p ∈ platforms -> exists path, source_of env dir p path) <->
  exists module, platform_module_entries env dir output platforms = Ret module.
Proof.
  revert output. induction platforms as [|p ps IH]; intros output; cbn [platform_module_entries].
  { split; [eauto|]. intros _ p Hp. by apply elem_of_nil in Hp. }
  split.
  - intros H. destruct (H p ltac:(left)) as [path Hp%platform_source_path_Ret]. rewrite Hp.
    apply IH. intros q Hq. apply H. by right.
  - intros [module Hm]. destruct (platform_source_path env dir p) as [path|] eqn:E; [|done].
    apply platform_source_path_Ret in E. intros q [->|Hq]%elem_of_cons; [by exists path|].
    apply (proj2 (IH _) (ex_intro _ _ Hm) q Hq).
Qed.

Lemma platform_module_entries_declare env dir output platforms module :
  platform_module_entries env dir output platforms = Ret module ->
  (exists t, module = output ++ t) /\
  forall p, p ∈ platforms -> exists path, source_of env dir p path /\ declares_module module p path.
Proof.
  revert output. induction platforms as [|p ps IH]; intros output; cbn [platform_module_entries].
  { intros [= <-]. split; [exists []; by rewrite app_nil_r|]. intros p Hp. by apply elem_of_nil in Hp. }
  destruct (platform_source_path env dir p) as [path|] eqn:E; [|done]. cbn [bindO].
  intros Hm. destruct (IH _ Hm) as [[t ->] Hps]. split; [eexists; by rewrite <- app_assoc|].
  intros q [->|Hq]%elem_of_cons; [|by apply Hps]. apply platform_source_path_Ret in E.
  exists path. split; [done|]. rewrite <- app_assoc. apply entry_declares.
Qed.

Lemma platform_module_numbers env platforms ia pa module :
  platform_module_source env platforms ia pa = Ret module -> is_u64 ia -> is_u64 pa ->
  number_after "RITM_IMAGE_ADDRESS: usize = " module = Some ia /\
  number_after "PAYLOAD_ADDRESS: u64 = " module = Some pa.
Proof.
  unfold platform_module_source. destruct (CARGO_MANIFEST_DIR env) as [dir|]; [|done].
  cbn [expect_some bindO]. intros [[t ->] _]%platform_module_entries_declare Hi Hp.
  rewrite <- !app_assoc. split.
  - eapply (number_after_hex _ _ ia 59); [|done|done]. cbv -[fmt_hex]. reflexivity.
  - eapply (number_after_hex _ _ pa 59); [|done|done].
    rewrite 3!app_assoc, (after_skip _ _ _ 80); [|done|].
    + cbv -[fmt_hex]. reflexivity.
    + rewrite elem_of_app. intros [Hin|Hin]; [|by apply (fmt_hex_no ia) in Hin; auto].
      revert Hin. apply (bool_decide_unpack _). by vm_compute.
Qed.

(** *** The payload source *)

Lemma payload_source_reads p : is_u64 (payload_size p) ->
  number_after "static EMBEDDED_PAYLOAD: [u8; " (payload_source_code (Some p)) = Some (payload_size p) /\
  contains (payload_source_code (Some p)) (lit "#[unsafe(link_section = " ++ quoted (lit ".payload") ++ lit ")]") /\
  contains (payload_source_code (Some p)) (lit "*include_bytes!(" ++ quoted (payload_path p) ++ lit ");").
Proof.
  intros Hs. split_and!.
  - eapply (number_after_dec _ _ _ 93); [|done|done|done].
    unfold payload_source_code. cbv -[fmt_dec]. reflexivity.
  - exists ([LF] ++ lit "#[used]" ++ [LF]). eexists. unfold payload_source_code. rewrite <- !app_assoc. reflexivity.
  - exists ([LF] ++ lit "#[used]" ++ [LF] ++ lit "#[unsafe(link_section = " ++ quoted (lit ".payload")
      ++ lit ")]" ++ [LF] ++ lit "static EMBEDDED_PAYLOAD: [u8; " ++ fmt_dec (payload_size p) ++ lit "] = ").
    exists [LF]. unfold payload_source_code. rewrite <- !app_assoc. reflexivity.
Qed.

(** *** The log *)

Definition printed (t : list build_action) : list str :=
  omap (fun action => match action with Println line => Some line | WriteFile _ _ => None end) t.

Lemma join_inj out a b : is_absolute a = false -> is_absolute b = false -> join out a = join out b -> a = b.
Proof. unfold join. intros -> -> H. by apply app_inv_head, app_inv_head in H. Qed.

Lemma check_cfg_lists platforms q : q ∈ platforms -> contains (check_cfg platforms) (quoted q).
Proof.
  intros Hq. unfold check_cfg, quoted.
  assert (Hj : exists a b, [QUOTE] ++ str_join ([QUOTE] ++ lit ", " ++ [QUOTE]) platforms ++ [QUOTE]
    = a ++ ([QUOTE] ++ q ++ [QUOTE]) ++ b).
  { induction platforms as [|p ps IH]; [by apply elem_of_nil in Hq|].
    destruct ps as [|p' ps].
    - apply list_elem_of_singleton in Hq as ->. exists [], []. by rewrite app_nil_r.
    - cbn [str_join]. apply elem_of_cons in Hq as [->|Hq].
      + exists []. eexists. rewrite <- !app_assoc. reflexivity.
      + destruct (IH Hq) as (a & b & E). exists ([QUOTE] ++ p ++ [QUOTE] ++ lit ", " ++ a), b.
        transitivity ([QUOTE] ++ p ++ [QUOTE] ++ lit ", " ++ a ++ ([QUOTE] ++ q ++ [QUOTE]) ++ b);
          [by rewrite <- E, <- !app_assoc|by rewrite <- !app_assoc]. }
  destruct Hj as (a & b & E).
  exists (lit "cargo::rustc-check-cfg=cfg(platform, values(" ++ a), (b ++ lit "))").
  apply (f_equal (fun x => x ++ lit "))")) in E. cbn beta in E.
  rewrite <- !app_assoc in E |- *. rewrite E. by rewrite <- !app_assoc.
Qed.

(** ** Specification of the build

    In terms of the environment and of the readers only. *)

(** The platforms of the tree: the names that have a configuration file. *)
Definition platform_in (entries : list (option str)) (p : str) : Prop :=
  p <> [] /\ Some (p ++ lit ".conf") ∈ entries.

(** The payload the environment asks for, by its canonical path and size; it
    has to fit in 64 MiB. *)
Definition requested (env : BuildEnv) (payload : option (str * Z)) : Prop :=
  match RITM_PAYLOAD env with
  | None | Some [] => payload = None
  | Some path => exists canonical size, canonicalize env path = Some canonical /\
      metadata_len env canonical = Some size /\ size <= 64 * 2 ^ 20 /\ payload = Some (canonical, size)
  end.

Definition build_inputs (env : BuildEnv) (entries : list (option str)) (platform dir out : str)
    (ia pa : Z) (payload : option (str * Z)) : Prop :=
  read_dir env (lit "platforms") = Some entries /\
  CARGO_CFG_PLATFORM env = Some platform /\ platform_in entries platform /\
  (exists text config,
    read_to_string env (join (lit "platforms") (platform ++ lit ".conf")) = Ok text /\
    parse_platform_config text = Ok config /\
    config !! lit "ritm_image_address" = Some ia /\ config !! lit "payload_address" = Some pa) /\
  requested env payload /\
  CARGO_MANIFEST_DIR env = Some dir /\ OUT_DIR env = Some out /\
  (forall q, platform_in entries q -> exists path, source_of env dir q path) /\
  (forall name, name ∈ ["platform.ld"; "platform.rs"; "payload.rs"]%string ->
    writable env (join out (lit name)) = true).

(** What the linker and the compiler read, and what cargo is told. *)
Definition build_outputs (env : BuildEnv) (entries : list (option str)) (platform dir out : str)
    (ia pa : Z) (payload : option (str * Z)) (t : list build_action) : Prop :=
  (exists ld, written (join out (lit "platform.ld")) t = Some ld /\
    number_after "RITM_IMAGE_ADDRESS = " ld = Some ia /\
    contains ld (lit "image : ORIGIN = RITM_IMAGE_ADDRESS, LENGTH = 4M" ++ [LF]) /\
    number_after "payload (rwx) : ORIGIN = " ld = (fun _ => pa) <$> payload /\
    (payload <> None -> contains ld (lit ", LENGTH = 64M" ++ [LF] ++ lit "}"))) /\
  (exists rs, written (join out (lit "platform.rs")) t = Some rs /\
    number_after "RITM_IMAGE_ADDRESS: usize = " rs = Some ia /\
    number_after "PAYLOAD_ADDRESS: u64 = " rs = Some pa /\
    forall q, platform_in entries q -> exists path, source_of env dir q path /\ declares_module rs q path) /\
  (exists pl, written (join out (lit "payload.rs")) t = Some pl /\
    match payload with
    | None => pl = []
    | Some (path, size) =>
        number_after "static EMBEDDED_PAYLOAD: [u8; " pl = Some size /\
        contains pl (lit "#[unsafe(link_section = " ++ quoted (lit ".payload") ++ lit ")]") /\
        contains pl (lit "*include_bytes!(" ++ quoted path ++ lit ");")
    end) /\
  exists check, (forall q, platform_in entries q -> contains check (quoted q)) /\
    printed t = [check; lit "cargo:rerun-if-changed=build_support/platform_config.rs";
      lit "cargo:rerun-if-changed=src/platform"; lit "cargo:rerun-if-changed=platforms";
      lit "cargo:rerun-if-changed=" ++ join (lit "platforms") (platform ++ lit ".conf");
      lit "cargo:rerun-if-env-changed=RITM_PAYLOAD"]
      ++ match RITM_PAYLOAD env with
         | None | Some [] => []
         | Some path => [lit "cargo:rerun-if-changed=" ++ path]
         end
      ++ [lit "cargo:rustc-link-arg=-Timage.ld";
          lit "cargo:rustc-link-arg=-T" ++ join out (lit "platform.ld")].

Definition with_address (pa : u64) (p : str * Z) : PayloadConfig := mkPayloadConfig pa p.1 p.2.

Lemma requested_accepted env pa payload :
  payload_accepted env pa payload <-> exists p, requested env p /\ payload = with_address pa <$> p.
Proof.
  unfold payload_accepted, requested, PAYLOAD_SIZE_LIMIT.
  assert (Hle : forall n, (n + 3) / 4 * 4 <= 64 * 1024 * 1024 <-> n <= 64 * 2 ^ 20)
    by (intros; Z.div_mod_to_equations; lia).
  destruct (RITM_PAYLOAD env) as [[|c path]|].
  - split; [intros ->; by exists None|by intros (p & -> & ->)].
  - split.
    + intros (canon & n & Hc & Hn & Hs%(proj1 (Hle _)) & ->). exists (Some (canon, n)). split; [by exists canon, n|done].
    + intros (p & (canon & n & Hc & Hn & Hs%(proj2 (Hle _)) & ->) & ->). by exists canon, n.
  - split; [intros ->; by exists None|by intros (p & -> & ->)].
Qed.

Lemma discovered env platforms :
  discover_platforms env = Ret platforms ->
  exists entries, read_dir env (lit "platforms") = Some entries /\
    forall p, p ∈ platforms <-> platform_in entries p.
Proof.
  unfold discover_platforms, PLATFORM_CONFIG_DIR. destruct (read_dir env _) as [entries|]; [|done].
  cbn [expect_some bindO]. intros [= <-]. exists entries. split; [done|]. intros p.
  change (omap _ entries) with (omap platform_of_entry entries).
  rewrite merge_sort_Permutation, list_elem_of_omap. setoid_rewrite platform_of_entry_Some.
  unfold platform_in. naive_solver.
Qed.

Lemma buildable_inputs env entries platforms platform out ia pa payload module :
  read_dir env (lit "platforms") = Some entries -> (forall p, p ∈ platforms <-> platform_in entries p) ->
  buildable env platforms platform out ia pa payload module ->
  exists dir p, build_inputs env entries platform dir out ia pa p /\ payload = with_address pa <$> p /\
    (exists output, platform_module_entries env dir output platforms = Ret module).
Proof.
  intros Hr Hin (_ & Hpl & Hp & Hconf & Hpay & Hout & Hmod & Hw).
  apply requested_accepted in Hpay as (p & Hreq & ->).
  unfold platform_module_source in Hmod. destruct (CARGO_MANIFEST_DIR env) as [dir|] eqn:Hd; [|done].
  cbn [expect_some bindO] in Hmod. exists dir, p.
  split; [split_and!; try done|by eauto].
  - by apply Hin.
  - setoid_rewrite <- Hin. by eapply platform_module_entries_Ret, ex_intro.
  - rewrite list.Forall_forall in Hw. exact Hw.
Qed.

Lemma inputs_buildable env entries platform dir out ia pa p :
  build_inputs env entries platform dir out ia pa p ->
  exists platforms module, buildable env platforms platform out ia pa (with_address pa <$> p) module.
Proof.
  intros (Hr & Hpl & Hp & Hconf & Hpay & Hd & Hout & Hsrc & Hw).
  destruct (discover_platforms env) as [platforms|] eqn:E.
  2: { unfold discover_platforms, PLATFORM_CONFIG_DIR in E. by rewrite Hr in E. }
  destruct (discovered env platforms E) as (entries' & Hr' & Hin).
  rewrite Hr in Hr'. injection Hr' as <-.
  destruct (platform_module_source env platforms ia pa) as [module|] eqn:Em.
  2: { unfold platform_module_source in Em. rewrite Hd in Em. cbn [expect_some bindO] in Em.
    match type of Em with platform_module_entries _ _ ?o _ = _ =>
      destruct (proj1 (platform_module_entries_Ret env dir o platforms)) as [m Hm] end; [|congruence].
    setoid_rewrite Hin. done. }
  exists platforms, module. split_and!; try done; [by apply Hin| |by apply list.Forall_forall].
  apply requested_accepted. by exists p.
Qed.

Lemma written_last path contents t : written path (t ++ [WriteFile path contents]) = Some contents.
Proof. induction t as [|a t IH]; simpl; [by rewrite decide_True|by rewrite IH]. Qed.

(** The files of the log, by name. *)
Lemma build_log_written env platforms platform out ia payload module :
  let t := build_log env platforms platform out ia payload module in
  written (join out (lit "platform.ld")) t = Some (linker_script ia payload) /\
  written (join out (lit "platform.rs")) t = Some module /\
  written (join out (lit "payload.rs")) t = Some (payload_source_code payload).
Proof.
  assert (Hne : forall a b, a <> b -> is_absolute a = false -> is_absolute b = false -> join out a <> join out b)
    by (intros a b Hab Ha Hb Hj; by apply Hab, (join_inj out)).
  assert (Hp : forall l path, written path (payload_log env ++ l) = written path l).
  { intros l path. unfold payload_log. destruct (RITM_PAYLOAD env) as [[|c r]|]; simpl; by destruct (written path l). }
  unfold build_log. cbv zeta. cbn [app written]. rewrite !Hp. cbn [written].
  split_and!; repeat first [rewrite decide_True by done
    | rewrite decide_False by (apply Hne; by (intros ?; discriminate) || done)]; done.
Qed.

Lemma build_log_printed env platforms platform out ia payload module :
  printed (build_log env platforms platform out ia payload module) =
  [check_cfg platforms; lit "cargo:rerun-if-changed=build_support/platform_config.rs";
   lit "cargo:rerun-if-changed=src/platform"; lit "cargo:rerun-if-changed=platforms";
   lit "cargo:rerun-if-changed=" ++ platform_config_file platform;
   lit "cargo:rerun-if-env-changed=RITM_PAYLOAD"]
  ++ match RITM_PAYLOAD env with
     | None | Some [] => []
     | Some path => [lit "cargo:rerun-if-changed=" ++ path]
     end
  ++ [lit "cargo:rustc-link-arg=-Timage.ld"; lit "cargo:rustc-link-arg=-T" ++ join out (lit "platform.ld")].
Proof. unfold build_log, payload_log, printed. by destruct (RITM_PAYLOAD env) as [[|c r]|]. Qed.

Lemma build_log_outputs env entries platforms platform dir out ia pa p module output :
  lengths_typed env -> (forall q, q ∈ platforms <-> platform_in entries q) ->
  build_inputs env entries platform dir out ia pa p ->
  platform_module_source env platforms ia pa = Ret module ->
  platform_module_entries env dir output platforms = Ret module ->
  build_outputs env entries platform dir out ia pa p
    (build_log env platforms platform out ia (with_address pa <$> p) module).
Proof.
  intros Hl Hin (_ & _ & _ & (text & config & _ & Hc & Hia & Hpa) & Hreq & _) Hm He.
  assert (Hi : is_u64 ia) by by eapply parse_platform_config_range.
  assert (Hp : is_u64 pa) by by eapply parse_platform_config_range.
  assert (Hs : forall path n, p = Some (path, n) -> is_u64 n).
  { intros path n ->. unfold requested in Hreq. destruct (RITM_PAYLOAD env) as [[|c r]|]; [done| |done].
    destruct Hreq as (canon & n' & _ & Hn & _ & [= -> ->]). by eapply Hl. }
  destruct (build_log_written env platforms platform out ia (with_address pa <$> p) module) as (W1 & W2 & W3).
  destruct (platform_module_numbers _ _ _ _ _ Hm Hi Hp) as [N1 N2].
  unfold build_outputs. split_and!; [eexists|eexists|eexists|exists (check_cfg platforms)].
  - split; [exact W1|]. split_and!; [by apply linker_script_image|apply linker_script_image_region| |].
    + rewrite linker_script_payload; [by destruct p|done|]. by destruct p; intros ? [= <-].
    + destruct p; [intros _; apply linker_script_payload_region|done].
  - split; [exact W2|]. split_and!; [done..|]. setoid_rewrite <- Hin.
    by eapply platform_module_entries_declare.
  - split; [exact W3|]. destruct p as [[path n]|]; [|done].
    apply (payload_source_reads (with_address pa (path, n))). by eapply Hs.
  - split; [|apply build_log_printed]. setoid_rewrite <- Hin. apply check_cfg_lists.
Qed.

(** ** Properties *)

(** Platform discovery is exact: the platforms are the non-empty stems of
    the *.conf files in the platforms directory, in ascending order, whatever
    order the directory is read in. *)
Theorem discover_platforms_exact env entries :
  read_dir env PLATFORM_CONFIG_DIR = Some entries ->
  exists ps, discover_platforms env = Ret ps /\ StronglySorted str_order ps /\
    forall p, p ∈ ps <-> Some (p ++ lit ".conf") ∈ entries /\ p <> [].
Proof.
  intros Hr. unfold discover_platforms. rewrite Hr. cbn [expect_some bindO].
  eexists. split; [reflexivity|].
  change (omap _ entries) with (omap platform_of_entry entries). split.
  - apply StronglySorted_merge_sort; apply _.
  - intros p. rewrite merge_sort_Permutation, list_elem_of_omap.
    setoid_rewrite platform_of_entry_Some. naive_solver.
Qed.

Definition example_env (conf : string) : BuildEnv := {|
  CARGO_CFG_PLATFORM := Some (lit "qemu"); OUT_DIR := Some (lit "/out");
  CARGO_MANIFEST_DIR := Some (lit "/ritm"); RITM_PAYLOAD := Some (lit "Image");
  read_dir _ := Some [Some (lit "qemu_bl33.conf"); Some (lit "README"); None; Some (lit "qemu.conf")];
  read_to_string _ := Ok (lit conf); canonicalize p := Some p; metadata_len _ := Some 40000001;
  path_exists p := bool_decide (p = lit "/ritm/src/platform/qemu.rs"); writable _ := true |}.

Lemma discover_platforms_exact_witness :
  discover_platforms (example_env "") = Ret [lit "qemu"; lit "qemu_bl33"] /\
  exists ps, discover_platforms (example_env "") = Ret ps /\ StronglySorted str_order ps.
Proof.
  split; [by vm_compute|].
  destruct (discover_platforms_exact (example_env "") _ eq_refl) as (ps & H1 & H2 & _). eauto.
Defined.


(** The shipped configurations, platforms/qemu.conf and
    platforms/qemu_bl33.conf. *)
Definition qemu_conf : str :=
  lit "# QEMU aarch64 virt platform addresses." ++ [LF]
  ++ lit "ritm_image_address=0x4700_0000" ++ [LF] ++ lit "payload_address=0x4020_0000" ++ [LF].
Definition qemu_bl33_conf : str :=
  lit "# QEMU aarch64 virt BL33 platform addresses." ++ [LF]
  ++ lit "ritm_image_address=0x6000_0000" ++ [LF] ++ lit "payload_address=0x6040_0000" ++ [LF].

(** The regions a configuration describes: the 4 MiB image and the 64 MiB
    payload do not overlap, both lie in the guest's DRAM below 4 GiB, and the
    image is page-aligned. *)
Definition layout_ok (ia pa : Z) : Prop :=
  (PAGE_SIZE | ia) /\ DRAM_START < ia /\ ia + 4 * 1024 * 1024 < 2 ^ 32 /\
  DRAM_START <= pa /\ pa + PAYLOAD_SIZE_LIMIT <= 2 ^ 32 /\
  (pa + PAYLOAD_SIZE_LIMIT <= ia \/ ia + 4 * 1024 * 1024 <= pa).

(** A two-entry configuration. *)
Definition addresses (ia pa : u64) : gmap (list Z) Z :=
  <[PAYLOAD_ADDRESS_KEY := pa]> {[RITM_IMAGE_ADDRESS_KEY := ia]}.

Lemma addresses_lookup ia pa :
  addresses ia pa !! RITM_IMAGE_ADDRESS_KEY = Some ia /\
  addresses ia pa !! PAYLOAD_ADDRESS_KEY = Some pa.
Proof.
  unfold addresses. rewrite lookup_insert_eq, lookup_insert_ne by done.
  by rewrite lookup_singleton_eq.
Qed.

Lemma qemu_conf_parses : parse_platform_config qemu_conf = Ok (addresses 0x4700_0000 0x4020_0000).
Proof. apply (bool_decide_unpack _). by vm_compute. Qed.
Lemma qemu_bl33_conf_parses :
  parse_platform_config qemu_bl33_conf = Ok (addresses 0x6000_0000 0x6040_0000).
Proof. apply (bool_decide_unpack _). by vm_compute. Qed.

(** The shipped configurations parse, and the memory layout they describe is
    consistent: image and payload regions are disjoint and inside the DRAM
    window the stage-2 policy assumes. *)
Theorem shipped_configs_consistent :
  Forall (fun source => exists config ia pa, parse_platform_config source = Ok config /\
    config !! RITM_IMAGE_ADDRESS_KEY = Some ia /\ config !! PAYLOAD_ADDRESS_KEY = Some pa /\
    layout_ok ia pa) [qemu_conf; qemu_bl33_conf].
Proof.
  assert (Hp : forall ia, ia mod PAGE_SIZE = 0 -> (PAGE_SIZE | ia)) by (intros; by apply Z.mod_divide).
  repeat apply List.Forall_cons; try apply List.Forall_nil.
  - exists (addresses 0x4700_0000 0x4020_0000), 0x4700_0000, 0x4020_0000.
    split; [apply qemu_conf_parses|]. split; [apply addresses_lookup|].
    split; [apply addresses_lookup|]. unfold layout_ok, PAYLOAD_SIZE_LIMIT, DRAM_START.
    split_and!; [by apply Hp|lia..].
  - exists (addresses 0x6000_0000 0x6040_0000), 0x6000_0000, 0x6040_0000.
    split; [apply qemu_bl33_conf_parses|]. split; [apply addresses_lookup|].
    split; [apply addresses_lookup|]. unfold layout_ok, PAYLOAD_SIZE_LIMIT, DRAM_START.
    split_and!; [by apply Hp|lia..].
Qed.

Definition conf_text : string := "ritm_image_address=0x4700_0000
payload_address=0x4020_0000
".

