(* ===== verification/TestBuild.v ===== *)
(** * The build scripts of the test payloads

    Models of src/tests/integration_test/build.rs and
    src/tests/psci_test/build.rs, in the monad of BuildScript.v.  The integration
    test reads the addresses of the qemu platform itself; the file shows that it
    and the hypervisor are built for the same addresses. *)

From Stdlib Require Import ZArith Lia.
From stdpp Require Import base tactics list sorting gmap strings numbers.
From S2P Require Import Prelude Str PlatformConfig Stage2 Qemu BuildScript.

#[local] Open Scope Z_scope.
#[local] Open Scope rust_scope.

(** ** Paths (std) *)

(** [Path::parent], for a path without [.] components: the path up to its last
    component; none of the root and of the empty path. *)
Fixpoint drop_slashes (s : str) : str :=
  match s with
  | c :: r => if c =? SLASH then drop_slashes r else s
  | [] => []
  end.
Fixpoint drop_component (s : str) : str :=
  match s with
  | c :: r => if c =? SLASH then s else drop_component r
  | [] => []
  end.
Definition parent (path : str) : option str :=
  match drop_slashes (reverse path) with
  | [] => None
  | s =>
      let rest := drop_component s in
      match drop_slashes rest, rest with
      | [], [] => Some []               (* one relative component *)
      | [], _ => Some [SLASH]
      | r, _ => Some (reverse r)
      end
  end.

(** ** The integration test *)

Definition tab8 : str := lit "        ".

(** The [format!] of platform_constants.rs and of layout.ld. *)
Definition test_constants (ritm_image_address : u64) : str :=
  [LF] ++ tab8 ++ lit "#[allow(clippy::unreadable_literal)]" ++ [LF]
  ++ tab8 ++ lit "pub const RITM_IMAGE_ADDRESS: usize = " ++ fmt_hex ritm_image_address ++ lit ";" ++ [LF]
  ++ tab8.
Definition test_layout (payload_address : u64) : str :=
  lit "MEMORY" ++ [LF] ++ lit "{" ++ [LF]
  ++ [TAB] ++ lit "image : ORIGIN = " ++ fmt_hex payload_address ++ lit ", LENGTH = 4M" ++ [LF]
  ++ lit "}" ++ [LF].

(** [config_value] of the test: as the one of the hypervisor's script. *)
Definition test_config_value (config : gmap (list Z) Z) (key : str) : outcome u64 :=
  expect_some (config !! key) "Could not find key".

Definition integration_test_main (env : BuildEnv) : B unit :=
  dir ← liftB (expect_some (CARGO_MANIFEST_DIR env) "called `Result::unwrap()` on an `Err` value");
  tests ← liftB (expect_some (parent dir) "integration test crate should be under tests/");
  project_root ← liftB (expect_some (parent tests) "tests/ should be under the project root");
  let config_file := join project_root (lit "platforms/qemu.conf") in
  _ ← println (lit "cargo:rerun-if-changed=" ++ join project_root (lit "build_support/platform_config.rs"));
  _ ← println (lit "cargo:rerun-if-changed=" ++ config_file);
  config ← liftB (platform_config (read_to_string env config_file));
  ritm_image_address ← liftB (test_config_value config RITM_IMAGE_ADDRESS_KEY);
  payload_address ← liftB (test_config_value config PAYLOAD_ADDRESS_KEY);
  out_dir ← liftB (expect_some (OUT_DIR env) "OUT_DIR is expected to be set in build.rs");
  _ ← write_file env (join out_dir (lit "platform_constants.rs")) (test_constants ritm_image_address);
  let layout_path := join out_dir (lit "layout.ld") in
  _ ← write_file env layout_path (test_layout payload_address);
  _ ← println (lit "cargo:rustc-link-search=" ++ dir);
  _ ← println (lit "cargo:rustc-link-arg=-Timage.ld");
  println (lit "cargo:rustc-link-arg=-T" ++ layout_path).

(** ** The PSCI test: its layout is a file of the crate. *)

Definition psci_test_main (env : BuildEnv) : B unit :=
  dir ← liftB (expect_some (CARGO_MANIFEST_DIR env) "called `Result::unwrap()` on an `Err` value");
  _ ← println (lit "cargo:rustc-link-search=" ++ dir);
  _ ← println (lit "cargo:rustc-link-arg=-Timage.ld");
  _ ← println (lit "cargo:rustc-link-arg=-Tlayout.ld");
  println (lit "cargo:rerun-if-changed=layout.ld").

(** ** Lemmas *)

Lemma drop_slashes_stop s : (forall c, head s = Some c -> c <> SLASH) -> drop_slashes s = s.
Proof. destruct s as [|c s]; [done|]. simpl. intros H. by rewrite (proj2 (Z.eqb_neq _ _) (H c eq_refl)). Qed.

Lemma drop_component_app a s : SLASH ∉ a -> drop_component (a ++ SLASH :: s) = SLASH :: s.
Proof.
  induction a as [|c a IH]; simpl; [done|]. intros [Hc Ha]%not_elem_of_cons.
  rewrite (proj2 (Z.eqb_neq _ _)) by done. by apply IH.
Qed.

(** The parent of [dir/name]. *)
Lemma parent_join dir name :
  dir <> [] -> needs_separator dir = true -> name <> [] -> SLASH ∉ name ->
  parent (dir ++ SLASH :: name) = Some dir.
Proof.
  intros Hd Hn Hne Hs. unfold parent.
  assert (Hr : reverse (dir ++ SLASH :: name) = reverse name ++ SLASH :: reverse dir)
    by (by rewrite reverse_app, reverse_cons, <- app_assoc).
  unfold needs_separator in Hn. destruct (reverse dir) as [|d r] eqn:Ed; [done|].
  assert (Hd' : d <> SLASH) by by intros ->.
  destruct (reverse name) as [|e n] eqn:En.
  { by apply (f_equal reverse) in En; rewrite reverse_involutive in En. }
  assert (Hen : SLASH ∉ e :: n) by by rewrite <- En, elem_of_reverse.
  assert (He : e <> SLASH) by (intros ->; apply Hen; left).
  rewrite Hr. rewrite drop_slashes_stop by (by intros c [= <-]).
  cbn [app]. rewrite (app_comm_cons n _ e), (drop_component_app (e :: n)) by done. simpl.
  rewrite (proj2 (Z.eqb_neq d SLASH) Hd'). by rewrite <- Ed, reverse_involutive.
Qed.

(** The inputs from which the test builds, and its output. *)
Definition test_buildable (env : BuildEnv) (dir root out : str) (ia pa : u64) : Prop :=
  CARGO_MANIFEST_DIR env = Some dir /\
  (exists tests, parent dir = Some tests /\ parent tests = Some root) /\
  (exists source config, read_to_string env (join root (lit "platforms/qemu.conf")) = Ok source /\
    parse_platform_config source = Ok config /\
    config !! RITM_IMAGE_ADDRESS_KEY = Some ia /\ config !! PAYLOAD_ADDRESS_KEY = Some pa) /\
  OUT_DIR env = Some out /\
  Forall (fun name => writable env (join out (lit name)) = true) ["platform_constants.rs"; "layout.ld"]%string.

Definition test_build_log (dir root out : str) (ia pa : u64) : list build_action :=
  [ Println (lit "cargo:rerun-if-changed=" ++ join root (lit "build_support/platform_config.rs"));
    Println (lit "cargo:rerun-if-changed=" ++ join root (lit "platforms/qemu.conf"));
    WriteFile (join out (lit "platform_constants.rs")) (test_constants ia);
    WriteFile (join out (lit "layout.ld")) (test_layout pa);
    Println (lit "cargo:rustc-link-search=" ++ dir);
    Println (lit "cargo:rustc-link-arg=-Timage.ld");
    Println (lit "cargo:rustc-link-arg=-T" ++ join out (lit "layout.ld")) ].

Lemma integration_test_main_Ret env t :
  integration_test_main env [] = (Ret tt, t) <->
  exists dir root out ia pa, test_buildable env dir root out ia pa /\
    t = test_build_log dir root out ia pa.
Proof.
  unfold integration_test_main, test_buildable, test_config_value. split.
  - intros (dir & Hd%expect_some_Ret & H)%liftB_bind_Ret.
    apply liftB_bind_Ret in H as (tests & Ht%expect_some_Ret & H).
    apply liftB_bind_Ret in H as (root & Hr%expect_some_Ret & H). cbv zeta in H.
    rewrite !println_bind in H.
    apply liftB_bind_Ret in H as (config & (source & Hs & Hc)%platform_config_Ret & H).
    apply liftB_bind_Ret in H as (ia & Hia%expect_some_Ret & H).
    apply liftB_bind_Ret in H as (pa & Hpa%expect_some_Ret & H).
    apply liftB_bind_Ret in H as (out & Hout%expect_some_Ret & H).
    apply write_file_bind_Ret in H as (Hw1 & H). apply write_file_bind_Ret in H as (Hw2 & H).
    rewrite !println_bind in H. injection H as <-. exists dir, root, out, ia, pa.
    split; [split_and!; eauto 6|reflexivity].
  - intros (dir & root & out & ia & pa & (Hd & (tests & Ht & Hr) & (source & config & Hs & Hc & Hia & Hpa)
      & Hout & Hw) & ->).
    rewrite !list.Forall_cons in Hw. destruct Hw as (Hw1 & Hw2 & _).
    apply liftB_bind_Ret. exists dir. split; [by rewrite Hd|].
    apply liftB_bind_Ret. exists tests. split; [by rewrite Ht|].
    apply liftB_bind_Ret. exists root. split; [by rewrite Hr|]. cbv zeta. rewrite !println_bind.
    apply liftB_bind_Ret. exists config. split; [apply platform_config_Ret; eauto|].
    apply liftB_bind_Ret. exists ia. split; [by rewrite Hia|].
    apply liftB_bind_Ret. exists pa. split; [by rewrite Hpa|].
    apply liftB_bind_Ret. exists out. split; [by rewrite Hout|].
    apply write_file_bind_Ret. split; [done|]. apply write_file_bind_Ret. split; [done|].
    rewrite !println_bind. reflexivity.
Qed.

(** The two builds read the same file. *)
Lemma same_addresses env env_t root platforms platform out out_t ia pa payload module dir root' ia' pa' :
  buildable env platforms platform out ia pa payload module ->
  test_buildable env_t dir root' out_t ia' pa' ->
  CARGO_CFG_PLATFORM env = Some (lit "qemu") ->
  CARGO_MANIFEST_DIR env_t = Some (root ++ lit "/tests/integration_test") ->
  root <> [] -> needs_separator root = true ->
  read_to_string env_t (root ++ lit "/platforms/qemu.conf") =
    read_to_string env (lit "platforms/qemu.conf") ->
  ia' = ia /\ pa' = pa.
Proof.
  intros (_ & Hpl' & _ & (source & config & Hs & Hc & Hia & Hpa) & _)
    (Hdir' & (tests & Hp1 & Hp2) & (source' & config' & Hs' & Hc' & Hia' & Hpa') & _) Hpl Hdir Hne Hsep Hread.
  assert (dir = (root ++ SLASH :: lit "tests") ++ SLASH :: lit "integration_test") as -> by
    (rewrite Hdir in Hdir'; injection Hdir' as <-; by rewrite <- app_assoc).
  rewrite parent_join in Hp1; [|by destruct root| |done|by (apply (bool_decide_unpack _); by vm_compute)].
  2: { unfold needs_separator. rewrite reverse_app, reverse_cons. done. }
  injection Hp1 as <-. rewrite parent_join in Hp2; [|done..|by (apply (bool_decide_unpack _); by vm_compute)].
  injection Hp2 as <-.
  assert (Hj : join root (lit "platforms/qemu.conf") = root ++ lit "/platforms/qemu.conf")
    by (unfold join; by rewrite Hsep).
  rewrite Hj, Hread in Hs'. assert (platform = lit "qemu") as -> by congruence.
  change (platform_config_file (lit "qemu")) with (lit "platforms/qemu.conf") in Hs.
  rewrite Hs in Hs'. injection Hs' as <-. rewrite Hc in Hc'. injection Hc' as <-.
  split; congruence.
Qed.

Lemma test_build_log_written dir root out ia pa :
  written (join out (lit "platform_constants.rs")) (test_build_log dir root out ia pa) = Some (test_constants ia) /\
  written (join out (lit "layout.ld")) (test_build_log dir root out ia pa) = Some (test_layout pa).
Proof.
  unfold test_build_log. cbn [written]. rewrite decide_False.
  - by rewrite !decide_True.
  - by intros Hj%join_inj.
Qed.

Lemma test_constants_number ia : is_u64 ia ->
  number_after "RITM_IMAGE_ADDRESS: usize = " (test_constants ia) = Some ia.
Proof.
  intros Hi. eapply (number_after_hex _ _ ia 59); [|done|done].
  unfold test_constants. cbv -[fmt_hex]. reflexivity.
Qed.

Lemma test_layout_number pa : is_u64 pa -> number_after "image : ORIGIN = " (test_layout pa) = Some pa.
Proof.
  intros Hp. eapply (number_after_hex _ _ pa 44); [|done|done].
  unfold test_layout. cbv -[fmt_hex]. reflexivity.
Qed.

(** layout.ld of the PSCI test. *)
Definition psci_layout : str :=
  lit "MEMORY" ++ [LF] ++ lit "{" ++ [LF]
  ++ [TAB] ++ lit "image : ORIGIN = 0x60400000, LENGTH = 4M" ++ [LF] ++ lit "}" ++ [LF].

(** ** Property *)

(** C39: the hypervisor and the integration test are built for the same
    addresses, by the numbers read from the files they are built from.  When
    the build for the qemu platform and the build of the test both succeed from
    one checkout, the address at which the hypervisor's linker script puts its
    image is the one compiled into the hypervisor and the one the test will try
    to read; the address the hypervisor jumps to is the one the test's layout
    links it at, and the one where the linker script puts an embedded payload. *)
Theorem builds_agree env env_t root t t_t :
  lengths_typed env -> main env [] = (Ret tt, t) -> integration_test_main env_t [] = (Ret tt, t_t) ->
  CARGO_CFG_PLATFORM env = Some (lit "qemu") ->
  CARGO_MANIFEST_DIR env_t = Some (root ++ lit "/tests/integration_test") ->
  root <> [] -> needs_separator root = true ->
  read_to_string env_t (root ++ lit "/platforms/qemu.conf") =
    read_to_string env (lit "platforms/qemu.conf") ->
  exists out out_t ld rs constants layout ia pa,
    OUT_DIR env = Some out /\ OUT_DIR env_t = Some out_t /\
    written (join out (lit "platform.ld")) t = Some ld /\
    written (join out (lit "platform.rs")) t = Some rs /\
    written (join out_t (lit "platform_constants.rs")) t_t = Some constants /\
    written (join out_t (lit "layout.ld")) t_t = Some layout /\
    (number_after "RITM_IMAGE_ADDRESS = " ld = Some ia /\
     contains ld (lit "image : ORIGIN = RITM_IMAGE_ADDRESS,") /\
     number_after "RITM_IMAGE_ADDRESS: usize = " rs = Some ia /\
     number_after "RITM_IMAGE_ADDRESS: usize = " constants = Some ia) /\
    (number_after "PAYLOAD_ADDRESS: u64 = " rs = Some pa /\
     number_after "image : ORIGIN = " layout = Some pa /\
     forall n, number_after "payload (rwx) : ORIGIN = " ld = Some n -> n = pa).
Proof.
  intros Hlen Hm Ht Hpl Hdir Hne Hsep Hread.
  apply build_main_Ret in Hm as (platforms & platform & out & ia & pa & payload & module & Hb & ->); [|done].
  apply integration_test_main_Ret in Ht as (dir & root' & out_t & ia' & pa' & Ht & ->).
  destruct (fun E => same_addresses _ _ _ _ _ _ _ _ _ _ _ _ _ _ _ Hb Ht Hpl Hdir Hne Hsep E) as [-> ->]; [done|].
  destruct Hb as (_ & _ & _ & (source & config & _ & Hc & Hia & Hpa) & Hpay & Hout & Hmod & _).
  assert (Hi : is_u64 ia) by by eapply parse_platform_config_range.
  assert (Hp : is_u64 pa) by by eapply parse_platform_config_range.
  assert (Hpa' : forall q, payload = Some q -> payload_address q = pa).
  { apply requested_accepted in Hpay as (q & _ & ->). destruct q; by intros ? [= <-]. }
  destruct (platform_module_numbers _ _ _ _ _ Hmod Hi Hp) as [N1 N2].
  destruct (build_log_written env platforms platform out ia payload module) as (W1 & W2 & _).
  destruct (test_build_log_written dir root' out_t ia pa) as [V1 V2].
  eexists out, out_t, _, _, _, _, ia, pa.
  split; [done|]. split; [apply Ht|]. split_and!; try done.
  - by apply linker_script_image.
  - destruct (linker_script_image_region ia payload) as (a & b & E).
    exists a, (lit " LENGTH = 4M" ++ [LF] ++ b). rewrite E. by rewrite <- !app_assoc.
  - by apply test_constants_number.
  - by apply test_layout_number.
  - intros n. rewrite linker_script_payload; [|done|by intros q ->%Hpa'].
    intros (q & Hq%Hpa' & ->)%fmap_Some. done.
Qed.

(** The layout file of the PSCI test is the one for the payload address of
    qemu_bl33.conf. *)
Lemma psci_layout_agrees :
  exists config, parse_platform_config qemu_bl33_conf = Ok config /\
    number_after "image : ORIGIN = " psci_layout = config !! lit "payload_address".
Proof.
  exists (addresses 0x6000_0000 0x6040_0000). split; [apply qemu_bl33_conf_parses|by vm_compute].
Qed.

(** ** Witness *)

Definition test_env (conf : string) : BuildEnv := {|
  CARGO_CFG_PLATFORM := None; OUT_DIR := Some (lit "/test_out");
  CARGO_MANIFEST_DIR := Some (lit "/ritm/tests/integration_test"); RITM_PAYLOAD := None;
  read_dir _ := None; read_to_string _ := Ok (lit conf); canonicalize _ := None;
  metadata_len _ := None; path_exists _ := false; writable _ := true |}.

Lemma builds_agree_witness :
  exists t t_t ld layout, main (example_env conf_text) [] = (Ret tt, t) /\
    integration_test_main (test_env conf_text) [] = (Ret tt, t_t) /\
    written (lit "/out/platform.ld") t = Some ld /\ written (lit "/test_out/layout.ld") t_t = Some layout /\
    exists ia pa, number_after "RITM_IMAGE_ADDRESS = " ld = Some ia /\ number_after "image : ORIGIN = " layout = Some pa.
Proof.
  assert (H1 : match fst (main (example_env conf_text) []) with Ret _ => true | Panic _ => false end = true)
    by (vm_compute; reflexivity).
  assert (H2 : match fst (integration_test_main (test_env conf_text) []) with Ret _ => true | Panic _ => false end = true)
    by (vm_compute; reflexivity).
  destruct (main (example_env conf_text) []) as [[[]|msg] t] eqn:E1; [|discriminate H1].
  destruct (integration_test_main (test_env conf_text) []) as [[[]|msg] t_t] eqn:E2; [|discriminate H2].
  assert (Hl : lengths_typed (example_env conf_text))
    by (intros path n [= <-]; by apply (bool_decide_unpack _)).
  assert (Hne : lit "/ritm" <> []) by discriminate.
  destruct (builds_agree (example_env conf_text) (test_env conf_text) (lit "/ritm") t t_t
    Hl E1 E2 eq_refl eq_refl Hne eq_refl eq_refl)
    as (out & out_t & ld & rs & consts & layout & ia & pa & Ho & Hot & W1 & _ & _ & W4 & (N1 & _) & (_ & N2 & _)).
  injection Ho as <-. injection Hot as <-.
  exists t, t_t, ld, layout. split_and!; [reflexivity|reflexivity|exact W1|exact W4|].
  exists ia, pa. split; [exact N1|exact N2].
Defined.
