(* ===== verification/Console.v ===== *)
(** * Console, logger and panic handler

    Model of src/src/console.rs (the lock around the console, its once-only
    initialisation, the panic handler) and of src/src/logger.rs (the [Log]
    implementation, [init]), with the level filter of the [log] crate.  The
    rules for [prints] and [tame] describe computations that write to a console
    that transmits what it is given; Boot.v applies them to [main].

    The UART driver, [percore] (masking of exceptions), the spin lock and the
    PSCI call are external: they are the classes [ConsoleDevice], [Percore],
    [SpinLock], [LogCrate] and [SystemOff] with the behaviour their documentation gives. *)

From Stdlib Require Import ZArith Lia.
From stdpp Require Import base tactics list strings numbers.
From S2P Require Import Prelude Str.

#[local] Open Scope Z_scope.

(** ** State and results *)

(** A driver that implements [embedded_io::Write]: [write], [flush] and the
    provided [write_fmt], which [writeln!] calls with the formatted text. *)
Class ConsoleDevice : Type := {
  Dev : Type;
  DevError : Type;
  dev_write : Dev -> list u8 -> result DevError usize * Dev;
  dev_flush : Dev -> result DevError unit * Dev;
  dev_write_fmt : Dev -> str -> result DevError unit * Dev;
}.

(** What one core sees of the console: the static [CONSOLE] (initialised or
    not), the lock inside it, the core's exception mask and the device. *)
Record cstate `{ConsoleDevice} : Type := mkCstate {
  c_installed : bool;
  c_locked : bool;
  c_masked : bool;
  c_dev : Dev;
  c_off_calls : nat;      (* calls of SYSTEM_OFF made so far *)
}.

(** A computation on one core returns, panics (the panic handler is then
    entered in the state of the panic: the image aborts on panic and nothing is
    unwound), powers the machine off, or never makes progress again. *)
Inductive cresult `{ConsoleDevice} (A : Type) : Type :=
| CDone (a : A) (s : cstate)
| CPanics (msg : string) (s : cstate)
| COff (s : cstate)
| CStuck (s : cstate).
Arguments CDone {_ A} _ _.
Arguments CPanics {_ A} _ _.
Arguments COff {_ A} _.
Arguments CStuck {_ A} _.

Definition CM `{ConsoleDevice} (A : Type) : Type := cstate -> cresult A.

#[export] Instance CM_ret `{ConsoleDevice} : MRet CM := fun A a s => CDone a s.
#[export] Instance CM_bind `{ConsoleDevice} : MBind CM := fun A B k m s =>
  match m s with
  | CDone a s => k a s
  | CPanics msg s => CPanics msg s
  | COff s => COff s
  | CStuck s => CStuck s
  end.

Create HintDb console.

Section State.
Context {CD : ConsoleDevice}.

Definition set_masked (b : bool) (s : cstate) : cstate :=
  mkCstate _ (c_installed s) (c_locked s) b (c_dev s) (c_off_calls s).
Definition set_locked (b : bool) (s : cstate) : cstate :=
  mkCstate _ (c_installed s) b (c_masked s) (c_dev s) (c_off_calls s).
Definition set_dev (d : Dev) (s : cstate) : cstate :=
  mkCstate _ (c_installed s) (c_locked s) (c_masked s) d (c_off_calls s).
Definition count_off (s : cstate) : cstate :=
  mkCstate _ (c_installed s) (c_locked s) (c_masked s) (c_dev s) (S (c_off_calls s)).

(** A call into the device behind the lock. *)
Definition on_dev {A} (f : Dev -> A * Dev) : CM A := fun s =>
  let (a, d) := f (c_dev s) in CDone a (set_dev d s).
Definition panic_with {A} (msg : string) : CM A := fun s => CPanics msg s.
End State.

(** ** The external crates *)

(** [percore::exception_free]: runs the closure with exceptions masked and
    restores the mask when it returns. *)
Class Percore `{ConsoleDevice} : Type := { exception_free : forall {A}, CM A -> CM A; }.
Class PercoreLaws `{Percore} : Prop := {
  law_exception_free : forall A (f : CM A) s,
    exception_free f s =
      match f (set_masked true s) with
      | CDone a s' => CDone a (set_masked (c_masked s) s')
      | r => r
      end;
}.

(** [spin::mutex::SpinMutex]: acquiring a lock that this core already holds
    spins for ever; dropping the guard releases it. *)
Class SpinLock `{ConsoleDevice} : Type := { spin_lock : CM unit; spin_unlock : CM unit; }.
Class SpinLockLaws `{SpinLock} : Prop := {
  law_lock_free : forall s, c_locked s = false -> spin_lock s = CDone tt (set_locked true s);
  law_lock_held : forall s, c_locked s = true -> spin_lock s = CStuck s;
  law_unlock : forall s, spin_unlock s = CDone tt (set_locked false s);
}.

(** [smccc::psci::system_off::<Smc>()]: [None] when the firmware powers the
    machine off, else the call's result. *)
Class SystemOff : Type := {
  OffError : Type;
  system_off_answer : option (result OffError unit);
}.

(** The [log] crate: how levels print, and which records a maximal level lets
    through. *)
Inductive Level : Type := LError | LWarn | LInfo | LDebug | LTrace.
Inductive LevelFilter : Type := Off | UpTo (l : Level).
Definition level_index (l : Level) : Z :=
  match l with LError => 1 | LWarn => 2 | LInfo => 3 | LDebug => 4 | LTrace => 5 end.
Class LogCrate : Type := {
  level_name : Level -> str;
  passes : Level -> LevelFilter -> bool;
}.
Class LogCrateLaws `{LogCrate} : Prop := {
  law_passes : forall l m, passes l (UpTo m) = (level_index l <=? level_index m);
}.

(** ** The operations *)

Section Operations.
Context {CD : ConsoleDevice} {PC : Percore} {SL : SpinLock} {SO : SystemOff} {LC : LogCrate}.

(** [exception_free(|token| f(console.borrow(token).lock()))]: the guard is
    dropped at the end of the closure. *)
Definition with_console {A} (f : CM A) : CM A :=
  exception_free (spin_lock ≫= fun _ => f ≫= fun a => spin_unlock ≫= fun _ => mret a).

(** [Write for &Console]. *)
Definition console_write (buf : list u8) : CM (result DevError usize) :=
  with_console (on_dev (fun d => dev_write d buf)).
Definition console_flush : CM (result DevError unit) := with_console (on_dev dev_flush).

(** [writeln!(w, ...)]: the formatted text and a line feed. *)
Definition writeln (text : str) : CM (result DevError unit) :=
  on_dev (fun d => dev_write_fmt d (text ++ [LF])).

(** [Log for Console]: the record's level and its formatted arguments. *)
Definition log_text (level args : str) : str := lit "[" ++ level ++ lit "] " ++ args.
Definition logger_enabled (level : str) : bool := true.
Definition logger_log (level args : str) : CM unit :=
  with_console
    (writeln (log_text level args) ≫= fun r : result DevError unit =>
       match r with Ok _ => mret tt | Err _ => panic_with "writeln failed" end).
Definition logger_flush : CM unit := mret tt.

Definition system_off : CM (result OffError unit) := fun s =>
  let s := count_off s in
  match system_off_answer with
  | None => COff s
  | Some r => CDone r s
  end.

(** [info!] and its likes: a record that passes the filter goes to the logger;
    before a logger is set, records are dropped. *)
Record log_state : Type := mkLog { l_logger : bool; l_max_level : LevelFilter }.
Definition log_record (l : log_state) (level : Level) (args : str) : CM unit :=
  if passes level (l_max_level l) && l_logger l then logger_log (level_name level) args else mret tt.

(** [logger::init], and [console::init]: [call_once] on CONSOLE. *)
Definition logger_init (l : log_state) (max_level : LevelFilter) : result unit log_state :=
  if l_logger l then Err tt else Ok {| l_logger := true; l_max_level := max_level |}.
Definition console_init (console : Dev) : CM unit := fun s =>
  if c_installed s then CDone tt s
  else CDone tt (mkCstate _ true false (c_masked s) console (c_off_calls s)).

(** The panic handler.  The result of the write is ignored. *)
Definition console_get : CM bool := fun s => CDone (c_installed s) s.
Definition spin_forever : CM Empty_set := fun s => CStuck s.
Definition panic_message (info : str) : CM unit :=
  console_get ≫= fun installed : bool =>
  if installed then with_console (writeln info ≫= fun _ => mret tt) else mret tt.
Definition panic_handler (info : str) : CM Empty_set :=
  panic_message info ≫= fun _ =>
  system_off ≫= fun r : result OffError unit =>
  match r with
  | Ok _ => spin_forever
  | Err _ => panic_with "system_off failed"
  end.

(** A panic enters the handler; a panic in the handler enters it again, here
    up to [n] times.  [fmt] formats the panic information. *)
Fixpoint handle_panics (fmt : string -> str) (n : nat) (msg : string) (s : cstate) : cresult Empty_set :=
  match panic_handler (fmt msg) s, n with
  | CPanics msg s, S n => handle_panics fmt n msg s
  | r, _ => r
  end.

(** The whole run of a computation, its panics included. *)
Definition run_to_end {A} (fmt : string -> str) (n : nat) (f : CM A) (s : cstate) :
    cresult A + cresult Empty_set :=
  match f s with
  | CPanics msg s => inr (handle_panics fmt n msg s)
  | r => inl r
  end.
End Operations.

(** ** Lemmas *)

Section Lemmas.
Context {CD : ConsoleDevice} {PC : Percore} {PCL : PercoreLaws} {SL : SpinLock} {SLL : SpinLockLaws}.
Context {SO : SystemOff}.
Implicit Types s : cstate.

(** The state inside the critical section. *)
Definition inside s : cstate := set_locked true (set_masked true s).

Lemma with_console_free {A} (f : CM A) s :
  c_locked s = false ->
  with_console f s =
    match f (inside s) with
    | CDone a s' => CDone a (set_masked (c_masked s) (set_locked false s'))
    | r => r
    end.
Proof.
  intros Hl. unfold with_console. rewrite law_exception_free.
  unfold mbind, CM_bind. rewrite law_lock_free by done. fold (inside s).
  destruct (f (inside s)); try done. by rewrite law_unlock.
Qed.

Lemma with_console_held {A} (f : CM A) s :
  c_locked s = true -> with_console f s = CStuck (set_masked true s).
Proof.
  intros Hl. unfold with_console. rewrite law_exception_free.
  unfold mbind, CM_bind. by rewrite law_lock_held.
Qed.

Lemma with_console_on_dev {A} (f : Dev -> A * Dev) s :
  c_locked s = false ->
  with_console (on_dev f) s = CDone (fst (f (c_dev s))) (set_dev (snd (f (c_dev s))) s).
Proof.
  intros Hl. rewrite with_console_free by done. unfold on_dev, inside. simpl.
  destruct (f (c_dev s)) as [a d] eqn:E. simpl. f_equal.
  destruct s; simpl in *. by subst.
Qed.

Lemma panic_handler_held info s :
  c_installed s = true -> c_locked s = true -> panic_handler info s = CStuck (set_masked true s).
Proof.
  intros Hi Hl. unfold panic_handler, panic_message, mbind, CM_bind, console_get. rewrite Hi.
  by rewrite with_console_held.
Qed.
End Lemmas.

(** ** Computations that print *)

(** A driver that transmits every text it is given. *)
Class ConsoleTransmits `{ConsoleDevice} : Type := {
  transmitted : Dev -> list str;
  law_transmits : forall d text, exists d',
    dev_write_fmt d text = (Ok tt, d') /\ transmitted d' = transmitted d ++ [text];
}.

Section Printing.
Context {CD : ConsoleDevice} {CT : ConsoleTransmits} {PC : Percore} {PCL : PercoreLaws}.
Context {SL : SpinLock} {SLL : SpinLockLaws} {SO : SystemOff} {LC : LogCrate}.
Implicit Types s : cstate.

(** [s'] is [s] after [texts] went out. *)
Record said s s' (texts : list str) : Prop := {
  said_installed : c_installed s' = c_installed s;
  said_locked : c_locked s' = c_locked s;
  said_masked : c_masked s' = c_masked s;
  said_off : c_off_calls s' = c_off_calls s;
  said_texts : transmitted (c_dev s') = transmitted (c_dev s) ++ texts;
}.

Lemma said_refl s : said s s [].
Proof. split; [done..|]. by rewrite app_nil_r. Qed.
Lemma said_trans s1 s2 s3 l1 l2 : said s1 s2 l1 -> said s2 s3 l2 -> said s1 s3 (l1 ++ l2).
Proof. intros [] []. split; [congruence..|]. rewrite app_assoc. congruence. Qed.

(** With the lock free, [m] returns [a] and prints [texts]; [m] prints
    something and either returns a value with [Q] or panics, outside the
    critical section. *)
Definition prints {A} (m : CM A) (a : A) (texts : list str) : Prop := forall s,
  c_locked s = false -> exists s', m s = CDone a s' /\ said s s' texts.
Definition tame {A} (m : CM A) (Q : A -> Prop) : Prop := forall s, c_locked s = false ->
  exists s' texts, said s s' texts /\
    ((exists a, m s = CDone a s' /\ Q a) \/ exists msg, m s = CPanics msg s').

Lemma prints_ret {A} (a : A) : prints (mret a) a [].
Proof. intros s _. exists s. split; [done|apply said_refl]. Qed.

Lemma prints_bind {A B} (m : CM A) (k : A -> CM B) a b l1 l2 :
  prints m a l1 -> prints (k a) b l2 -> prints (m ≫= k) b (l1 ++ l2).
Proof.
  intros Hm Hk s Hs. destruct (Hm s Hs) as (s1 & E1 & H1).
  destruct (Hk s1 ltac:(rewrite (said_locked _ _ _ H1); done)) as (s2 & E2 & H2).
  exists s2. unfold mbind, CM_bind. rewrite E1. split; [done|by eapply said_trans].
Qed.

Lemma prints_tame {A} (m : CM A) a l (Q : A -> Prop) : prints m a l -> Q a -> tame m Q.
Proof. intros Hm HQ s Hs. destruct (Hm s Hs) as (s' & E & H). eauto 8. Qed.

Lemma tame_panic {A} msg (Q : A -> Prop) : tame (panic_with msg) Q.
Proof. intros s _. exists s, []. split; [apply said_refl|]. right. by exists msg. Qed.

Lemma tame_bind {A B} (m : CM A) (k : A -> CM B) P Q :
  tame m P -> (forall a, P a -> tame (k a) Q) -> tame (m ≫= k) Q.
Proof.
  intros Hm Hk s Hs. destruct (Hm s Hs) as (s1 & l1 & H1 & [(a & E & Ha)|[msg E]]);
    unfold mbind, CM_bind; rewrite E.
  - destruct (Hk a Ha s1 ltac:(rewrite (said_locked _ _ _ H1); done)) as (s2 & l2 & H2 & Hr).
    exists s2, (l1 ++ l2). split; [by eapply said_trans|done].
  - exists s1, l1. split; [done|]. right. by exists msg.
Qed.

(** The text of a record, and of a record that the filter lets through. *)
Definition log_line (level : Level) (args : str) : str := log_text (level_name level) args ++ [LF].
Definition log_lines (l : log_state) (level : Level) (args : str) : list str :=
  if passes level (l_max_level l) && l_logger l then [log_line level args] else [].

Lemma prints_logger level args : prints (logger_log level args) tt [log_text level args ++ [LF]].
Proof.
  intros s Hs. destruct (law_transmits (c_dev s) (log_text level args ++ [LF])) as (d & Hd & Ht).
  exists (set_dev d s). unfold logger_log. rewrite with_console_free by done.
  unfold writeln, mbind, CM_bind, on_dev. replace (c_dev (inside s)) with (c_dev s) by done. rewrite Hd.
  split; [|by split]. simpl. unfold mret, CM_ret. destruct s; simpl in *. by subst.
Qed.

Lemma prints_log l level args : prints (log_record l level args) tt (log_lines l level args).
Proof.
  unfold log_record, log_lines. destruct (_ && _); [apply prints_logger|apply prints_ret].
Qed.

(** A panic outside the critical section is reported, and the machine goes off. *)
Lemma tame_panic_reported (fmt : string -> str) (n : nat) msg s :
  c_locked s = false -> c_installed s = true -> system_off_answer = None ->
  exists s', handle_panics fmt n msg s = COff s' /\ c_off_calls s' = S (c_off_calls s) /\
    transmitted (c_dev s') = transmitted (c_dev s) ++ [fmt msg ++ [LF]].
Proof.
  intros Hl Hi Hoff. destruct (law_transmits (c_dev s) (fmt msg ++ [LF])) as (d & Hd & Ht).
  exists (count_off (set_dev d s)). split; [|done].
  enough (H : panic_handler (fmt msg) s = COff (count_off (set_dev d s))) by (destruct n; simpl; by rewrite H).
  unfold panic_handler, panic_message, console_get, mbind, CM_bind. rewrite Hi.
  rewrite with_console_free by done. unfold writeln, mbind, CM_bind, on_dev.
  replace (c_dev (inside s)) with (c_dev s) by done. rewrite Hd. simpl. unfold system_off. rewrite Hoff.
  destruct s; simpl in *. by subst.
Qed.
End Printing.
#[export] Hint Resolve prints_ret prints_log tame_panic : console.

(** ** Properties *)

Section Properties.
Context {CD : ConsoleDevice} {PC : Percore} {PCL : PercoreLaws} {SL : SpinLock} {SLL : SpinLockLaws}.
Context {SO : SystemOff}.

(** How the log call acts on a state whose lock is free. *)
Definition log_result (level args : str) (s : cstate) : cresult unit :=
  let (r, d) := dev_write_fmt (c_dev s) (log_text level args ++ [LF]) in
  match r with
  | Ok _ => CDone tt (set_dev d s)
  | Err _ => CPanics "writeln failed" (set_dev d (inside s))
  end.

(** With the lock free, [write], [flush] and [log] make exactly one call to
    the driver and return its answer, with the lock released and the exception
    mask as it was; a failed write of a log record panics inside the critical
    section.  With the lock held by this core none of them ever returns. *)
Theorem console_operations_exact s (buf : list u8) (level args : str) :
  (c_locked s = false ->
     (let (r, d) := dev_write (c_dev s) buf in console_write buf s = CDone r (set_dev d s)) /\
     (let (r, d) := dev_flush (c_dev s) in console_flush s = CDone r (set_dev d s)) /\
     logger_log level args s = log_result level args s) /\
  (c_locked s = true ->
     console_write buf s = CStuck (set_masked true s) /\
     console_flush s = CStuck (set_masked true s) /\
     logger_log level args s = CStuck (set_masked true s)).
Proof.
  split; intros Hl.
  - split_and!.
    + unfold console_write. rewrite with_console_on_dev by done. by destruct (dev_write _ _).
    + unfold console_flush. rewrite with_console_on_dev by done. by destruct (dev_flush _).
    + unfold logger_log, log_result, writeln. rewrite with_console_free by done.
      unfold mbind, CM_bind, on_dev. simpl.
      destruct (dev_write_fmt _ _) as [[] d]; simpl; [|done]. do 2 f_equal.
      destruct s; simpl in *. by subst.
  - by unfold console_write, console_flush, logger_log; rewrite !with_console_held by done.
Qed.

(** What the panic handler's attempt to write leaves of the device. *)
Definition after_message (info : str) (s : cstate) : cstate :=
  if c_installed s then set_dev (snd (dev_write_fmt (c_dev s) (info ++ [LF]))) s else s.

(** C35: Entered with the console lock free, the panic handler writes its
    message at most once (not at all before the console is initialised),
    ignores a write error, and then calls SYSTEM_OFF exactly once: it powers
    off, loops if the call returns, or panics again if the call reports an
    error. *)
Theorem panic_handler_exact (info : str) (s : cstate) (Hfree : c_locked s = false) :
  let s' := count_off (after_message info s) in
  panic_handler info s =
    match system_off_answer with
    | None => COff s'
    | Some (Ok _) => CStuck s'
    | Some (Err _) => CPanics "system_off failed" s'
    end.
Proof.
  assert (Hw : panic_message info s = CDone tt (after_message info s)).
  { unfold panic_message, console_get, mbind at 1, CM_bind at 1, after_message. destruct (c_installed s); [|done].
    rewrite with_console_free by done. unfold writeln, mbind, CM_bind, on_dev. simpl.
    destruct (dev_write_fmt _ _) as [r d]. simpl. unfold mret, CM_ret. f_equal.
    destruct s; simpl in *. by subst. }
  unfold panic_handler, mbind, CM_bind. rewrite Hw. unfold system_off. by destruct system_off_answer as [[]|].
Qed.

(** C36: When the driver reports an error on a log record, the machine is never
    powered off: the panic is raised with the console lock held, and the panic
    handler then waits for that lock for ever, whatever SYSTEM_OFF would
    answer and however many nested panics are allowed. *)
Theorem failed_log_never_powers_off (fmt : string -> str) (n : nat) (level args : str) (s : cstate)
    (e : DevError) (d : Dev)
    (Hinstalled : c_installed s = true) (Hfree : c_locked s = false)
    (Herror : dev_write_fmt (c_dev s) (log_text level args ++ [LF]) = (Err e, d)) :
  run_to_end fmt n (logger_log level args) s = inr (CStuck (set_dev d (inside s))).
Proof.
  unfold run_to_end, logger_log. rewrite with_console_free by done.
  unfold writeln, mbind, CM_bind, on_dev.
  replace (c_dev (inside s)) with (c_dev s) by done. rewrite Herror. simpl.
  destruct n; simpl; rewrite panic_handler_held; done.
Qed.
End Properties.

(** ** Witnesses *)

Module ConsoleExample.
#[export] Instance example_percore `{ConsoleDevice} : Percore := {|
  exception_free A f s :=
    match f (set_masked true s) with
    | CDone a s' => CDone a (set_masked (c_masked s) s')
    | r => r
    end |}.
#[export] Instance example_percore_laws `{ConsoleDevice} : PercoreLaws.
Proof. by split. Qed.
#[export] Instance example_spin `{ConsoleDevice} : SpinLock := {|
  spin_lock s := if c_locked s then CStuck s else CDone tt (set_locked true s);
  spin_unlock s := CDone tt (set_locked false s) |}.
#[export] Instance example_spin_laws `{ConsoleDevice} : SpinLockLaws.
Proof. by split; intros s; simpl; try intros ->. Qed.
#[export] Instance example_log : LogCrate := {|
  level_name l := match l with
    | LError => lit "ERROR" | LWarn => lit "WARN" | LInfo => lit "INFO" | LDebug => lit "DEBUG"
    | LTrace => lit "TRACE"
    end;
  passes l m := match m with Off => false | UpTo m => level_index l <=? level_index m end |}.
#[export] Instance example_log_laws : LogCrateLaws.
Proof. done. Qed.
#[export] Instance example_off : SystemOff := {| OffError := unit; system_off_answer := None |}.
End ConsoleExample.

(** A device that accepts [fuel] texts and then fails. *)
Module FailingConsole.
#[export] Instance example_device : ConsoleDevice := {|
  Dev := nat * list str; DevError := unit;
  dev_write d buf := (Ok (Z.of_nat (length buf)), (fst d, snd d ++ [buf]));
  dev_flush d := (Ok tt, d);
  dev_write_fmt d t :=
    match fst d with O => (Err tt, d) | S n => (Ok tt, (n, snd d ++ [t])) end |}.

Definition quiet (fuel : nat) : cstate := mkCstate _ true false false (fuel, []) 0.
End FailingConsole.

(** A device that transmits everything. *)
Module LineConsole.
#[export] Instance line_device : ConsoleDevice := {|
  Dev := list str; DevError := unit;
  dev_write d buf := (Ok (Z.of_nat (length buf)), d ++ [buf]);
  dev_flush d := (Ok tt, d); dev_write_fmt d t := (Ok tt, d ++ [t]) |}.
#[export] Instance line_transmits : ConsoleTransmits.
Proof. refine {| transmitted (d : Dev) := d : list str |}. intros d text. by exists (d ++ [text]). Defined.
End LineConsole.

Section ConsoleWitnesses.
Import ConsoleExample FailingConsole.

Lemma console_operations_exact_witness :
  logger_log (lit "INFO") (lit "x") (quiet 1) =
    CDone tt (mkCstate _ true false false (0%nat, [lit "[INFO] x" ++ [LF]]) 0).
Proof.
  rewrite (proj2 (proj2 (proj1 (console_operations_exact (quiet 1) [] (lit "INFO") (lit "x")) eq_refl))).
  reflexivity.
Defined.

Lemma panic_handler_exact_witness :
  panic_handler (lit "boom") (quiet 1) =
    COff (mkCstate _ true false false (0%nat, [lit "boom" ++ [LF]]) 1).
Proof. exact (panic_handler_exact (lit "boom") (quiet 1) eq_refl). Defined.

Lemma failed_log_never_powers_off_witness :
  run_to_end lit 3 (logger_log (lit "INFO") (lit "x")) (quiet 0) =
    inr (CStuck (mkCstate _ true true true (0%nat, []) 0)).
Proof.
  exact (failed_log_never_powers_off lit 3 (lit "INFO") (lit "x") (quiet 0) tt (0%nat, [])
           eq_refl eq_refl eq_refl).
Defined.
End ConsoleWitnesses.
