(* ===== verification/DeviceTree.v ===== *)
(** * The device tree

    The part of src/src/platform/qemu.rs that reads and edits the device tree
    ([read_boot_mode_from_cmd], [dram_range], [fdt_address], [modify_dt]), with
    [shared_alloc] of src/src/main.rs.  The device-tree library ([dtoolkit]) and
    the buddy allocator are external: they are the classes [Dtoolkit] and
    [SharedAllocator].  The warnings go through the logger of Console.v. *)

From Stdlib Require Import ZArith Lia.
From stdpp Require Import base tactics list gmap strings numbers.
From S2P Require Import Prelude Str MemoryAccess SimpleMap Stage2 Exceptions HvcResponse Pagetable.
From S2P Require Import Console Platform Qemu.

#[local] Open Scope Z_scope.
#[local] Open Scope rust_scope.

(** ** External interfaces *)

(** [dtoolkit]: a flattened tree and its nodes; the editable tree. *)
Class Dtoolkit : Type := {
  Fdt : Type;
  FdtNode : Type;
  FdtProperty : Type;
  FdtReg : Type;
  root_child : Fdt -> str -> option FdtNode;
  node_property : FdtNode -> str -> option FdtProperty;
  property_as_str : FdtProperty -> option str;
  node_reg : FdtNode -> option (option (list FdtReg));  (* outer None: invalid *)
  reg_address : FdtReg -> option u64;                   (* None: does not fit *)
  reg_size : FdtReg -> option u64;
  DeviceTree : Type;
  from_fdt : Fdt -> DeviceTree;
  remove_child : DeviceTree -> str -> option DeviceTree;
  add_child : DeviceTree -> str -> list (str * list u8) -> option DeviceTree; (* None: invalid name *)
  to_dtb : DeviceTree -> list u8;
  fdt_from_raw : u64 -> list u8 -> option Fdt;          (* the bytes at an address *)
  fdt_data : Fdt -> u64;
}.

(** The allocator behind SHARED_HEAP_ALLOCATOR. *)
Class SharedAllocator : Type := {
  Heap : Type;
  heap_init : usize -> usize -> Heap;                             (* base, size *)
  heap_alloc : Heap -> usize -> usize -> option (usize * Heap);   (* size, alignment *)
}.

(** A block comes from the memory the heap was given, aligned; a tree read from
    an address has its data there. *)
Class SharedAllocatorLaws `{SharedAllocator} : Prop := {
  law_heap_alloc : forall base size n align p h, heap_alloc (heap_init base size) n align = Some (p, h) ->
    base <= p /\ p + n <= base + size /\ (align | p);
}.
Class DtoolkitLaws `{Dtoolkit} : Prop := {
  law_fdt_data : forall a bytes fdt, fdt_from_raw a bytes = Some fdt -> fdt_data fdt = a;
}.

(** Removing a child that exists, adding a node with a well-formed name and
    reading back a serialised tree succeed. *)
Class DtoolkitTotal `{Dtoolkit} : Prop := {
  law_remove_child : forall fdt name, is_Some (root_child fdt name) ->
    is_Some (remove_child (from_fdt fdt) name);
  law_add_child : forall t address properties, is_u64 address ->
    is_Some (add_child t (lit "memory@" ++ digits 16 address) properties);
  law_to_dtb : forall a t, is_Some (fdt_from_raw a (to_dtb t));
}.

Definition FDT_ALIGNMENT : usize := 8.
Definition DEFAULT_FDT_ADDRESS : u64 := DRAM_START.
(** [u64::to_be_bytes]. *)
Fixpoint be_bytes (n : nat) (x : u64) : list u8 :=
  match n with
  | O => []
  | S n => be_bytes n (x / 256) ++ [x mod 256]
  end.
Definition to_be_bytes (x : u64) : list u8 := be_bytes 8 x.

(** [format!("memory@{:x}")]. *)
Definition memory_node_name (address : u64) : str := lit "memory@" ++ digits 16 address.

Section Dt.
Context {CD : ConsoleDevice} {PC : Percore} {SL : SpinLock} {LC : LogCrate}.
Context {DT : Dtoolkit} {SH : SharedAllocator} {IMG : QemuImage}.
(** The state of the logger while the platform runs. *)
Context (log : log_state).

(** ** Reading the tree *)

(** The loop over [args.split_whitespace()]. *)
Fixpoint boot_mode_of_args (args : list str) : CM (option BootMode) :=
  match args with
  | [] => mret None
  | arg :: args =>
      match strip_prefix (lit "ritm.boot_mode=") arg with
      | Some boot_mode =>
          if bool_decide (boot_mode = lit "el2") then mret (Some El2)
          else if bool_decide (boot_mode = lit "el1") then mret (Some El1)
          else _ ← log_record log LWarn (lit "Unknown boot mode specified: " ++ arg);
               boot_mode_of_args args
      | None => boot_mode_of_args args
      end
  end.

Definition read_boot_mode_from_cmd (fdt : Fdt) : CM (option BootMode) :=
  match root_child fdt (lit "chosen") with
  | None => mret None
  | Some chosen =>
      match node_property chosen (lit "bootargs") with
      | None => mret None
      | Some bootargs =>
          match property_as_str bootargs with
          | None => mret None
          | Some args => boot_mode_of_args (split_whitespace args)
          end
      end
  end.

Definition qemu_boot_mode (fdt : Fdt) : CM BootMode :=
  mode ← read_boot_mode_from_cmd fdt; mret (default El1 mode).

Definition fallback_warning : str :=
  lit "No FDT address was passed in x0; falling back to QEMU virt default FDT address".
Definition qemu_fdt_address (boot_fdt_address : u64) : CM u64 :=
  if boot_fdt_address =? 0 then
    _ ← log_record log LWarn fallback_warning; mret DEFAULT_FDT_ADDRESS
  else mret boot_fdt_address.

Definition dram_range (fdt : Fdt) : outcome (usize * usize) :=
  let! memory := expect_some (root_child fdt (memory_node_name DRAM_START)) "memory node not found" in
  let! regs := expect_some (node_reg memory) "memory reg property should be valid" in
  let! regs := expect_some regs "memory node should have a reg property" in
  let! reg := expect_some (hd_error regs) "memory node should have at least one range" in
  let! start := expect_some (reg_address reg) "memory address should fit in u64" in
  let! size := expect_some (reg_size reg) "memory size should fit in u64" in
  let! e := add64 start size in
  Ret (start, e).

(** ** Editing it *)

(** The [reg] properties of the two new memory nodes. *)
Definition lower_memory (dram_start : usize) : outcome (list u8) :=
  let! size := sub64 RITM_START dram_start in
  Ret (to_be_bytes dram_start ++ to_be_bytes size).
Definition upper_memory (dram_end : usize) : outcome (list u8) :=
  let! size := sub64 dram_end RITM_END in
  Ret (to_be_bytes RITM_END ++ to_be_bytes size).

Definition memory_properties (reg : list u8) : list (str * list u8) :=
  [(lit "reg", reg); (lit "device_type", lit "memory" ++ [0])].

(** The edited tree. *)
Definition modified_tree (fdt : Fdt) : outcome DeviceTree :=
  let! (dram_start, dram_end) := dram_range fdt in
  let dt := from_fdt fdt in
  let! lower := lower_memory dram_start in
  let! upper := upper_memory dram_end in
  let! dt := expect_some (remove_child dt (memory_node_name DRAM_START)) "memory node not found" in
  let! dt := expect_some (add_child dt (memory_node_name dram_start) (memory_properties lower))
               "valid node name" in
  expect_some (add_child dt (memory_node_name RITM_END) (memory_properties upper)) "valid node name".

(** [crate::shared_alloc]: the address of the new buffer. *)
Definition shared_alloc (heap : Heap) (size align : usize) : outcome (usize * Heap) :=
  expect_some (heap_alloc heap size align) "failed to allocate from shared heap".

(** [Layout::from_size_align(size, FDT_ALIGNMENT)]. *)
Definition layout_valid (size align : usize) : bool := size <=? 2 ^ 63 - align.

Definition modify_dt (fdt : Fdt) (heap : Heap) : outcome (Fdt * Heap) :=
  let! dt := modified_tree fdt in
  let new_dtb := to_dtb dt in
  let size := Z.of_nat (length new_dtb) in
  if negb (layout_valid size FDT_ALIGNMENT) then Panic "invalid layout" else
  let! (fdt_address, heap) := shared_alloc heap size FDT_ALIGNMENT in
  let! fdt := expect_some (fdt_from_raw fdt_address new_dtb) "fdt_address is not a valid fdt" in
  Ret (fdt, heap).
End Dt.

(** ** Lemmas *)

(** Reading big-endian cells back. *)
Fixpoint be_value (l : list u8) : Z :=
  match l with
  | [] => 0
  | b :: l => b * 256 ^ Z.of_nat (length l) + be_value l
  end.

Lemma be_bytes_length n x : length (be_bytes n x) = n.
Proof. revert x. induction n; intros x; simpl; [done|]. rewrite length_app, IHn. simpl. lia. Qed.

Lemma be_value_app l b : be_value (l ++ [b]) = be_value l * 256 + b.
Proof.
  induction l as [|a l IH]; simpl; [lia|]. rewrite IH, length_app. cbn [length].
  rewrite Nat2Z.inj_add, Z.pow_add_r by lia. simpl (256 ^ Z.of_nat 1). lia.
Qed.

Lemma be_value_bytes n x : 0 <= x < 256 ^ Z.of_nat n -> be_value (be_bytes n x) = x.
Proof.
  revert x. induction n as [|n IH]; intros x Hx; cbn [be_bytes]; [simpl in *; lia|].
  rewrite Nat2Z.inj_succ, Z.pow_succ_r in Hx by lia.
  rewrite be_value_app, IH.
  - pose proof (Z.div_mod x 256). lia.
  - split; [apply Z.div_pos; lia|]. apply Z.div_lt_upper_bound; lia.
Qed.

(** A [reg] property with 64-bit cells: base and size. *)
Definition reg_range (reg : list u8) : Z * Z := (be_value (take 8 reg), be_value (drop 8 reg)).
Definition reg_covers (reg : list u8) (x : Z) : Prop :=
  let '(base, size) := reg_range reg in base <= x < base + size.

Lemma reg_range_bytes a b : is_u64 a -> is_u64 b -> reg_range (to_be_bytes a ++ to_be_bytes b) = (a, b).
Proof.
  intros Ha Hb. unfold reg_range, to_be_bytes.
  rewrite take_app_length', drop_app_length' by (by rewrite be_bytes_length).
  rewrite !be_value_bytes by (change (256 ^ Z.of_nat 8) with (2 ^ 64); done). done.
Qed.

(** The two boot options. *)
Definition boot_mode_word (m : BootMode) : str :=
  match m with El1 => lit "ritm.boot_mode=el1" | El2 => lit "ritm.boot_mode=el2" end.

(** The mode the words of a command line select, and the words [warn!]
    reports. *)
Fixpoint args_mode (args : list str) : list str * option BootMode :=
  match args with
  | [] => ([], None)
  | arg :: args =>
      if bool_decide (arg = boot_mode_word El2) then ([], Some El2)
      else if bool_decide (arg = boot_mode_word El1) then ([], Some El1)
      else let '(unknown, mode) := args_mode args in
           (match strip_prefix (lit "ritm.boot_mode=") arg with
            | Some _ => arg :: unknown
            | None => unknown
            end, mode)
  end.

(** The command line of a tree; its mode and the words reported. *)
Definition bootargs `{Dtoolkit} (fdt : Fdt) : list str :=
  match root_child fdt (lit "chosen") with
  | Some chosen =>
      match node_property chosen (lit "bootargs") with
      | Some prop => default [] (split_whitespace <$> property_as_str prop)
      | None => []
      end
  | None => []
  end.
Definition tree_mode `{Dtoolkit} (fdt : Fdt) : BootMode := default El1 (args_mode (bootargs fdt)).2.

(** The address a tree is read from. *)
Definition chosen_fdt_address (boot_fdt_address : u64) : u64 :=
  if boot_fdt_address =? 0 then DEFAULT_FDT_ADDRESS else boot_fdt_address.

Section Reading.
Context {CD : ConsoleDevice} {CT : ConsoleTransmits} {PC : Percore} {PCL : PercoreLaws}.
Context {SL : SpinLock} {SLL : SpinLockLaws} {LC : LogCrate} {DT : Dtoolkit}.

Definition mode_warnings (log : log_state) (unknown : list str) : list str :=
  unknown ≫= fun arg => log_lines log LWarn (lit "Unknown boot mode specified: " ++ arg).
Definition address_warnings (log : log_state) (boot_fdt_address : u64) : list str :=
  if boot_fdt_address =? 0 then log_lines log LWarn fallback_warning else [].

Lemma boot_mode_words arg v :
  strip_prefix (lit "ritm.boot_mode=") arg = Some v ->
  (arg = boot_mode_word El2 <-> v = lit "el2") /\ (arg = boot_mode_word El1 <-> v = lit "el1").
Proof.
  intros ->%strip_prefix_Some.
  change (boot_mode_word El2) with (lit "ritm.boot_mode=" ++ lit "el2").
  change (boot_mode_word El1) with (lit "ritm.boot_mode=" ++ lit "el1").
  split; (split; [apply app_inv_head|by intros ->]).
Qed.

Lemma boot_mode_of_args_prints log args :
  prints (boot_mode_of_args log args) (args_mode args).2 (mode_warnings log (args_mode args).1).
Proof.
  induction args as [|arg args IH]; [apply prints_ret|]. cbn [boot_mode_of_args args_mode].
  destruct (args_mode args) as [unknown mode]. destruct (strip_prefix _ arg) as [v|] eqn:E.
  - destruct (boot_mode_words _ _ E) as [H2 H1]. rewrite (bool_decide_ext _ _ H2), (bool_decide_ext _ _ H1).
    repeat case_bool_decide; [apply prints_ret..|]. simpl in IH |- *.
    by apply (prints_bind _ _ tt); [apply prints_log|].
  - rewrite !bool_decide_eq_false_2; [done|by intros ->..].
Qed.

Lemma qemu_boot_mode_prints log fdt :
  prints (qemu_boot_mode log fdt) (tree_mode fdt) (mode_warnings log (args_mode (bootargs fdt)).1).
Proof.
  unfold qemu_boot_mode. rewrite <- (app_nil_r (mode_warnings _ _)).
  apply (prints_bind _ _ (args_mode (bootargs fdt)).2); [|apply prints_ret].
  unfold read_boot_mode_from_cmd, bootargs.
  destruct (root_child _ _) as [c|]; [|apply prints_ret]. simpl.
  destruct (node_property _ _) as [p|]; [|apply prints_ret]. simpl.
  destruct (property_as_str p); [apply boot_mode_of_args_prints|apply prints_ret].
Qed.

Lemma qemu_fdt_address_prints log x :
  prints (qemu_fdt_address log x) (chosen_fdt_address x) (address_warnings log x).
Proof.
  unfold qemu_fdt_address, chosen_fdt_address, address_warnings.
  destruct (x =? 0); [|apply prints_ret].
  rewrite <- (app_nil_r (log_lines _ _ _)). by apply (prints_bind _ _ tt); [apply prints_log|apply prints_ret].
Qed.
End Reading.

Lemma args_mode_Some args m :
  (args_mode args).2 = Some m <->
  exists pre post, args = pre ++ boot_mode_word m :: post /\
    forall m', boot_mode_word m' ∉ pre.
Proof.
  assert (Hd : boot_mode_word El1 <> boot_mode_word El2) by done.
  induction args as [|arg args IH].
  { split; [done|]. intros ([|? ?] & post & H & _); done. }
  cbn [args_mode]. destruct (args_mode args) as [unknown mode]. simpl in IH. split.
  - case_bool_decide as H2; [intros [= <-]; exists [], args; by rewrite H2; split; [|set_solver]|].
    case_bool_decide as H1; [intros [= <-]; exists [], args; by rewrite H1; split; [|set_solver]|].
    intros (pre & post & -> & Hpre)%IH. exists (arg :: pre), post. split; [done|].
    intros m' [Hm|Hm]%elem_of_cons; [destruct m'; congruence|by apply (Hpre m')].
  - intros ([|a pre] & post & Heq & Hpre).
    + injection Heq as -> ->. destruct m; repeat case_bool_decide; done.
    + injection Heq as -> ->. assert (Hn : forall m', a <> boot_mode_word m')
        by (intros m' ->; apply (Hpre m'); left).
      rewrite !bool_decide_eq_false_2 by apply Hn. apply IH. exists pre, post. split; [done|].
      intros m' Hm. apply (Hpre m'). by right.
Qed.

(** ** Properties *)

(** The boot mode is EL2 exactly when the kernel command line selects it:
    /chosen/bootargs is a string whose first word that is one of the two valid
    ritm.boot_mode options is the EL2 one; unknown values are skipped, and
    everything else, a missing node or property included, boots at EL1. *)
Theorem boot_mode_el2_iff {DT : Dtoolkit} fdt :
  tree_mode fdt = El2 <->
  exists chosen prop args pre post,
    root_child fdt (lit "chosen") = Some chosen /\ node_property chosen (lit "bootargs") = Some prop /\
    property_as_str prop = Some args /\
    split_whitespace args = pre ++ boot_mode_word El2 :: post /\
    forall m, boot_mode_word m ∉ pre.
Proof.
  unfold tree_mode, bootargs. split.
  - destruct (root_child _ _) as [chosen|] eqn:H1; [|done]. simpl.
    destruct (node_property _ _) as [prop|] eqn:H2; [|done]. simpl.
    destruct (property_as_str prop) as [args|] eqn:H3; [|done]. simpl.
    destruct (args_mode _).2 as [m|] eqn:H4; [|done]. simpl. intros ->.
    apply args_mode_Some in H4 as (pre & post & H4 & H5).
    exists chosen, prop, args, pre, post. done.
  - intros (chosen & prop & args & pre & post & -> & -> & -> & H4 & H5). simpl.
    assert (Hm : (args_mode (split_whitespace args)).2 = Some El2)
      by (apply args_mode_Some; eauto). by rewrite Hm.
Qed.

(** C38: the device tree hides exactly the RITM image: the [reg] properties of
    the two memory nodes that replace the original one, read back as 64-bit
    big-endian cells, cover every address of the DRAM range but those of the
    image; when the image does not lie inside the DRAM range, building them
    panics. *)
Theorem memory_nodes_exact {IMG : QemuImage} dram_start dram_end :
  is_u64 dram_start -> is_u64 dram_end -> is_u64 RITM_START -> is_u64 RITM_END ->
  match lower_memory dram_start, upper_memory dram_end with
  | Ret lower, Ret upper =>
      dram_start <= RITM_START /\ RITM_END <= dram_end /\
      forall x, reg_covers lower x \/ reg_covers upper x <->
        dram_start <= x < dram_end /\ ~ RITM_START <= x < RITM_END
  | _, _ => RITM_START < dram_start \/ dram_end < RITM_END
  end.
Proof.
  intros Hs He Hrs Hre. unfold lower_memory, upper_memory, sub64.
  destruct (Z.leb_spec dram_start RITM_START); cbn [bindO]; [|by left].
  destruct (Z.leb_spec RITM_END dram_end); cbn [bindO]; [|by right].
  split_and!; [done..|]. intros x. unfold reg_covers.
  assert (RITM_START < RITM_END) by (unfold RITM_END; lia).
  rewrite !reg_range_bytes by (unfold in_range in *; lia). lia.
Qed.

(** The policy maps DRAM outside the image up to 4 GiB. *)
Lemma mapped_below_4g {PT : PageTable} {S2F : Stage2Flags} {SA : SmcccArch} {IMG : QemuImage} dram_end :
  image_ok -> RITM_END <= dram_end ->
  (forall x, DRAM_START <= x < dram_end -> ~ RITM_START <= x < RITM_END ->
     qemu_policy x = Direct STAGE2_MEMORY_ATTRIBUTES) <-> dram_end <= 2 ^ 32.
Proof.
  intros Himg Hend. pose proof (shared_pages Himg) as (_ & _ & ? & ? & ? & ?).
  destruct Himg as (_ & ? & ? & ? & ?). assert (RITM_START < RITM_END) by (unfold RITM_END; lia).
  assert (Hp : qemu_policy (2 ^ 32) = Denied).
  { unfold qemu_policy, DRAM_START, FILTERED_MMIO_BASE, FILTERED_MMIO_SIZE, PAGE_SIZE in *.
    repeat match goal with |- context [inside ?lo ?hi ?x] =>
      rewrite (proj2 (inside_false lo hi x)) by lia end. done. }
  split.
  - intros Hall. destruct (decide (dram_end <= 2 ^ 32)) as [|Hgt]; [done|].
    rewrite (Hall (2 ^ 32)) in Hp by (unfold DRAM_START in *; lia). done.
  - intros Hle x Hx Hn.
    unfold qemu_policy, DRAM_START, FILTERED_MMIO_BASE, FILTERED_MMIO_SIZE, PAGE_SIZE in *.
    rewrite (proj2 (inside_false _ (_ + _) _)) by lia.
    rewrite (proj2 (inside_false 0 _ _)) by lia.
    destruct (Z.lt_ge_cases x RITM_START).
    + by rewrite (proj2 (inside_true _ RITM_START x)) by lia.
    + rewrite (proj2 (inside_true RITM_END _ x)) by lia. by rewrite orb_true_r.
Qed.

(** The nodes of the edited tree, and what they need. *)
Lemma modified_tree_nodes {IMG : QemuImage} {DT : Dtoolkit} fdt dram_start dram_end dt :
  dram_range fdt = Ret (dram_start, dram_end) -> modified_tree fdt = Ret dt ->
  dram_start <= RITM_START /\ RITM_END <= dram_end /\
  exists lower upper d1 d2, lower_memory dram_start = Ret lower /\ upper_memory dram_end = Ret upper /\
    remove_child (from_fdt fdt) (memory_node_name DRAM_START) = Some d1 /\
    add_child d1 (memory_node_name dram_start) (memory_properties lower) = Some d2 /\
    add_child d2 (memory_node_name RITM_END) (memory_properties upper) = Some dt.
Proof.
  intros Hr. unfold modified_tree. rewrite Hr. cbn [bindO].
  destruct (lower_memory dram_start) as [lower|] eqn:El; [|done]. cbn [bindO].
  destruct (upper_memory dram_end) as [upper|] eqn:Eu; [|done]. cbn [bindO].
  destruct (remove_child _ _) as [d1|] eqn:E1; [|done]. cbn [expect_some bindO].
  destruct (add_child d1 _ _) as [d2|] eqn:E2; [|done]. cbn [expect_some bindO].
  intros Hd%expect_some_Ret. unfold lower_memory, upper_memory in El, Eu.
  destruct (sub64 RITM_START dram_start) as [n1|] eqn:E3; [|done].
  destruct (sub64 dram_end RITM_END) as [n2|] eqn:E4; [|done].
  apply sub64_Ret in E3 as [? _], E4 as [? _]. split_and!; [lia..|]. eauto 10.
Qed.

Lemma dram_range_max {DT : Dtoolkit} fdt dram_start dram_end :
  dram_range fdt = Ret (dram_start, dram_end) -> dram_end <= U64_MAX.
Proof.
  unfold dram_range. destruct (root_child _ _) as [node|]; [|done]. cbn [expect_some bindO].
  destruct (node_reg node) as [[[|reg regs]|]|]; try done. cbn [expect_some bindO hd_error].
  destruct (reg_address reg) as [start|]; [|done]. destruct (reg_size reg) as [size|]; [|done].
  cbn [expect_some bindO]. destruct (add64 start size) as [e|] eqn:E; [|done].
  intros [= _ <-]. by apply add64_Ret in E as [? ->].
Qed.

(** C29: the memory the device tree offers is the memory stage 2 maps exactly
    when DRAM ends at or below 4 GiB.  For a tree whose DRAM starts at its fixed
    address, the edit replaces the memory node by two, and on any stage-2
    configuration that configure_memory_access builds, every address their
    [reg] properties cover is mapped as normal memory if and only if DRAM ends
    at or below 4 GiB; above that the guest is offered memory it cannot
    access. *)
Theorem advertised_memory_mapped {PT : PageTable} {S2F : Stage2Flags} {SA : SmcccArch}
    {IMG : QemuImage} {Laws : PageTableLaws} {DT : Dtoolkit} fdt dram_end dt b :
  image_ok -> dram_range fdt = Ret (DRAM_START, dram_end) -> modified_tree fdt = Ret dt ->
  configure_memory_access Stage2Builder_new = Ret (b, Ok tt) ->
  exists lower upper d1 d2,
    remove_child (from_fdt fdt) (memory_node_name DRAM_START) = Some d1 /\
    add_child d1 (memory_node_name DRAM_START) (memory_properties lower) = Some d2 /\
    add_child d2 (memory_node_name RITM_END) (memory_properties upper) = Some dt /\
    ((forall x, reg_covers lower x \/ reg_covers upper x ->
        stage2_access (build b) x = Direct STAGE2_MEMORY_ATTRIBUTES) <-> dram_end <= 2 ^ 32).
Proof.
  intros Himg Hr Hm Hb.
  assert (dram_end <= U64_MAX) by by eapply dram_range_max.
  destruct (modified_tree_nodes _ _ _ _ Hr Hm) as (Hlo & Hhi & lower & upper & d1 & d2 & El & Eu & H1 & H2 & H3).
  exists lower, upper, d1, d2. split_and!; [done..|].
  assert (Hcov : forall x, reg_covers lower x \/ reg_covers upper x <->
    DRAM_START <= x < dram_end /\ ~ RITM_START <= x < RITM_END).
  { unfold lower_memory, upper_memory in El, Eu.
    rewrite (proj2 (sub64_Ret _ _ (RITM_START - DRAM_START))) in El by lia.
    rewrite (proj2 (sub64_Ret _ _ (dram_end - RITM_END))) in Eu by lia.
    cbn [bindO] in El, Eu. 
    assert (lower = to_be_bytes DRAM_START ++ to_be_bytes (RITM_START - DRAM_START)) as -> by congruence.
    assert (upper = to_be_bytes RITM_END ++ to_be_bytes (dram_end - RITM_END)) as -> by congruence.
    intros x. unfold reg_covers.
    assert (RITM_START < RITM_END) by (unfold RITM_END; lia).
    rewrite !reg_range_bytes by (destruct Himg; unfold in_range, DRAM_START, U64_MAX in *; lia). lia. }
  setoid_rewrite Hcov. setoid_rewrite (fun x => qemu_configured_access b x Himg Hb).
  rewrite <- (mapped_below_4g dram_end Himg Hhi). naive_solver.
Qed.

(** ** The edit succeeds *)

Section EditProofs.
Context {PT : PageTable} {S2F : Stage2Flags} {SA : SmcccArch} {IMG : QemuImage}.
Context {DT : Dtoolkit} {SH : SharedAllocator} {SHL : SharedAllocatorLaws} {DTT : DtoolkitTotal}.

(** The boot loader's tree has a memory node with the range [start, start + size),
    and the image lies inside it. *)
Definition board_tree (fdt : Fdt) (start size : u64) : Prop :=
  (exists node reg regs, root_child fdt (memory_node_name DRAM_START) = Some node /\
     node_reg node = Some (Some (reg :: regs)) /\
     reg_address reg = Some start /\ reg_size reg = Some size) /\
  0 <= start <= RITM_START /\ 0 <= size /\ RITM_END <= start + size <= U64_MAX.

(** The shared heap has room for the edited tree. *)
Definition heap_has_room (fdt : Fdt) : Prop :=
  forall dt, modified_tree fdt = Ret dt ->
    is_Some (heap_alloc (heap_init SHARED_HEAP_ADDRESS SHARED_HEAP_SIZE)
               (Z.of_nat (length (to_dtb dt))) FDT_ALIGNMENT).

Lemma dram_range_Ret fdt start size :
  board_tree fdt start size -> dram_range fdt = Ret (start, start + size).
Proof.
  intros ((node & reg & regs & Hn & Hr & Ha & Hs) & _ & _ & Hend). unfold dram_range.
  rewrite Hn. cbn [expect_some bindO]. rewrite Hr. cbn [expect_some bindO hd_error].
  rewrite Ha, Hs. cbn [expect_some bindO]. by rewrite (proj2 (add64_Ret _ _ (start + size))) by lia.
Qed.

Lemma modified_tree_Ret fdt start size :
  image_ok -> board_tree fdt start size -> exists dt, modified_tree fdt = Ret dt.
Proof.
  intros Himg Hb. unfold modified_tree. rewrite (dram_range_Ret _ _ _ Hb). cbn [bindO].
  destruct Hb as ((node & _ & _ & Hn & _) & Hlo & Hsz & Hhi).
  assert (is_u64 start /\ is_u64 RITM_END) as [Hs He].
  { destruct Himg as (_ & ? & ? & _). unfold is_u64, in_range, U64_MAX, RITM_END, DRAM_START in *. lia. }
  unfold lower_memory, upper_memory.
  rewrite (proj2 (sub64_Ret _ _ (RITM_START - start))) by lia. cbn [bindO].
  rewrite (proj2 (sub64_Ret _ _ (start + size - RITM_END))) by lia. cbn [bindO].
  destruct (law_remove_child fdt (memory_node_name DRAM_START)) as [d1 ->]; [by rewrite Hn|].
  cbn [expect_some bindO].
  destruct (law_add_child d1 start (memory_properties (to_be_bytes start ++ to_be_bytes (RITM_START - start))))
    as [d2 Hd2]; [done|]. unfold memory_node_name at 1. rewrite Hd2. cbn [expect_some bindO].
  edestruct (law_add_child d2 RITM_END) as [d3 Hd3]; [done|].
  unfold memory_node_name. rewrite Hd3. by exists d3.
Qed.

Lemma modify_dt_Ret fdt start size :
  image_ok -> board_tree fdt start size -> heap_has_room fdt ->
  exists new_fdt heap, modify_dt fdt (heap_init SHARED_HEAP_ADDRESS SHARED_HEAP_SIZE) = Ret (new_fdt, heap).
Proof.
  intros Himg Hb Hroom. destruct (modified_tree_Ret _ _ _ Himg Hb) as [dt Hdt].
  destruct (Hroom _ Hdt) as [[p h] Ha]. unfold modify_dt. rewrite Hdt. cbn [bindO]. cbv zeta.
  pose proof (law_heap_alloc _ _ _ _ _ _ Ha) as (? & ? & _).
  assert (layout_valid (Z.of_nat (length (to_dtb dt))) FDT_ALIGNMENT = true) as ->.
  { apply Z.leb_le. simpl in *. unfold default_shared_heap_size, PAGE_SIZE, FDT_ALIGNMENT in *. lia. }
  cbn [negb]. unfold shared_alloc. rewrite Ha. cbn [expect_some bindO].
  destruct (law_to_dtb p dt) as [f ->]. cbn [expect_some bindO]. by eexists _, _.
Qed.

End EditProofs.

(** ** Witnesses *)

Module ExampleTree.
(** A device tree library on toy trees: an address and a command line. *)
#[export] Instance example_dt : Dtoolkit := {|
  Fdt := Z * str; FdtNode := str; FdtProperty := str; FdtReg := Z * Z;
  root_child f _ := Some f.2; node_property n _ := Some n; property_as_str p := Some p;
  node_reg _ := Some (Some [(0x4000_0000, 0x4000_0000)]);
  reg_address r := Some r.1; reg_size r := Some r.2;
  DeviceTree := str; from_fdt f := f.2; remove_child t _ := Some t; add_child t _ _ := Some t;
  to_dtb t := t; fdt_from_raw a bytes := Some (a, bytes); fdt_data := fst |}.
#[export] Instance example_dt_laws : DtoolkitLaws.
Proof. constructor. by intros a bytes fdt [= <-]. Qed.

#[export] Instance example_dt_total : DtoolkitTotal.
Proof. by constructor; eauto. Qed.

(** An allocator that hands out the start of its memory once. *)
#[export] Instance example_heap : SharedAllocator := {|
  Heap := Z * Z; heap_init b s := (b, s);
  heap_alloc h n a := if bool_decide (0 <= n <= h.2 /\ h.1 mod a = 0 /\ a <> 0)
                      then Some (h.1, (h.1, 0)) else None |}.
#[export] Instance example_heap_laws : SharedAllocatorLaws.
Proof.
  constructor. intros base size n align p h. simpl. case_bool_decide as Hc; [|done].
  intros [= <- <-]. destruct Hc as (? & ? & ?). split_and!; [lia..|by apply Z.mod_divide].
Qed.
End ExampleTree.

Section TreeWitnesses.
Import QemuExample.

Lemma memory_nodes_exact_witness :
  match lower_memory 0x4000_0000, upper_memory 0x8000_0000 with
  | Ret lower, Ret upper => forall x, reg_covers lower x \/ reg_covers upper x <->
      0x4000_0000 <= x < 0x8000_0000 /\ ~ RITM_START <= x < RITM_END
  | _, _ => False
  end.
Proof.
  pose proof (memory_nodes_exact 0x4000_0000 0x8000_0000
    ltac:(by apply (bool_decide_unpack _); vm_compute) ltac:(by apply (bool_decide_unpack _); vm_compute)
    ltac:(by apply (bool_decide_unpack _); vm_compute) ltac:(by apply (bool_decide_unpack _); vm_compute)) as H.
  destruct (lower_memory _) as [lower|] eqn:E1; [|by vm_compute in E1].
  destruct (upper_memory _) as [upper|] eqn:E2; [|by vm_compute in E2]. apply H.
Defined.

(** The example board has DRAM up to 2 GiB. *)
Lemma advertised_memory_mapped_witness :
  exists b lower upper, configure_memory_access Stage2Builder_new = Ret (b, Ok tt) /\
    forall x, reg_covers lower x \/ reg_covers upper x ->
      stage2_access (build b) x = Direct STAGE2_MEMORY_ATTRIBUTES.
Proof.
  destruct example_configured as [b Hb].
  destruct (advertised_memory_mapped (DT := ExampleTree.example_dt) (0, lit "quiet") 0x8000_0000 (lit "quiet") b
    example_image_ok eq_refl eq_refl Hb) as (lower & upper & d1 & d2 & _ & _ & _ & [_ H]).
  exists b, lower, upper. split; [exact Hb|]. apply H. by vm_compute.
Defined.

End TreeWitnesses.
