(* ===== verification/Boot.v ===== *)
(** * Boot

    Model of src/src/main.rs: the boot sequence with everything it logs, the
    heaps and the two ways to start the payload; of the creation of the platform
    in src/src/platform/qemu.rs and the defaults in src/src/platform.rs.  [main]
    runs in the console monad of Console.v, so that a failed check is a panic in
    the state of the console at that moment.

    The UART driver is external: it is the class [Pl011]. *)

From Stdlib Require Import ZArith Lia.
From stdpp Require Import base tactics list gmap strings numbers.
From S2P Require Import Prelude Str MemoryAccess SimpleMap Stage2 Exceptions HvcResponse Pagetable.
From S2P Require Import Console Platform Qemu Sysregs World Hypervisor Safety Entry Asm DeviceTree.

#[local] Open Scope Z_scope.
#[local] Open Scope rust_scope.

(** ** The platform's parts *)

(** The PL011 driver ([arm_pl011_uart]), a device of the console. *)
Class Pl011 `{ConsoleDevice} : Type := {
  uart_new : usize -> Dev;
  uart_set_interrupt_masks : Dev -> Z -> Dev;
  INTERRUPTS_RXI : Z;
}.

Definition HEAP_SIZE : usize := 40 * PAGE_SIZE.
Definition UART_BASE_ADDRESS : usize := 0x900_0000.

(** [struct PlatformParts] and [struct Qemu]. *)
Record PlatformParts `{ConsoleDevice} : Type := mkPlatformParts { pp_console : Dev }.
Record Qemu `{ConsoleDevice} : Type := mkQemu { q_parts : option PlatformParts }.

(** [NonNull::new]. *)
Definition nonnull_new (p : usize) : option usize := if p =? 0 then None else Some p.

(** [Qemu::create] and [Qemu::parts] ([Option::take]). *)
Definition create `{Pl011} : outcome Qemu :=
  let! p := expect_some (nonnull_new UART_BASE_ADDRESS) "UART_BASE_ADDRESS should not be null" in
  let uart := uart_new p in
  let uart := uart_set_interrupt_masks uart INTERRUPTS_RXI in
  Ret {| q_parts := Some {| pp_console := uart |} |}.
Definition parts `{ConsoleDevice} (self : Qemu) : option PlatformParts * Qemu :=
  (q_parts self, {| q_parts := None |}).

(** The defaults the platform trait has for the device tree. *)
Definition default_fdt_address (boot_fdt_address : u64) : u64 := boot_fdt_address.
Definition default_modify_dt `{Dtoolkit} (fdt : Fdt) : Fdt := fdt.

(** ** The boot sequence *)

Definition LOG_LEVEL : LevelFilter := UpTo LInfo.

(** The level [main] sets drops the [debug!] records of the exception handlers,
    so that they never wait for the console's lock. *)
Lemma debug_records_dropped `{Percore} `{!SpinLock} `{LogCrateLaws} b level args :
  log_record {| l_logger := b; l_max_level := LOG_LEVEL |} level args =
    (if bool_decide (3 < level_index level) then mret tt
     else if b then logger_log (level_name level) args else mret tt).
Proof.
  unfold log_record, LOG_LEVEL. cbn [l_max_level l_logger]. rewrite law_passes. by destruct level, b.
Qed.

(** The statics that [main] initialises, beside the console. *)
Record BootState `{SharedAllocator} : Type := mkBootState {
  bs_log : log_state;          (* the logger and log::max_level() *)
  bs_heap_locked : bool;       (* HEAP was leaked to the allocator *)
  bs_shared_locked : bool;
  bs_heap : option Heap;
  bs_shared_heap : option Heap;
}.

(** How the boot ends when no check fails. *)
Inductive boot_end `{Platform} : Type :=
| BootsEl1 (l : leave) (w : World)
| BootsEl2 (entry_point x0 x1 x2 x3 : u64).

(** A pure computation, its panic raised in the current state. *)
Definition liftC `{ConsoleDevice} {A} (o : outcome A) : CM A :=
  match o with Ret a => mret a | Panic msg => panic_with msg end.

Section Main.
Context {PT : PageTable} {S2F : Stage2Flags} {SA : SmcccArch} {IMG : QemuImage}.
Context {SYS : ArmSysregs}.
Context {CD : ConsoleDevice} {PC : Percore} {SL : SpinLock} {LC : LogCrate}.
Context {DT : Dtoolkit} {SH : SharedAllocator} {UA : Pl011}.
(** [memory] gives the bytes of the boot loader's tree at an address;
    [HEAP_ADDRESS] and [PAYLOAD_ADDRESS] are set by the linker and the build;
    [current_el] is the exception level in CurrentEL. *)
Context (memory : u64 -> list u8) (HEAP_ADDRESS : usize) (PAYLOAD_ADDRESS current_el : u64).

(** [add_to_heap], and its two calls with the leaked guard of [try_lock]. *)
Definition add_to_heap (range_start range_len : usize) : Heap := heap_init range_start range_len.
Definition add_heap (st : BootState) : option BootState :=
  if bs_heap_locked st then None
  else Some {| bs_log := bs_log st; bs_heap_locked := true; bs_shared_locked := bs_shared_locked st;
               bs_heap := Some (add_to_heap HEAP_ADDRESS HEAP_SIZE);
               bs_shared_heap := bs_shared_heap st |}.
Definition add_shared_heap (st : BootState) : option BootState :=
  if bs_shared_locked st then None
  else Some {| bs_log := bs_log st; bs_heap_locked := bs_heap_locked st; bs_shared_locked := true;
               bs_heap := bs_heap st;
               bs_shared_heap := Some (add_to_heap SHARED_HEAP_ADDRESS SHARED_HEAP_SIZE) |}.
Definition set_log (l : log_state) (st : BootState) : BootState :=
  {| bs_log := l; bs_heap_locked := bs_heap_locked st; bs_shared_locked := bs_shared_locked st;
     bs_heap := bs_heap st; bs_shared_heap := bs_shared_heap st |}.

(** [Qemu::payload_address]. *)
Definition payload_address : u64 := PAYLOAD_ADDRESS.

(** [{boot_mode:?}]. *)
Definition boot_mode_debug (m : BootMode) : str := match m with El1 => lit "El1" | El2 => lit "El2" end.

(** The text of the third line. *)
Definition main_line (x0 x1 x2 x3 : u64) : str :=
  lit "main(" ++ fmt_hex x0 ++ lit ", " ++ fmt_hex x1 ++ lit ", " ++ fmt_hex x2 ++ lit ", "
  ++ fmt_hex x3 ++ lit ")".

(** [main] up to the console; then up to the choice of the boot mode: the
    logger, the mode and the address of the device tree. *)
Definition boot_console : CM unit :=
  platform ← liftC create;
  parts ← liftC (expect_some (fst (parts platform)) "could not get platform parts");
  console_init (pp_console parts).

Definition boot_prepare (st : BootState) (x0 x1 x2 x3 : u64) : CM (log_state * BootMode * u64) :=
  log ← liftC (expect (logger_init (bs_log st) LOG_LEVEL) "failed to init logger");
  let st := set_log log st in
  let info := log_record log LInfo in
  _ ← info (lit "starting ritm");
  _ ← info (lit "current exception level: EL" ++ fmt_dec current_el);
  _ ← info (main_line x0 x1 x2 x3);
  st ← liftC (expect_some (add_heap st) "failed to lock heap");
  st ← liftC (expect_some (add_shared_heap st) "failed to lock shared heap");
  heap ← liftC (expect_some (bs_shared_heap st) "shared heap");
  fdt_address ← qemu_fdt_address log x0;
  fdt ← liftC (expect_some (fdt_from_raw fdt_address (memory fdt_address))
                 "fdt_address is not a valid fdt");
  '(new_fdt, _) ← liftC (modify_dt fdt heap);
  let dtb_ptr := fdt_data new_fdt in
  boot_mode ← qemu_boot_mode log new_fdt;
  mret (log, boot_mode, dtb_ptr).

Definition run_payload_el1 (entry_point x0 x1 x2 x3 : u64) : M Empty_set :=
  entry_point_el1 x0 x1 x2 x3 entry_point.

(** The end of [main]. *)
Definition start_payload (log : log_state) (boot_mode : BootMode) (dtb_ptr x1 x2 x3 : u64) (w : World) :
    CM boot_end :=
  let info := log_record log LInfo in
  _ ← info (lit "Booting in " ++ boot_mode_debug boot_mode);
  _ ← info (lit "Payload address: " ++ fmt_hex payload_address);
  match boot_mode with
  | El1 =>
      match run_payload_el1 payload_address dtb_ptr x1 x2 x3 w with
      | Done e _ => match e with end
      | Panics msg _ => panic_with msg
      | Leaves l w' => mret (BootsEl1 l w')
      end
  | El2 => mret (BootsEl2 payload_address dtb_ptr x1 x2 x3)
  end.

Definition main (x0 x1 x2 x3 : u64) (st : BootState) (w : World) : CM boot_end :=
  _ ← boot_console;
  '(log, boot_mode, dtb_ptr) ← boot_prepare st x0 x1 x2 x3;
  start_payload log boot_mode dtb_ptr x1 x2 x3 w.
End Main.

(** ** Lemmas *)

Section BootProofs.
Context {PT : PageTable} {S2F : Stage2Flags} {SA : SmcccArch} {IMG : QemuImage}.
Context {CD : ConsoleDevice} {PC : Percore} {SL : SpinLock} {LC : LogCrate}.
Context {DT : Dtoolkit} {DTL : DtoolkitLaws} {SH : SharedAllocator} {SHL : SharedAllocatorLaws} {UA : Pl011}.
Context (memory : u64 -> list u8) (HEAP_ADDRESS : usize) (PAYLOAD_ADDRESS current_el : u64).

(** The shared heap's pages are mapped. *)
Lemma shared_heap_policy x :
  image_ok -> SHARED_HEAP_ADDRESS <= x < SHARED_HEAP_ADDRESS + default_shared_heap_size ->
  qemu_policy x = Direct STAGE2_MEMORY_ATTRIBUTES.
Proof.
  intros Himg Hx. pose proof (shared_pages Himg) as (_ & _ & ? & ? & ? & ?).
  destruct Himg as (_ & ? & ? & ? & ?).
  unfold qemu_policy, DRAM_START, FILTERED_MMIO_BASE, FILTERED_MMIO_SIZE, PAGE_SIZE in *.
  rewrite (proj2 (inside_false _ (_ + _) _)) by lia. rewrite (proj2 (inside_false 0 _ _)) by lia.
  rewrite (proj2 (inside_true shared_lo _ _)) by lia. by rewrite orb_true_r.
Qed.

(** What returned. *)
Lemma CM_bind_CDone {A B} (m : CM A) (k : A -> CM B) s b s' :
  (m ≫= k) s = CDone b s' <-> exists a s1, m s = CDone a s1 /\ k a s1 = CDone b s'.
Proof. unfold mbind, CM_bind. destruct (m s); naive_solver. Qed.

Lemma liftC_CDone {A} (o : outcome A) (a : A) s s' : liftC o s = CDone a s' <-> o = Ret a /\ s' = s.
Proof. destruct o; simpl; unfold mret, CM_ret, panic_with; naive_solver. Qed.

Lemma qemu_fdt_address_CDone log x a s s' :
  qemu_fdt_address log x s = CDone a s' -> a = chosen_fdt_address x.
Proof.
  unfold qemu_fdt_address, chosen_fdt_address. destruct (x =? 0).
  - intros (? & ? & _ & H)%CM_bind_CDone. by injection H.
  - by intros [= <- _].
Qed.

Lemma modify_dt_spec fdt heap new_fdt heap' :
  modify_dt fdt heap = Ret (new_fdt, heap') ->
  exists dt, modified_tree fdt = Ret dt /\
    heap_alloc heap (Z.of_nat (length (to_dtb dt))) FDT_ALIGNMENT = Some (fdt_data new_fdt, heap') /\
    fdt_from_raw (fdt_data new_fdt) (to_dtb dt) = Some new_fdt.
Proof.
  unfold modify_dt. intros (dt & Hdt & H)%bindO_Ret. exists dt. split; [done|].
  destruct (layout_valid _ _); [|done]. cbn [negb] in H.
  apply bindO_Ret in H as ([p h] & Ha%expect_some_Ret & H).
  apply bindO_Ret in H as (f & Hf%expect_some_Ret & [= -> ->]).
  rewrite (law_fdt_data _ _ _ Hf). done.
Qed.

(** What [boot_prepare] did when it returns. *)
Lemma boot_prepare_CDone st x0 x1 x2 x3 s log mode dtb s' :
  boot_prepare memory HEAP_ADDRESS current_el st x0 x1 x2 x3 s = CDone (log, mode, dtb) s' ->
  exists fdt dt heap,
    fdt_from_raw (chosen_fdt_address x0) (memory (chosen_fdt_address x0)) = Some fdt /\
    modified_tree fdt = Ret dt /\
    heap_alloc (heap_init SHARED_HEAP_ADDRESS SHARED_HEAP_SIZE) (Z.of_nat (length (to_dtb dt)))
      FDT_ALIGNMENT = Some (dtb, heap).
Proof.
  unfold boot_prepare. do 5 (intros (? & ? & _ & H)%CM_bind_CDone; revert H).
  intros (st2 & ? & [Hs _]%liftC_CDone & H)%CM_bind_CDone.
  apply CM_bind_CDone in H as (heap & ? & [Hh _]%liftC_CDone & H).
  apply CM_bind_CDone in H as (a & ? & ->%qemu_fdt_address_CDone & H).
  apply CM_bind_CDone in H as (fdt & ? & [Hf _]%liftC_CDone & H).
  apply CM_bind_CDone in H as ([new_fdt heap'] & ? & [Hm _]%liftC_CDone & H).
  apply CM_bind_CDone in H as (? & ? & _ & [= _ _ <- _]).
  apply expect_some_Ret in Hs. apply expect_some_Ret in Hh. apply expect_some_Ret in Hf.
  unfold add_shared_heap in Hs. destruct (bs_shared_locked _); [done|]. injection Hs as <-.
  injection Hh as <-. apply modify_dt_spec in Hm as (dt & Hdt & Ha & _). eauto 6.
Qed.

(** *** What [main] prints *)

Context {CT : ConsoleTransmits} {PCL : PercoreLaws} {SLL : SpinLockLaws} {LCL : LogCrateLaws}.

(** The console right after [console_init], and the logger. *)
Definition boot_uart : Dev := uart_set_interrupt_masks (uart_new UART_BASE_ADDRESS) INTERRUPTS_RXI.
Definition started (s : cstate) : cstate := mkCstate _ true false (c_masked s) boot_uart (c_off_calls s).
Definition boot_log : log_state := {| l_logger := true; l_max_level := LOG_LEVEL |}.


(** Its level lets warnings and [info!] through. *)
Lemma boot_log_lines level args : level_index level <= 3 -> log_lines boot_log level args = [log_line level args].
Proof.
  intros Hl. unfold log_lines, boot_log, LOG_LEVEL. cbn [l_max_level l_logger].
  by rewrite law_passes, (proj2 (Z.leb_le _ _)) by done.
Qed.
Lemma prints_boot_log level args :
  level_index level <= 3 -> prints (log_record boot_log level args) tt [log_line level args].
Proof. intros Hl. rewrite <- boot_log_lines by done. apply prints_log. Qed.

Lemma boot_console_run s : c_installed s = false -> boot_console s = CDone tt (started s).
Proof.
  intros Hi. unfold boot_console, mbind, CM_bind. simpl. unfold mret, CM_ret, console_init.
  by rewrite Hi.
Qed.

Lemma tame_liftC {A} (o : outcome A) (Q : A -> Prop) : (forall a, o = Ret a -> Q a) -> tame (liftC o) Q.
Proof. destruct o; [|intros _; apply tame_panic]. intros HQ. eapply prints_tame; [apply prints_ret|by apply HQ]. Qed.

Lemma tame_liftC_bind {A B} (o : outcome A) (k : A -> CM B) Q :
  (forall a, tame (k a) Q) -> tame (liftC o ≫= k) Q.
Proof. intros Hk. eapply tame_bind; [by apply (tame_liftC _ (fun _ => True))|done]. Qed.

Lemma tame_prints_bind {A B} (m : CM A) a l (k : A -> CM B) Q :
  prints m a l -> tame (k a) Q -> tame (m ≫= k) Q.
Proof. intros Hm Hk. eapply tame_bind; [by apply (prints_tame m a l (eq a))|by intros ? <-]. Qed.

Lemma boot_prepare_tame st x0 x1 x2 x3 :
  tame (boot_prepare memory HEAP_ADDRESS current_el st x0 x1 x2 x3) (fun _ => True).
Proof.
  unfold boot_prepare. apply tame_liftC_bind. intros log. cbv zeta.
  do 3 (eapply tame_prints_bind; [apply prints_log|]). do 3 (apply tame_liftC_bind; intros ?).
  eapply tame_prints_bind; [apply qemu_fdt_address_prints|]. apply tame_liftC_bind. intros fdt.
  apply tame_liftC_bind. intros [new_fdt heap].
  eapply tame_prints_bind; [apply qemu_boot_mode_prints|]. by eapply prints_tame; [apply prints_ret|].
Qed.

(** The payload is entered with the arguments of [main]. *)
Definition reaches_payload (x1 x2 x3 : u64) (e : boot_end) : Prop :=
  match e with
  | BootsEl1 l w => exists dtb, l = EretToEl1 dtb x1 x2 x3 /\ w_sysregs w ELR_EL2 = PAYLOAD_ADDRESS
  | BootsEl2 entry _ a1 a2 a3 => entry = PAYLOAD_ADDRESS /\ a1 = x1 /\ a2 = x2 /\ a3 = x3
  end.

Lemma CM_bind_run {A B} (m : CM A) (k : A -> CM B) s a s' :
  m s = CDone a s' -> (m ≫= k) s = k a s'.
Proof. intros H. unfold mbind, CM_bind. by rewrite H. Qed.

Context {SYS : ArmSysregs} {SYL : ArmSysregsLaws}.

Lemma main_started x0 x1 x2 x3 st w s :
  c_installed s = false ->
  exists m, main memory HEAP_ADDRESS PAYLOAD_ADDRESS current_el x0 x1 x2 x3 st w s = m (started s) /\
    tame m (reaches_payload x1 x2 x3).
Proof.
  intros Hs. eexists. split; [unfold main; by rewrite (CM_bind_run _ _ _ _ _ (boot_console_run s Hs))|].
  eapply tame_bind; [apply boot_prepare_tame|]. intros [[log mode] dtb] _.
  unfold start_payload. do 2 (eapply tame_prints_bind; [apply prints_log|]).
  destruct mode; [|by eapply prints_tame; [apply prints_ret|]].
  unfold run_payload_el1, payload_address. destruct (config_in_force w) as [c|] eqn:Hc.
  - destruct (config_in_force_Done w c Hc) as [w0 H0].
    destruct (entry_point_el1_Leaves dtb x1 x2 x3 PAYLOAD_ADDRESS w c w0 H0) as (w' & -> & Hen).
    eapply prints_tame; [apply prints_ret|]. exists dtb. split; [done|]. apply (en_elr _ _ _ _ Hen).
  - destruct (entry_point_el1_Panics dtb x1 x2 x3 PAYLOAD_ADDRESS w Hc) as [msg ->]. apply tame_panic.
Qed.

(** *** A usable board *)

Context {PTL : PageTableLaws} {PTT : PageTableTotal} {DTT : DtoolkitTotal}.

(** The statics before [main] runs. *)
Definition fresh_statics (st : BootState) : Prop :=
  l_logger (bs_log st) = false /\ bs_heap_locked st = false /\ bs_shared_locked st = false.

Lemma boot_mode_warnings unknown :
  mode_warnings boot_log unknown =
    (fun arg => log_line LWarn (lit "Unknown boot mode specified: " ++ arg)) <$> unknown.
Proof.
  unfold mode_warnings. induction unknown as [|arg unknown IH]; [done|]. cbn [mbind list_bind fmap list_fmap].
  by rewrite boot_log_lines, IH.
Qed.
Lemma boot_address_warnings x0 :
  address_warnings boot_log x0 = if x0 =? 0 then [log_line LWarn fallback_warning] else [].
Proof. unfold address_warnings. by rewrite boot_log_lines. Qed.

(** The lines of a boot, with the words of the command line that are no mode. *)
Definition boot_lines (x0 x1 x2 x3 : u64) (unknown : list str) (mode : BootMode) : list str :=
  [log_line LInfo (lit "starting ritm");
   log_line LInfo (lit "current exception level: EL" ++ fmt_dec current_el);
   log_line LInfo (main_line x0 x1 x2 x3)]
  ++ (if x0 =? 0 then [log_line LWarn fallback_warning] else [])
  ++ ((fun arg => log_line LWarn (lit "Unknown boot mode specified: " ++ arg)) <$> unknown)
  ++ [log_line LInfo (lit "Booting in " ++ boot_mode_debug mode);
      log_line LInfo (lit "Payload address: " ++ fmt_hex PAYLOAD_ADDRESS)].

Lemma prints_liftC_bind {A B} (o : outcome A) a (k : A -> CM B) b l :
  o = Ret a -> prints (k a) b l -> prints (liftC o ≫= k) b l.
Proof. intros -> Hk. apply (prints_bind _ _ a _ [] l); [apply prints_ret|done]. Qed.

Lemma boot_prepare_prints st x0 x1 x2 x3 fdt start size :
  image_ok -> fresh_statics st ->
  fdt_from_raw (chosen_fdt_address x0) (memory (chosen_fdt_address x0)) = Some fdt ->
  board_tree fdt start size -> heap_has_room fdt ->
  exists dt dtb heap new_fdt,
    modified_tree fdt = Ret dt /\
    heap_alloc (heap_init SHARED_HEAP_ADDRESS SHARED_HEAP_SIZE) (Z.of_nat (length (to_dtb dt)))
      FDT_ALIGNMENT = Some (dtb, heap) /\
    fdt_from_raw dtb (to_dtb dt) = Some new_fdt /\
    prints (boot_prepare memory HEAP_ADDRESS current_el st x0 x1 x2 x3)
      (boot_log, tree_mode new_fdt, dtb)
      ([log_line LInfo (lit "starting ritm");
        log_line LInfo (lit "current exception level: EL" ++ fmt_dec current_el);
        log_line LInfo (main_line x0 x1 x2 x3)]
       ++ address_warnings boot_log x0 ++ mode_warnings boot_log (args_mode (bootargs new_fdt)).1).
Proof.
  intros Himg (Hl & Hh & Hs) Hf Hb Hroom.
  destruct (modify_dt_Ret _ _ _ Himg Hb Hroom) as (nf & heap & Hm).
  destruct (modify_dt_spec _ _ _ _ Hm) as (dt & Hdt & Ha & Hr).
  exists dt, (fdt_data nf), heap, nf. split_and!; [done..|].
  unfold boot_prepare, logger_init, add_heap, add_shared_heap.
  destruct st as [[lg ml] hl sl hp sh]; simpl in Hl, Hh, Hs; subst.
  eapply prints_liftC_bind; [done|]. do 3 (eapply (prints_bind _ _ tt _ [_]); [by apply prints_boot_log|]).
  do 3 (eapply prints_liftC_bind; [done|]).
  eapply prints_bind; [apply qemu_fdt_address_prints|]. eapply prints_liftC_bind; [by rewrite Hf|].
  eapply prints_liftC_bind; [exact Hm|]. cbv beta iota. rewrite <- (app_nil_r (mode_warnings _ _)).
  eapply prints_bind; [apply qemu_boot_mode_prints|apply prints_ret].
Qed.
(** Entering the payload at EL1 on the boot core. *)
Lemma run_payload_el1_boot dtb x1 x2 x3 regs n :
  image_ok ->
  exists w' c, run_payload_el1 PAYLOAD_ADDRESS dtb x1 x2 x3 (boot_world regs n)
      = Leaves (EretToEl1 dtb x1 x2 x3) w' /\
    w_sysregs w' ELR_EL2 = PAYLOAD_ADDRESS /\ Z.testbit (w_sysregs w' HCR_EL2) 0 = true /\
    w_stage2_config w' = Some c /\ forall x, stage2_access c x = qemu_policy x.
Proof.
  intros Himg. destruct (qemu_calls_succeed Himg) as [b Hcalls].
  assert (Hconf : configure_memory_access Stage2Builder_new = Ret (b, Ok tt))
    by (simpl; by rewrite qemu_configure_calls).
  assert (Hc : config_in_force (boot_world regs n) = Some (build b))
    by (unfold config_in_force; cbn [boot_world w_stage2_config]; by rewrite Hconf).
  destruct (config_in_force_Done _ _ Hc) as [w0 H0].
  destruct (entry_point_el1_Leaves dtb x1 x2 x3 PAYLOAD_ADDRESS _ _ _ H0) as (w' & Hrun & Hen).
  exists w', (activated (PLAT := qemu_platform) (build b)). destruct Hen. split_and!; try done.
  - by rewrite en_hcr.
  - intros x. rewrite (proj2 (proj2 (activate_same_policy (PLAT := qemu_platform) (build b)))). by apply qemu_configured_access.
Qed.
(** What [main] ends in, for a mode. *)
Definition payload_started (x1 x2 x3 : u64) (dtb : u64) (mode : BootMode) (e : boot_end) : Prop :=
  match mode with
  | El2 => e = BootsEl2 PAYLOAD_ADDRESS dtb x1 x2 x3
  | El1 => exists w' c, e = BootsEl1 (EretToEl1 dtb x1 x2 x3) w' /\
      w_sysregs w' ELR_EL2 = PAYLOAD_ADDRESS /\ Z.testbit (w_sysregs w' HCR_EL2) 0 = true /\
      w_stage2_config w' = Some c /\ forall x, stage2_access c x = qemu_policy x
  end.

Lemma start_payload_prints mode dtb x1 x2 x3 regs n :
  image_ok ->
  exists e, payload_started x1 x2 x3 dtb mode e /\
    prints (start_payload PAYLOAD_ADDRESS boot_log mode dtb x1 x2 x3 (boot_world regs n)) e
      [log_line LInfo (lit "Booting in " ++ boot_mode_debug mode);
       log_line LInfo (lit "Payload address: " ++ fmt_hex PAYLOAD_ADDRESS)].
Proof.
  intros Himg. unfold start_payload.
  assert (Hl : forall e (m : CM boot_end), m = mret e -> prints (
      _ ← log_record boot_log LInfo (lit "Booting in " ++ boot_mode_debug mode);
      _ ← log_record boot_log LInfo (lit "Payload address: " ++ fmt_hex (payload_address PAYLOAD_ADDRESS)); m) e
      [log_line LInfo (lit "Booting in " ++ boot_mode_debug mode);
       log_line LInfo (lit "Payload address: " ++ fmt_hex PAYLOAD_ADDRESS)]).
  { intros e m ->. apply (prints_bind _ _ tt _ [_] [_]); [by apply prints_boot_log|].
    apply (prints_bind _ _ tt _ [_] []); [by apply prints_boot_log|apply prints_ret]. }
  destruct mode; [|eexists; split; [reflexivity|by apply Hl]].
  destruct (run_payload_el1_boot dtb x1 x2 x3 regs n Himg) as (w' & c & Hrun & Hw).
  eexists. split; [by exists w', c|]. apply Hl. unfold payload_address. by rewrite Hrun.
Qed.

Lemma main_prints st x0 x1 x2 x3 fdt start size s regs n :
  image_ok -> fresh_statics st -> c_installed s = false ->
  fdt_from_raw (chosen_fdt_address x0) (memory (chosen_fdt_address x0)) = Some fdt ->
  board_tree fdt start size -> heap_has_room fdt ->
  exists dt dtb heap new_fdt e s',
    modified_tree fdt = Ret dt /\
    heap_alloc (heap_init SHARED_HEAP_ADDRESS SHARED_HEAP_SIZE) (Z.of_nat (length (to_dtb dt)))
      FDT_ALIGNMENT = Some (dtb, heap) /\
    fdt_from_raw dtb (to_dtb dt) = Some new_fdt /\
    payload_started x1 x2 x3 dtb (tree_mode new_fdt) e /\
    main memory HEAP_ADDRESS PAYLOAD_ADDRESS current_el x0 x1 x2 x3 st (boot_world regs n) s = CDone e s' /\
    said (started s) s'
      (boot_lines x0 x1 x2 x3 (args_mode (bootargs new_fdt)).1 (tree_mode new_fdt)).
Proof.
  intros Himg Hst Hs Hf Hb Hroom.
  destruct (boot_prepare_prints st x0 x1 x2 x3 _ _ _ Himg Hst Hf Hb Hroom)
    as (dt & dtb & heap & nf & Hdt & Ha & Hr & Hp).
  destruct (start_payload_prints (tree_mode nf) dtb x1 x2 x3 regs n Himg) as (e & He & Hq).
  pose proof (prints_bind _ (fun '(log, mode, dtb) =>
    start_payload PAYLOAD_ADDRESS log mode dtb x1 x2 x3 (boot_world regs n)) _ _ _ _ Hp Hq) as H.
  destruct (H (started s) eq_refl) as (s' & Hrun & Hsaid).
  exists dt, dtb, heap, nf, e, s'. split_and!; [done..| |].
  - unfold main. rewrite (CM_bind_run _ _ _ _ _ (boot_console_run s Hs)). exact Hrun.
  - assert (Hlines : forall a b c d : list str, a ++ b ++ c ++ d = (a ++ b ++ c) ++ d)
      by (intros; by rewrite <- !app_assoc).
    unfold boot_lines. rewrite Hlines, <- boot_mode_warnings, <- boot_address_warnings. done.
Qed.
End BootProofs.

(** ** Properties *)

(** C13: the boot always reaches the payload and reports what it does: from the
    reset state of the statics, when the boot loader's device tree is readable,
    has a memory node whose range contains the RITM image, and the edited tree
    fits the shared heap, [main] passes all of its checks.  It prints exactly
    the lines [boot_lines], warnings included.  As the command line in the
    edited tree says, it then starts the payload at EL2, or leaves by [eret] to
    its address with stage 2 enabled and a configuration in force that treats
    every address as [qemu_policy] says.  x0 is the address of the new tree in
    the shared heap, and x1-x3 are passed on. *)
Theorem boot_reaches_payload {PT : PageTable} {S2F : Stage2Flags} {SA : SmcccArch} {IMG : QemuImage}
    {SYS : ArmSysregs} {SYL : ArmSysregsLaws} {PTL : PageTableLaws} {PTT : PageTableTotal}
    {CD : ConsoleDevice} {CT : ConsoleTransmits} {PC : Percore} {PCL : PercoreLaws}
    {SL : SpinLock} {SLL : SpinLockLaws} {LC : LogCrate} {LCL : LogCrateLaws} {DT : Dtoolkit} {DTL : DtoolkitLaws} {DTT : DtoolkitTotal}
    {SH : SharedAllocator} {SHL : SharedAllocatorLaws} {UA : Pl011}
    memory HEAP_ADDRESS PAYLOAD_ADDRESS el x0 x1 x2 x3 st s regs n fdt start size :
  image_ok -> fresh_statics st -> c_installed s = false ->
  fdt_from_raw (chosen_fdt_address x0) (memory (chosen_fdt_address x0)) = Some fdt ->
  board_tree fdt start size -> heap_has_room fdt ->
  exists dt dtb heap new_fdt e s',
    modified_tree fdt = Ret dt /\
    heap_alloc (heap_init SHARED_HEAP_ADDRESS SHARED_HEAP_SIZE) (Z.of_nat (length (to_dtb dt)))
      FDT_ALIGNMENT = Some (dtb, heap) /\
    fdt_from_raw dtb (to_dtb dt) = Some new_fdt /\
    main memory HEAP_ADDRESS PAYLOAD_ADDRESS el x0 x1 x2 x3 st (boot_world regs n) s = CDone e s' /\
    transmitted (c_dev s') = transmitted boot_uart ++
      boot_lines PAYLOAD_ADDRESS el x0 x1 x2 x3 (args_mode (bootargs new_fdt)).1 (tree_mode new_fdt) /\
    payload_started PAYLOAD_ADDRESS x1 x2 x3 dtb (tree_mode new_fdt) e.
Proof.
  intros Himg Hst Hs Hf Hb Hroom.
  destruct (main_prints memory HEAP_ADDRESS PAYLOAD_ADDRESS el st x0 x1 x2 x3 _ _ _ s regs n
    Himg Hst Hs Hf Hb Hroom) as (dt & dtb & heap & nf & e & s' & Hdt & Ha & Hr & He & Hm & Hsaid).
  exists dt, dtb, heap, nf, e, s'. split_and!; [done..|apply Hsaid|done].
Qed.

(** C14: a boot never gets lost: whatever the device tree, the statics, the
    registers and the stage-2 state are, the run of [main] with its panics ends
    in one of two ways.  Either it enters the payload at its address, with
    x1-x3 passed on; or a check failed, and then the panic message is the last
    line on the UART, after lines of the boot log, and SYSTEM_OFF is called,
    exactly once.  It never waits for the console's lock, and there is no panic
    before the console works. *)
Theorem boot_payload_or_report {PT : PageTable} {S2F : Stage2Flags} {SA : SmcccArch} {IMG : QemuImage}
    {SYS : ArmSysregs} {SYL : ArmSysregsLaws}
    {CD : ConsoleDevice} {CT : ConsoleTransmits} {PC : Percore} {PCL : PercoreLaws}
    {SL : SpinLock} {SLL : SpinLockLaws} {SO : Console.SystemOff} {LC : LogCrate} {DT : Dtoolkit}
    {SH : SharedAllocator} {UA : Pl011}
    memory HEAP_ADDRESS PAYLOAD_ADDRESS el x0 x1 x2 x3 st w s fmt n :
  c_installed s = false -> system_off_answer = None ->
  exists texts,
  match run_to_end fmt n (main memory HEAP_ADDRESS PAYLOAD_ADDRESS el x0 x1 x2 x3 st w) s with
  | inl (CDone e s') => reaches_payload PAYLOAD_ADDRESS x1 x2 x3 e /\
      transmitted (c_dev s') = transmitted boot_uart ++ texts /\ c_off_calls s' = c_off_calls s
  | inr (COff s') => exists msg,
      transmitted (c_dev s') = transmitted boot_uart ++ texts ++ [fmt msg ++ [LF]] /\
      c_off_calls s' = S (c_off_calls s)
  | _ => False
  end.
Proof.
  intros Hs Hoff. unfold run_to_end.
  destruct (main_started memory HEAP_ADDRESS PAYLOAD_ADDRESS el x0 x1 x2 x3 st w s Hs) as (m & -> & Hm).
  destruct (Hm (started s) eq_refl) as (s' & texts & Hsaid & [(e & -> & He)|[msg ->]]); exists texts.
  - split_and!; [done|apply Hsaid|apply (said_off _ _ _ Hsaid)].
  - destruct (tame_panic_reported fmt n msg s' ltac:(by rewrite (said_locked _ _ _ Hsaid))
      ltac:(by rewrite (said_installed _ _ _ Hsaid)) Hoff) as (s'' & -> & Hc & Ht).
    exists msg. rewrite Ht, Hc, (said_texts _ _ _ Hsaid), (said_off _ _ _ Hsaid), app_assoc. done.
Qed.

(** C28: the guest can read its device tree: the address passed in x0 is 8-byte
    aligned, and every byte of the new tree, although it belongs to RITM's
    image, is mapped as normal memory by any stage-2 configuration that
    configure_memory_access builds. *)
Theorem boot_dtb_accessible {PT : PageTable} {S2F : Stage2Flags} {SA : SmcccArch} {IMG : QemuImage}
    {CD : ConsoleDevice} {PC : Percore} {SL : SpinLock} {LC : LogCrate}
    {DT : Dtoolkit} {DTL : DtoolkitLaws} {SH : SharedAllocator} {SHL : SharedAllocatorLaws}
    {PTL : PageTableLaws} memory HEAP_ADDRESS el st x0 x1 x2 x3 s log mode dtb s' b :
  image_ok -> boot_prepare memory HEAP_ADDRESS el st x0 x1 x2 x3 s = CDone (log, mode, dtb) s' ->
  configure_memory_access Stage2Builder_new = Ret (b, Ok tt) ->
  exists fdt dt, fdt_from_raw (chosen_fdt_address x0) (memory (chosen_fdt_address x0)) = Some fdt /\
    modified_tree fdt = Ret dt /\ (8 | dtb) /\
    forall i, 0 <= i < Z.of_nat (length (to_dtb dt)) ->
      RITM_START <= dtb + i < RITM_END /\
      stage2_access (build b) (dtb + i) = Direct STAGE2_MEMORY_ATTRIBUTES.
Proof.
  intros Himg (fdt & dt & heap & Hf & Hdt & Ha)%boot_prepare_CDone Hb.
  apply law_heap_alloc in Ha as (Hlo & Hhi & Hal). simpl in Hlo, Hhi.
  exists fdt, dt. split_and!; [done..|]. intros i Hi. split.
  - pose proof (shared_pages Himg). destruct Himg as (_ & _ & _ & ? & ?). lia.
  - rewrite (qemu_configured_access b _ Himg Hb). apply shared_heap_policy; [done|]. lia.
Qed.

(** ** Witnesses *)

Module ExampleBoot.
Export ConsoleExample LineConsole ExampleTree.

#[export] Instance example_pl011 : Pl011 := {|
  uart_new _ := [] : Dev; uart_set_interrupt_masks u m := u; INTERRUPTS_RXI := 16 |}.

Definition fresh : BootState := mkBootState _ (mkLog false Off) false false None None.
Definition reset : cstate := mkCstate _ false false true ([] : Dev) 0.
Definition example_memory (command_line : string) : u64 -> list u8 := fun _ => lit command_line.
End ExampleBoot.

Section BootWitnesses.
Import QemuExample ArmArch ExampleFirmware ExampleBoot.

Definition reset_world : World (PLAT := qemu_platform) := boot_world (fun _ => 0) (0 : PlatformState).
Definition logger_set : BootState := mkBootState _ (mkLog true Off) false false None None.

(** A boot at EL1 with a mistyped option before the valid one. *)
Lemma boot_reaches_payload_witness :
  exists dtb s' w',
    main (example_memory "ritm.boot_mode=el3 ritm.boot_mode=el1") 0x4700_1000 0x4020_0000 2 0 1 2 3 fresh
      reset_world reset = CDone (BootsEl1 (EretToEl1 dtb 1 2 3) w') s' /\
    transmitted (c_dev s') = (fun line => lit line ++ [LF]) <$>
      ["[INFO] starting ritm"; "[INFO] current exception level: EL2"; "[INFO] main(0x0, 0x1, 0x2, 0x3)";
       "[WARN] No FDT address was passed in x0; falling back to QEMU virt default FDT address";
       "[WARN] Unknown boot mode specified: ritm.boot_mode=el3";
       "[INFO] Booting in El1"; "[INFO] Payload address: 0x40200000"]%string /\
    w_sysregs w' ELR_EL2 = 0x4020_0000.
Proof.
  destruct (boot_reaches_payload (DT := example_dt) (example_memory "ritm.boot_mode=el3 ritm.boot_mode=el1")
    0x4700_1000 0x4020_0000 2 0 1 2 3 fresh reset (fun _ => 0) 0
    (0x4000_0000, lit "ritm.boot_mode=el3 ritm.boot_mode=el1")
    0x4000_0000 0x4000_0000 example_image_ok) as (dt & dtb & heap & nf & e & s' & Hdt & _ & Hr & Hm & Ht & He).
  - by split_and!.
  - done.
  - done.
  - split; [by eexists _, _, _; split_and!|]. vm_compute. intuition discriminate.
  - intros dt Hdt. vm_compute in Hdt. injection Hdt as <-. vm_compute. eauto.
  - vm_compute in Hdt. injection Hdt as <-. injection Hr as <-.
    change (tree_mode _) with El1 in He. destruct He as (w' & c & -> & Helr & _).
    exists dtb, s', w'. split; [exact Hm|]. split; [rewrite Ht; by vm_compute|exact Helr].
Defined.

(** When a logger is set already, the boot reports that it failed and stops. *)
Lemma boot_payload_or_report_witness :
  exists texts,
  match run_to_end lit 0 (main (example_memory "quiet") 0x4700_1000 0x4020_0000 2 0 1 2 3
      logger_set reset_world) reset with
  | inr (COff s') => exists msg, transmitted (c_dev s') = texts ++ [lit msg ++ [LF]]
  | _ => False
  end.
Proof.
  destruct (boot_payload_or_report (DT := example_dt) (SO := example_off) (example_memory "quiet") 0x4700_1000 0x4020_0000 2 0 1 2 3
    logger_set reset_world reset
    lit 0 eq_refl eq_refl) as [texts H].
  assert (E : main (example_memory "quiet") 0x4700_1000 0x4020_0000 2 0 1 2 3 logger_set reset_world reset
    = CPanics "failed to init logger" (started reset)) by (cbn; reflexivity).
  exists texts. unfold run_to_end in H |- *. rewrite E in H |- *.
  destruct (handle_panics _ _ _ _) as [e s'|msg s'|s'|s']; [done..| |done].
  destruct H as (msg & H & _). by exists msg.
Defined.

Lemma boot_dtb_accessible_witness :
  exists b, configure_memory_access Stage2Builder_new = Ret (b, Ok tt) /\
  exists fdt dt, fdt_from_raw (chosen_fdt_address 0) (lit "quiet ritm.boot_mode=el1") = Some fdt /\
    modified_tree fdt = Ret dt /\ (8 | 0x4702_0120) /\
    forall i, 0 <= i < Z.of_nat (length (to_dtb dt)) ->
      RITM_START <= 0x4702_0120 + i < RITM_END /\
      stage2_access (build b) (0x4702_0120 + i) = Direct STAGE2_MEMORY_ATTRIBUTES.
Proof.
  assert (H : exists log mode s', boot_prepare (example_memory "quiet ritm.boot_mode=el1") 0x4700_1000 2 fresh
      0 1 2 3 (started reset) = CDone (log, mode, 0x4702_0120) s')
    by (vm_compute; eauto).
  destruct H as (log & mode & s' & H). destruct example_configured as [b Hb]. exists b. split; [exact Hb|].
  exact (boot_dtb_accessible _ _ _ _ _ _ _ _ _ _ _ _ _ b example_image_ok H Hb).
Defined.
End BootWitnesses.
